(** * uppdater: a shallow embedding of the update monitor's core

    The development follows the Python package [core]:
    - [rcon_client.py]  : the RCON wire framing, the authentication
                          handshake and [RconClient.send_command];
    - [workshop.py]     : [ModStatus] and the catalog reconciliation;
    - [steam_app.py]    : the manifest reader and the brace-balanced
                          extraction of a branch's build id;
    - [updates.py]      : [check_updates];
    - [players.py]      : [parse_player_count];
    - [restart.py]      : [run_restart_sequence].

    Conventions.  A Python [int] is a [Z].  A Python [bytes] is a
    [list byte].  A Python [str] is a [string]: a sequence of code points
    below 256, on which the character classes of [re] used by the program
    are written out below; the body of a packet, which may be any text,
    is also given as the list of its code points, a [list Z].  [int] of a
    string of digits raises above 4300 digits, as Python's does.
    Code that raises returns [Raise]; code that
    touches a socket, the clock or the game server threads its state
    explicitly through the monad [M]. *)

From Stdlib Require Import ZArith List String Ascii Bool Lia DecimalString.
From coqutil Require Import Byte Word.LittleEndianList.
Import ListNotations.
Local Open Scope Z_scope.
Local Open Scope list_scope.

Declare Scope py_scope.
Delimit Scope py_scope with py.

(* ================================================================== *)
(** * Part I: the program *)
(* ================================================================== *)

(** ** Exceptions, outcomes and the state-and-exception monad *)

Module Py.

(** The exception classes the core raises or lets through. *)
Inductive exn : Type :=
| RconError (msg : string)          (* class RconError(RuntimeError) *)
| SocketTimeout                     (* socket.timeout *)
| OSError (msg : string)            (* connect failure and the like *)
| StructError                       (* struct.error *)
| FileNotFoundError (msg : string)
| URLError (msg : string)           (* urllib.error.URLError *)
| JSONDecodeError (msg : string)
| ValueError (msg : string)
| UnicodeEncodeError.               (* a ValueError, raised by str.encode *)

(** What running a piece of code gives: a value, an exception, or a
    loop that the fuel given to it did not let finish. *)
Inductive outcome (A : Type) : Type :=
| Return (a : A)
| Raise (e : exn)
| OutOfFuel.
Arguments Return {A} a.
Arguments Raise {A} e.
Arguments OutOfFuel {A}.

Definition M (S A : Type) : Type := S -> outcome A * S.

Definition ret {S A} (a : A) : M S A := fun s => (Return a, s).
Definition raise {S A} (e : exn) : M S A := fun s => (Raise e, s).
Definition bind {S A B} (c : M S A) (k : A -> M S B) : M S B :=
  fun s =>
    match c s with
    | (Return a, s') => k a s'
    | (Raise e, s') => (Raise e, s')
    | (OutOfFuel, s') => (OutOfFuel, s')
    end.
(** [lift r]: a pure computation that may raise, run inside [M]. *)
Definition lift {S A} (r : outcome A) : M S A := fun s => (r, s).
Definition get {S} : M S S := fun s => (Return s, s).
Definition put {S} (s : S) : M S unit := fun _ => (Return tt, s).

(** [not l] for a list or a [bytes]. *)
Definition is_empty {A} (l : list A) : bool :=
  match l with [] => true | _ => false end.

(** [str(n)] for an [int]. *)
Definition str_of_int (n : Z) : string := NilZero.string_of_int (Z.to_int n).

(** Truthiness of an [Optional[str]]: [None] and [""] are false. *)
Definition truthy (o : option string) : bool :=
  match o with
  | Some s => negb (String.eqb s EmptyString)
  | None => false
  end.

End Py.
Export Py.

Notation "x <- c ;; k" := (Py.bind c (fun x => k))
  (at level 61, c at next level, right associativity) : py_scope.
Notation "' p <- c ;; k" := (Py.bind c (fun p => k))
  (at level 61, p pattern, c at next level, right associativity) : py_scope.
Notation "c ;;; k" := (Py.bind c (fun _ => k))
  (at level 61, right associativity) : py_scope.
Local Open Scope py_scope.

(** ** rcon_client.py *)

Module Rcon.

(** *** struct and str.encode *)

Definition int32_min : Z := - 2 ^ 31.
Definition int32_max : Z := 2 ^ 31 - 1.

Definition in_int32 (x : Z) : bool := (int32_min <=? x) && (x <=? int32_max).

(** [struct.pack("<i", x)]: four bytes, least significant first, of the
    two's complement of [x]; [struct.error] outside the int32 range. *)
Definition pack_i32 (x : Z) : outcome (list byte) :=
  if in_int32 x then Return (le_split 4 x) else Raise StructError.

(** [struct.pack("<iii", a, b, c)]. *)
Definition pack_iii (a b c : Z) : outcome (list byte) :=
  match pack_i32 a, pack_i32 b, pack_i32 c with
  | Return x, Return y, Return z => Return (x ++ y ++ z)
  | _, _, _ => Raise StructError
  end.

(** The signed reading of four little-endian bytes. *)
Definition int32_of_bytes (bs : list byte) : Z :=
  let u := le_combine bs in
  if u <? 2 ^ 31 then u else u - 2 ^ 32.

(** [struct.unpack("<i", bs)]: [struct.error] unless [bs] has 4 bytes. *)
Definition unpack_i32 (bs : list byte) : outcome Z :=
  if Nat.eqb (List.length bs) 4 then Return (int32_of_bytes bs)
  else Raise StructError.

(** [struct.unpack("<ii", bs)]: [struct.error] unless [bs] has 8 bytes. *)
Definition unpack_ii (bs : list byte) : outcome (Z * Z) :=
  if Nat.eqb (List.length bs) 8
  then Return (int32_of_bytes (firstn 4 bs), int32_of_bytes (skipn 4 bs))
  else Raise StructError.

(** UTF-8 of one code point below 256: one byte below 128, else two. *)
Definition utf8_encode_char (c : ascii) : list byte :=
  let n := Z.of_N (N_of_ascii c) in
  if n <? 128 then [byte.of_Z n]
  else [byte.of_Z (Z.lor 192 (Z.shiftr n 6)); byte.of_Z (Z.lor 128 (Z.land n 63))].

(** [body.encode("utf-8")]. *)
Fixpoint utf8_encode (s : string) : list byte :=
  match s with
  | EmptyString => []
  | String c rest => utf8_encode_char c ++ utf8_encode rest
  end.

(** A [str] with any code points is the list of them, each from 0 to
    0x10FFFF; a [string] stands for the list of its characters' codes. *)
Definition code_points (s : string) : list Z :=
  map (fun c => Z.of_N (N_of_ascii c)) (list_ascii_of_string s).

(** UTF-8 of one code point: one byte below 0x80, two below 0x800,
    three below 0x10000, else four; the surrogates, U+D800 to U+DFFF,
    have none: [UnicodeEncodeError]. *)
Definition utf8_encode_point (cp : Z) : outcome (list byte) :=
  if cp <? 128 then Return [byte.of_Z cp]
  else if cp <? 2048 then
    Return [byte.of_Z (192 + cp / 64); byte.of_Z (128 + cp mod 64)]
  else if (55296 <=? cp) && (cp <=? 57343) then Raise UnicodeEncodeError
  else if cp <? 65536 then
    Return [byte.of_Z (224 + cp / 4096); byte.of_Z (128 + (cp / 64) mod 64);
            byte.of_Z (128 + cp mod 64)]
  else
    Return [byte.of_Z (240 + cp / 262144); byte.of_Z (128 + (cp / 4096) mod 64);
            byte.of_Z (128 + (cp / 64) mod 64); byte.of_Z (128 + cp mod 64)].

(** [body.encode("utf-8")] for a body with any code points. *)
Fixpoint utf8_encode_str (body : list Z) : outcome (list byte) :=
  match body with
  | [] => Return []
  | cp :: rest =>
      match utf8_encode_point cp with
      | Return bytes =>
          match utf8_encode_str rest with
          | Return more => Return (bytes ++ more)
          | other => other
          end
      | other => other
      end
  end.

(** *** The socket *)

(** What the peer and the network do to the reading side, in order:
    deliver some bytes, or let one [recv] run into the timeout.  When
    the list is used up the peer has closed the connection. *)
Inductive recv_event : Type :=
| Chunk (data : list byte)
| TimedOut.

Record socket : Type := mkSocket {
  incoming : list recv_event;
  outgoing : list byte          (* everything passed to sendall so far *)
}.

(** [sock.recv(n)], for [n > 0]: at most [n] bytes of what has arrived;
    [b""] once the peer has closed; [socket.timeout] on a timeout. *)
Definition recv (n : Z) : M socket (list byte) := fun sock =>
  match incoming sock with
  | [] => (Return [], sock)
  | TimedOut :: evs => (Raise SocketTimeout, mkSocket evs (outgoing sock))
  | Chunk data :: evs =>
      if Z.of_nat (List.length data) <=? n
      then (Return data, mkSocket evs (outgoing sock))
      else (Return (firstn (Z.to_nat n) data),
            mkSocket (Chunk (skipn (Z.to_nat n) data) :: evs) (outgoing sock))
  end.

(** [sock.sendall(packet)]. *)
Definition sendall (packet : list byte) : M socket unit := fun sock =>
  (Return tt, mkSocket (incoming sock) (outgoing sock ++ packet)).

(** The [while remaining > 0] loop of [_recv_exact]. *)
Fixpoint recv_exact_loop (fuel : nat) (chunks : list (list byte)) (remaining : Z)
  : M socket (list byte) :=
  if 0 <? remaining then
    match fuel with
    | O => fun sock => (OutOfFuel, sock)
    | S fuel' =>
        chunk <- recv remaining ;;
        if is_empty chunk then raise (RconError "Connection closed by server")
        else recv_exact_loop fuel' (chunks ++ [chunk])
                             (remaining - Z.of_nat (List.length chunk))
    end
  else ret (List.concat chunks).

(** Every round takes at least one byte off [remaining], so [length]
    rounds are enough. *)
Definition _recv_exact (length : Z) : M socket (list byte) :=
  recv_exact_loop (Z.to_nat length) [] length.

Definition _recv_packet : M socket (Z * Z * list byte) :=
  raw_len <- _recv_exact 4 ;;
  length <- lift (unpack_i32 raw_len) ;;
  payload <- _recv_exact length ;;
  '(req_id, packet_type) <- lift (unpack_ii (firstn 8 payload)) ;;
  (* payload[8:-2] *)
  let body := skipn 8 (firstn (List.length payload - 2) payload) in
  ret (req_id, packet_type, body).

(** The bytes [_send_packet] hands to [sendall]. *)
Definition encode_packet (req_id packet_type : Z) (body : string)
  : outcome (list byte) :=
  let body_bytes := utf8_encode body in
  match pack_iii (Z.of_nat (List.length body_bytes) + 10) req_id packet_type with
  | Return packet => Return (packet ++ body_bytes ++ [Byte.x00; Byte.x00])
  | Raise e => Raise e
  | OutOfFuel => OutOfFuel
  end.

Definition _send_packet (req_id packet_type : Z) (body : string) : M socket unit :=
  packet <- lift (encode_packet req_id packet_type body) ;;
  sendall packet.

(** [_send_packet] for a body with any code points: the program's own
    bodies, commands and passwords, are taken to be [string]s, for
    which this is [_send_packet] above. *)
Definition encode_packet_str (req_id packet_type : Z) (body : list Z)
  : outcome (list byte) :=
  match utf8_encode_str body with
  | Return body_bytes =>
      match pack_iii (Z.of_nat (List.length body_bytes) + 10) req_id packet_type with
      | Return packet => Return (packet ++ body_bytes ++ [Byte.x00; Byte.x00])
      | Raise e => Raise e
      | OutOfFuel => OutOfFuel
      end
  | Raise e => Raise e
  | OutOfFuel => OutOfFuel
  end.

Definition _send_packet_str (req_id packet_type : Z) (body : list Z) : M socket unit :=
  packet <- lift (encode_packet_str req_id packet_type body) ;;
  sendall packet.

(** How many [recv] calls the reading side can still answer with data
    or a timeout: the fuel of the [while True] loop of [_authenticate]. *)
Fixpoint pending (evs : list recv_event) : nat :=
  match evs with
  | [] => O
  | Chunk data :: evs' => (1 + List.length data + pending evs')%nat
  | TimedOut :: evs' => (1 + pending evs')%nat
  end.

Fixpoint authenticate_loop (fuel : nat) : M socket bool :=
  match fuel with
  | O => fun sock => (OutOfFuel, sock)
  | S fuel' =>
      '(req_id, packet_type, _) <- _recv_packet ;;
      if packet_type =? 2 then ret (negb (req_id =? -1))  (* SERVERDATA_AUTH_RESPONSE *)
      else if req_id =? -1 then ret false
      else authenticate_loop fuel'
  end.

Definition _authenticate (password : string) : M socket bool :=
  _send_packet 1 3 password ;;;                           (* SERVERDATA_AUTH *)
  sock <- get ;;
  authenticate_loop (S (pending (incoming sock))).

(** *** RconClient *)

Record RconClient : Type := mkRconClient {
  _host : string;
  _port : Z;
  _password : string
}.

(** The network as the client sees it: what each successive
    [socket.create_connection] meets ([None]: the connection fails),
    and the bytes sent on each connection once it has been closed. *)
Record network : Type := mkNetwork {
  listeners : list (option (list recv_event));
  closed : list (list byte)
}.

Definition create_connection : M network socket := fun net =>
  match listeners net with
  | Some evs :: rest => (Return (mkSocket evs []), mkNetwork rest (closed net))
  | None :: rest => (Raise (OSError "connection failed"), mkNetwork rest (closed net))
  | [] => (Raise (OSError "connection failed"), net)
  end.

(** [with socket.create_connection(...) as sock: body]: the socket is
    closed on every way out of [body]. *)
Definition with_connection {A} (body : M socket A) : M network A :=
  sock <- create_connection ;;
  fun net =>
    let '(r, sock') := body sock in
    (r, mkNetwork (listeners net) (closed net ++ [outgoing sock'])).

(** [except socket.timeout: return ""] around [c]. *)
Definition except_timeout (c : M socket string) : M socket string := fun sock =>
  match c sock with
  | (Raise SocketTimeout, sock') => (Return EmptyString, sock')
  | other => other
  end.

Section SendCommand.

(** [bytes.decode("utf-8", errors="replace")] of the standard library. *)
Variable decode_replace : list byte -> string.

(** The body of the [with] block of [send_command]. *)
Definition exchange (password command : string) : M socket string :=
  ok <- _authenticate password ;;
  if negb ok then raise (RconError "RCON auth failed")
  else
    _send_packet 2 2 command ;;;                         (* SERVERDATA_EXECCOMMAND *)
    except_timeout (
      '(req_id, packet_type, body) <- _recv_packet ;;
      if negb ((packet_type =? 0) || (packet_type =? 2))
      then raise (RconError ("Unexpected packet type " ++ str_of_int packet_type)%string)
      else ret (decode_replace body)).

Definition send_command (self : RconClient) (command : string) : M network string :=
  with_connection (exchange (_password self) command).

End SendCommand.

End Rcon.

(** ** The [str] methods and the [re] patterns the program uses *)

Module Text.

Definition nl : ascii := "010"%char.

(** The double quote. *)
Definition dq : ascii := "034"%char.

(** [f'"{name}"'] *)
Definition quoted (name : string) : string :=
  String dq (name ++ String dq EmptyString)%string.

Definition code (c : ascii) : Z := Z.of_N (N_of_ascii c).

(** [str.isspace] and [\s] on a code point below 256. *)
Definition is_space (c : ascii) : bool :=
  let n := code c in
  ((9 <=? n) && (n <=? 13)) || ((28 <=? n) && (n <=? 32))
  || (n =? 133) || (n =? 160).

(** [\d] (and [str.isdigit] as far as [int] accepts it) below 256. *)
Definition is_digit (c : ascii) : bool :=
  let n := code c in (48 <=? n) && (n <=? 57).

(** The line boundaries of [str.splitlines] below 256. *)
Definition is_linebreak (c : ascii) : bool :=
  let n := code c in
  ((10 <=? n) && (n <=? 13)) || ((28 <=? n) && (n <=? 30)) || (n =? 133).

(** Lower case of an ASCII letter; other characters are kept. *)
Definition lower (c : ascii) : ascii :=
  let n := code c in
  if (65 <=? n) && (n <=? 90) then ascii_of_N (Z.to_N (n + 32)) else c.

Fixpoint forall_chars (f : ascii -> bool) (s : string) : bool :=
  match s with
  | EmptyString => true
  | String c rest => f c && forall_chars f rest
  end.

Fixpoint drop (n : nat) (s : string) : string :=
  match n, s with
  | O, _ => s
  | S n', String _ rest => drop n' rest
  | S _, EmptyString => EmptyString
  end.

Fixpoint take (n : nat) (s : string) : string :=
  match n, s with
  | O, _ => EmptyString
  | S n', String c rest => String c (take n' rest)
  | S _, EmptyString => EmptyString
  end.

(** [s[i:j]] for [0 <= i], [0 <= j]. *)
Definition slice (s : string) (i j : nat) : string := take (j - i) (drop i s).

Fixpoint starts_with (sub s : string) : bool :=
  match sub, s with
  | EmptyString, _ => true
  | String a sub', String b s' => Ascii.eqb a b && starts_with sub' s'
  | String _ _, EmptyString => false
  end.

(** The scan of [str.find]: [i] is the index of the head of [s]. *)
Fixpoint find_at (sub s : string) (i : nat) : Z :=
  if starts_with sub s then Z.of_nat i
  else match s with
       | EmptyString => -1
       | String _ rest => find_at sub rest (S i)
       end.

(** [text.find(sub, start)] for [start >= 0]; [-1] when absent. *)
Definition find (text sub : string) (start : Z) : Z :=
  if Z.of_nat (String.length text) <? start then -1
  else find_at sub (drop (Z.to_nat start) text) (Z.to_nat start).

(** [s.lstrip()], [s.rstrip()] and [s.strip()]. *)
Fixpoint lstrip (s : string) : string :=
  match s with
  | String c rest => if is_space c then lstrip rest else s
  | EmptyString => EmptyString
  end.

Fixpoint rstrip (s : string) : string :=
  match s with
  | EmptyString => EmptyString
  | String c rest =>
      match rstrip rest with
      | EmptyString => if is_space c then EmptyString else String c EmptyString
      | r => String c r
      end
  end.

Definition strip (s : string) : string := rstrip (lstrip s).

(** [int(s)] of a run of decimal digits, most significant first. *)
Fixpoint int_of_digits_acc (s : string) (acc : Z) : Z :=
  match s with
  | EmptyString => acc
  | String c rest => int_of_digits_acc rest (10 * acc + (code c - 48))
  end.
Definition int_of_digits (s : string) : Z := int_of_digits_acc s 0.

(** [sys.get_int_max_str_digits()], as Python sets it when nothing
    else is asked for. *)
Definition int_max_str_digits : Z := 4300.

(** The text of the [ValueError] for a run of [n] digits. *)
Definition int_limit_message (n : Z) : string :=
  ("Exceeds the limit (" ++ str_of_int int_max_str_digits
     ++ " digits) for integer string conversion: value has " ++ str_of_int n
     ++ " digits; use sys.set_int_max_str_digits() to increase the limit")%string.

(** [int(s)] for a run of decimal digits [s]: its number, or the
    [ValueError] of a run with more digits than the limit. *)
Definition int_of_str (s : string) : outcome Z :=
  if int_max_str_digits <? Z.of_nat (String.length s)
  then Raise (ValueError (int_limit_message (Z.of_nat (String.length s))))
  else Return (int_of_digits s).

(** [s.splitlines()]: the lines without their terminators; ["\r\n"]
    is one terminator; no empty last line after a final terminator. *)
Fixpoint splitlines_acc (s : string) (line : string) : list string :=
  match s with
  | EmptyString => if String.eqb line EmptyString then [] else [line]
  | String c rest =>
      if is_linebreak c then
        line :: match c, rest with
                | "013"%char, String "010"%char rest' => splitlines_acc rest' EmptyString
                | _, _ => splitlines_acc rest EmptyString
                end
      else splitlines_acc rest (line ++ String c EmptyString)%string
  end.
Definition splitlines (s : string) : list string := splitlines_acc s EmptyString.

End Text.

Module Re.

Import Text.

(** The character classes of the program's patterns. *)
Inductive cls : Type :=
| Lit (c : ascii)          (* the character itself *)
| Space                    (* \s *)
| Digit                    (* \d *)
| Dot.                     (* .  : anything but a newline *)

(** The patterns: every quantifier of the program's regular
    expressions is applied to a single character class. *)
Inductive regex : Type :=
| Eps
| Chr (c : cls)
| Bol                      (* ^ under re.MULTILINE *)
| Eol                      (* $ under re.MULTILINE *)
| Cat (r1 r2 : regex)
| Star (c : cls)           (* c*, greedy *)
| LazyStar (c : cls)       (* c*?, lazy *)
| Group (r : regex).       (* ( r ): the one capturing group *)

Definition Plus (c : cls) : regex := Cat (Chr c) (Star c).          (* c+ *)
Definition LazyPlus (c : cls) : regex := Cat (Chr c) (LazyStar c).  (* c+? *)

(** A literal word. *)
Fixpoint Str (s : string) : regex :=
  match s with
  | EmptyString => Eps
  | String c rest => Cat (Chr (Lit c)) (Str rest)
  end.

Definition seq (rs : list regex) : regex := fold_right Cat Eps rs.

(** Where the matcher stands in the text: the character just before,
    the text still ahead, and the index of its first character. *)
Record cursor : Type := mkCursor {
  prev : option ascii;
  rest : string;
  idx : nat
}.

Definition at_bol (p : cursor) : bool :=
  match prev p with
  | None => true
  | Some a => Ascii.eqb a nl
  end.

Definition at_eol (p : cursor) : bool :=
  match rest p with
  | EmptyString => true
  | String a _ => Ascii.eqb a nl
  end.

Section Matcher.

Variable icase : bool.     (* re.IGNORECASE *)

Definition in_cls (c : cls) (a : ascii) : bool :=
  match c with
  | Lit x => if icase then Ascii.eqb (lower x) (lower a) else Ascii.eqb x a
  | Space => is_space a
  | Digit => is_digit a
  | Dot => negb (Ascii.eqb a nl)
  end.

Context {R : Type}.

(** Greedy repetition: take a character if possible and go on; only
    when everything after that fails, stop here. *)
Fixpoint star_greedy (c : cls) (s : string) (before : option ascii) (i : nat)
         (k : cursor -> option R) : option R :=
  match s with
  | String a s' =>
      if in_cls c a then
        match star_greedy c s' (Some a) (S i) k with
        | Some x => Some x
        | None => k (mkCursor before s i)
        end
      else k (mkCursor before s i)
  | EmptyString => k (mkCursor before s i)
  end.

(** Lazy repetition: stop here if the rest matches; only otherwise
    take one more character. *)
Fixpoint star_lazy (c : cls) (s : string) (before : option ascii) (i : nat)
         (k : cursor -> option R) : option R :=
  match k (mkCursor before s i) with
  | Some x => Some x
  | None =>
      match s with
      | String a s' => if in_cls c a then star_lazy c s' (Some a) (S i) k else None
      | EmptyString => None
      end
  end.

(** The backtracking matcher, in continuation-passing style: [k]
    is the rest of the pattern, [g] the text of group 1 so far. *)
Fixpoint rmatch (r : regex) (p : cursor) (g : option string)
         (k : cursor -> option string -> option R) : option R :=
  match r with
  | Eps => k p g
  | Chr c =>
      match rest p with
      | String a s' =>
          if in_cls c a then k (mkCursor (Some a) s' (S (idx p))) g else None
      | EmptyString => None
      end
  | Bol => if at_bol p then k p g else None
  | Eol => if at_eol p then k p g else None
  | Cat r1 r2 => rmatch r1 p g (fun p' g' => rmatch r2 p' g' k)
  | Star c => star_greedy c (rest p) (prev p) (idx p) (fun p' => k p' g)
  | LazyStar c => star_lazy c (rest p) (prev p) (idx p) (fun p' => k p' g)
  | Group r1 =>
      rmatch r1 p g (fun p' _ => k p' (Some (take (idx p' - idx p) (rest p))))
  end.

End Matcher.

(** A match object, as far as the program looks at it. *)
Record match_object : Type := mkMatch {
  m_start : nat;
  m_group1 : option string       (* match.group(1) *)
}.

(** [re.search]: the first start position, left to right, at which the
    pattern matches. *)
Fixpoint search_at (icase : bool) (r : regex) (s : string) (before : option ascii)
         (i : nat) : option match_object :=
  match rmatch icase r (mkCursor before s i) None (fun _ g => Some (mkMatch i g)) with
  | Some m => Some m
  | None =>
      match s with
      | String a s' => search_at icase r s' (Some a) (S i)
      | EmptyString => None
      end
  end.

Definition search (icase : bool) (r : regex) (text : string) : option match_object :=
  search_at icase r text None 0.

(** [m.group(1)] of a pattern whose group always takes part. *)
Definition group1 (m : match_object) : string :=
  match m_group1 m with
  | Some g => g
  | None => EmptyString
  end.

End Re.

(** ** What the version checker sees of the outside world *)

Module World.

(** One entry of [response.publishedfiledetails] of the catalog's JSON
    answer; a field the answer leaves out is [None]. *)
Record item : Type := mkItem {
  publishedfileid : option string;
  result : option Z;
  title : option string;
  time_updated : option Z
}.

(** One entry of a [<id>/mods] directory. *)
Record mod_folder : Type := mkModFolder {
  is_dir : bool;
  mod_info_mtime : option Z;      (* [None]: there is no mod.info *)
  folder_mtime : Z
}.

(** What [subprocess.run] gives for the inventory tool. *)
Record proc : Type := mkProc {
  stdout : string;
  stderr : string;
  returncode : Z
}.

Inductive run_result : Type :=
| Failed (exc : string)           (* any exception, with its text *)
| Completed (p : proc).

(** What there is at a path: nothing; something that cannot be looked
    at or read as a text ([path.exists()] or [read_text(path)] raises
    [e]); or a text. *)
Inductive file : Type :=
| Missing
| Unreadable (e : exn)
| Holds (text : string).

(** What the version checker sees of the machine.  The ini file, the
    manifest and the probe for the inventory tool may raise.  The
    workshop folders are listed and their times read without an error;
    the catalog either gives items of the shape the code reads or
    raises. *)
Record world : Type := mkWorld {
  ini_file : file;
  catalog : list string -> outcome (list item);  (* the POST, read and decoded *)
  mods_dir : string -> option (list mod_folder); (* [None]: no mods folder *)
  base_mtime : string -> option Z;               (* [None]: no folder for the id *)
  manifest_file : file;
  steamcmd_exists : outcome bool;                (* [steamcmd_path.resolve().exists()] *)
  steamcmd_run : run_result;
  dump_writable : bool;
  dump_file : option string                      (* the dump, once written *)
}.

Definition write_dump (content : string) (w : world) : world :=
  mkWorld (ini_file w) (catalog w) (mods_dir w) (base_mtime w) (manifest_file w)
          (steamcmd_exists w) (steamcmd_run w) (dump_writable w) (Some content).

End World.
Export World.

(** ** steam_app.py *)

Module SteamApp.

Import Text Re.

Definition SERVER_APP_ID : Z := 380870.

(** [^\s*"key"\s*"(\d+)"\s*$], the shape of the three field patterns. *)
Definition field_re (key : string) : regex :=
  seq [Bol; Star Space; Str (quoted key); Star Space; Chr (Lit dq);
       Group (Plus Digit); Chr (Lit dq); Star Space; Eol].

Definition parse_appmanifest_build_info (appmanifest_path : file)
  : outcome (option string * option Z) :=
  match appmanifest_path with
  | Missing => Return (None, None)
  | Unreadable e => Raise e
  | Holds text =>
      let buildid :=
        match search false (field_re "buildid") text with
        | Some build_match => Some (group1 build_match)
        | None => None
        end in
      match search false (field_re "LastUpdated") text with
      | Some updated_match =>
          match int_of_str (group1 updated_match) with
          | Return lastupdated => Return (buildid, Some lastupdated)
          | Raise e => Raise e
          | OutOfFuel => OutOfFuel
          end
      | None => Return (buildid, None)
      end
  end.

(** The [for i in range(start, len(text))] loop that both extractors
    run: [s] is the text from index [i] on; the result is the index of
    the brace that brings [depth] back to zero. *)
Fixpoint brace_loop (s : string) (i : nat) (depth : Z) : option nat :=
  match s with
  | EmptyString => None
  | String ch rest =>
      if Ascii.eqb ch "{" then brace_loop rest (S i) (depth + 1)
      else if Ascii.eqb ch "}" then
        if depth - 1 =? 0 then Some i else brace_loop rest (S i) (depth - 1)
      else brace_loop rest (S i) depth
  end.

(** From the first [quoted name] on, the text from the next ["{"] to
    the brace that closes it. *)
Definition braced_after (text name : string) : option string :=
  let pos := find text (quoted name) 0 in
  if pos =? -1 then None
  else
    let start := find text "{" pos in
    if start =? -1 then None
    else
      match brace_loop (drop (Z.to_nat start) text) (Z.to_nat start) 0 with
      | Some i => Some (slice text (Z.to_nat start) (i + 1))
      | None => None
      end.

Definition _extract_named_block (text name : string) : option string :=
  braced_after text name.

Definition _extract_branch_block (text branch_name : string) : option string :=
  let branches_block := _extract_named_block text "branches" in
  if negb (truthy branches_block) then None
  else
    match branches_block with
    | Some block => braced_after block branch_name
    | None => None
    end.

Definition _parse_buildid (text : string) : option string :=
  match search true (field_re "buildid") text with
  | Some m => Some (group1 m)
  | None => None
  end.

(** [' '.join(cmd)] *)
Definition command_line (steamcmd_path : string) (app_id : Z) : string :=
  (steamcmd_path ++ " +login anonymous +app_info_update 1 +app_info_print "
     ++ str_of_int app_id ++ " +quit")%string.

(** The part of [steamcmd_get_buildid] after the dump is written. *)
Definition buildid_of_output (output branch : string)
  : option string * option string :=
  let fallback :=
    let buildid := _parse_buildid output in
    if truthy buildid then (buildid, None)
    else (None, Some "buildid not found in steamcmd output"%string) in
  let branch_block := _extract_branch_block output branch in
  match (if truthy branch_block then branch_block else None) with
  | Some block =>
      let buildid := _parse_buildid block in
      if truthy buildid then (buildid, None) else fallback
  | None => fallback
  end.

Definition steamcmd_get_buildid (steamcmd_path : string) (app_id : Z)
           (branch : string) (dump_path : option string)
  : M world (option string * option string) :=
  w <- get ;;
  found <- lift (steamcmd_exists w) ;;
  if negb found
  then ret (None, Some ("steamcmd not found: " ++ steamcmd_path)%string)
  else
    match steamcmd_run w with
    | Failed exc => ret (None, Some ("steamcmd failed: " ++ exc)%string)
    | Completed p =>
        let output := (stdout p ++ String nl EmptyString ++ stderr p)%string in
        (match dump_path with
         | Some _ =>
             if dump_writable w
             then put (write_dump
                         ("ReturnCode: " ++ str_of_int (returncode p)
                            ++ String nl EmptyString ++ "Command: "
                            ++ command_line steamcmd_path app_id
                            ++ String nl (String nl EmptyString) ++ output)%string w)
             else ret tt                       (* except Exception: pass *)
         | None => ret tt
         end) ;;;
        ret (buildid_of_output output branch)
    end.

End SteamApp.

(** ** workshop.py *)

Module Workshop.

Import Text Re.

Definition WORKSHOP_APP_ID : Z := 108600.

Record ModRemoteInfo : Type := mkModRemoteInfo {
  ri_workshop_id : string;
  ri_title : option string;
  ri_time_updated : option Z;
  ri_result : option Z
}.

Record ModStatus : Type := mkModStatus {
  workshop_id : string;
  local_mtime : option Z;
  remote_time_updated : option Z;
  remote_title : option string
}.

Definition is_outdated (self : ModStatus) : bool :=
  match remote_time_updated self with
  | None => false
  | Some remote =>
      match local_mtime self with
      | None => true
      | Some local => local <? remote            (* remote > local *)
      end
  end.

(** [(?im)^\s*WorkshopItems\s*=\s*(.+?)\s*$] *)
Definition workshop_items_re : regex :=
  seq [Bol; Star Space; Str "WorkshopItems"; Star Space; Chr (Lit "=");
       Star Space; Group (LazyPlus Dot); Star Space; Eol].

(** [s.split(sep)] for a one-character separator. *)
Fixpoint split_acc (sep : ascii) (s : string) (cur : string) : list string :=
  match s with
  | EmptyString => [cur]
  | String c rest =>
      if Ascii.eqb c sep then cur :: split_acc sep rest EmptyString
      else split_acc sep rest (cur ++ String c EmptyString)%string
  end.
Definition split (sep : ascii) (s : string) : list string :=
  split_acc sep s EmptyString.

(** [str.isdigit] below 256: the decimal digits and the superscripts
    one, two and three. *)
Definition isdigit_char (c : ascii) : bool :=
  let n := code c in
  is_digit c || (n =? 178) || (n =? 179) || (n =? 185).

Definition isdigit (s : string) : bool :=
  negb (String.eqb s EmptyString) && forall_chars isdigit_char s.

Definition mem (x : string) (l : list string) : bool :=
  existsb (String.eqb x) l.

(** The loop that keeps the numeric parts, each once, in order. *)
Fixpoint unique_digits (parts seen out : list string) : list string :=
  match parts with
  | [] => out
  | part :: parts' =>
      if isdigit part && negb (mem part seen)
      then unique_digits parts' (part :: seen) (out ++ [part])
      else unique_digits parts' seen out
  end.

Definition parse_workshop_ids_from_ini : M world (list string) :=
  w <- get ;;
  match ini_file w with
  | Missing => raise (FileNotFoundError "Missing ini file")
  | Unreadable e => raise e
  | Holds content =>
      match search true workshop_items_re content with
      | None => ret []
      | Some m =>
          let raw := strip (group1 m) in
          let parts :=
            map strip
                (filter (fun p => negb (String.eqb (strip p) EmptyString))
                        (split ";" raw)) in
          ret (unique_digits parts [] [])
      end
  end.

(** A [dict] with string keys, in insertion order. *)
Definition dict (V : Type) : Type := list (string * V).

Fixpoint dict_set {V} (d : dict V) (key : string) (v : V) : dict V :=
  match d with
  | [] => [(key, v)]
  | (k', v') :: d' =>
      if String.eqb k' key then (k', v) :: d' else (k', v') :: dict_set d' key v
  end.

Fixpoint dict_get {V} (d : dict V) (key : string) : option V :=
  match d with
  | [] => None
  | (k', v') :: d' => if String.eqb k' key then Some v' else dict_get d' key
  end.

Definition or_zero (o : option Z) : Z :=
  match o with Some n => n | None => 0 end.

(** The [for item in items] loop of [fetch_published_details]. *)
Fixpoint collect_items (items : list item) (out : dict ModRemoteInfo)
  : dict ModRemoteInfo :=
  match items with
  | [] => out
  | item :: items' =>
      let wid :=
        strip (match publishedfileid item with Some s => s | None => EmptyString end) in
      if String.eqb wid EmptyString then collect_items items' out
      else
        let result := or_zero (result item) in
        if negb (result =? 1)
        then collect_items items'
               (dict_set out wid (mkModRemoteInfo wid None None (Some result)))
        else
          let t := or_zero (time_updated item) in
          collect_items items'
            (dict_set out wid
               (mkModRemoteInfo wid (title item)
                  (if t =? 0 then None else Some t) (Some result)))
  end.

Definition fetch_published_details (workshop_ids : list string)
  : M world (dict ModRemoteInfo) :=
  if is_empty workshop_ids then ret []
  else
    w <- get ;;
    items <- lift (catalog w workshop_ids) ;;       (* urlopen, read, json.loads *)
    ret (collect_items items []).

Definition max_list (l : list Z) (d : Z) : Z := fold_right Z.max d l.

Definition get_local_mod_mtime (w : world) (workshop_id : string) : option Z :=
  let mtimes :=
    match mods_dir w workshop_id with
    | Some entries =>
        map (fun f => match mod_info_mtime f with
                      | Some t => t
                      | None => folder_mtime f
                      end)
            (filter is_dir entries)
    | None => []
    end in
  match mtimes with
  | t :: ts => Some (max_list ts t)
  | [] => base_mtime w workshop_id
  end.

Definition build_mod_statuses : M world (list ModStatus) :=
  workshop_ids <- parse_workshop_ids_from_ini ;;
  remote_map <- fetch_published_details workshop_ids ;;
  w <- get ;;
  ret (map (fun wid =>
              let remote := dict_get remote_map wid in
              mkModStatus wid (get_local_mod_mtime w wid)
                (match remote with Some r => ri_time_updated r | None => None end)
                (match remote with Some r => ri_title r | None => None end))
           workshop_ids).

End Workshop.

(** ** updates.py *)

Module Updates.

Import SteamApp Workshop.

Record UpdateResult : Type := mkUpdateResult {
  mods_outdated : bool;
  server_outdated : bool;
  mod_statuses : list ModStatus;
  local_buildid : option string;
  remote_buildid : option string;
  appmanifest_path : string;
  steamcmd_error : option string
}.

Definition any_outdated (self : UpdateResult) : bool :=
  mods_outdated self || server_outdated self.

(** [a != b] on two [Optional[str]]. *)
Definition differ (a b : option string) : bool :=
  match a, b with
  | Some x, Some y => negb (String.eqb x y)
  | None, None => false
  | _, _ => true
  end.

Definition check_updates (steamapps_dir steamcmd_path steam_branch : string)
           (steamcmd_dump_path : option string) : M world UpdateResult :=
  mod_statuses <- build_mod_statuses ;;
  let mods_outdated := existsb is_outdated mod_statuses in
  let appmanifest_path :=
    (steamapps_dir ++ "/appmanifest_" ++ str_of_int SERVER_APP_ID ++ ".acf")%string in
  w <- get ;;
  '(local_buildid, _) <- lift (parse_appmanifest_build_info (manifest_file w)) ;;
  '(remote_buildid, steamcmd_error) <-
    steamcmd_get_buildid steamcmd_path SERVER_APP_ID steam_branch steamcmd_dump_path ;;
  let server_outdated :=
    if truthy local_buildid && truthy remote_buildid
       && differ local_buildid remote_buildid
    then true else false in
  ret (mkUpdateResult mods_outdated server_outdated mod_statuses
         local_buildid remote_buildid appmanifest_path steamcmd_error).

End Updates.

(** ** players.py *)

Module Players.

Import Text Re.

(** [Players connected\s*\((\d+)\)] *)
Definition players_re : regex :=
  seq [Str "Players connected"; Star Space; Chr (Lit "("); Group (Plus Digit);
       Chr (Lit ")")].

Definition parse_player_count (response : string) : outcome (option Z) :=
  if String.eqb response EmptyString then Return None
  else
    match search true players_re response with
    | Some m =>
        match int_of_str (group1 m) with
        | Return n => Return (Some n)
        | Raise e => Raise e
        | OutOfFuel => OutOfFuel
        end
    | None =>
        let lines := splitlines response in
        let listed := filter (fun line => starts_with "-" (strip line)) lines in
        if is_empty listed then Return None
        else Return (Some (Z.of_nat (List.length listed)))
    end.

Definition get_player_count {W} (send_command : string -> M W string)
           (command : string) : M W (option Z) :=
  response <- send_command command ;;
  lift (parse_player_count response).

End Players.

(** ** restart.py *)

Module Restart.

Import Text.

(** The fields of [MonitorConfig] the restart sequence reads. *)
Record MonitorConfig : Type := mkMonitorConfig {
  restart_delay_sec : Z;
  warn_1_min_sec : Z;
  countdown_sec : Z;
  msg_restart_5min : string;
  msg_restart_1min : string;
  msg_countdown : string;
  save_command : string;
  quit_command : string
}.

(** What the sequence does to the outside, in order. *)
Inductive event : Type :=
| Log (message : string)          (* logger.log *)
| Sleep (seconds : Z)             (* time.sleep *)
| Command (command : string).     (* rcon.send_command, as it is called *)

(** The three clamped durations [run_restart_sequence] works with:
    [delay], [warn_1] and [countdown]. *)
Definition schedule (cfg : MonitorConfig) : Z * Z * Z :=
  let delay := Z.max (restart_delay_sec cfg) 0 in
  let warn_1 := Z.min (Z.max (warn_1_min_sec cfg) 0) delay in
  let countdown := Z.min (Z.max (countdown_sec cfg) 0) warn_1 in
  (delay, warn_1, countdown).

Section Sequence.

(** The game server behind the [RconClient] handed to the sequence. *)
Variable W : Type.
Variable rcon_send_command : string -> M W string.

(** [template.format(seconds=n)]; [None] when it raises. *)
Variable str_format : string -> Z -> option string.

Record state : Type := mkState {
  server : W;
  trace : list event
}.

Definition emit (e : event) : M state unit := fun st =>
  (Return tt, mkState (server st) (trace st ++ [e])).

Definition send_command (command : string) : M state string := fun st =>
  let '(r, w') := rcon_send_command command (server st) in
  (r, mkState w' (trace st ++ [Command command])).

Definition log (message : string) : M state unit := emit (Log message).

Definition time_sleep (seconds : Z) : M state unit := emit (Sleep seconds).

Definition _send_servermsg (text : string) : M state unit :=
  send_command ("servermsg " ++ quoted text)%string ;;; ret tt.

Definition _sleep_seconds (total_seconds : Z) : M state unit :=
  if total_seconds <=? 0 then ret tt else time_sleep total_seconds.

(** [for remaining in range(countdown, 0, -1)], with [n] rounds left. *)
Fixpoint countdown_loop (cfg : MonitorConfig) (n : nat) : M state unit :=
  match n with
  | O => ret tt
  | S n' =>
      let remaining := Z.of_nat n in
      let message :=
        match str_format (msg_countdown cfg) remaining with
        | Some text => text
        | None => ("Restart in " ++ str_of_int remaining ++ " seconds.")%string
        end in
      _send_servermsg message ;;;
      time_sleep 1 ;;;
      countdown_loop cfg n'
  end.

Definition run_restart_sequence (cfg : MonitorConfig) (immediate : bool)
  : M state unit :=
  if immediate then
    log "No players online. Restarting immediately." ;;;
    send_command (save_command cfg) ;;;
    send_command (quit_command cfg) ;;;
    ret tt
  else
    let '(delay, warn_1, countdown) := schedule cfg in
    log ("Restart scheduled in " ++ str_of_int delay ++ " seconds.")%string ;;;
    _send_servermsg (msg_restart_5min cfg) ;;;
    _sleep_seconds (delay - warn_1) ;;;
    (if 0 <? warn_1 then _send_servermsg (msg_restart_1min cfg) else ret tt) ;;;
    _sleep_seconds (warn_1 - countdown) ;;;
    (if 0 <? countdown then countdown_loop cfg (Z.to_nat countdown) else ret tt) ;;;
    send_command (save_command cfg) ;;;
    send_command (quit_command cfg) ;;;
    ret tt.

End Sequence.

Arguments server {W} _.
Arguments trace {W} _.
Arguments mkState {W} _ _.

End Restart.


(** ** main.py: one cycle of the monitor *)

Module Main.

Import Text Workshop Updates Players.

(** The exception classes the handlers of [run_once] name. *)
Definition is_OSError (e : exn) : bool :=
  match e with
  | SocketTimeout | OSError _ | FileNotFoundError _ | URLError _ => true
  | RconError _ | StructError | JSONDecodeError _ | ValueError _
  | UnicodeEncodeError => false
  end.

Definition is_RconError (e : exn) : bool :=
  match e with
  | RconError _ => true
  | _ => false
  end.

(** [try: body / except classes as exc: handler(exc)]. *)
Definition try_except {S A} (body : M S A) (classes : exn -> bool)
           (handler : exn -> M S A) : M S A := fun s =>
  match body s with
  | (Raise e, s') => if classes e then handler e s' else (Raise e, s')
  | other => other
  end.

(** The fields of [MonitorConfig] that [run_once] reads itself; the
    ones the restart sequence reads are kept together in [sequence]. *)
Record MonitorConfig : Type := mkMonitorConfig {
  steamapps_dir : string;
  steamcmd_path : string;
  steam_branch : string;
  steamcmd_dump_path : option string;
  rcon_host : string;
  rcon_port : Z;
  rcon_password : string;
  players_command : string;
  sequence : Restart.MonitorConfig
}.

(** What a cycle works on: the files and tools of the version check,
    and the game server with the trace of what was logged, sent and
    slept. *)
Record monitor : Type := mkMonitor {
  disk : world;
  game : Restart.state Rcon.network
}.

Definition on_disk {A} (c : M world A) : M monitor A := fun s =>
  let '(r, w') := c (disk s) in (r, mkMonitor w' (game s)).

Definition on_game {A} (c : M (Restart.state Rcon.network) A) : M monitor A := fun s =>
  let '(r, g') := c (game s) in (r, mkMonitor (disk s) g').

(** [x or 'n/a'] for an [Optional[str]]. *)
Definition or_na (o : option string) : string :=
  match o with
  | Some s => if String.eqb s EmptyString then "n/a"%string else s
  | None => "n/a"%string
  end.

Section Cycle.

Variable decode_replace : list byte -> string.          (* bytes.decode *)
Variable str_format : string -> Z -> option string.     (* str.format *)
(** [time.strftime("%Y-%m-%d %H:%M:%S", time.localtime(ts))]; [None]
    when it raises. *)
Variable strftime_localtime : Z -> option string.
Variable str_of_exn : exn -> string.                    (* str(exc) *)

(** utils.py *)
Definition format_ts (ts : option Z) : string :=
  match ts with
  | None => "n/a"%string
  | Some t =>
      if t =? 0 then "n/a"%string
      else match strftime_localtime t with
           | Some text => text
           | None => str_of_int t
           end
  end.

(** [Logger.log] *)
Definition logger_log (message : string) : M monitor unit :=
  on_game (Restart.log Rcon.network message).

(** [for status in outdated_mods: logger.log(...)] *)
Fixpoint log_outdated_mods (outdated_mods : list ModStatus) : M monitor unit :=
  match outdated_mods with
  | [] => ret tt
  | status :: rest =>
      logger_log ("Mod outdated id=" ++ workshop_id status
                    ++ " local=" ++ format_ts (local_mtime status)
                    ++ " remote=" ++ format_ts (remote_time_updated status)
                    ++ " title=" ++ or_na (remote_title status))%string ;;;
      log_outdated_mods rest
  end.

Definition _log_update_result (cfg : MonitorConfig) (result : UpdateResult)
  : M monitor unit :=
  let total_mods := Z.of_nat (List.length (mod_statuses result)) in
  let outdated_mods := filter is_outdated (mod_statuses result) in
  (if total_mods =? 0 then logger_log "No WorkshopItems found in ini."
   else logger_log ("Workshop mods: total=" ++ str_of_int total_mods
                      ++ " outdated="
                      ++ str_of_int (Z.of_nat (List.length outdated_mods)))%string) ;;;
  log_outdated_mods outdated_mods ;;;
  logger_log ("Server buildid local=" ++ or_na (local_buildid result)
                ++ " remote=" ++ or_na (remote_buildid result)
                ++ " branch=" ++ steam_branch cfg)%string ;;;
  match steamcmd_error result with
  | Some error =>
      if String.eqb error EmptyString then ret tt
      else logger_log ("steamcmd error: " ++ error)%string
  | None => ret tt
  end.

(** [rcon.send_command], as the players query and the restart sequence
    call it: on the game server, noted in the trace. *)
Definition rcon_call (rcon : Rcon.RconClient) (command : string)
  : M (Restart.state Rcon.network) string :=
  Restart.send_command Rcon.network (Rcon.send_command decode_replace rcon) command.

(** [run_once].  A handler that ends in [return] gives [None] to the
    code after the [try] statement, which then does nothing more. *)
Definition run_once (cfg : MonitorConfig) : M monitor unit :=
  logger_log "Starting update check." ;;;
  checked <-
    try_except
      (result <- on_disk (check_updates (steamapps_dir cfg) (steamcmd_path cfg)
                                        (steam_branch cfg) (steamcmd_dump_path cfg)) ;;
       ret (Some result))
      (fun _ => true)                                     (* except Exception *)
      (fun exc =>
         logger_log ("Update check failed: " ++ str_of_exn exc)%string ;;;
         ret None) ;;
  match checked with
  | None => ret tt
  | Some result =>
      _log_update_result cfg result ;;;
      if negb (any_outdated result) then logger_log "No updates detected."
      else if String.eqb (rcon_password cfg) EmptyString then
        logger_log
          "RCON password missing. Set RCONPassword in config/rcon.conf or monitor.conf."
      else
        let rcon :=
          Rcon.mkRconClient (rcon_host cfg) (rcon_port cfg) (rcon_password cfg) in
        counted <-
          try_except
            (player_count <-
               on_game (get_player_count (rcon_call rcon) (players_command cfg)) ;;
             ret (Some player_count))
            (fun e => is_OSError e || is_RconError e)     (* except (OSError, RconError) *)
            (fun exc =>
               logger_log ("RCON error while checking players: "
                             ++ str_of_exn exc)%string ;;;
               ret None) ;;
        match counted with
        | None => ret tt
        | Some player_count =>
            (match player_count with
             | None => logger_log "Player count unknown. Using restart timer."
             | Some n => logger_log ("Players connected: " ++ str_of_int n)%string
             end) ;;;
            let immediate :=
              match player_count with
              | Some n => n =? 0
              | None => false
              end in
            try_except
              (on_game (Restart.run_restart_sequence
                          Rcon.network (Rcon.send_command decode_replace rcon) str_format
                          (sequence cfg) immediate))
              (fun e => is_OSError e || is_RconError e)
              (fun exc =>
                 logger_log ("RCON error during restart sequence: "
                               ++ str_of_exn exc)%string)
        end
  end.

End Cycle.

End Main.

(** ** config.py: the key and value files *)

Module Config.

Import Text Workshop.

(** [sep in s] for a one-character [sep]. *)
Fixpoint contains (sep : ascii) (s : string) : bool :=
  match s with
  | EmptyString => false
  | String c rest => Ascii.eqb c sep || contains sep rest
  end.

(** [key, value = s.split(sep, 1)] for an [s] with [sep] in it: the
    text before the first [sep] and the text after it. *)
Fixpoint split_at_first (sep : ascii) (s : string) : string * string :=
  match s with
  | EmptyString => (EmptyString, EmptyString)
  | String c rest =>
      if Ascii.eqb c sep then (EmptyString, rest)
      else let '(key, value) := split_at_first sep rest in (String c key, value)
  end.

(** The body of the loop of [load_kv_file]. *)
Definition load_kv_line (data : dict string) (raw_line : string) : dict string :=
  let line := strip raw_line in
  if String.eqb line EmptyString || starts_with "#" line || starts_with ";" line
  then data
  else if negb (contains "=" line) then data
  else let '(key, value) := split_at_first "=" line in
       dict_set data (strip key) (strip value).

Definition load_kv_file (path : file) : outcome (dict string) :=
  match path with
  | Missing => Return []
  | Unreadable e => Raise e
  | Holds text => Return (fold_left load_kv_line (splitlines text) [])
  end.

(** [data.update(other)] *)
Definition update {V} (data other : dict V) : dict V :=
  fold_left (fun acc kv => dict_set acc (fst kv) (snd kv)) other data.

(** [data.get(key, default)] *)
Definition get_or (data : dict string) (key default : string) : string :=
  match dict_get data key with
  | Some v => v
  | None => default
  end.

(** [{k: str(v) for k, v in overrides.items() if v is not None}],
    for values that are strings or [None]. *)
Definition given_overrides (overrides : dict (option string)) : dict string :=
  fold_left (fun acc kv =>
               match snd kv with
               | Some v => dict_set acc (fst kv) v
               | None => acc
               end) overrides [].

(** [s.lower()] on code points below 256: the letters A to Z, and the
    capital letters of Latin-1. *)
Definition lower_char (c : ascii) : ascii :=
  let n := code c in
  if ((65 <=? n) && (n <=? 90)) || ((192 <=? n) && (n <=? 222) && negb (n =? 215))
  then ascii_of_N (Z.to_N (n + 32)) else c.

Fixpoint str_lower (s : string) : string :=
  match s with
  | EmptyString => EmptyString
  | String c rest => String (lower_char c) (str_lower rest)
  end.

Definition and_then {A B} (o : outcome A) (k : A -> outcome B) : outcome B :=
  match o with
  | Return a => k a
  | Raise e => Raise e
  | OutOfFuel => OutOfFuel
  end.

Section Library.

(** What [load_config] uses of [pathlib], and the conversions
    [int(value)] and [float(value)], [None] standing for their
    [ValueError]. *)
Variable path : Type.
Variable Path : string -> path.
Variable is_absolute : path -> bool.
Variable joinpath : path -> path -> path.       (* [base_dir / path] *)
Variable resolve : path -> path.
Variable parent : path -> path.
Variable int : string -> option Z.
Variable float_t : Type.
Variable float : string -> option float_t.
Variable float_5 : float_t.                      (* [5.0] *)

Definition _as_int (value : option string) (default : Z) : Z :=
  match value with
  | None => default
  | Some value =>
      match int value with
      | Some n => n
      | None => default
      end
  end.

Definition _as_float (value : option string) (default : float_t) : float_t :=
  match value with
  | None => default
  | Some value =>
      match float value with
      | Some x => x
      | None => default
      end
  end.

Definition _resolve_path (value : string) (base_dir : path) : path :=
  let p := Path value in
  if is_absolute p then p else resolve (joinpath base_dir p).

Definition _optional_path (value : option string) (base_dir : path) : option path :=
  match value with
  | None => None
  | Some value =>
      let raw := strip value in
      if String.eqb raw EmptyString then None
      else if existsb (String.eqb (str_lower raw)) ["none"; "off"; "false"]%string
           then None
           else Some (_resolve_path raw base_dir)
  end.

Record MonitorConfig : Type := mkMonitorConfig {
  ini_path : path;
  steamapps_dir : path;
  steamcmd_path : path;
  steam_branch : string;
  check_interval_sec : Z;
  restart_delay_sec : Z;
  warn_1_min_sec : Z;
  countdown_sec : Z;
  rcon_host : string;
  rcon_port : Z;
  rcon_password : string;
  rcon_timeout_sec : float_t;
  steam_api_timeout_sec : Z;
  steamcmd_timeout_sec : Z;
  steamcmd_dump_path : option path;
  msg_restart_5min : string;
  msg_restart_1min : string;
  msg_countdown : string;
  save_command : string;
  quit_command : string;
  players_command : string;
  log_path : option path
}.

(** [disk] tells what there is at a path. *)
Definition load_config (disk : path -> file) (config_path : path)
           (rcon_path : option path) (overrides : option (dict (option string)))
  : outcome MonitorConfig :=
  let config_path := resolve config_path in
  let base_dir := parent config_path in
  let data : dict string := [] in
  and_then
    (match rcon_path with
     | Some rcon_path =>
         and_then (load_kv_file (disk rcon_path)) (fun d => Return (update data d))
     | None => Return data
     end)
    (fun data =>
  and_then (load_kv_file (disk config_path)) (fun d =>
  let data := update data d in
  let data :=
    match overrides with
    | Some ((_ :: _) as overrides) => update data (given_overrides overrides)
    | _ => data
    end in
  let ini_path :=
    _resolve_path (get_or data "IniPath" "Zomboid\Server\servertest.ini") base_dir in
  let steamapps_dir :=
    _resolve_path (get_or data "SteamappsDir" "serverfiles\steamapps") base_dir in
  let steamcmd_path :=
    _resolve_path (get_or data "SteamcmdPath" "C:\steam_server\bin\steamcmd\steamcmd.exe")
                  base_dir in
  let log_path := _optional_path (Some (get_or data "LogPath" "monitor.log")) base_dir in
  let steamcmd_dump_path :=
    _optional_path (Some (get_or data "SteamcmdDumpPath" "steamcmd_appinfo_380870.txt"))
                   base_dir in
  Return (mkMonitorConfig
    ini_path
    steamapps_dir
    steamcmd_path
    (get_or data "SteamBranch" "unstable")
    (_as_int (dict_get data "CheckIntervalSec"%string) 300)
    (_as_int (dict_get data "RestartDelaySec"%string) 300)
    (_as_int (dict_get data "Warn1MinSec"%string) 60)
    (_as_int (dict_get data "CountdownSec"%string) 10)
    (get_or data "RCONHost" "127.0.0.1")
    (_as_int (dict_get data "RCONPort"%string) 27015)
    (get_or data "RCONPassword" EmptyString)
    (_as_float (dict_get data "RCONTimeoutSec"%string) float_5)
    (_as_int (dict_get data "SteamApiTimeoutSec"%string) 25)
    (_as_int (dict_get data "SteamcmdTimeoutSec"%string) 180)
    steamcmd_dump_path
    (get_or data "MsgRestart5Min" "Server will restart in 5 minutes.")
    (get_or data "MsgRestart1Min" "Server will restart in 1 minute.")
    (get_or data "MsgCountdown" "Restart in {seconds} seconds.")
    (get_or data "SaveCommand" "save")
    (get_or data "QuitCommand" "quit")
    (get_or data "PlayersCommand" "players")
    log_path))).

End Library.

End Config.
(* ================================================================== *)
(** * Part II: the vocabulary of the properties *)
(* ================================================================== *)

(** ** What it means for a pattern to match *)

Module ReSpec.

Import Text Re.

(** [matches icase r p g p' g']: from the cursor [p], with group text
    [g], the pattern [r] can take the matcher to [p'] with group text
    [g'].  No order between the alternatives: greedy and lazy
    repetition can match the same texts. *)
Inductive matches (icase : bool)
  : regex -> cursor -> option string -> cursor -> option string -> Prop :=
| m_eps p g : matches icase Eps p g p g
| m_chr c p g a s' :
    rest p = String a s' -> in_cls icase c a = true ->
    matches icase (Chr c) p g (mkCursor (Some a) s' (S (idx p))) g
| m_bol p g : at_bol p = true -> matches icase Bol p g p g
| m_eol p g : at_eol p = true -> matches icase Eol p g p g
| m_cat r1 r2 p g p1 g1 p2 g2 :
    matches icase r1 p g p1 g1 -> matches icase r2 p1 g1 p2 g2 ->
    matches icase (Cat r1 r2) p g p2 g2
| m_star_stop c p g : matches icase (Star c) p g p g
| m_star_more c p g p1 p2 :
    matches icase (Chr c) p g p1 g -> matches icase (Star c) p1 g p2 g ->
    matches icase (Star c) p g p2 g
| m_lazy_stop c p g : matches icase (LazyStar c) p g p g
| m_lazy_more c p g p1 p2 :
    matches icase (Chr c) p g p1 g -> matches icase (LazyStar c) p1 g p2 g ->
    matches icase (LazyStar c) p g p2 g
| m_group r p g p' g' :
    matches icase r p g p' g' ->
    matches icase (Group r) p g p' (Some (take (idx p' - idx p) (rest p))).

(** The cursor [n] characters further on. *)
Fixpoint cursor_from (s : string) (before : option ascii) (i n : nat) : option cursor :=
  match n with
  | O => Some (mkCursor before s i)
  | S n' =>
      match s with
      | String a s' => cursor_from s' (Some a) (S i) n'
      | EmptyString => None
      end
  end.

(** The cursor at index [j] of [text]. *)
Definition cursor_at (text : string) (j : nat) : option cursor :=
  cursor_from text None 0 j.

(** The pattern matches [text] from index [j] on, with group text [g]. *)
Definition matches_at (icase : bool) (r : regex) (text : string) (j : nat)
           (g : option string) : Prop :=
  exists p p', cursor_at text j = Some p /\ matches icase r p None p' g.

(** The last character of [xs], or [before] when [xs] is empty. *)
Fixpoint last_of (xs : string) (before : option ascii) : option ascii :=
  match xs with
  | EmptyString => before
  | String a r => last_of r (Some a)
  end.

(** The same letters, whatever their case. *)
Fixpoint same_letters (w1 w2 : string) : bool :=
  match w1, w2 with
  | EmptyString, EmptyString => true
  | String a r1, String b r2 => Ascii.eqb (lower a) (lower b) && same_letters r1 r2
  | _, _ => false
  end.

(** A pattern without a group. *)
Fixpoint no_group (r : regex) : bool :=
  match r with
  | Group _ => false
  | Cat r1 r2 => no_group r1 && no_group r2
  | _ => true
  end.

End ReSpec.

(** ** Braces *)

Module SteamAppSpec.

Import Text SteamApp.

(** The depth after [s], read from depth [d], when no closing brace on
    the way brings the depth to zero; [None] when one does. *)
Fixpoint open_through (s : string) (d : Z) : option Z :=
  match s with
  | EmptyString => Some d
  | String ch rest =>
      if Ascii.eqb ch "{" then open_through rest (d + 1)
      else if Ascii.eqb ch "}" then
        if d - 1 =? 0 then None else open_through rest (d - 1)
      else open_through rest d
  end.

Definition no_brace (c : ascii) : bool :=
  negb (Ascii.eqb c "{") && negb (Ascii.eqb c "}").

Definition no_open (c : ascii) : bool := negb (Ascii.eqb "{" c).

(** No occurrence of [sub] starts in the first [n] characters of [text]. *)
Definition absent_before (sub text : string) (n : nat) : Prop :=
  forall j, (j < n)%nat -> starts_with sub (drop j text) = false.

End SteamAppSpec.

(** ** Worlds for the version checker *)

Module UpdatesSpec.

Import Text SteamApp.
Local Open Scope string_scope.

Definition line (s : string) : string := (s ++ String nl EmptyString)%string.

(** The block of one branch, from its opening to its closing brace. *)
Definition branch_block (buildid : string) : string :=
  line "{" ++ line (quoted "buildid" ++ " " ++ quoted buildid) ++ "}".

(** The block of the branches [public] and [unstable], in this order. *)
Definition branches_block (public_id unstable_id : string) : string :=
  line "{"
    ++ line (quoted "public") ++ line (branch_block public_id)
    ++ line (quoted "unstable") ++ line (branch_block unstable_id)
    ++ "}".

(** A two-branch answer of the inventory tool. *)
Definition two_branches (public_id unstable_id : string) : string :=
  line (quoted "branches") ++ line (branches_block public_id unstable_id).

(** The text between the braces of [branch_block]. *)
Definition branch_body (buildid : string) : string :=
  String nl (quoted "buildid" ++ " "
               ++ String dq (buildid ++ String dq (String nl EmptyString))).

(** The text between the braces of [branches_block]. *)
Definition branches_body (public_id unstable_id : string) : string :=
  String nl (line (quoted "public") ++ line (branch_block public_id)
               ++ line (quoted "unstable") ++ line (branch_block unstable_id)).

(** A line of the tool's answer: [n] tabs, the text, a newline. *)
Fixpoint tabbed (n : nat) (s : string) : string :=
  match n with
  | O => line s
  | S n' => String "009" (tabbed n' s)
  end.

Definition field (key value : string) : string :=
  quoted key ++ String "009" (String "009" (quoted value)).

(** An answer laid out as the tool prints it; the block of [unstable]
    holds a nested block before its build id. *)
Definition printed_app_info : string :=
  line "AppID : 380870, change number : 21172176/0"
    ++ line (quoted "380870") ++ line "{"
    ++ tabbed 1 (quoted "common") ++ tabbed 1 "{"
    ++ tabbed 2 (field "name" "Project Zomboid Dedicated Server")
    ++ tabbed 1 "}"
    ++ tabbed 1 (quoted "depots") ++ tabbed 1 "{"
    ++ tabbed 2 (quoted "branches") ++ tabbed 2 "{"
    ++ tabbed 3 (quoted "public") ++ tabbed 3 "{"
    ++ tabbed 4 (field "buildid" "111")
    ++ tabbed 4 (field "timeupdated" "1700000000")
    ++ tabbed 3 "}"
    ++ tabbed 3 (quoted "unstable") ++ tabbed 3 "{"
    ++ tabbed 4 (quoted "meta") ++ tabbed 4 "{"
    ++ tabbed 5 (field "pwdrequired" "0")
    ++ tabbed 4 "}"
    ++ tabbed 4 (field "buildid" "222")
    ++ tabbed 3 "}"
    ++ tabbed 2 "}"
    ++ tabbed 1 "}"
    ++ line "}".

(** A world with the given ini text, catalog, manifest and tool run;
    no workshop folders on disk. *)
Definition world_of (ini : file) (catalog : list string -> outcome (list item))
           (manifest : file) (run : run_result) : world :=
  mkWorld ini catalog (fun _ => None) (fun _ => None) manifest (Return true) run true None.

(** The catalog cannot be reached. *)
Definition unreachable : list string -> outcome (list item) :=
  fun _ => Raise (URLError "unreachable").

(** One workshop item configured, the catalog unreachable, the server
    binary up to date. *)
Definition offline_world : world :=
  world_of (Holds "WorkshopItems=2392709985") unreachable
           (Holds (line (quoted "buildid" ++ " " ++ quoted "123")))
           (Completed (mkProc (two_branches "123" "456") "" 0)).

(** No workshop item configured; the local build id is 0123 and the
    remote one 123. *)
Definition stale_world : world :=
  world_of (Holds "Mods=") unreachable
           (Holds (line (quoted "buildid" ++ " " ++ quoted "0123")))
           (Completed (mkProc (two_branches "123" "456") "" 0)).

(** No workshop item configured and the inventory tool cannot be run. *)
Definition toolless_world : world :=
  world_of (Holds "Mods=") unreachable
           (Holds (line (quoted "buildid" ++ " " ++ quoted "123")))
           (Failed "timed out").

End UpdatesSpec.

(** ** Player listings *)

Module PlayersSpec.

Import Text Re Players.
Local Open Scope string_scope.

(** The lines of a response that begin with a dash. *)
Definition dash_lines (response : string) : list string :=
  filter (starts_with "-") (splitlines response).

(** The lines that begin with a dash once the white space in front of
    it is taken off. *)
Definition indented_dash_lines (response : string) : list string :=
  filter (fun l => starts_with "-" (lstrip l)) (splitlines response).

(** The player count as the specification words it: the header's
    number, else the number of lines beginning with a dash, else
    unknown. *)
Definition parse_player_count_as_specified (response : string) : option Z :=
  match search true players_re response with
  | Some m => Some (int_of_digits (group1 m))
  | None =>
      if is_empty (dash_lines response) then None
      else Some (Z.of_nat (List.length (dash_lines response)))
  end.

(** A response with a header in it: [pre], the two words, white space,
    the number [ds] in brackets, [post]. *)
Definition header_text (pre word ws ds post : string) : string :=
  pre ++ word ++ ws ++ String "(" (ds ++ String ")" post).

Definition listing (lines : list string) : string :=
  String.concat (String nl EmptyString) lines.

(** What a header with the number [ds] gives: the number, or the
    [ValueError] with which [int] refuses a number of more than 4300
    digits. *)
Definition header_count (ds : string) : outcome (option Z) :=
  if (4300 <? Z.of_nat (String.length ds))%Z
  then Raise (ValueError (int_limit_message (Z.of_nat (String.length ds))))
  else Return (Some (int_of_digits ds)).

(** The digit [c], [n] times. *)
Fixpoint digits (c : ascii) (n : nat) : string :=
  match n with
  | O => EmptyString
  | S n' => String c (digits c n')
  end.

End PlayersSpec.

(** ** Traces of the restart sequence *)

Module RestartSpec.

Import Restart.

(** The durations handed to [time.sleep], in order. *)
Fixpoint sleeps (evs : list event) : list Z :=
  match evs with
  | [] => []
  | Sleep n :: evs' => n :: sleeps evs'
  | _ :: evs' => sleeps evs'
  end.

Definition total_sleep (evs : list event) : Z := fold_right Z.add 0 (sleeps evs).

(** An event without its text. *)
Inductive shape : Type :=
| Logged
| Slept (seconds : Z)
| Sent.

Definition shape_of (e : event) : shape :=
  match e with
  | Log _ => Logged
  | Sleep n => Slept n
  | Command _ => Sent
  end.

(** What [_sleep_seconds n] asks of [time.sleep]. *)
Definition pause (n : Z) : list Z := if n <=? 0 then [] else [n].

(** The sleeps of a scheduled sequence that runs to its end: before the
    1-minute warning, before the countdown, and one second per
    countdown message. *)
Definition planned_sleeps (cfg : MonitorConfig) : list Z :=
  let '(delay, warn_1, countdown) := schedule cfg in
  pause (delay - warn_1) ++ pause (warn_1 - countdown)
    ++ repeat 1 (Z.to_nat countdown).

(** The events of a scheduled sequence that runs to its end, as a list. *)
Section Steps.

Variable str_format : string -> Z -> option string.

Definition countdown_message (cfg : MonitorConfig) (remaining : Z) : string :=
  match str_format (msg_countdown cfg) remaining with
  | Some text => text
  | None => ("Restart in " ++ str_of_int remaining ++ " seconds.")%string
  end.

Definition servermsg (text : string) : event :=
  Command ("servermsg " ++ Text.quoted text)%string.

Fixpoint countdown_steps (cfg : MonitorConfig) (n : nat) : list event :=
  match n with
  | O => []
  | S n' =>
      servermsg (countdown_message cfg (Z.of_nat n)) :: Sleep 1
        :: countdown_steps cfg n'
  end.

Definition scheduled_steps (cfg : MonitorConfig) : list event :=
  let '(delay, warn_1, countdown) := schedule cfg in
  [Log ("Restart scheduled in " ++ str_of_int delay ++ " seconds.")%string;
   servermsg (msg_restart_5min cfg)]
    ++ map Sleep (pause (delay - warn_1))
    ++ (if 0 <? warn_1 then [servermsg (msg_restart_1min cfg)] else [])
    ++ map Sleep (pause (warn_1 - countdown))
    ++ countdown_steps cfg (Z.to_nat countdown)
    ++ [Command (save_command cfg); Command (quit_command cfg)].

End Steps.

(** [runs_along plan m]: whatever the server answers, [m] only adds
    events to the trace; they are the first ones of [plan], and all of
    [plan] when [m] returns. *)
Definition runs_along {W A} (plan : list event) (m : M (state W) A) : Prop :=
  forall st,
    exists evs,
      trace (snd (m st)) = trace st ++ evs
      /\ (exists rest, plan = evs ++ rest)
      /\ (forall a, fst (m st) = Return a -> evs = plan).

(** A game server that accepts every command and answers nothing. *)
Definition quiet_server : string -> M unit string :=
  fun _ w => (Return EmptyString, w).

(** [template.format(seconds=n)] for the default template only. *)
Definition default_format (template : string) (n : Z) : option string :=
  if String.eqb template "Restart in {seconds} seconds."
  then Some ("Restart in " ++ str_of_int n ++ " seconds.")%string
  else None.

Definition example_config (delay warn_1 countdown : Z) : MonitorConfig :=
  mkMonitorConfig delay warn_1 countdown
    "Server will restart in 5 minutes." "Server will restart in 1 minute."
    "Restart in {seconds} seconds." "save" "quit".

End RestartSpec.

(** ** Bytes on the wire *)

Module RconSpec.

Import Rcon.

(** The bytes a socket is sure to deliver, however they are cut into
    chunks: everything up to the first timeout or the end of the
    connection. *)
Fixpoint stream (evs : list recv_event) : list byte :=
  match evs with
  | Chunk data :: evs' => if is_empty data then [] else data ++ stream evs'
  | _ => []
  end.

(** A packet as [_recv_packet] returns it. *)
Definition packet : Type := (Z * Z * list byte)%type.

Definition packet_id (p : packet) : Z := fst (fst p).
Definition packet_type (p : packet) : Z := snd (fst p).
Definition packet_body (p : packet) : list byte := snd p.

(** The frame of a packet whose body is already encoded:
    int32 LE (len(body) + 10), int32 LE id, int32 LE type, body, two
    zero bytes. *)
Definition frame (p : packet) : list byte :=
  le_split 4 (Z.of_nat (List.length (packet_body p)) + 10)
    ++ le_split 4 (packet_id p) ++ le_split 4 (packet_type p)
    ++ packet_body p ++ [Byte.x00; Byte.x00].

(** A packet that fits the frame: id, type and length are int32. *)
Definition well_formed (p : packet) : Prop :=
  in_int32 (packet_id p) = true /\ in_int32 (packet_type p) = true
  /\ in_int32 (Z.of_nat (List.length (packet_body p)) + 10) = true.

(** A packet that [_authenticate] reads and passes over. *)
Definition passed_over (p : packet) : Prop :=
  packet_type p <> 2 /\ packet_id p <> -1.

(** A socket on which [chunks] arrive one [recv] at a time. *)
Definition socket_of (chunks : list (list byte)) : socket :=
  mkSocket (map Chunk chunks) [].

(** What [_authenticate] answers once it has read [reply], the first
    packet that is an AUTH_RESPONSE or carries the request id -1. *)
Definition verdict (reply : packet) : bool :=
  (packet_type reply =? 2) && negb (packet_id reply =? -1).

(** Strict UTF-8 decoding of code points below 256: what
    [bytes.decode("utf-8")] gives on the bytes of such a text. *)
Fixpoint utf8_decode (bs : list byte) : option string :=
  match bs with
  | [] => Some EmptyString
  | b :: rest =>
      let n := byte.unsigned b in
      if n <? 128 then
        option_map (String (ascii_of_N (Z.to_N n))) (utf8_decode rest)
      else if (194 <=? n) && (n <=? 195) then
        match rest with
        | b2 :: rest' =>
            let m := byte.unsigned b2 in
            if (128 <=? m) && (m <? 192) then
              option_map (String (ascii_of_N (Z.to_N ((n - 192) * 64 + (m - 128)))))
                         (utf8_decode rest')
            else None
        | [] => None
        end
      else None
  end.

(** A code point that has a UTF-8 form: from 0 to 0x10FFFF and no
    surrogate. *)
Definition is_scalar (cp : Z) : bool :=
  (0 <=? cp) && (cp <=? 1114111) && negb ((55296 <=? cp) && (cp <=? 57343)).

(** A byte that continues a sequence. *)
Definition continues (n : Z) : bool := (128 <=? n) && (n <=? 191).

(** Strict UTF-8 decoding: the code points of well-formed bytes, as
    [bytes.decode("utf-8")] gives them, and [None] where it raises:
    at a byte that cannot start a sequence, a sequence cut short, an
    overlong form, a surrogate or a value above 0x10FFFF. *)
Fixpoint utf8_decode_str (bs : list byte) : option (list Z) :=
  match bs with
  | [] => Some []
  | b1 :: r1 =>
      let n1 := byte.unsigned b1 in
      if n1 <? 128 then option_map (cons n1) (utf8_decode_str r1)
      else if (194 <=? n1) && (n1 <=? 223) then
        match r1 with
        | b2 :: r2 =>
            let n2 := byte.unsigned b2 in
            if continues n2
            then option_map (cons ((n1 - 192) * 64 + (n2 - 128))) (utf8_decode_str r2)
            else None
        | _ => None
        end
      else if (224 <=? n1) && (n1 <=? 239) then
        match r1 with
        | b2 :: b3 :: r3 =>
            let n2 := byte.unsigned b2 in
            let n3 := byte.unsigned b3 in
            if ((if n1 =? 224 then 160 else 128) <=? n2)
               && (n2 <=? (if n1 =? 237 then 159 else 191))
               && continues n3
            then option_map (cons ((n1 - 224) * 4096 + (n2 - 128) * 64 + (n3 - 128)))
                            (utf8_decode_str r3)
            else None
        | _ => None
        end
      else if (240 <=? n1) && (n1 <=? 244) then
        match r1 with
        | b2 :: b3 :: b4 :: r4 =>
            let n2 := byte.unsigned b2 in
            let n3 := byte.unsigned b3 in
            let n4 := byte.unsigned b4 in
            if ((if n1 =? 240 then 144 else 128) <=? n2)
               && (n2 <=? (if n1 =? 244 then 143 else 191))
               && continues n3 && continues n4
            then option_map
                   (cons ((n1 - 240) * 262144 + (n2 - 128) * 4096
                          + (n3 - 128) * 64 + (n4 - 128)))
                   (utf8_decode_str r4)
            else None
        | _ => None
        end
      else None
  end.

(** A stand-in for [bytes.decode] in examples: ASCII bytes as they are,
    a question mark for any other byte. *)
Definition ascii_decode (bs : list byte) : string :=
  string_of_list_ascii
    (map (fun b => if byte.unsigned b <? 128 then ascii_of_byte b else "?"%char) bs).

Definition example_client : RconClient := mkRconClient "127.0.0.1" 27015 "secret".

(** A server that accepts the password and then stays silent, and one
    that accepts it and then answers with a packet of type 5. *)
Definition silent_server : network :=
  mkNetwork [Some [Chunk (frame (1, 2, [])); TimedOut]] [].

Definition odd_server : network :=
  mkNetwork [Some [Chunk (frame (1, 2, [])); Chunk (frame (2, 5, []))]] [].

End RconSpec.

(** ** How a connection ends *)

Module WireSpec.

Import Rcon.

(** What a reader meets once the bytes a socket is sure to deliver are
    used up: the timeout, or the end of the connection. *)
Fixpoint stopped_by (evs : list recv_event) : exn :=
  match evs with
  | Chunk data :: evs' =>
      if is_empty data then RconError "Connection closed by server" else stopped_by evs'
  | TimedOut :: _ => SocketTimeout
  | [] => RconError "Connection closed by server"
  end.

(** Bytes that stop in the middle of a frame: the first bytes of the
    frame of some packet, but not all of them. *)
Definition cut_short (partial : list byte) : Prop :=
  exists (p : RconSpec.packet) (tail : list byte),
    RconSpec.well_formed p /\ tail <> [] /\ RconSpec.frame p = partial ++ tail.

End WireSpec.

(** ** The catalog's answer, entry by entry *)

Module CatalogSpec.

Import Text Workshop.

(** The elements of a list, each at its first occurrence only. *)
Fixpoint first_occurrences (l : list string) : list string :=
  match l with
  | [] => []
  | x :: l' => x :: filter (fun y => negb (String.eqb x y)) (first_occurrences l')
  end.

(** The id an entry of the answer is filed under. *)
Definition entry_id (it : item) : string :=
  strip (match publishedfileid it with Some s => s | None => EmptyString end).

(** What is kept of an entry: title and update time only when its
    result code is 1, and no update time when it is 0 or missing. *)
Definition entry_info (it : item) : ModRemoteInfo :=
  if or_zero (result it) =? 1
  then mkModRemoteInfo (entry_id it) (title it)
         (if or_zero (time_updated it) =? 0 then None else Some (or_zero (time_updated it)))
         (Some 1)
  else mkModRemoteInfo (entry_id it) None None (Some (or_zero (result it))).

(** The last entry of the answer filed under [wid]. *)
Fixpoint last_entry (wid : string) (items : list item) : option item :=
  match items with
  | [] => None
  | it :: items' =>
      match last_entry wid items' with
      | Some later => Some later
      | None => if String.eqb (entry_id it) wid then Some it else None
      end
  end.

(** The times [get_local_mod_mtime] chooses from: for every directory
    under [mods], the time of its [mod.info], or its own when it has
    none. *)
Definition mod_times (w : world) (wid : string) : list Z :=
  match mods_dir w wid with
  | Some entries =>
      map (fun f => match mod_info_mtime f with
                    | Some t => t
                    | None => folder_mtime f
                    end)
          (filter is_dir entries)
  | None => []
  end.

End CatalogSpec.

(** ** Doing the steps of a plan *)

Module PlanSpec.

Import Restart.

Section Plan.

Variable W : Type.
Variable rcon_send_command : string -> M W string.

(** The steps of [plan] done one after the other on the game server:
    a line is logged, a sleep is slept, a command is sent.  A command
    that raises ends it: what comes after is not done. *)
Fixpoint run_plan (plan : list event) : M (state W) unit :=
  match plan with
  | [] => ret tt
  | Log message :: rest => log W message ;;; run_plan rest
  | Sleep seconds :: rest => time_sleep W seconds ;;; run_plan rest
  | Command command :: rest =>
      send_command W rcon_send_command command ;;; run_plan rest
  end.

(** The server [w] accepts every command of [plan], each as the
    commands before it have left the server. *)
Fixpoint accepts (plan : list event) (w : W) : bool :=
  match plan with
  | [] => true
  | Command command :: rest =>
      match rcon_send_command command w with
      | (Return _, w') => accepts rest w'
      | _ => false
      end
  | _ :: rest => accepts rest w
  end.

(** The server once the commands of [plan] have been sent to it. *)
Fixpoint server_after (plan : list event) (w : W) : W :=
  match plan with
  | [] => w
  | Command command :: rest => server_after rest (snd (rcon_send_command command w))
  | _ :: rest => server_after rest w
  end.

End Plan.

(** The steps of the sequence with [immediate] set. *)
Definition immediate_steps (cfg : Restart.MonitorConfig) : list event :=
  [Log "No players online. Restarting immediately.";
   Command (save_command cfg); Command (quit_command cfg)].

End PlanSpec.

(** ** What a cycle leaves behind *)

Module CycleSpec.

Import Restart Main PlanSpec.

(** The state [s] after the lines [lines] were logged and nothing else
    was done: the files and the game server are as they were. *)
Definition logged (s : monitor) (lines : list string) : monitor :=
  mkMonitor (disk s)
            (mkState (server (game s)) (trace (game s) ++ map Log lines)).

(** What [run_once] logs about the player count. *)
Definition count_line (player_count : option Z) : string :=
  match player_count with
  | None => "Player count unknown. Using restart timer."%string
  | Some n => ("Players connected: " ++ str_of_int n)%string
  end.

(** The steps of the restart sequence that [run_once] starts for the
    player count [player_count]: at once exactly when the count is 0,
    on the timer otherwise, also when the count is unknown. *)
Definition restart_plan (str_format : string -> Z -> option string)
           (cfg : Restart.MonitorConfig) (player_count : option Z) : list event :=
  if match player_count with
     | Some n => n =? 0
     | None => false
     end
  then immediate_steps cfg
  else RestartSpec.scheduled_steps str_format cfg.

(** Stand-ins for the clock and for [str(exc)] in examples. *)
Definition no_clock : Z -> option string := fun _ => None.

Definition exn_name (e : exn) : string :=
  match e with
  | RconError msg => msg
  | SocketTimeout => "timed out"
  | OSError msg => msg
  | StructError => "struct.error"
  | FileNotFoundError msg => msg
  | URLError msg => msg
  | JSONDecodeError msg => msg
  | ValueError msg => msg
  | UnicodeEncodeError => "surrogates not allowed"
  end.

(** A monitor that has done nothing yet. *)
Definition fresh (w : world) (net : Rcon.network) : monitor :=
  mkMonitor w (mkState net []).

(** What the check returns in the world [w] for the configuration of
    the examples. *)
Definition example_check (w : world) : Updates.UpdateResult :=
  match Updates.check_updates "steamapps" "steamcmd" "unstable" None w with
  | (Return r, _) => r
  | _ => Updates.mkUpdateResult false false [] None None "" None
  end.

(** A configuration for examples. *)
Definition example_cfg (password : string) : Main.MonitorConfig :=
  Main.mkMonitorConfig "steamapps" "steamcmd" "unstable" None
    "127.0.0.1" 27015 password "players" (RestartSpec.example_config 300 60 10).

End CycleSpec.

(** ** A field on a line of its own *)

Module ManifestSpec.

Import Text.

(** A text with the field [key] on a line: [pre], then white space,
    the quoted key, white space, the quoted value, white space, and
    [post]. *)
Definition with_field (pre indent key gap value trail post : string) : string :=
  pre ++ indent ++ quoted key ++ gap ++ String dq (value ++ String dq (trail ++ post)).

(** [pre] ends a line: it is empty or ends with a newline. *)
Definition ends_a_line (pre : string) : Prop :=
  pre = EmptyString \/ exists pre0, pre = (pre0 ++ String nl EmptyString)%string.

(** [post] begins a line: it is empty or begins with a newline. *)
Definition begins_a_line (post : string) : Prop :=
  post = EmptyString \/ exists post0, post = String nl post0.

End ManifestSpec.

(** ** The line of the workshop items *)

Module IniSpec.

Import Text.

(** [s.lower()], as far as ASCII letters go. *)
Fixpoint lower_str (s : string) : string :=
  match s with
  | EmptyString => EmptyString
  | String c r => String (lower c) (lower_str r)
  end.

(** [sep.join(parts)] *)
Fixpoint join (sep : ascii) (parts : list string) : string :=
  match parts with
  | [] => EmptyString
  | [x] => x
  | x :: rest => x ++ String sep (join sep rest)
  end.

Definition not_nl (c : ascii) : bool := negb (Ascii.eqb c nl).

Definition blank (c : ascii) : bool := is_space c && not_nl c.

(** An ini text with the line of the workshop items: [pre], then white
    space, the key [word], white space, the equals sign, white space
    that stays on the line, the value, white space, and [post]. *)
Definition with_items (pre indent word gap1 gap2 value trail post : string) : string :=
  pre ++ indent ++ word ++ gap1 ++ String "=" (gap2 ++ value ++ trail ++ post).

(** A non-empty run of decimal digits. *)
Definition numeral (s : string) : bool :=
  negb (String.eqb s EmptyString) && forall_chars is_digit s.

(** A part of the value as it is mostly written: no white space and
    no semicolon in it (it may be empty, and need not be a number). *)
Definition plain (s : string) : bool :=
  forall_chars (fun c => negb (is_space c) && negb (Ascii.eqb c ";")) s.

End IniSpec.

(** ** Answers of the inventory tool *)

Module BranchSpec.

Import Text SteamApp World UpdatesSpec ManifestSpec.
Local Open Scope string_scope.

(** A text with a named block: [pre], the quoted name, [gap], then
    [body] between braces, then [post]. *)
Definition with_block (pre name gap body post : string) : string :=
  pre ++ quoted name ++ gap ++ String "{" (body ++ String "}" post).

(** [body] between its braces. *)
Definition braced (body : string) : string :=
  String "{" (body ++ String "}" EmptyString).

(** A world in which the inventory tool is found, runs, and prints
    [out] on its standard output and nothing on its standard error. *)
Definition printed (out : string) : world :=
  world_of Missing unreachable Missing (Completed (mkProc out "" 0)).

(** What [steamcmd_get_buildid] reads in that world. *)
Definition output_of (out : string) : string := out ++ String nl EmptyString.

(** The block of a branch written on one line. *)
Definition one_line_block (buildid : string) : string :=
  "{ " ++ quoted "buildid" ++ " " ++ quoted buildid ++ " }".

(** Two sibling branches with different build ids; the block of
    [unstable] is written on one line. *)
Definition one_line_answer : string :=
  line (quoted "branches") ++ line "{"
    ++ line (quoted "public") ++ line (branch_block "111")
    ++ line (quoted "unstable" ++ " " ++ one_line_block "222")
    ++ line "}".

(** Two sibling branches with different build ids; the block of
    [public] names the other branch in a description and holds a nested
    block. *)
Definition described_answer : string :=
  line (quoted "branches") ++ line "{"
    ++ tabbed 1 (quoted "public") ++ tabbed 1 "{"
    ++ tabbed 2 (field "buildid" "111")
    ++ tabbed 2 (field "description" "unstable")
    ++ tabbed 2 (quoted "meta") ++ tabbed 2 "{"
    ++ tabbed 3 (field "pwdrequired" "0")
    ++ tabbed 2 "}"
    ++ tabbed 1 "}"
    ++ tabbed 1 (quoted "unstable") ++ tabbed 1 "{"
    ++ tabbed 2 (field "buildid" "222")
    ++ tabbed 1 "}"
    ++ line "}".

(** The parts of [printed_app_info] around the build id of [unstable]. *)
Definition info_head : string :=
  line "AppID : 380870, change number : 21172176/0"
    ++ line (quoted "380870") ++ line "{"
    ++ tabbed 1 (quoted "common") ++ tabbed 1 "{"
    ++ tabbed 2 (field "name" "Project Zomboid Dedicated Server")
    ++ tabbed 1 "}"
    ++ tabbed 1 (quoted "depots") ++ tabbed 1 "{"
    ++ String "009" (String "009" EmptyString).

Definition info_public : string :=
  String nl EmptyString
    ++ tabbed 3 (quoted "public") ++ tabbed 3 "{"
    ++ tabbed 4 (field "buildid" "111")
    ++ tabbed 4 (field "timeupdated" "1700000000")
    ++ tabbed 3 "}"
    ++ String "009" (String "009" (String "009" EmptyString)).

Definition info_meta : string :=
  String nl EmptyString
    ++ tabbed 4 (quoted "meta") ++ tabbed 4 "{"
    ++ tabbed 5 (field "pwdrequired" "0")
    ++ tabbed 4 "}".

(** [n] tabs. *)
Fixpoint tabs (n : nat) : string :=
  match n with
  | O => EmptyString
  | S k => String "009" (tabs k)
  end.

Definition info_tail : string :=
  String nl EmptyString ++ tabbed 1 "}" ++ line "}" ++ String nl EmptyString.

End BranchSpec.

(** ** The lines of a key and value file *)

Module ConfigSpec.

Import Text Workshop Config.

(** The lines as they are written: an assignment (white space, key,
    white space, equals sign, white space, value, white space), a
    comment (white space, [#] or [;], any text), or any other line. *)
Inductive line : Type :=
| Assign (indent key gap1 gap2 value trail : string)
| Comment (indent : string) (mark : ascii) (text : string)
| Other (text : string).

Definition text_of (l : line) : string :=
  match l with
  | Assign indent key gap1 gap2 value trail =>
      indent ++ key ++ gap1 ++ String "=" (gap2 ++ value ++ trail)
  | Comment indent mark text => indent ++ String mark text
  | Other text => text
  end.

(** No line boundary inside. *)
Definition one_line (s : string) : bool :=
  forall_chars (fun c => negb (is_linebreak c)) s.

(** White space that stays on the line. *)
Definition pad (s : string) : bool :=
  forall_chars (fun c => is_space c && negb (is_linebreak c)) s.

(** No white space at either end. *)
Definition trimmed (s : string) : bool := String.eqb (strip s) s.

(** A line is well formed when its parts are what their names say:
    the key of an assignment has no equals sign and does not begin
    with a comment mark; a line that is neither an assignment nor a
    comment has no equals sign. *)
Definition well_formed (l : line) : bool :=
  match l with
  | Assign indent key gap1 gap2 value trail =>
      pad indent && pad gap1 && pad gap2 && pad trail
      && one_line key && trimmed key && negb (contains "=" key)
      && negb (starts_with "#" key) && negb (starts_with ";" key)
      && one_line value && trimmed value
  | Comment indent mark text =>
      pad indent && (Ascii.eqb mark "#" || Ascii.eqb mark ";") && one_line text
  | Other text => one_line text && negb (contains "=" text)
  end.

(** The value of the last assignment to [key], if there is one. *)
Fixpoint assigned (lines : list line) (key : string) : option string :=
  match lines with
  | [] => None
  | l :: rest =>
      match assigned rest key with
      | Some v => Some v
      | None =>
          match l with
          | Assign _ k _ _ v _ => if String.eqb k key then Some v else None
          | _ => None
          end
      end
  end.

(** The lines of a file put together, each line but the last followed
    by [eol]. *)
Fixpoint join_lines (eol : string) (lines : list string) : string :=
  match lines with
  | [] => EmptyString
  | [x] => x
  | x :: rest => x ++ eol ++ join_lines eol rest
  end.

Definition lf : string := String nl EmptyString.
Definition crlf : string := String "013" (String nl EmptyString).

(** The file [f] is made of the lines [lines]: it is missing and
    there are none, or it holds well formed lines ended by line feeds,
    or by carriage return and line feed. *)
Definition made_of (f : file) (lines : list line) : Prop :=
  (f = Missing /\ lines = [])
  \/ exists eol,
       (eol = lf \/ eol = crlf)
       /\ f = Holds (join_lines eol (map text_of lines))
       /\ forallb well_formed lines = true.

(** What the overrides give for [key]: the last value for it that is
    not [None]. *)
Fixpoint given (overrides : dict (option string)) (key : string) : option string :=
  match overrides with
  | [] => None
  | (k, v) :: rest =>
      match given rest key with
      | Some s => Some s
      | None => if String.eqb k key then v else None
      end
  end.

(** The text of a setting: from the overrides, else from the
    configuration file, else from the rcon file. *)
Definition setting (overrides : option (dict (option string)))
           (config rcon : list line) (key : string) : option string :=
  match match overrides with Some o => given o key | None => None end with
  | Some v => Some v
  | None =>
      match assigned config key with
      | Some v => Some v
      | None => assigned rcon key
      end
  end.

Section Settings.

Variable path : Type.
Variable Path : string -> path.
Variable is_absolute : path -> bool.
Variable joinpath : path -> path -> path.
Variable resolve : path -> path.
Variable parent : path -> path.
Variable int : string -> option Z.
Variable float_t : Type.
Variable float : string -> option float_t.
Variable float_5 : float_t.

Variable chosen : string -> option string.
Variable base_dir : path.

Definition text (key default : string) : string :=
  match chosen key with
  | Some v => v
  | None => default
  end.

Definition number (key : string) (default : Z) : Z :=
  match chosen key with
  | Some v => match int v with Some n => n | None => default end
  | None => default
  end.

Definition place (key default : string) : path :=
  _resolve_path path Path is_absolute joinpath resolve (text key default) base_dir.

Definition optional_place (key default : string) : option path :=
  _optional_path path Path is_absolute joinpath resolve (Some (text key default)) base_dir.

(** The configuration, setting by setting, with the defaults. *)
Definition settings_of : MonitorConfig path float_t :=
  mkMonitorConfig path float_t
    (place "IniPath" "Zomboid\Server\servertest.ini")
    (place "SteamappsDir" "serverfiles\steamapps")
    (place "SteamcmdPath" "C:\steam_server\bin\steamcmd\steamcmd.exe")
    (text "SteamBranch" "unstable")
    (number "CheckIntervalSec" 300)
    (number "RestartDelaySec" 300)
    (number "Warn1MinSec" 60)
    (number "CountdownSec" 10)
    (text "RCONHost" "127.0.0.1")
    (number "RCONPort" 27015)
    (text "RCONPassword" EmptyString)
    (match chosen "RCONTimeoutSec"%string with
     | Some v => match float v with Some x => x | None => float_5 end
     | None => float_5
     end)
    (number "SteamApiTimeoutSec" 25)
    (number "SteamcmdTimeoutSec" 180)
    (optional_place "SteamcmdDumpPath" "steamcmd_appinfo_380870.txt")
    (text "MsgRestart5Min" "Server will restart in 5 minutes.")
    (text "MsgRestart1Min" "Server will restart in 1 minute.")
    (text "MsgCountdown" "Restart in {seconds} seconds.")
    (text "SaveCommand" "save")
    (text "QuitCommand" "quit")
    (text "PlayersCommand" "players")
    (optional_place "LogPath" "monitor.log").

End Settings.

(** For examples: paths as texts, every path absolute, and [int] on
    runs of decimal digits only. *)
Definition decimal (s : string) : option Z :=
  if negb (String.eqb s EmptyString) && forall_chars is_digit s
  then Some (int_of_digits s) else None.

Definition no_float (s : string) : option Z := None.

Definition example_disk (config rcon : string) (p : string) : file :=
  if String.eqb p "monitor.conf" then Holds config
  else if String.eqb p "rcon.conf" then Holds rcon
  else Missing.

End ConfigSpec.
(* ================================================================== *)
(** * Part III: properties *)
(* ================================================================== *)

(** ** Strings *)

Module TextFacts.

Import Text.

Lemma append_assoc (a b c : string) : ((a ++ b) ++ c = a ++ (b ++ c))%string.
Proof. induction a as [| x a IH]; simpl; congruence. Qed.

Lemma append_nil_r (a : string) : (a ++ EmptyString)%string = a.
Proof. induction a as [| x a IH]; simpl; congruence. Qed.

Lemma length_append (a b : string) :
  String.length (a ++ b) = (String.length a + String.length b)%nat.
Proof. induction a as [| x a IH]; simpl; congruence. Qed.

Lemma take_length_append (w s : string) : take (String.length w) (w ++ s) = w.
Proof. induction w as [| a w IH]; simpl; [destruct s |]; congruence. Qed.

Lemma drop_length_append (w s : string) : drop (String.length w) (w ++ s) = s.
Proof. induction w as [| a w IH]; simpl; congruence. Qed.

Lemma forall_chars_append (f : ascii -> bool) (a b : string) :
  forall_chars f (a ++ b) = forall_chars f a && forall_chars f b.
Proof.
  induction a as [| x a IH]; simpl; [reflexivity |].
  rewrite IH, andb_assoc. reflexivity.
Qed.

Lemma starts_with_refl (sub s : string) : starts_with sub (sub ++ s) = true.
Proof.
  induction sub as [| a sub IH]; [destruct s; reflexivity |].
  cbn [String.append starts_with]. rewrite Ascii.eqb_refl, IH. reflexivity.
Qed.

(** Whether [sub] starts a text depends on its first [length sub]
    characters only. *)
Lemma starts_with_append (sub : string) :
  forall s t : string,
    (String.length sub <= String.length s)%nat ->
    starts_with sub (s ++ t) = starts_with sub s.
Proof.
  induction sub as [| a sub IH]; intros s t Hlen.
  - destruct s, t; reflexivity.
  - destruct s as [| b s]; [simpl in Hlen; lia |].
    cbn [String.append starts_with]. rewrite IH; [reflexivity |].
    simpl in Hlen. lia.
Qed.

Lemma drop_append (n : nat) : forall a b : string,
    (n <= String.length a)%nat -> drop n (a ++ b) = (drop n a ++ b)%string.
Proof.
  induction n as [| n IH]; intros a b Hn; [reflexivity |].
  destruct a as [| x a]; [simpl in Hn; lia |].
  cbn [String.append drop]. apply IH. simpl in Hn. lia.
Qed.

Lemma drop_add_append (a b : string) (n : nat) :
  drop (String.length a + n) (a ++ b) = drop n b.
Proof. induction a as [| x a IH]; [reflexivity |]. exact IH. Qed.

Lemma length_drop (n : nat) : forall s : string,
    String.length (drop n s) = (String.length s - n)%nat.
Proof.
  induction n as [| n IH]; intros s; [simpl; lia |].
  destruct s as [| x s]; [reflexivity |]. cbn [drop String.length]. rewrite IH. lia.
Qed.

Lemma find_from (text sub : string) (k : nat) :
  (k <= String.length text)%nat ->
  find text sub (Z.of_nat k) = find_at sub (drop k text) k.
Proof.
  intros Hk. unfold find.
  destruct (Z.ltb_spec (Z.of_nat (String.length text)) (Z.of_nat k)); [lia |].
  rewrite Nat2Z.id. reflexivity.
Qed.

Lemma find_at_nonneg (sub : string) :
  forall (s : string) (i : nat), find_at sub s i = -1 \/ Z.of_nat i <= find_at sub s i.
Proof.
  induction s as [| c s IH]; intros i; cbn [find_at];
    destruct (starts_with sub _); auto; try lia.
  destruct (IH (S i)); [auto | right; lia].
Qed.

(** A run without the first character of [sub] holds no start of it. *)
Lemma find_at_skip (c0 : ascii) (sub' s : string) :
  forall (xs : string) (i : nat),
    forall_chars (fun c => negb (Ascii.eqb c0 c)) xs = true ->
    find_at (String c0 sub') (xs ++ s) i
    = find_at (String c0 sub') s (i + String.length xs).
Proof.
  induction xs as [| x xs IH]; intros i Hxs.
  - cbn [String.append String.length]. rewrite Nat.add_0_r. reflexivity.
  - cbn [forall_chars] in Hxs. apply andb_true_iff in Hxs. destruct Hxs as [Hx Hxs].
    cbn [String.append find_at starts_with].
    apply negb_true_iff in Hx. rewrite Hx. cbn [andb].
    rewrite (IH (S i) Hxs). cbn [String.length]. f_equal. lia.
Qed.

Lemma forall_chars_impl (f g : ascii -> bool) (s : string) :
  (forall c, f c = true -> g c = true) ->
  forall_chars f s = true -> forall_chars g s = true.
Proof.
  intros Hfg. induction s as [| c s IH]; [reflexivity |]. cbn [forall_chars].
  intros H. apply andb_true_iff in H. destruct H as [Hc Hs].
  rewrite (Hfg c Hc), (IH Hs). reflexivity.
Qed.

Lemma drop_drop (n : nat) : forall (m : nat) (s : string), drop m (drop n s) = drop (n + m) s.
Proof.
  induction n as [| n IH]; intros m s; [reflexivity |].
  destruct s as [| c s]; [destruct m; reflexivity |]. cbn [drop Nat.add]. apply IH.
Qed.

Lemma find_at_next (sub : string) (c : ascii) (s : string) (i : nat) :
  starts_with sub (String c s) = false ->
  find_at sub (String c s) i = find_at sub s (S i).
Proof. intros H. cbn [find_at]. rewrite H. reflexivity. Qed.

Lemma find_at_here (sub s : string) (i : nat) :
  starts_with sub s = true -> find_at sub s i = Z.of_nat i.
Proof. intros H. destruct s; cbn [find_at]; rewrite H; reflexivity. Qed.

Lemma find_at_hit (sub : string) :
  forall (s : string) (i j : nat),
    find_at sub s i = Z.of_nat j ->
    (i <= j)%nat /\ starts_with sub (drop (j - i) s) = true.
Proof.
  induction s as [| c s IH]; intros i j H; cbn [find_at] in H.
  - destruct (starts_with sub EmptyString) eqn:E; [| lia].
    apply Nat2Z.inj in H. subst j. rewrite Nat.sub_diag. split; [lia | exact E].
  - destruct (starts_with sub (String c s)) eqn:E.
    + apply Nat2Z.inj in H. subst j. rewrite Nat.sub_diag. split; [lia | exact E].
    + destruct (IH _ _ H) as [Hle Hs]. split; [lia |].
      replace (j - i)%nat with (S (j - S i)) by lia. exact Hs.
Qed.

Lemma starts_with_first (c1 x : ascii) (sub s : string) :
  Ascii.eqb c1 x = false -> starts_with (String c1 sub) (String x s) = false.
Proof. intros H. cbn [starts_with]. rewrite H. reflexivity. Qed.

Lemma starts_with_second (c1 c2 x y : ascii) (sub s : string) :
  Ascii.eqb c2 y = false ->
  starts_with (String c1 (String c2 sub)) (String x (String y s)) = false.
Proof. intros H. cbn [starts_with]. rewrite H, andb_false_r. reflexivity. Qed.

Lemma eqb_digit (c a : ascii) :
  is_digit a = true -> is_digit c = false -> Ascii.eqb c a = false.
Proof.
  intros Ha Hc. destruct (Ascii.eqb_spec c a) as [-> | _]; [congruence | reflexivity].
Qed.

Lemma digits_not (c0 : ascii) (ds : string) :
  is_digit c0 = false ->
  forall_chars is_digit ds = true ->
  forall_chars (fun c => negb (Ascii.eqb c0 c)) ds = true.
Proof.
  intros H0. apply forall_chars_impl. intros c Hc.
  rewrite (eqb_digit _ c Hc H0). reflexivity.
Qed.

Lemma append_length_inj (w1 : string) :
  forall w2 a b : string,
    String.length w1 = String.length w2 ->
    (w1 ++ a = w2 ++ b)%string -> w1 = w2 /\ a = b.
Proof.
  induction w1 as [| x w1 IH]; intros [| y w2] a b Hlen H; try discriminate.
  - auto.
  - cbn [String.append] in H. injection H as -> H. injection Hlen as Hlen.
    destruct (IH _ _ _ Hlen H) as [-> ->]. auto.
Qed.

(** Where a run of characters of one class ends is fixed by the text. *)
Lemma run_split_unique (f : ascii -> bool) (xs1 : string) :
  forall (xs2 : string) (c1 c2 : ascii) (r1 r2 : string),
    forall_chars f xs1 = true -> forall_chars f xs2 = true ->
    f c1 = false -> f c2 = false ->
    (xs1 ++ String c1 r1 = xs2 ++ String c2 r2)%string ->
    xs1 = xs2 /\ c1 = c2 /\ r1 = r2.
Proof.
  induction xs1 as [| x xs1 IH]; intros [| y xs2] c1 c2 r1 r2 H1 H2 Hc1 Hc2 H;
    cbn [String.append forall_chars] in *.
  - injection H as -> ->. auto.
  - injection H as -> _. apply andb_true_iff in H2. destruct H2 as [Hy _]. congruence.
  - injection H as -> _. apply andb_true_iff in H1. destruct H1 as [Hx _]. congruence.
  - injection H as -> H.
    apply andb_true_iff in H1, H2. destruct H1 as [_ H1], H2 as [_ H2].
    destruct (IH _ _ _ _ _ H1 H2 Hc1 Hc2 H) as (-> & -> & ->). auto.
Qed.

End TextFacts.

(** ** The matcher finds a match exactly when there is one *)

Module ReFacts.

Import Text Re ReSpec TextFacts.

Section Engine.

Variable icase : bool.

Lemma cursor_eta (p : cursor) : mkCursor (prev p) (rest p) (idx p) = p.
Proof. destruct p; reflexivity. Qed.

Lemma star_greedy_sound {R} (c : cls) (g : option string) (k : cursor -> option R) :
  forall (s : string) (before : option ascii) (i : nat) (x : R),
    star_greedy icase c s before i k = Some x ->
    exists p', matches icase (Star c) (mkCursor before s i) g p' g /\ k p' = Some x.
Proof.
  induction s as [| a s IH]; intros before i x H; cbn [star_greedy] in H.
  - eexists. split; [apply m_star_stop | exact H].
  - destruct (in_cls icase c a) eqn:Ea.
    + destruct (star_greedy icase c s (Some a) (S i) k) as [y |] eqn:Es.
      * injection H as <-. destruct (IH _ _ _ Es) as (p' & Hm & Hk).
        exists p'. split; [| exact Hk].
        eapply m_star_more; [| exact Hm].
        exact (m_chr icase c (mkCursor before (String a s) i) g a s eq_refl Ea).
      * eexists. split; [apply m_star_stop | exact H].
    + eexists. split; [apply m_star_stop | exact H].
Qed.

Lemma star_lazy_sound {R} (c : cls) (g : option string) (k : cursor -> option R) :
  forall (s : string) (before : option ascii) (i : nat) (x : R),
    star_lazy icase c s before i k = Some x ->
    exists p', matches icase (LazyStar c) (mkCursor before s i) g p' g /\ k p' = Some x.
Proof.
  induction s as [| a s IH]; intros before i x H; cbn [star_lazy] in H.
  - destruct (k (mkCursor before EmptyString i)) as [y |] eqn:Ek; [| discriminate].
    injection H as <-. eexists. split; [apply m_lazy_stop | exact Ek].
  - destruct (k (mkCursor before (String a s) i)) as [y |] eqn:Ek.
    + injection H as <-. eexists. split; [apply m_lazy_stop | exact Ek].
    + destruct (in_cls icase c a) eqn:Ea; [| discriminate].
      destruct (IH _ _ _ H) as (p' & Hm & Hk).
      exists p'. split; [| exact Hk].
      eapply m_lazy_more; [| exact Hm].
      exact (m_chr icase c (mkCursor before (String a s) i) g a s eq_refl Ea).
Qed.

(** Whatever the matcher returns comes from a match. *)
Lemma rmatch_sound {R} (r : regex) :
  forall (p : cursor) (g : option string) (k : cursor -> option string -> option R) (x : R),
    rmatch icase r p g k = Some x ->
    exists p' g', matches icase r p g p' g' /\ k p' g' = Some x.
Proof.
  induction r as [| c | | | r1 IH1 r2 IH2 | c | c | r1 IH1];
    intros p g k x H; cbn [rmatch] in H.
  - exists p, g. split; [constructor | exact H].
  - destruct (rest p) as [| a s'] eqn:Er; [discriminate |].
    destruct (in_cls icase c a) eqn:Ea; [| discriminate].
    eexists _, g. split; [exact (m_chr icase c p g a s' Er Ea) | exact H].
  - destruct (at_bol p) eqn:E; [| discriminate].
    exists p, g. split; [constructor; exact E | exact H].
  - destruct (at_eol p) eqn:E; [| discriminate].
    exists p, g. split; [constructor; exact E | exact H].
  - destruct (IH1 _ _ _ _ H) as (p1 & g1 & Hm1 & H1).
    destruct (IH2 _ _ _ _ H1) as (p2 & g2 & Hm2 & H2).
    exists p2, g2. split; [econstructor; eassumption | exact H2].
  - destruct (star_greedy_sound c g _ _ _ _ _ H) as (p' & Hm & Hk).
    rewrite cursor_eta in Hm. exists p', g. split; assumption.
  - destruct (star_lazy_sound c g _ _ _ _ _ H) as (p' & Hm & Hk).
    rewrite cursor_eta in Hm. exists p', g. split; assumption.
  - destruct (IH1 _ _ _ _ H) as (p' & g' & Hm & Hk).
    eexists p', _. split; [apply m_group with (g' := g'); exact Hm | exact Hk].
Qed.

(** Where there is a match that the rest of the pattern accepts, the
    matcher returns something. *)
Lemma rmatch_complete {R} (r : regex) (p : cursor) (g : option string)
      (p' : cursor) (g' : option string) :
  matches icase r p g p' g' ->
  forall (k : cursor -> option string -> option R) (x : R),
    k p' g' = Some x -> exists y, rmatch icase r p g k = Some y.
Proof.
  induction 1 as [p g | c p g a s' Hr Ha | p g Hb | p g He
                  | r1 r2 p g p1 g1 p2 g2 _ IH1 _ IH2
                  | c p g | c p g p1 p2 Hc _ _ IH
                  | c p g | c p g p1 p2 Hc _ _ IH
                  | r p g p' g' _ IH];
    intros k x Hk; cbn [rmatch].
  - eauto.
  - rewrite Hr, Ha. eauto.
  - rewrite Hb. eauto.
  - rewrite He. eauto.
  - destruct (IH2 _ _ Hk) as (y & Hy). exact (IH1 _ _ Hy).
  - destruct (rest p) as [| a s] eqn:Er; cbn [star_greedy].
    + rewrite <- Er, cursor_eta. eauto.
    + destruct (in_cls icase c a).
      * destruct (star_greedy icase c s (Some a) (S (idx p)) (fun p' => k p' g));
          [eauto |]. rewrite <- Er, cursor_eta. eauto.
      * rewrite <- Er, cursor_eta. eauto.
  - inversion Hc as [| ? ? ? a s' Hr Ha | | | | | | | |]; subst.
    rewrite Hr. cbn [star_greedy]. rewrite Ha.
    destruct (IH _ _ Hk) as (y & Hy). cbn [rmatch rest prev idx] in Hy.
    rewrite Hy. eauto.
  - destruct (rest p) as [| a s] eqn:Er; cbn [star_lazy];
      rewrite <- Er, cursor_eta, Hk; eauto.
  - inversion Hc as [| ? ? ? a s' Hr Ha | | | | | | | |]; subst.
    rewrite Hr. cbn [star_lazy].
    destruct (k (mkCursor (prev p) (String a s') (idx p)) g); [eauto |].
    rewrite Ha. destruct (IH _ _ Hk) as (y & Hy). cbn [rmatch rest prev idx] in Hy.
    eauto.
  - exact (IH (fun p' _ => k p' (Some (take (idx p' - idx p) (rest p)))) x Hk).
Qed.

(** [re.search] returns the leftmost start of a match, with the group
    text of a match from there; it returns nothing only when the
    pattern matches nowhere. *)
Lemma search_at_spec (r : regex) :
  forall (s : string) (before : option ascii) (i : nat),
    match search_at icase r s before i with
    | Some m =>
        exists n p p',
          m_start m = (i + n)%nat
          /\ cursor_from s before i n = Some p
          /\ matches icase r p None p' (m_group1 m)
          /\ forall n' p0 p0' g,
              (n' < n)%nat -> cursor_from s before i n' = Some p0 ->
              ~ matches icase r p0 None p0' g
    | None =>
        forall n p p' g,
          cursor_from s before i n = Some p -> ~ matches icase r p None p' g
    end.
Proof.
  assert (Hhere : forall s before i,
             rmatch icase r (mkCursor before s i) None (fun _ g => Some (mkMatch i g)) = None ->
             forall p' g, ~ matches icase r (mkCursor before s i) None p' g).
  { intros s before i E p' g Hm.
    destruct (rmatch_complete r _ _ _ _ Hm (fun _ g => Some (mkMatch i g)) _ eq_refl)
      as (y & Hy).
    congruence. }
  induction s as [| a s IH]; intros before i; cbn [search_at];
    destruct (rmatch icase r _ None (fun _ g => Some (mkMatch i g))) as [m |] eqn:E.
  1, 3: destruct (rmatch_sound r _ _ _ _ E) as (p' & g' & Hm & Hk);
        injection Hk as <-;
        exists 0%nat; eexists; exists p'; cbn [m_start m_group1 cursor_from];
        (split; [lia | split; [reflexivity | split; [exact Hm | intros; lia]]]).
  - intros [| n] p p' g Hc; cbn [cursor_from] in Hc; [| discriminate].
    injection Hc as <-. apply Hhere. exact E.
  - specialize (IH (Some a) (S i)).
    destruct (search_at icase r s (Some a) (S i)) as [m |].
    + destruct IH as (n & p & p' & Hst & Hc & Hm & Hmin).
      exists (S n), p, p'. split; [lia | split; [exact Hc | split; [exact Hm |]]].
      intros [| n'] p0 p0' g Hlt Hc0; cbn [cursor_from] in Hc0.
      * injection Hc0 as <-. apply Hhere. exact E.
      * apply (Hmin n'); [lia | exact Hc0].
    + intros [| n] p p' g Hc; cbn [cursor_from] in Hc.
      * injection Hc as <-. apply Hhere. exact E.
      * exact (IH n p p' g Hc).
Qed.

Lemma search_found (r : regex) (text : string) (m : match_object) :
  search icase r text = Some m ->
  matches_at icase r text (m_start m) (m_group1 m)
  /\ forall j g, (j < m_start m)%nat -> ~ matches_at icase r text j g.
Proof.
  unfold search. intros H. pose proof (search_at_spec r text None 0) as S.
  rewrite H in S. destruct S as (n & p & p' & Hst & Hc & Hm & Hmin).
  simpl in Hst. subst n. split.
  - exists p, p'. split; assumption.
  - intros j g Hj (p0 & p0' & Hc0 & Hm0). exact (Hmin j p0 p0' g Hj Hc0 Hm0).
Qed.

Lemma search_not_found (r : regex) (text : string) :
  search icase r text = None -> forall j g, ~ matches_at icase r text j g.
Proof.
  unfold search. intros H j g (p & p' & Hc & Hm).
  pose proof (search_at_spec r text None 0) as S. rewrite H in S.
  exact (S j p p' g Hc Hm).
Qed.

Lemma search_finds (r : regex) (text : string) (j : nat) (g : option string) :
  matches_at icase r text j g ->
  exists m, search icase r text = Some m /\ (m_start m <= j)%nat.
Proof.
  intros Hm. destruct (search icase r text) as [m |] eqn:E.
  - exists m. split; [reflexivity |].
    destruct (search_found r text m E) as [_ Hmin].
    destruct (Nat.le_gt_cases (m_start m) j) as [Hle | Hgt]; [exact Hle |].
    exfalso. exact (Hmin j g Hgt Hm).
  - exfalso. exact (search_not_found r text E j g Hm).
Qed.

(** *** What a match consumes *)

Lemma matches_cat_inv (r1 r2 : regex) (p : cursor) (g : option string)
      (p2 : cursor) (g2 : option string) :
  matches icase (Cat r1 r2) p g p2 g2 ->
  exists p1 g1, matches icase r1 p g p1 g1 /\ matches icase r2 p1 g1 p2 g2.
Proof. inversion 1; subst; eauto. Qed.

Lemma matches_chr_inv (c : cls) (p : cursor) (g : option string)
      (p' : cursor) (g' : option string) :
  matches icase (Chr c) p g p' g' ->
  exists a s', rest p = String a s' /\ in_cls icase c a = true
               /\ p' = mkCursor (Some a) s' (S (idx p)) /\ g' = g.
Proof. inversion 1; subst; eauto 6. Qed.

Lemma matches_group_inv (r : regex) (p : cursor) (g : option string)
      (p' : cursor) (g' : option string) :
  matches icase (Group r) p g p' g' ->
  (exists g0, matches icase r p g p' g0)
  /\ g' = Some (take (idx p' - idx p) (rest p)).
Proof. inversion 1; subst; eauto. Qed.

Lemma matches_no_group (r : regex) (p : cursor) (g : option string)
      (p' : cursor) (g' : option string) :
  matches icase r p g p' g' -> no_group r = true -> g' = g.
Proof.
  induction 1; cbn [no_group]; intros Hn; try reflexivity; try discriminate.
  - apply andb_true_iff in Hn. destruct Hn as [H1 H2].
    rewrite IHmatches2, IHmatches1; auto.
Qed.

(** A match consumes a prefix of the text ahead. *)
Lemma matches_consumes (r : regex) (p : cursor) (g : option string)
      (p' : cursor) (g' : option string) :
  matches icase r p g p' g' ->
  exists w, rest p = (w ++ rest p')%string /\ idx p' = (idx p + String.length w)%nat.
Proof.
  induction 1 as [p g | c p g a s' Hr Ha | p g Hb | p g He
                  | r1 r2 p g p1 g1 p2 g2 _ IH1 _ IH2
                  | c p g | c p g p1 p2 _ IH1 _ IH2
                  | c p g | c p g p1 p2 _ IH1 _ IH2
                  | r p g p' g' _ IH];
    try (exists EmptyString; split; [reflexivity | simpl; lia]);
    try (destruct IH1 as (w1 & Hr1 & Hi1); destruct IH2 as (w2 & Hr2 & Hi2);
         exists (w1 ++ w2)%string; rewrite Hr1, Hr2, Hi2, Hi1, append_assoc;
         rewrite length_append; split; [reflexivity | lia]).
  - exists (String a EmptyString). cbn [rest idx]. rewrite Hr.
    split; [reflexivity | simpl; lia].
  - exact IH.
Qed.

(** A repetition consumes characters of its class only. *)
Lemma matches_star_chars (c : cls) (p : cursor) (g : option string)
      (p' : cursor) (g' : option string) :
  matches icase (Star c) p g p' g' ->
  exists w, rest p = (w ++ rest p')%string
            /\ idx p' = (idx p + String.length w)%nat
            /\ forall_chars (in_cls icase c) w = true.
Proof.
  remember (Star c) as r eqn:Er. intros H. revert Er.
  induction H as [| | | | | c0 p g | c0 p g p1 p2 Hc _ _ IH | | |];
    intros Er; try discriminate; injection Er as ->.
  - exists EmptyString. repeat split. simpl. lia.
  - destruct (IH eq_refl) as (w & Hr & Hi & Hw).
    destruct (matches_chr_inv _ _ _ _ _ Hc) as (a & s' & Ha & Hin & -> & _).
    cbn [rest idx] in *. exists (String a w). rewrite Ha, Hr, Hi.
    repeat split; simpl; [lia | rewrite Hin, Hw; reflexivity].
Qed.

(** The text of the group is what its pattern consumed. *)
Lemma matches_group_text (r : regex) (p : cursor) (g : option string)
      (p' : cursor) (g' : option string) :
  matches icase (Group r) p g p' g' ->
  exists w, g' = Some w /\ rest p = (w ++ rest p')%string
            /\ exists g0, matches icase r p g p' g0.
Proof.
  intros H. destruct (matches_group_inv _ _ _ _ _ H) as [[g0 Hm] ->].
  destruct (matches_consumes _ _ _ _ _ Hm) as (w & Hr & Hi).
  exists w. rewrite Hi, Hr.
  replace (idx p + String.length w - idx p)%nat with (String.length w) by lia.
  rewrite take_length_append. eauto.
Qed.

(** A literal word consumes as many characters as it has. *)
Lemma matches_str_length (word : string) :
  forall (p : cursor) (g : option string) (p' : cursor) (g' : option string),
    matches icase (Str word) p g p' g' ->
    exists w, rest p = (w ++ rest p')%string /\ String.length w = String.length word.
Proof.
  induction word as [| c word IH]; intros p g p' g' H; cbn [Str] in H.
  - inversion H; subst. exists EmptyString. auto.
  - destruct (matches_cat_inv _ _ _ _ _ _ H) as (p1 & g1 & Hc & Hw).
    destruct (matches_chr_inv _ _ _ _ _ Hc) as (a & s' & Ha & _ & -> & _).
    destruct (IH _ _ _ _ Hw) as (w & Hr & Hl). cbn [rest] in Hr.
    exists (String a w). rewrite Ha, Hr. cbn [String.append String.length]. auto.
Qed.

(** The group of [(\d+)] holds one decimal digit at least, and decimal
    digits only. *)
Lemma matches_digits_group (p : cursor) (g : option string)
      (p' : cursor) (g' : option string) :
  matches icase (Group (Plus Digit)) p g p' g' ->
  exists a ds, g' = Some (String a ds) /\ is_digit a = true
               /\ forall_chars is_digit ds = true
               /\ rest p = (String a ds ++ rest p')%string.
Proof.
  intros H. destruct (matches_group_inv _ _ _ _ _ H) as [[g0 Hm] ->].
  destruct (matches_cat_inv _ _ _ _ _ _ Hm) as (p1 & g1 & Hc & Hs).
  destruct (matches_chr_inv _ _ _ _ _ Hc) as (a & s' & Ha & Hin & -> & _).
  destruct (matches_star_chars _ _ _ _ _ Hs) as (w & Hr & Hi & Hw).
  cbn [rest idx] in *. exists a, w. rewrite Ha, Hr, Hi.
  replace (S (idx p) + String.length w - idx p)%nat with (S (String.length w)) by lia.
  cbn [take]. rewrite take_length_append. auto.
Qed.

End Engine.

Lemma star_greedy_run {R} (icase : bool) (c : cls) (k : cursor -> option R) (x : R) (s : string) :
  forall (xs : string) (before : option ascii) (i : nat),
    forall_chars (in_cls icase c) xs = true ->
    star_greedy icase c s (last_of xs before) (i + String.length xs) k = Some x ->
    star_greedy icase c (xs ++ s) before i k = Some x.
Proof.
  induction xs as [| a xs IH]; intros before i Hall H; cbn [String.append].
  - cbn in H. rewrite Nat.add_0_r in H. exact H.
  - cbn [forall_chars] in Hall. apply andb_true_iff in Hall. destruct Hall as [Ha Hxs].
    cbn [star_greedy]. rewrite Ha.
    rewrite (IH (Some a) (S i) Hxs); [reflexivity |].
    cbn [last_of String.length] in H. rewrite <- H. f_equal. lia.
Qed.

(** *** Building a match *)

Lemma cursor_from_append (pre s : string) :
  forall (before : option ascii) (i : nat),
    cursor_from (pre ++ s) before i (String.length pre)
    = Some (mkCursor (last_of pre before) s (i + String.length pre)).
Proof.
  induction pre as [| a pre IH]; intros before i; cbn [String.append String.length].
  - rewrite Nat.add_0_r. destruct s; reflexivity.
  - cbn [cursor_from last_of]. rewrite IH. do 2 f_equal. lia.
Qed.

Lemma matches_word (word : string) :
  forall (w s : string) (before : option ascii) (i : nat) (g : option string),
    same_letters word w = true ->
    matches true (Str word) (mkCursor before (w ++ s) i) g
            (mkCursor (last_of w before) s (i + String.length w)) g.
Proof.
  induction word as [| c word IH]; intros [| a w] s before i g H;
    cbn [same_letters] in H; try discriminate.
  - cbn [Str String.append last_of String.length]. rewrite Nat.add_0_r. constructor.
  - apply andb_true_iff in H. destruct H as [Ha Hw].
    cbn [Str String.append last_of String.length].
    replace (i + S (String.length w))%nat with (S i + String.length w)%nat by lia.
    eapply m_cat; [| exact (IH w s (Some a) (S i) g Hw)].
    exact (m_chr true (Lit c) (mkCursor before (String a (w ++ s)) i) g a (w ++ s)
                 eq_refl Ha).
Qed.

Lemma matches_run (icase : bool) (c : cls) (s : string) (g : option string) :
  forall (ws : string) (before : option ascii) (i : nat),
    forall_chars (in_cls icase c) ws = true ->
    matches icase (Star c) (mkCursor before (ws ++ s) i) g
            (mkCursor (last_of ws before) s (i + String.length ws)) g.
Proof.
  induction ws as [| a ws IH]; intros before i H; cbn [String.append last_of String.length].
  - rewrite Nat.add_0_r. constructor.
  - cbn [forall_chars] in H. apply andb_true_iff in H. destruct H as [Ha Hws].
    replace (i + S (String.length ws))%nat with (S i + String.length ws)%nat by lia.
    eapply m_star_more; [| exact (IH (Some a) (S i) Hws)].
    exact (m_chr icase c (mkCursor before (String a (ws ++ s)) i) g a (ws ++ s) eq_refl Ha).
Qed.

Lemma matches_digits (icase : bool) (a : ascii) (ds s : string)
      (before : option ascii) (i : nat) (g : option string) :
  is_digit a = true -> forall_chars is_digit ds = true ->
  matches icase (Group (Plus Digit)) (mkCursor before (String a ds ++ s) i) g
          (mkCursor (last_of ds (Some a)) s (i + S (String.length ds)))
          (Some (String a ds)).
Proof.
  intros Ha Hds.
  assert (Hin : matches icase (Plus Digit) (mkCursor before (String a ds ++ s) i) g
                        (mkCursor (last_of ds (Some a)) s (i + S (String.length ds))) g).
  { unfold Plus.
    replace (i + S (String.length ds))%nat with (S i + String.length ds)%nat by lia.
    eapply m_cat; [| exact (matches_run icase Digit s g ds (Some a) (S i) Hds)].
    exact (m_chr icase Digit (mkCursor before (String a (ds ++ s)) i) g a (ds ++ s)
                 eq_refl Ha). }
  pose proof (m_group _ _ _ _ _ _ Hin) as H. cbn [idx rest] in H.
  replace (i + S (String.length ds) - i)%nat with (S (String.length ds)) in H by lia.
  cbn [String.append take] in H. rewrite take_length_append in H. exact H.
Qed.

Lemma search_at_next (icase : bool) (r : regex) (c : ascii) (s : string) before i :
  rmatch icase r (mkCursor before (String c s) i) None (fun _ g => Some (mkMatch i g)) = None ->
  search_at icase r (String c s) before i = search_at icase r s (Some c) (S i).
Proof. intros H. cbn [search_at]. rewrite H. reflexivity. Qed.

Lemma search_at_here (icase : bool) (r : regex) (s : string) before i m :
  rmatch icase r (mkCursor before s i) None (fun _ g => Some (mkMatch i g)) = Some m ->
  search_at icase r s before i = Some m.
Proof. intros H. destruct s; cbn [search_at]; rewrite H; reflexivity. Qed.

End ReFacts.

(** ** Build ids *)

Module SteamAppFacts.

Import Text Re ReSpec TextFacts ReFacts SteamApp SteamAppSpec UpdatesSpec.

(** Whatever a field pattern captures is a non-empty run of digits. *)
Lemma field_re_group (icase : bool) (key : string) (p p' : cursor) (g : option string) :
  matches icase (field_re key) p None p' g ->
  exists a ds, g = Some (String a ds) /\ is_digit a = true
               /\ forall_chars is_digit ds = true.
Proof.
  unfold field_re, seq. cbn [fold_right]. intros H.
  destruct (matches_cat_inv _ _ _ _ _ _ _ H) as (p1 & g1 & _ & H1).
  destruct (matches_cat_inv _ _ _ _ _ _ _ H1) as (p2 & g2 & _ & H2).
  destruct (matches_cat_inv _ _ _ _ _ _ _ H2) as (p3 & g3 & _ & H3).
  destruct (matches_cat_inv _ _ _ _ _ _ _ H3) as (p4 & g4 & _ & H4).
  destruct (matches_cat_inv _ _ _ _ _ _ _ H4) as (p5 & g5 & _ & H5).
  destruct (matches_cat_inv _ _ _ _ _ _ _ H5) as (p6 & g6 & Hg & H6).
  destruct (matches_digits_group _ _ _ _ _ Hg) as (a & ds & -> & Ha & Hds & _).
  rewrite (matches_no_group _ _ _ _ _ _ H6 eq_refl). eauto.
Qed.

Lemma search_field_group (icase : bool) (key text : string) (m : match_object) :
  search icase (field_re key) text = Some m ->
  exists a ds, group1 m = String a ds /\ is_digit a = true
               /\ forall_chars is_digit ds = true.
Proof.
  intros H. destruct (search_found _ _ _ _ H) as [(p & p' & _ & Hm) _].
  destruct (field_re_group _ _ _ _ _ Hm) as (a & ds & Hg & Ha & Hds).
  exists a, ds. unfold group1. rewrite Hg. auto.
Qed.

Lemma parse_buildid_truthy (text id : string) :
  _parse_buildid text = Some id -> truthy (Some id) = true.
Proof.
  unfold _parse_buildid. destruct (search true (field_re "buildid") text) as [m |] eqn:E;
    [| discriminate].
  destruct (search_field_group _ _ _ _ E) as (a & ds & Hg & _).
  intros H. injection H as <-. rewrite Hg. reflexivity.
Qed.

Lemma parse_appmanifest_truthy (manifest : file) (info : option string * option Z)
      (id : string) :
  parse_appmanifest_build_info manifest = Return info ->
  fst info = Some id -> truthy (Some id) = true.
Proof.
  unfold parse_appmanifest_build_info.
  destruct manifest as [| e | text]; [| discriminate |].
  { intros H. injection H as <-. discriminate. }
  assert (Hb : forall b : option string,
             match search false (field_re "buildid") text with
             | Some build_match => Some (group1 build_match)
             | None => None
             end = b -> b = Some id -> truthy (Some id) = true).
  { intros b Hb ->.
    destruct (search false (field_re "buildid") text) as [m |] eqn:E; [| discriminate].
    destruct (search_field_group _ _ _ _ E) as (a & ds & Hg & _).
    injection Hb as <-. rewrite Hg. reflexivity. }
  destruct (search false (field_re "LastUpdated") text) as [m |].
  - destruct (int_of_str (group1 m)); try discriminate.
    intros H. injection H as <-. exact (Hb _ eq_refl).
  - intros H. injection H as <-. exact (Hb _ eq_refl).
Qed.

Lemma brace_loop_bounds (s : string) :
  forall (i0 : nat) (depth : Z) (i : nat),
    brace_loop s i0 depth = Some i ->
    (i0 <= i)%nat /\ (i - i0 < String.length s)%nat.
Proof.
  induction s as [| ch s IH]; intros i0 depth i H; cbn [brace_loop] in H; [discriminate |].
  cbn [String.length].
  destruct (Ascii.eqb ch "{").
  - apply IH in H. lia.
  - destruct (Ascii.eqb ch "}").
    + destruct (depth - 1 =? 0).
      * injection H as <-. lia.
      * apply IH in H. lia.
    + apply IH in H. lia.
Qed.

Lemma braced_after_truthy (text name block : string) :
  braced_after text name = Some block -> truthy (Some block) = true.
Proof.
  unfold braced_after.
  destruct (find text (quoted name) 0 =? -1); [discriminate |].
  destruct (find text "{" (find text (quoted name) 0) =? -1); [discriminate |].
  set (start := Z.to_nat (find text "{" (find text (quoted name) 0))).
  destruct (brace_loop (drop start text) start 0) as [i |] eqn:E; [| discriminate].
  apply brace_loop_bounds in E. destruct E as [Hle Hlt].
  intros H. injection H as <-. unfold slice.
  replace (i + 1 - start)%nat with (S (i - start)) by lia.
  destruct (drop start text); [simpl in Hlt; lia | reflexivity].
Qed.

Lemma extract_branch_block_truthy (text branch block : string) :
  _extract_branch_block text branch = Some block -> truthy (Some block) = true.
Proof.
  unfold _extract_branch_block, _extract_named_block.
  destruct (negb (truthy (braced_after text "branches"))); [discriminate |].
  destruct (braced_after text "branches") as [bb |]; [| discriminate].
  apply braced_after_truthy.
Qed.

(** The two places [buildid_of_output] looks at, in order: the block of
    the branch, and only when that gives nothing, the whole output. *)
Lemma buildid_of_output_eq (output branch : string) :
  buildid_of_output output branch
  = match _extract_branch_block output branch with
    | Some block =>
        match _parse_buildid block with
        | Some id => (Some id, None)
        | None =>
            match _parse_buildid output with
            | Some id => (Some id, None)
            | None => (None, Some "buildid not found in steamcmd output"%string)
            end
        end
    | None =>
        match _parse_buildid output with
        | Some id => (Some id, None)
        | None => (None, Some "buildid not found in steamcmd output"%string)
        end
    end.
Proof.
  assert (Hfb : (if truthy (_parse_buildid output) then (_parse_buildid output, None)
                 else (None, Some "buildid not found in steamcmd output"%string))
                = match _parse_buildid output with
                  | Some id => (Some id, None)
                  | None => (None, Some "buildid not found in steamcmd output"%string)
                  end).
  { destruct (_parse_buildid output) as [id |] eqn:E; [| reflexivity].
    rewrite (parse_buildid_truthy _ _ E). reflexivity. }
  unfold buildid_of_output. cbv zeta. rewrite Hfb.
  destruct (_extract_branch_block output branch) as [block |] eqn:Eb; [| reflexivity].
  rewrite (extract_branch_block_truthy _ _ _ Eb).
  destruct (_parse_buildid block) as [id |] eqn:E; [| reflexivity].
  rewrite (parse_buildid_truthy _ _ E). reflexivity.
Qed.

Lemma buildid_of_output_truthy (output branch : string) (id : string) :
  fst (buildid_of_output output branch) = Some id -> truthy (Some id) = true.
Proof.
  rewrite buildid_of_output_eq.
  destruct (_extract_branch_block output branch) as [block |].
  - destruct (_parse_buildid block) as [id1 |] eqn:E1.
    + cbn [fst]. intros H. injection H as <-. exact (parse_buildid_truthy _ _ E1).
    + destruct (_parse_buildid output) as [id2 |] eqn:E2; [| discriminate].
      cbn [fst]. intros H. injection H as <-. exact (parse_buildid_truthy _ _ E2).
  - destruct (_parse_buildid output) as [id2 |] eqn:E2; [| discriminate].
    cbn [fst]. intros H. injection H as <-. exact (parse_buildid_truthy _ _ E2).
Qed.

(** Once the path of the tool has been looked at, [steamcmd_get_buildid]
    returns; the build id it returns, if any, is not empty, and comes
    with no error text. *)
Lemma steamcmd_get_buildid_returns (steamcmd_path : string) (app_id : Z)
      (branch : string) (dump_path : option string) (w : world) (found : bool) :
  steamcmd_exists w = Return found ->
  exists remote err w',
    steamcmd_get_buildid steamcmd_path app_id branch dump_path w
    = (Return (remote, err), w')
    /\ manifest_file w' = manifest_file w
    /\ (forall id, remote = Some id -> truthy (Some id) = true)
    /\ (found = false \/ (exists exc, steamcmd_run w = Failed exc) ->
        remote = None /\ err <> None).
Proof.
  intros Ee. unfold steamcmd_get_buildid, bind, get, lift. rewrite Ee.
  destruct found; cbn [negb].
  2: { eexists _, _, _. split; [reflexivity |]. repeat split; try discriminate. }
  destruct (steamcmd_run w) as [exc | p] eqn:Er.
  { eexists _, _, _. split; [reflexivity |]. repeat split; try discriminate. }
  set (output := (stdout p ++ String nl EmptyString ++ stderr p)%string).
  assert (Hdump : exists w',
             (match dump_path with
              | Some _ =>
                  if dump_writable w
                  then put (write_dump
                              ("ReturnCode: " ++ str_of_int (returncode p)
                                 ++ String nl EmptyString ++ "Command: "
                                 ++ command_line steamcmd_path app_id
                                 ++ String nl (String nl EmptyString) ++ output)%string w)
                  else ret tt
              | None => ret tt
              end) w = (Return tt, w') /\ manifest_file w' = manifest_file w).
  { destruct dump_path; [destruct (dump_writable w) |]; eexists; split; reflexivity. }
  destruct Hdump as (w' & Hd & Hm). rewrite Hd.
  destruct (buildid_of_output output branch) as [remote err] eqn:Eb.
  exists remote, err, w'. split; [reflexivity | split; [exact Hm | split]].
  - intros id ->. apply (buildid_of_output_truthy output branch).
    rewrite Eb. reflexivity.
  - intros [H | (exc & H)]; discriminate.
Qed.

(** *** The brace loop finds the matching brace *)

Lemma find_at_first (sub rest : string) :
  forall (pre : string) (i : nat),
    absent_before sub (pre ++ sub) (String.length pre) ->
    find_at sub (pre ++ sub ++ rest) i = Z.of_nat (i + String.length pre).
Proof.
  induction pre as [| c pre IH]; intros i Habs.
  - cbn [String.append String.length].
    destruct (sub ++ rest)%string eqn:E; cbn [find_at]; rewrite <- E, starts_with_refl;
      f_equal; lia.
  - cbn [String.append find_at].
    assert (E : starts_with sub (String c (pre ++ sub ++ rest)) = false).
    { replace (String c (pre ++ sub ++ rest))
        with ((String c pre ++ sub) ++ rest)%string
        by (cbn [String.append]; rewrite append_assoc; reflexivity).
      rewrite starts_with_append by (rewrite length_append; lia).
      apply (Habs 0%nat). simpl. lia. }
    rewrite E, (IH (S i)).
    + cbn [String.length]. f_equal. lia.
    + intros j Hj. apply (Habs (S j)). simpl. lia.
Qed.

Lemma open_through_skip (s : string) (d : Z) :
  forall xs : string,
    forall_chars no_brace xs = true -> open_through (xs ++ s) d = open_through s d.
Proof.
  induction xs as [| x xs IH]; intros H; [reflexivity |].
  cbn [forall_chars] in H. apply andb_true_iff in H. destruct H as [Hx Hxs].
  unfold no_brace in Hx. apply andb_true_iff in Hx. destruct Hx as [H1 H2].
  apply negb_true_iff in H1, H2.
  cbn [String.append open_through]. rewrite H1, H2. exact (IH Hxs).
Qed.

Lemma brace_loop_app (s : string) :
  forall (xs : string) (i : nat) (d d' : Z),
    open_through xs d = Some d' ->
    brace_loop (xs ++ s) i d = brace_loop s (i + String.length xs) d'.
Proof.
  induction xs as [| x xs IH]; intros i d d' H; cbn [open_through] in H.
  - injection H as <-. cbn [String.append String.length]. rewrite Nat.add_0_r. reflexivity.
  - cbn [String.append brace_loop String.length].
    replace (i + S (String.length xs))%nat with (S i + String.length xs)%nat by lia.
    destruct (Ascii.eqb x "{"); [exact (IH _ _ _ H) |].
    destruct (Ascii.eqb x "}"); [| exact (IH _ _ _ H)].
    destruct (d - 1 =? 0); [discriminate | exact (IH _ _ _ H)].
Qed.

Lemma brace_loop_closes (body rest : string) (i : nat) :
  open_through body 1 = Some 1 ->
  brace_loop (String "{" (body ++ String "}" rest)) i 0
  = Some (i + S (String.length body))%nat.
Proof.
  intros H. cbn [brace_loop]. change (Ascii.eqb "{" "{") with true. cbv iota.
  change (0 + 1) with 1.
  rewrite (brace_loop_app _ _ _ _ _ H). cbn [brace_loop].
  change (Ascii.eqb "}" "{") with false. change (Ascii.eqb "}" "}") with true.
  cbv iota. change (1 - 1 =? 0) with true. cbv iota. f_equal. lia.
Qed.

Lemma brace_loop_exact (s : string) :
  forall (i : nat) (d : Z) (j : nat),
    brace_loop s i d = Some j ->
    exists body rest,
      s = (body ++ String "}" rest)%string
      /\ j = (i + String.length body)%nat
      /\ open_through body d = Some 1.
Proof.
  induction s as [| ch s IH]; intros i d j H; cbn [brace_loop] in H; [discriminate |].
  destruct (Ascii.eqb ch "{") eqn:Eo.
  - destruct (IH _ _ _ H) as (body & rest & -> & -> & Hb).
    exists (String ch body), rest. cbn [String.append String.length open_through].
    rewrite Eo. repeat split; [lia | exact Hb].
  - destruct (Ascii.eqb ch "}") eqn:Ec.
    + destruct (Z.eqb_spec (d - 1) 0) as [Hd | Hd].
      * injection H as <-. apply Ascii.eqb_eq in Ec. subst ch.
        exists EmptyString, s. cbn [String.append String.length open_through].
        repeat split; [lia | f_equal; lia].
      * destruct (IH _ _ _ H) as (body & rest & -> & -> & Hb).
        exists (String ch body), rest. cbn [String.append String.length open_through].
        rewrite Eo, Ec. destruct (Z.eqb_spec (d - 1) 0); [contradiction |].
        repeat split; [lia | exact Hb].
    + destruct (IH _ _ _ H) as (body & rest & -> & -> & Hb).
      exists (String ch body), rest. cbn [String.append String.length open_through].
      rewrite Eo, Ec. repeat split; [lia | exact Hb].
Qed.

Lemma braced_after_found (name pre mid body rest : string) :
  find_at (quoted name)
          (pre ++ quoted name ++ mid ++ String "{" (body ++ String "}" rest)) 0
  = Z.of_nat (String.length pre) ->
  forall_chars no_open (quoted name ++ mid) = true ->
  open_through body 1 = Some 1 ->
  braced_after (pre ++ quoted name ++ mid ++ String "{" (body ++ String "}" rest)) name
  = Some (String "{" (body ++ String "}" EmptyString)).
Proof.
  intros Hfind Hmid Hbody. unfold braced_after.
  set (text := (pre ++ quoted name ++ mid ++ String "{" (body ++ String "}" rest))%string)
    in *.
  assert (Hpos : find text (quoted name) 0 = Z.of_nat (String.length pre)).
  { change 0 with (Z.of_nat 0). rewrite find_from by lia. exact Hfind. }
  rewrite Hpos.
  destruct (Z.eqb_spec (Z.of_nat (String.length pre)) (-1)) as [Hc | _]; [lia |].
  assert (Hstart : find text "{" (Z.of_nat (String.length pre))
                   = Z.of_nat (String.length pre + String.length (quoted name ++ mid))).
  { rewrite find_from by (subst text; rewrite length_append; lia).
    subst text. rewrite <- (Nat.add_0_r (String.length pre)) at 1.
    rewrite drop_add_append. cbn [drop]. rewrite <- append_assoc.
    rewrite (find_at_skip "{" EmptyString _ _ _ Hmid). cbn [find_at starts_with].
    change (Ascii.eqb "{" "{") with true.
    destruct (body ++ String "}" rest)%string; reflexivity. }
  rewrite Hstart.
  destruct (Z.eqb_spec (Z.of_nat (String.length pre + String.length (quoted name ++ mid))) (-1))
    as [Hc | _]; [lia |].
  rewrite Nat2Z.id.
  assert (Hdrop : drop (String.length pre + String.length (quoted name ++ mid)) text
                  = String "{" (body ++ String "}" rest)).
  { subst text. rewrite drop_add_append. rewrite <- append_assoc.
    rewrite <- (Nat.add_0_r (String.length (quoted name ++ mid))).
    rewrite drop_add_append. reflexivity. }
  rewrite Hdrop, (brace_loop_closes _ _ _ Hbody).
  unfold slice. rewrite Hdrop.
  replace (String.length pre + String.length (quoted name ++ mid) + S (String.length body) + 1
           - (String.length pre + String.length (quoted name ++ mid)))%nat
    with (String.length (String "{" (body ++ String "}" EmptyString))).
  2: { cbn [String.length]. rewrite length_append. simpl. lia. }
  replace (String "{" (body ++ String "}" rest))
    with (String "{" (body ++ String "}" EmptyString) ++ rest)%string.
  2: { cbn [String.append]. rewrite append_assoc. reflexivity. }
  rewrite take_length_append. reflexivity.
Qed.

Lemma braced_after_exact (text name block : string) :
  braced_after text name = Some block ->
  exists body,
    block = String "{" (body ++ String "}" EmptyString)
    /\ open_through body 1 = Some 1.
Proof.
  unfold braced_after.
  destruct (find text (quoted name) 0 =? -1); [discriminate |].
  set (pos := find text (quoted name) 0).
  destruct (Z.eqb_spec (find text "{" pos) (-1)) as [| Hne]; [discriminate |].
  set (start := Z.to_nat (find text "{" pos)).
  destruct (brace_loop (drop start text) start 0) as [i |] eqn:E; [| discriminate].
  intros H. injection H as <-.
  assert (Hopen : starts_with "{" (drop start text) = true).
  { revert Hne. subst start. unfold find.
    destruct (Z.of_nat (String.length text) <? pos); [congruence |].
    intros Hne.
    destruct (find_at_nonneg "{" (drop (Z.to_nat pos) text) (Z.to_nat pos)) as [Hm | Hge];
      [congruence |].
    destruct (find_at_hit "{" (drop (Z.to_nat pos) text) (Z.to_nat pos)
                (Z.to_nat (find_at "{" (drop (Z.to_nat pos) text) (Z.to_nat pos))))
      as [Hle Hs]; [rewrite Z2Nat.id; [reflexivity | lia] |].
    rewrite drop_drop in Hs.
    replace (Z.to_nat pos + (Z.to_nat (find_at "{" (drop (Z.to_nat pos) text) (Z.to_nat pos))
                             - Z.to_nat pos))%nat
      with (Z.to_nat (find_at "{" (drop (Z.to_nat pos) text) (Z.to_nat pos))) in Hs by lia.
    exact Hs. }
  destruct (brace_loop_exact _ _ _ _ E) as (body0 & rest & Hd & -> & Hb).
  unfold slice. rewrite Hd in *.
  destruct body0 as [| c body]; [cbn in Hb; discriminate |].
  cbn [String.append starts_with] in Hopen.
  apply andb_true_iff in Hopen. destruct Hopen as [Hc _]. apply Ascii.eqb_eq in Hc. subst c.
  exists body. split.
  - replace (start + String.length (String "{" body) + 1 - start)%nat
      with (String.length (String "{" body ++ String "}" EmptyString)).
    2: { rewrite length_append. simpl. lia. }
    replace (String "{" body ++ String "}" rest)%string
      with ((String "{" body ++ String "}" EmptyString) ++ rest)%string.
    2: { rewrite append_assoc. reflexivity. }
    rewrite take_length_append. reflexivity.
  - cbn [open_through] in Hb. change (Ascii.eqb "{" "{") with true in Hb. exact Hb.
Qed.

Lemma absent_before_of_find (sub : string) :
  forall (s : string) (i n : nat),
    find_at sub s i = Z.of_nat (i + n) -> absent_before sub s n.
Proof.
  induction s as [| c s IH]; intros i n H j Hj; cbn [find_at] in H.
  - destruct (starts_with sub EmptyString); lia.
  - destruct (starts_with sub (String c s)) eqn:E; [lia |].
    destruct j as [| j]; [exact E |]. cbn [drop].
    destruct n as [| n]; [lia |].
    apply (IH (S i) n); [rewrite H; f_equal; lia | lia].
Qed.

Lemma digits_no_brace (ds : string) :
  forall_chars is_digit ds = true -> forall_chars no_brace ds = true.
Proof.
  apply forall_chars_impl. intros c Hc. unfold no_brace.
  rewrite (Ascii.eqb_sym c "{"), (Ascii.eqb_sym c "}").
  rewrite !(eqb_digit _ c Hc) by reflexivity. reflexivity.
Qed.

(** *** A two-branch answer *)

Lemma branch_block_eq (d : string) :
  branch_block d = String "{" (branch_body d ++ String "}" EmptyString).
Proof.
  unfold branch_block, branch_body, line, quoted. cbn [String.append].
  repeat (rewrite !append_assoc; cbn [String.append]). reflexivity.
Qed.

Lemma open_through_branch_body (d : string) :
  forall_chars is_digit d = true -> open_through (branch_body d) 1 = Some 1.
Proof.
  intros Hd. rewrite <- (append_nil_r (branch_body d)).
  rewrite open_through_skip; [reflexivity |].
  unfold branch_body, quoted. cbn [String.append forall_chars].
  rewrite !forall_chars_append. rewrite (digits_no_brace _ Hd). reflexivity.
Qed.

Lemma open_through_branch_block (d s : string) (k : Z) :
  forall_chars is_digit d = true -> k <> 0 ->
  open_through (branch_block d ++ s) k = open_through s k.
Proof.
  intros Hd Hk. rewrite branch_block_eq. cbn [String.append open_through].
  change (Ascii.eqb "{" "{") with true. cbv iota.
  rewrite append_assoc, open_through_skip.
  2: { unfold branch_body, quoted. cbn [String.append forall_chars].
       rewrite !forall_chars_append, (digits_no_brace _ Hd). reflexivity. }
  cbn [String.append open_through].
  change (Ascii.eqb "}" "{") with false. change (Ascii.eqb "}" "}") with true. cbv iota.
  replace (k + 1 - 1) with k by lia.
  destruct (Z.eqb_spec k 0); [contradiction | reflexivity].
Qed.

Lemma branches_block_eq (d1 d2 : string) :
  branches_block d1 d2 = String "{" (branches_body d1 d2 ++ String "}" EmptyString).
Proof.
  unfold branches_block, branches_body, line. cbn [String.append].
  repeat (rewrite !append_assoc; cbn [String.append]). reflexivity.
Qed.

Lemma open_through_branches_body (d1 d2 : string) :
  forall_chars is_digit d1 = true -> forall_chars is_digit d2 = true ->
  open_through (branches_body d1 d2) 1 = Some 1.
Proof.
  intros H1 H2. unfold branches_body, line.
  change (String nl ?s) with (String nl EmptyString ++ s)%string at 1.
  rewrite !append_assoc.
  rewrite (open_through_skip _ _ (String nl EmptyString) eq_refl).
  rewrite (open_through_skip _ _ (quoted "public") eq_refl).
  rewrite (open_through_skip _ _ (String nl EmptyString) eq_refl).
  rewrite (open_through_branch_block _ _ _ H1) by lia.
  rewrite (open_through_skip _ _ (String nl EmptyString) eq_refl).
  rewrite (open_through_skip _ _ (quoted "unstable") eq_refl).
  rewrite (open_through_skip _ _ (String nl EmptyString) eq_refl).
  rewrite (open_through_branch_block _ _ _ H2) by lia.
  reflexivity.
Qed.

Lemma branches_block_found (pre post d1 d2 : string) :
  absent_before (quoted "branches") (pre ++ quoted "branches") (String.length pre) ->
  forall_chars is_digit d1 = true -> forall_chars is_digit d2 = true ->
  braced_after (pre ++ two_branches d1 d2 ++ post) "branches"
  = Some (branches_block d1 d2).
Proof.
  intros Habs H1 H2. rewrite (branches_block_eq d1 d2).
  replace (pre ++ two_branches d1 d2 ++ post)%string
    with (pre ++ quoted "branches" ++ String nl EmptyString
            ++ String "{" (branches_body d1 d2 ++ String "}" (String nl post)))%string.
  2: { unfold two_branches. rewrite (branches_block_eq d1 d2). unfold line.
       cbn [String.append]. repeat (rewrite !append_assoc; cbn [String.append]).
       reflexivity. }
  apply braced_after_found.
  - rewrite (find_at_first _ _ _ _ Habs). reflexivity.
  - reflexivity.
  - apply open_through_branches_body; assumption.
Qed.

Lemma public_block_found (d1 d2 : string) :
  forall_chars is_digit d1 = true ->
  braced_after (branches_block d1 d2) "public" = Some (branch_block d1).
Proof.
  intros H1. rewrite (branch_block_eq d1).
  replace (branches_block d1 d2)
    with (String "{" (String nl EmptyString) ++ quoted "public" ++ String nl EmptyString
            ++ String "{" (branch_body d1
                             ++ String "}" (String nl (line (quoted "unstable")
                                              ++ line (branch_block d2) ++ "}"))))%string.
  2: { unfold branches_block. rewrite (branch_block_eq d1). unfold line, quoted.
       cbn [String.append]. repeat (rewrite !append_assoc; cbn [String.append]).
       reflexivity. }
  apply braced_after_found.
  - vm_compute. reflexivity.
  - reflexivity.
  - apply open_through_branch_body. exact H1.
Qed.

Lemma unstable_block_found (d1 d2 : string) :
  d1 <> EmptyString -> forall_chars is_digit d1 = true ->
  forall_chars is_digit d2 = true ->
  braced_after (branches_block d1 d2) "unstable" = Some (branch_block d2).
Proof.
  intros Hne H1 H2. rewrite (branch_block_eq d2).
  set (pre := (String "{" (String nl EmptyString) ++ line (quoted "public")
                 ++ line (branch_block d1))%string).
  replace (branches_block d1 d2)
    with (pre ++ quoted "unstable" ++ String nl EmptyString
            ++ String "{" (branch_body d2 ++ String "}" (String nl "}")))%string.
  2: { subst pre. unfold branches_block. rewrite (branch_block_eq d2). unfold line, quoted.
       cbn [String.append]. repeat (rewrite !append_assoc; cbn [String.append]).
       reflexivity. }
  apply braced_after_found.
  - destruct d1 as [| a ds]; [contradiction |].
    cbn [forall_chars] in H1. apply andb_true_iff in H1. destruct H1 as [Ha Hds].
    subst pre. rewrite branch_block_eq. unfold branch_body, line, quoted.
    cbn [String.append]. repeat (rewrite !append_assoc; cbn [String.append]).
    repeat (rewrite find_at_next by (vm_compute; reflexivity)).
    rewrite find_at_next by (apply starts_with_second, eqb_digit; [exact Ha | reflexivity]).
    rewrite find_at_next by (apply starts_with_first, eqb_digit; [exact Ha | reflexivity]).
    rewrite (find_at_skip dq _ _ ds _ (digits_not dq ds eq_refl Hds)).
    repeat (rewrite find_at_next by (vm_compute; reflexivity)).
    rewrite find_at_here by (vm_compute; reflexivity).
    f_equal. cbn [String.length]. rewrite !length_append. cbn [String.length]. lia.
  - reflexivity.
  - apply open_through_branch_body. exact H2.
Qed.

Ltac eval_digit :=
  match goal with
  | |- context [is_digit ?c] =>
      let v := eval vm_compute in (is_digit c) in
      match v with
      | true => change (is_digit c) with true
      | false => change (is_digit c) with false
      end
  end.

Ltac run_with H := repeat first [progress cbn -[is_digit] | eval_digit | rewrite H].

Lemma parse_buildid_branch_block (d : string) :
  d <> EmptyString -> forall_chars is_digit d = true ->
  _parse_buildid (branch_block d) = Some d.
Proof.
  intros Hne Hd. destruct d as [| a ds]; [contradiction |].
  cbn [forall_chars] in Hd. apply andb_true_iff in Hd. destruct Hd as [Ha Hds].
  unfold _parse_buildid, search. rewrite branch_block_eq.
  unfold branch_body, quoted. cbn [String.append].
  repeat (rewrite !append_assoc; cbn [String.append]).
  rewrite search_at_next by reflexivity.
  rewrite search_at_next by reflexivity.
  erewrite search_at_here.
  2: { run_with Ha.
       erewrite (star_greedy_run true Digit _ _ _ ds (Some a) 14 Hds); [reflexivity |].
       run_with Ha. reflexivity. }
  cbn [group1 m_group1]. rewrite take_length_append. reflexivity.
Qed.

Lemma two_branches_buildid (pre post d1 d2 : string) :
  absent_before (quoted "branches") (pre ++ quoted "branches") (String.length pre) ->
  d1 <> EmptyString -> forall_chars is_digit d1 = true ->
  d2 <> EmptyString -> forall_chars is_digit d2 = true ->
  buildid_of_output (pre ++ two_branches d1 d2 ++ post) "public" = (Some d1, None)
  /\ buildid_of_output (pre ++ two_branches d1 d2 ++ post) "unstable" = (Some d2, None).
Proof.
  intros Habs N1 H1 N2 H2.
  pose proof (branches_block_found pre post d1 d2 Habs H1 H2) as Hb.
  assert (Hx : forall branch,
             _extract_branch_block (pre ++ two_branches d1 d2 ++ post) branch
             = braced_after (branches_block d1 d2) branch).
  { intros branch. unfold _extract_branch_block, _extract_named_block.
    rewrite Hb, (braced_after_truthy _ _ _ Hb). reflexivity. }
  split; rewrite buildid_of_output_eq, Hx.
  - rewrite (public_block_found d1 d2 H1), (parse_buildid_branch_block d1 N1 H1). reflexivity.
  - rewrite (unstable_block_found d1 d2 N1 H1 H2), (parse_buildid_branch_block d2 N2 H2). reflexivity.
Qed.

(** The build id [_parse_buildid] returns is the one of the leftmost
    place where the field pattern matches. *)
Lemma parse_buildid_first (text id : string) :
  _parse_buildid text = Some id ->
  exists j,
    matches_at true (field_re "buildid") text j (Some id)
    /\ forall j' g, (j' < j)%nat -> ~ matches_at true (field_re "buildid") text j' g.
Proof.
  unfold _parse_buildid.
  destruct (search true (field_re "buildid") text) as [m |] eqn:E; [| discriminate].
  destruct (search_field_group _ _ _ _ E) as (a & ds & Hg & _).
  destruct (search_found true _ _ _ E) as [Hat Hmin].
  intros H. injection H as <-. exists (m_start m). split; [| exact Hmin].
  unfold group1 in *. destruct (m_group1 m) as [g |]; [exact Hat | discriminate].
Qed.

(** When the tool has run, [steamcmd_get_buildid] returns what
    [buildid_of_output] finds in its output. *)
Lemma steamcmd_get_buildid_output (steamcmd_path : string) (app_id : Z)
      (branch : string) (dump_path : option string) (w : world) (p : proc) :
  steamcmd_exists w = Return true -> steamcmd_run w = Completed p ->
  fst (steamcmd_get_buildid steamcmd_path app_id branch dump_path w)
  = Return (buildid_of_output (stdout p ++ String nl EmptyString ++ stderr p) branch).
Proof.
  intros He Hr. unfold steamcmd_get_buildid, bind, get, lift. rewrite He, Hr.
  cbn [negb].
  destruct dump_path; [destruct (dump_writable w) |]; reflexivity.
Qed.

End SteamAppFacts.

(** ** ModStatus.is_outdated *)

Module WorkshopFacts.

Import Workshop.

(** C3.  A mod is outdated exactly when its remote update time is
    present and its local time is absent or strictly older; an absent
    remote time never marks it outdated; the four rows of the table. *)
Theorem is_outdated_iff :
  (forall m : ModStatus,
      is_outdated m = true <->
      exists remote, remote_time_updated m = Some remote /\
                     (local_mtime m = None \/
                      exists local, local_mtime m = Some local /\ remote > local))
  /\ (forall m : ModStatus, remote_time_updated m = None -> is_outdated m = false)
  /\ (forall wid t,
         is_outdated (mkModStatus wid None (Some 1000) t) = true
         /\ is_outdated (mkModStatus wid (Some 1000) (Some 1000) t) = false
         /\ is_outdated (mkModStatus wid (Some 1000) (Some 1001) t) = true
         /\ is_outdated (mkModStatus wid (Some 1000) None t) = false).
Proof.
  split; [| split].
  - intros [wid local remote t]; unfold is_outdated; simpl.
    destruct remote as [r |]; destruct local as [l |]; split.
    + intros H. apply Z.ltb_lt in H. exists r. split; [reflexivity |].
      right. exists l. split; [reflexivity | lia].
    + intros (r' & Hr & [Hl | (l' & Hl & Hgt)]).
      * discriminate.
      * injection Hr as <-. injection Hl as <-. apply Z.ltb_lt. lia.
    + intros _. exists r. split; [reflexivity | left; reflexivity].
    + reflexivity.
    + discriminate.
    + intros (r' & Hr & _). discriminate.
    + discriminate.
    + intros (r' & Hr & _). discriminate.
  - intros [wid local remote t]; simpl. intros ->. reflexivity.
  - intros wid t. repeat split; reflexivity.
Qed.

Lemma is_outdated_iff_witness :
  is_outdated (mkModStatus "2392709985" (Some 1000) None None) = false.
Proof.
  apply (proj1 (proj2 is_outdated_iff)). reflexivity.
Defined.

End WorkshopFacts.

(** ** parse_player_count *)

Module PlayersFacts.

Import Text Re ReSpec TextFacts ReFacts Players PlayersSpec.

Lemma starts_with_empty (s : string) : starts_with EmptyString s = true.
Proof. destruct s; reflexivity. Qed.

Lemma space_is_no_dash (c : ascii) : is_space c = true -> Ascii.eqb "-" c = false.
Proof.
  destruct (Ascii.eqb_spec "-"%char c) as [<- | Hne]; [discriminate | reflexivity].
Qed.

Lemma starts_with_dash_rstrip (s : string) :
  starts_with "-" (rstrip s) = starts_with "-" s.
Proof.
  destruct s as [| c r]; [reflexivity |].
  cbn [rstrip starts_with].
  destruct (rstrip r) as [| c' r'].
  - destruct (is_space c) eqn:Es.
    + rewrite (space_is_no_dash c Es). reflexivity.
    + cbn [starts_with]. reflexivity.
  - cbn [starts_with]. reflexivity.
Qed.

Lemma starts_with_dash_strip (l : string) :
  starts_with "-" (strip l) = starts_with "-" (lstrip l).
Proof. unfold strip. apply starts_with_dash_rstrip. Qed.

Lemma listed_lines (response : string) :
  filter (fun line => starts_with "-" (strip line)) (splitlines response)
  = indented_dash_lines response.
Proof.
  unfold indented_dash_lines. apply filter_ext. intros l. apply starts_with_dash_strip.
Qed.

(** What the header pattern captures is a non-empty run of digits. *)
Lemma players_re_group (p p' : cursor) (g : option string) :
  matches true players_re p None p' g ->
  rest p <> EmptyString
  /\ exists a ds, g = Some (String a ds) /\ is_digit a = true
                  /\ forall_chars is_digit ds = true.
Proof.
  unfold players_re, seq. cbn [fold_right]. intros H.
  destruct (matches_cat_inv _ _ _ _ _ _ _ H) as (p1 & g1 & H0 & H1).
  split.
  { unfold Str in H0. fold Str in H0.
    destruct (matches_cat_inv _ _ _ _ _ _ _ H0) as (q & gq & Hc & _).
    destruct (matches_chr_inv _ _ _ _ _ _ Hc) as (a & s' & Hr & _).
    rewrite Hr. discriminate. }
  destruct (matches_cat_inv _ _ _ _ _ _ _ H1) as (p2 & g2 & _ & H2).
  destruct (matches_cat_inv _ _ _ _ _ _ _ H2) as (p3 & g3 & _ & H3).
  destruct (matches_cat_inv _ _ _ _ _ _ _ H3) as (p4 & g4 & Hg & H4).
  destruct (matches_digits_group _ _ _ _ _ Hg) as (a & ds & -> & Ha & Hds & _).
  rewrite (matches_no_group _ _ _ _ _ _ H4 eq_refl). eauto.
Qed.

Lemma lit_exact (x a : ascii) :
  lower x = x -> (forall b, lower b = x -> b = x) ->
  in_cls true (Lit x) a = true -> a = x.
Proof.
  intros Hx Hinj H. cbn [in_cls] in H. apply Ascii.eqb_eq in H.
  rewrite Hx in H. symmetry in H. exact (Hinj a H).
Qed.

Lemma lower_paren (x : ascii) :
  x = "("%char \/ x = ")"%char -> forall b, lower b = x -> b = x.
Proof.
  intros Hx [b0 b1 b2 b3 b4 b5 b6 b7] H.
  destruct b0, b1, b2, b3, b4, b5, b6, b7; vm_compute in H;
    destruct Hx as [-> | ->]; try discriminate; reflexivity.
Qed.

(** The text a match of the header pattern runs over: the seventeen
    characters of the two words, white space, the number in brackets. *)
Lemma players_re_text (p p' : cursor) (g : option string) :
  matches true players_re p None p' g ->
  exists w ws ds,
    rest p = (w ++ ws ++ String "(" (ds ++ String ")" (rest p')))%string
    /\ String.length w = 17%nat
    /\ forall_chars is_space ws = true
    /\ forall_chars is_digit ds = true
    /\ g = Some ds.
Proof.
  unfold players_re, seq. cbn [fold_right]. intros H.
  destruct (matches_cat_inv _ _ _ _ _ _ _ H) as (p1 & g1 & H0 & H1).
  destruct (matches_cat_inv _ _ _ _ _ _ _ H1) as (p2 & g2 & Hs & H2).
  destruct (matches_cat_inv _ _ _ _ _ _ _ H2) as (p3 & g3 & Ho & H3).
  destruct (matches_cat_inv _ _ _ _ _ _ _ H3) as (p4 & g4 & Hg & H4).
  destruct (matches_cat_inv _ _ _ _ _ _ _ H4) as (p5 & g5 & Hc & H5).
  inversion H5; subst.
  destruct (matches_str_length _ _ _ _ _ _ H0) as (w & Hw & Hlen).
  destruct (matches_star_chars _ _ _ _ _ _ Hs) as (ws & Hws & _ & Hsp).
  destruct (matches_chr_inv _ _ _ _ _ _ Ho) as (a & s3 & Ha & Hina & -> & _).
  destruct (matches_digits_group _ _ _ _ _ Hg) as (d & ds & -> & Hd & Hds & Hr4).
  destruct (matches_chr_inv _ _ _ _ _ _ Hc) as (b & s5 & Hb & Hinb & -> & ->).
  apply (lit_exact "(") in Hina; [| reflexivity | apply lower_paren; auto].
  apply (lit_exact ")") in Hinb; [| reflexivity | apply lower_paren; auto].
  subst a b. cbn [rest] in *.
  exists w, ws, (String d ds). rewrite Hw, Hws, Ha, Hr4, Hb.
  cbn [forall_chars String.append]. rewrite Hd, Hds. auto.
Qed.

(** From one place the header pattern captures one number only. *)
Lemma players_re_group_unique (p p1 p2 : cursor) (g1 g2 : option string) :
  matches true players_re p None p1 g1 ->
  matches true players_re p None p2 g2 -> g1 = g2.
Proof.
  intros H1 H2.
  destruct (players_re_text _ _ _ H1) as (w1 & ws1 & ds1 & Hr1 & Hl1 & Hs1 & Hd1 & ->).
  destruct (players_re_text _ _ _ H2) as (w2 & ws2 & ds2 & Hr2 & Hl2 & Hs2 & Hd2 & ->).
  rewrite Hr1 in Hr2.
  destruct (append_length_inj _ _ _ _ (eq_trans Hl1 (eq_sym Hl2)) Hr2) as [_ Hrest].
  destruct (run_split_unique is_space ws1 ws2 "(" "(" _ _ Hs1 Hs2 eq_refl eq_refl Hrest)
    as (_ & _ & Hdigits).
  destruct (run_split_unique is_digit ds1 ds2 ")" ")" _ _ Hd1 Hd2 eq_refl eq_refl Hdigits)
    as (-> & _ & _).
  reflexivity.
Qed.

Lemma cursor_from_rest (s : string) :
  forall before i n p,
    cursor_from s before i n = Some p -> s = EmptyString -> rest p = EmptyString.
Proof.
  intros before i [| n] p H ->; cbn [cursor_from] in H; [| discriminate].
  injection H as <-. reflexivity.
Qed.

(** A header in the text: the two words in any case, white space, the
    number in brackets. *)
Lemma players_re_header (pre word ws ds post : string) (a : ascii) :
  same_letters "Players connected" word = true ->
  forall_chars is_space ws = true ->
  forall_chars is_digit (String a ds) = true ->
  matches_at true players_re (header_text pre word ws (String a ds) post)
             (String.length pre) (Some (String a ds)).
Proof.
  intros Hw Hs Hd. cbn [forall_chars] in Hd. apply andb_true_iff in Hd.
  destruct Hd as [Ha Hds].
  unfold matches_at, cursor_at, header_text. rewrite cursor_from_append.
  eexists. eexists. split; [reflexivity |].
  unfold players_re, seq. cbn [fold_right].
  eapply m_cat; [exact (matches_word _ _ _ _ _ _ Hw) |].
  eapply m_cat; [exact (matches_run true Space _ _ _ _ _ Hs) |].
  eapply m_cat; [eapply m_chr; reflexivity |]. cbn [idx].
  eapply m_cat; [exact (matches_digits true a ds _ _ _ _ Ha Hds) |].
  eapply m_cat; [eapply m_chr; reflexivity |]. constructor.
Qed.

(** Where the header pattern matches, the count is the number of its
    leftmost match. *)
Lemma parse_player_count_leftmost (response : string) (j : nat) (g : option string) :
  matches_at true players_re response j g ->
  exists j' a ds,
    (j' <= j)%nat
    /\ matches_at true players_re response j' (Some (String a ds))
    /\ (forall j'' g'', (j'' < j')%nat -> ~ matches_at true players_re response j'' g'')
    /\ (forall g', matches_at true players_re response j' g' -> g' = Some (String a ds))
    /\ forall_chars is_digit (String a ds) = true
    /\ parse_player_count response = header_count (String a ds).
Proof.
  intros Hm.
  destruct (search_finds true _ _ _ _ Hm) as (m & Hs & Hle).
  destruct (search_found true _ _ _ Hs) as [Hat Hmin].
  destruct Hat as (p & p' & Hc & Hp).
  destruct (players_re_group _ _ _ Hp) as (Hne & a & ds & Hg & Ha & Hds).
  exists (m_start m), a, ds. split; [exact Hle |]. split.
  { exists p, p'. rewrite <- Hg. split; assumption. }
  split; [exact Hmin |]. split.
  { intros g' (q & q' & Hq & Hg'). rewrite Hc in Hq. injection Hq as <-.
    rewrite <- Hg. exact (players_re_group_unique _ _ _ _ _ Hg' Hp). }
  split.
  { cbn [forall_chars]. rewrite Ha, Hds. reflexivity. }
  unfold parse_player_count.
  destruct (String.eqb_spec response EmptyString) as [He | _].
  - exfalso. apply Hne. exact (cursor_from_rest _ _ _ _ _ Hc He).
  - rewrite Hs. unfold group1. rewrite Hg. unfold int_of_str, header_count.
    change int_max_str_digits with 4300.
    destruct (4300 <? Z.of_nat (String.length (String a ds))); reflexivity.
Qed.

(** C9, as the code has it.  When the header pattern "Players
    connected", optional white space, "(N)" matches somewhere in the
    response, case-insensitively, the count is the number N of its
    leftmost match, unless N has more than 4300 digits: [int] then
    raises ValueError, and so does [parse_player_count].  So a
    response with such a header, and none before it, has the header's
    number for count.  When the pattern matches
    nowhere, the count is the number of lines that begin with a dash
    once the white space in front of it is taken off, if there is such
    a line, and unknown otherwise.  The three examples, and a header
    with a number of 4301 digits. *)
Theorem parse_player_count_cases :
  (forall (response : string) (j : nat) (g : option string),
      matches_at true players_re response j g ->
      exists j' a ds,
        (j' <= j)%nat
        /\ matches_at true players_re response j' (Some (String a ds))
        /\ (forall j'' g'', (j'' < j')%nat -> ~ matches_at true players_re response j'' g'')
        /\ (forall g', matches_at true players_re response j' g' -> g' = Some (String a ds))
        /\ forall_chars is_digit (String a ds) = true
        /\ parse_player_count response = header_count (String a ds))
  /\ (forall (pre word ws ds post : string) (a : ascii),
         same_letters "Players connected" word = true ->
         forall_chars is_space ws = true ->
         forall_chars is_digit (String a ds) = true ->
         (forall j g, (j < String.length pre)%nat ->
                      ~ matches_at true players_re
                          (header_text pre word ws (String a ds) post) j g) ->
         parse_player_count (header_text pre word ws (String a ds) post)
         = header_count (String a ds))
  /\ (forall ds : string,
         header_count ds
         = if 4300 <? Z.of_nat (String.length ds)
           then Raise (ValueError (int_limit_message (Z.of_nat (String.length ds))))
           else Return (Some (int_of_digits ds)))
  /\ (forall response : string,
         (forall j g, ~ matches_at true players_re response j g) ->
         parse_player_count response
         = Return (if is_empty (indented_dash_lines response) then None
                   else Some (Z.of_nat (List.length (indented_dash_lines response)))))
  /\ parse_player_count
       (listing ["Players connected (3)"; "- Alice"; "- Bob"; "- Carol"]%string)
     = Return (Some 3)
  /\ parse_player_count (listing ["- Alice"; "- Bob"; "- Carol"]%string)
     = Return (Some 3)
  /\ parse_player_count EmptyString = Return None
  /\ parse_player_count
       ("Players connected (" ++ digits "1" 4301 ++ ")")%string
     = Raise (ValueError (int_limit_message 4301))
  /\ int_limit_message 4301
     = ("Exceeds the limit (4300 digits) for integer string conversion: "
          ++ "value has 4301 digits; "
          ++ "use sys.set_int_max_str_digits() to increase the limit")%string.
Proof.
  split; [| split; [| split; [reflexivity | split; [| split; [| split; [| split; [| split]]]]]]];
    try reflexivity.
  - exact parse_player_count_leftmost.
  - intros pre word ws ds post a Hw Hs Hd Hfirst.
    pose proof (players_re_header pre word ws ds post a Hw Hs Hd) as Hm.
    destruct (parse_player_count_leftmost _ _ _ Hm)
      as (j' & a' & ds' & Hle & Hm' & _ & Huniq & _ & Hres).
    destruct (Nat.eq_dec j' (String.length pre)) as [-> | Hne].
    + rewrite Hres. pose proof (Huniq _ Hm) as Heq.
      injection Heq as -> ->. reflexivity.
    + exfalso. apply (Hfirst j' (Some (String a' ds'))); [lia | exact Hm'].
  - intros response Hnone. unfold parse_player_count.
    destruct (String.eqb_spec response EmptyString) as [-> | _]; [reflexivity |].
    destruct (search true players_re response) as [m |] eqn:Hs.
    + destruct (search_found true _ _ _ Hs) as [Hat _]. exfalso. exact (Hnone _ _ Hat).
    + cbv zeta. rewrite listed_lines.
      destruct (is_empty (indented_dash_lines response)); reflexivity.
Qed.

Lemma parse_player_count_cases_witness :
  parse_player_count (listing ["x"; "players CONNECTED  (12)"; "- a"]%string)
  = Return (Some 12)
  /\ parse_player_count (listing ["- Alice"; " - Bob"]%string) = Return (Some 2).
Proof.
  destruct parse_player_count_cases as (_ & Hheader & _ & Hlines & _).
  split.
  - apply (Hheader (String "x" (String nl EmptyString)) "players CONNECTED"%string
                   "  "%string "2"%string (String nl "- a"%string) "1"%char);
      try reflexivity.
    apply (search_found true players_re _ (mkMatch 2 (Some "12"%string))).
    vm_compute. reflexivity.
  - rewrite Hlines; [reflexivity |].
    apply (search_not_found true). vm_compute. reflexivity.
Defined.

(** C9, as stated, fails: of the two listed players only one line
    begins with a dash, and the count is 2. *)
Lemma parse_player_count_counts_indented_lines :
  let response := listing ["- Alice"; " - Bob"]%string in
  Re.search true players_re response = None
  /\ List.length (dash_lines response) = 1%nat
  /\ parse_player_count response = Return (Some 2)
  /\ parse_player_count response <> Return (parse_player_count_as_specified response).
Proof.
  repeat split; try reflexivity. discriminate.
Qed.

End PlayersFacts.

(** ** check_updates *)

Module UpdatesFacts.

Import Text SteamApp Workshop Updates UpdatesSpec SteamAppFacts.

Lemma parse_workshop_ids_state (w : world) (r : outcome (list string)) (w' : world) :
  parse_workshop_ids_from_ini w = (r, w') -> w' = w.
Proof.
  unfold parse_workshop_ids_from_ini, bind, get.
  destruct (ini_file w) as [| e | content];
    [intros H; injection H as _ <-; reflexivity
    | intros H; injection H as _ <-; reflexivity |].
  destruct (Re.search true workshop_items_re content); intros H; injection H as _ <-;
    reflexivity.
Qed.

(** A failure of the catalog request leaves [check_updates] as it is. *)
Lemma check_updates_propagates_catalog
      (steamapps_dir steamcmd_path steam_branch : string) (dump : option string)
      (w : world) (ids : list string) (e : exn) :
  parse_workshop_ids_from_ini w = (Return ids, w) ->
  ids <> [] ->
  catalog w ids = Raise e ->
  check_updates steamapps_dir steamcmd_path steam_branch dump w = (Raise e, w).
Proof.
  intros Hids Hne Hcat.
  unfold check_updates, build_mod_statuses, bind. rewrite Hids.
  unfold fetch_published_details. destruct ids as [| id ids]; [contradiction |].
  cbn [is_empty]. unfold bind, get, lift. rewrite Hcat. reflexivity.
Qed.

(** Once the mod statuses are there, the manifest is read and the
    path of the inventory tool has been looked at, [check_updates]
    returns, whatever the tool does. *)
Lemma check_updates_returns
      (steamapps_dir steamcmd_path steam_branch : string) (dump : option string)
      (w w1 : world) (statuses : list ModStatus) (info : option string * option Z)
      (found : bool) :
  build_mod_statuses w = (Return statuses, w1) ->
  parse_appmanifest_build_info (manifest_file w1) = Return info ->
  steamcmd_exists w1 = Return found ->
  exists r w',
    check_updates steamapps_dir steamcmd_path steam_branch dump w = (Return r, w')
    /\ mod_statuses r = statuses
    /\ (found = false \/ (exists exc, steamcmd_run w1 = Failed exc) ->
        remote_buildid r = None /\ steamcmd_error r <> None
        /\ server_outdated r = false).
Proof.
  intros Hms Hinfo Hfound. unfold check_updates, bind. rewrite Hms. unfold get, lift.
  rewrite Hinfo. destruct info as [local lu].
  destruct (steamcmd_get_buildid_returns steamcmd_path SERVER_APP_ID steam_branch dump w1
                                         found Hfound)
    as (remote & err & w2 & Hrun & _ & _ & Hfail).
  rewrite Hrun. eexists _, w2. split; [reflexivity |]. cbn.
  split; [reflexivity |].
  intros H. destruct (Hfail H) as [-> Herr]. repeat split; [exact Herr |].
  rewrite andb_false_r. reflexivity.
Qed.

(** C4.  In the result of [check_updates], [server_outdated] holds
    exactly when the local and the remote build id are both present and
    are different strings; when either is absent it does not hold. *)
Theorem server_outdated_iff :
  forall (steamapps_dir steamcmd_path steam_branch : string) (dump : option string)
         (w : world) (r : UpdateResult) (w' : world),
    check_updates steamapps_dir steamcmd_path steam_branch dump w = (Return r, w') ->
    (server_outdated r = true <->
     exists l rm, local_buildid r = Some l /\ remote_buildid r = Some rm /\ l <> rm)
    /\ (local_buildid r = None \/ remote_buildid r = None -> server_outdated r = false).
Proof.
  intros steamapps_dir steamcmd_path steam_branch dump w r w'.
  unfold check_updates, bind.
  destruct (build_mod_statuses w) as [[statuses | e |] w1]; try discriminate.
  unfold get, lift.
  pose proof (parse_appmanifest_truthy (manifest_file w1)) as Hlocal.
  destruct (parse_appmanifest_build_info (manifest_file w1)) as [[local lu] | e |];
    try discriminate.
  assert (Hlocal' : forall id, local = Some id -> truthy (Some id) = true)
    by (intros id Hid; exact (Hlocal _ id eq_refl Hid)).
  clear Hlocal.
  unfold steamcmd_get_buildid at 1. unfold bind, get, lift.
  destruct (steamcmd_exists w1) as [found | e |] eqn:Hfound; try discriminate.
  destruct (steamcmd_get_buildid_returns steamcmd_path SERVER_APP_ID steam_branch dump w1
                                         found Hfound)
    as (remote & err & w2 & Hrun & _ & Hremote & _).
  unfold steamcmd_get_buildid, bind, get, lift in Hrun. rewrite Hfound in Hrun.
  rewrite Hrun. intros H. injection H as <- <-.
  cbn [server_outdated local_buildid remote_buildid].
  destruct local as [l |], remote as [rm |].
  - rewrite (Hlocal' l eq_refl), (Hremote rm eq_refl). cbn [andb differ].
    destruct (String.eqb_spec l rm) as [Heq | Hne]; cbn [negb]; split.
    + split; [discriminate |]. intros (l' & rm' & Hl & Hr & Hd). congruence.
    + intros [H | H]; discriminate.
    + split; [intros _; eauto |]. reflexivity.
    + intros [H | H]; discriminate.
  - rewrite andb_false_r. cbn [andb]. split; [| reflexivity].
    split; [discriminate | intros (l' & rm' & _ & Hr & _); discriminate].
  - cbn [truthy andb]. split; [| reflexivity].
    split; [discriminate | intros (l' & rm' & Hl & _); discriminate].
  - cbn [truthy andb]. split; [| reflexivity].
    split; [discriminate | intros (l' & rm' & Hl & _); discriminate].
Qed.

Lemma server_outdated_iff_witness :
  exists r,
    fst (check_updates "steamapps" "steamcmd" "public" None stale_world) = Return r
    /\ local_buildid r = Some "0123"%string /\ remote_buildid r = Some "123"%string
    /\ server_outdated r = true.
Proof.
  pose (r := mkUpdateResult false true [] (Some "0123"%string) (Some "123"%string)
               "steamapps/appmanifest_380870.acf" None).
  assert (Hrun : check_updates "steamapps" "steamcmd" "public" None stale_world
                 = (Return r, stale_world)) by (vm_compute; reflexivity).
  destruct (server_outdated_iff _ _ _ _ _ _ _ Hrun) as [[_ Hout] _].
  exists r. rewrite Hrun.
  split; [reflexivity | split; [reflexivity | split; [reflexivity |]]].
  apply Hout. exists "0123"%string, "123"%string.
  split; [reflexivity | split; [reflexivity | discriminate]].
Defined.

(** C1, where the code departs from it.  With one workshop item
    configured and the catalog out of reach, [check_updates] raises what
    the request raised and gives no result, although the server binary
    could be checked; with the inventory tool out of order it returns a
    result with no remote build id, the error text, and nothing marked
    outdated. *)
Theorem check_updates_raises_on_catalog_failure :
  fst (check_updates "steamapps" "steamcmd" "unstable" None offline_world)
  = Raise (URLError "unreachable")
  /\ exists r,
      fst (check_updates "steamapps" "steamcmd" "unstable" None toolless_world) = Return r
      /\ remote_buildid r = None
      /\ steamcmd_error r = Some "steamcmd failed: timed out"%string
      /\ any_outdated r = false.
Proof.
  split; [vm_compute; reflexivity |].
  eexists. split; [vm_compute; reflexivity |]. repeat split.
Qed.

End UpdatesFacts.

(** ** The restart sequence *)

Module RestartFacts.

Import Restart RestartSpec.

Lemma sleeps_app (a b : list event) : sleeps (a ++ b) = sleeps a ++ sleeps b.
Proof.
  induction a as [| [m | n | c] a IH]; simpl; rewrite ?IH; reflexivity.
Qed.

Lemma schedule_ordered (cfg : MonitorConfig) :
  let '(delay, warn_1, countdown) := schedule cfg in
  0 <= countdown <= warn_1 /\ warn_1 <= delay.
Proof. unfold schedule. lia. Qed.

Lemma sum_repeat_1 (n : nat) : fold_right Z.add 0 (repeat 1 n) = Z.of_nat n.
Proof. induction n as [| n IH]; [reflexivity |]. cbn [repeat fold_right]. lia. Qed.

Lemma sum_app (a b : list Z) :
  fold_right Z.add 0 (a ++ b) = fold_right Z.add 0 a + fold_right Z.add 0 b.
Proof. induction a as [| x a IH]; simpl; lia. Qed.

Lemma sum_pause (n : Z) : fold_right Z.add 0 (pause n) = Z.max n 0.
Proof. unfold pause. destruct (n <=? 0) eqn:E; simpl; lia. Qed.

Lemma pause_positive (n : Z) : Forall (fun s => 0 < s) (pause n).
Proof.
  unfold pause. destruct (n <=? 0) eqn:E; constructor; [lia | constructor].
Qed.

Lemma planned_sleeps_total (cfg : MonitorConfig) :
  fold_right Z.add 0 (planned_sleeps cfg) = Z.max (restart_delay_sec cfg) 0.
Proof.
  unfold planned_sleeps. pose proof (schedule_ordered cfg) as H.
  destruct (schedule cfg) as [[delay warn_1] countdown] eqn:Es.
  assert (delay = Z.max (restart_delay_sec cfg) 0) as <-.
  { unfold schedule in Es. injection Es as <- _ _. reflexivity. }
  rewrite !sum_app, !sum_pause, sum_repeat_1. lia.
Qed.

Lemma planned_sleeps_positive (cfg : MonitorConfig) :
  Forall (fun s => 0 < s) (planned_sleeps cfg).
Proof.
  unfold planned_sleeps. destruct (schedule cfg) as [[delay warn_1] countdown].
  repeat (apply Forall_app; split); try apply pause_positive.
  induction (Z.to_nat countdown); simpl; constructor; [lia | assumption].
Qed.

Lemma sleeps_map_Sleep (l : list Z) : sleeps (map Sleep l) = l.
Proof. induction l as [| x l IH]; simpl; rewrite ?IH; reflexivity. Qed.

Lemma sleeps_countdown_steps fmt (cfg : MonitorConfig) (n : nat) :
  sleeps (countdown_steps fmt cfg n) = repeat 1 n.
Proof. induction n as [| n IH]; [reflexivity |]. cbn. rewrite IH. reflexivity. Qed.

Lemma sleeps_scheduled_steps fmt (cfg : MonitorConfig) :
  sleeps (scheduled_steps fmt cfg) = planned_sleeps cfg.
Proof.
  unfold scheduled_steps, planned_sleeps.
  destruct (schedule cfg) as [[delay warn_1] countdown].
  rewrite !sleeps_app, !sleeps_map_Sleep, sleeps_countdown_steps.
  destruct (0 <? warn_1); cbn; rewrite app_nil_r; reflexivity.
Qed.

Lemma sum_nonneg (l : list Z) :
  Forall (fun s => 0 < s) l -> 0 <= fold_right Z.add 0 l.
Proof. induction 1; simpl; lia. Qed.

Section Along.

Variable W : Type.
Variable rcon_send_command : string -> M W string.
Variable str_format : string -> Z -> option string.

Local Abbreviation state := (state W).
Local Abbreviation run_restart_sequence :=
  (run_restart_sequence W rcon_send_command str_format).
Local Abbreviation countdown_loop := (countdown_loop W rcon_send_command str_format).
Local Abbreviation send_command := (send_command W rcon_send_command).
Local Abbreviation _send_servermsg := (_send_servermsg W rcon_send_command).

Lemma along_ret {A} (a : A) : runs_along (W := W) [] (ret a).
Proof.
  intros st. exists []. simpl. rewrite app_nil_r.
  repeat split; auto. exists []. reflexivity.
Qed.

Lemma along_bind {A B} (l1 l2 : list event) (m : M state A) (k : A -> M state B) :
  runs_along l1 m -> (forall a, runs_along l2 (k a)) ->
  runs_along (l1 ++ l2) (bind m k).
Proof.
  intros Hm Hk st. unfold bind.
  destruct (Hm st) as (evs1 & Ht1 & (r1 & Hp1) & Heq1).
  destruct (m st) as [[a | e |] st1] eqn:Em; simpl in *.
  - destruct (Hk a st1) as (evs2 & Ht2 & (r2 & Hp2) & Heq2).
    exists (evs1 ++ evs2). rewrite Ht2, Ht1, app_assoc.
    rewrite (Heq1 a eq_refl). repeat split.
    + exists r2. rewrite Hp2, app_assoc. reflexivity.
    + intros b Hb. rewrite (Heq2 b Hb). reflexivity.
  - exists evs1. repeat split; try assumption; try discriminate.
    exists (r1 ++ l2). rewrite Hp1, app_assoc. reflexivity.
  - exists evs1. repeat split; try assumption; try discriminate.
    exists (r1 ++ l2). rewrite Hp1, app_assoc. reflexivity.
Qed.

Lemma along_send_command (c : string) : runs_along [Command c] (send_command c).
Proof.
  intros st. unfold Restart.send_command.
  destruct (rcon_send_command c (server st)) as [r w']. simpl.
  exists [Command c]. repeat split; auto. exists []. reflexivity.
Qed.

Lemma along_log (msg : string) : runs_along [Log msg] (log W msg).
Proof.
  intros st. exists [Log msg]. repeat split; auto. exists []. reflexivity.
Qed.

Lemma along_time_sleep (n : Z) : runs_along [Sleep n] (time_sleep W n).
Proof.
  intros st. exists [Sleep n]. repeat split; auto. exists []. reflexivity.
Qed.

Lemma along_send_servermsg (text : string) :
  runs_along [servermsg text] (_send_servermsg text).
Proof.
  unfold Restart._send_servermsg, servermsg.
  rewrite <- (app_nil_r [Command _]).
  apply along_bind; [apply along_send_command |].
  intros _. apply along_ret.
Qed.

Lemma along_sleep_seconds (n : Z) :
  runs_along (map Sleep (pause n)) (_sleep_seconds W n).
Proof.
  unfold _sleep_seconds, pause. destruct (n <=? 0).
  - apply along_ret.
  - apply along_time_sleep.
Qed.

Lemma along_countdown_loop (cfg : MonitorConfig) (n : nat) :
  runs_along (countdown_steps str_format cfg n) (countdown_loop cfg n).
Proof.
  induction n as [| n IH].
  - apply along_ret.
  - cbn [Restart.countdown_loop countdown_steps].
    apply (along_bind [_] (_ :: _)); [apply along_send_servermsg |].
    intros _. apply (along_bind [_]); [apply along_time_sleep |].
    intros _. exact IH.
Qed.

Lemma along_scheduled (cfg : MonitorConfig) :
  runs_along (scheduled_steps str_format cfg) (run_restart_sequence cfg false).
Proof.
  unfold Restart.run_restart_sequence, scheduled_steps.
  pose proof (schedule_ordered cfg) as Hord.
  destruct (schedule cfg) as [[delay warn_1] countdown].
  destruct Hord as [[H0 H1] H2].
  apply (along_bind [_] (_ :: _)); [apply along_log | intros _].
  apply (along_bind [_]); [apply along_send_servermsg | intros _].
  apply along_bind; [apply along_sleep_seconds | intros _].
  apply along_bind; [| intros _].
  { destruct (0 <? warn_1); [apply along_send_servermsg | apply along_ret]. }
  apply along_bind; [apply along_sleep_seconds | intros _].
  apply along_bind; [| intros _].
  { destruct (0 <? countdown) eqn:E.
    - apply along_countdown_loop.
    - apply Z.ltb_ge in E. replace countdown with 0 by lia. apply along_ret. }
  apply (along_bind [_] [_]); [apply along_send_command | intros _].
  rewrite <- (app_nil_r [Command _]).
  apply along_bind; [apply along_send_command | intros _].
  apply along_ret.
Qed.

End Along.

(** C5.  Whatever the configuration, the three durations the scheduled
    sequence works with are the clamped ones, [warn_1 = min(max(warn_1,
    0), delay)] and [countdown = min(max(countdown, 0), warn_1)] for the
    delay [max(restart_delay_sec, 0)] of the sequence, so that
    [0 <= countdown <= warn_1 <= delay].  For (300, 600, 10) they are
    (300, 300, 10): nothing is slept before the 1-minute warning, 290
    seconds before the countdown, and ten messages one second apart. *)
Theorem schedule_clamps :
  (forall cfg : MonitorConfig,
      let '(delay, warn_1, countdown) := schedule cfg in
      delay = Z.max (restart_delay_sec cfg) 0
      /\ warn_1 = Z.min (Z.max (warn_1_min_sec cfg) 0) delay
      /\ countdown = Z.min (Z.max (countdown_sec cfg) 0) warn_1
      /\ 0 <= countdown /\ countdown <= warn_1 /\ warn_1 <= delay)
  /\ (forall cfg : MonitorConfig,
         restart_delay_sec cfg = 300 -> warn_1_min_sec cfg = 600 ->
         countdown_sec cfg = 10 ->
         schedule cfg = (300, 300, 10)
         /\ forall W (rcon_send_command : string -> M W string) str_format st,
             let r := run_restart_sequence W rcon_send_command str_format cfg false st in
             forall a, fst r = Return a ->
             exists evs,
               trace (snd r) = trace st ++ evs
               /\ map shape_of evs =
                    [Logged; Sent; Sent; Slept 290]
                      ++ List.concat (repeat [Sent; Slept 1] 10) ++ [Sent; Sent]).
Proof.
  split.
  - intros cfg. unfold schedule. lia.
  - intros cfg Hd Hw Hc.
    assert (Es : schedule cfg = (300, 300, 10)).
    { unfold schedule. rewrite Hd, Hw, Hc. reflexivity. }
    split; [exact Es |].
    intros W rcon fmt st r a Ha.
    destruct (along_scheduled W rcon fmt cfg st) as (evs & Ht & _ & Heq).
    exists evs. split; [exact Ht |].
    rewrite (Heq a Ha). unfold scheduled_steps. rewrite Es. reflexivity.
Qed.

Lemma schedule_clamps_witness :
  schedule (example_config 300 600 10) = (300, 300, 10)
  /\ exists evs,
      trace (snd (run_restart_sequence unit quiet_server default_format
                    (example_config 300 600 10) false (mkState tt []))) = [] ++ evs
      /\ map shape_of evs =
           [Logged; Sent; Sent; Slept 290]
             ++ List.concat (repeat [Sent; Slept 1] 10) ++ [Sent; Sent].
Proof.
  destruct (proj2 schedule_clamps (example_config 300 600 10)
              eq_refl eq_refl eq_refl) as [Hs Hrun].
  split; [exact Hs |].
  exact (Hrun unit quiet_server default_format (mkState tt []) tt eq_refl).
Defined.

(** C10.  Whatever the configuration and whatever the server answers,
    the scheduled sequence asks [time.sleep] for positive durations
    only, never for more than [max(restart_delay_sec, 0)] seconds in
    all, and when it runs to its end for exactly the sleep before the
    1-minute warning ([delay - warn_1], when positive), the sleep before
    the countdown ([warn_1 - countdown], when positive) and one second
    per countdown message, which add up to [max(restart_delay_sec, 0)]. *)
Theorem scheduled_sleeps_sum_to_delay :
  forall W (rcon_send_command : string -> M W string)
         (str_format : string -> Z -> option string)
         (cfg : MonitorConfig) (st : state W),
    let '(delay, warn_1, countdown) := schedule cfg in
    let r := run_restart_sequence W rcon_send_command str_format cfg false st in
    0 <= delay - warn_1 /\ 0 <= warn_1 - countdown
    /\ exists evs,
        trace (snd r) = trace st ++ evs
        /\ Forall (fun s => 0 <= s) (sleeps evs)
        /\ total_sleep evs <= Z.max (restart_delay_sec cfg) 0
        /\ (forall a, fst r = Return a ->
            sleeps evs = pause (delay - warn_1) ++ pause (warn_1 - countdown)
                           ++ repeat 1 (Z.to_nat countdown)
            /\ total_sleep evs = Z.max (restart_delay_sec cfg) 0).
Proof.
  intros W rcon fmt cfg st.
  pose proof (schedule_ordered cfg) as Hord.
  pose proof (planned_sleeps_total cfg) as Htot.
  pose proof (planned_sleeps_positive cfg) as Hpos.
  pose proof (sleeps_scheduled_steps fmt cfg) as Hsl.
  destruct (along_scheduled W rcon fmt cfg st) as (evs & Ht & (rest & Hp) & Heq).
  unfold planned_sleeps in *.
  destruct (schedule cfg) as [[delay warn_1] countdown].
  cbv zeta. split; [lia | split; [lia |]].
  exists evs. split; [exact Ht |].
  rewrite Hp, sleeps_app in Hsl. rewrite <- Hsl in Hpos, Htot.
  apply Forall_app in Hpos. destruct Hpos as [Hpe Hpr].
  rewrite sum_app in Htot. pose proof (sum_nonneg _ Hpr) as Hr.
  split; [| split].
  - eapply Forall_impl; [| exact Hpe]. simpl. intros; lia.
  - unfold total_sleep. lia.
  - intros a Ha. rewrite (Heq a Ha) in *. subst.
    assert (rest = []) as ->.
    { apply (f_equal (@List.length event)) in Hp.
      rewrite length_app in Hp. destruct rest; [reflexivity | simpl in Hp; lia]. }
    cbn [sleeps] in Hsl, Htot. rewrite app_nil_r in Hsl. split; [exact Hsl |].
    unfold total_sleep. cbn [fold_right] in Htot. lia.
Qed.

Lemma scheduled_sleeps_sum_to_delay_witness :
  exists evs,
    trace (snd (run_restart_sequence unit quiet_server default_format
                  (example_config 300 60 10) false (mkState tt []))) = [] ++ evs
    /\ sleeps evs = [240; 50; 1; 1; 1; 1; 1; 1; 1; 1; 1; 1]
    /\ total_sleep evs = 300.
Proof.
  destruct (scheduled_sleeps_sum_to_delay unit quiet_server default_format
              (example_config 300 60 10) (mkState tt []))
    as (_ & _ & evs & Ht & _ & _ & Hret).
  exists evs. split; [exact Ht |].
  exact (Hret tt eq_refl).
Defined.

End RestartFacts.

(** ** The RCON client *)

Module RconFacts.

Import Rcon RconSpec.

(** *** int32 *)

Lemma in_int32_range (x : Z) :
  in_int32 x = true <-> - 2147483648 <= x <= 2147483647.
Proof.
  unfold in_int32, int32_min, int32_max.
  change (2 ^ 31) with 2147483648.
  rewrite andb_true_iff, !Z.leb_le. lia.
Qed.

Lemma int32_round_trip (x : Z) :
  in_int32 x = true -> int32_of_bytes (le_split 4 x) = x.
Proof.
  intros H. apply in_int32_range in H.
  unfold int32_of_bytes. rewrite le_combine_split.
  change (2 ^ (Z.of_nat 4 * 8)) with 4294967296.
  change (2 ^ 31) with 2147483648. change (2 ^ 32) with 4294967296.
  destruct (Z_lt_le_dec x 0) as [Hneg | Hpos].
  - replace (x mod 4294967296) with (x + 4294967296).
    + destruct (Z.ltb_spec (x + 4294967296) 2147483648); lia.
    + apply Z.mod_unique with (q := -1); lia.
  - rewrite Z.mod_small by lia.
    destruct (Z.ltb_spec x 2147483648); lia.
Qed.

Lemma length_le_split_4 (x : Z) : List.length (le_split 4 x) = 4%nat.
Proof. apply length_le_split. Qed.

Lemma pack_i32_ok (x : Z) : in_int32 x = true -> pack_i32 x = Return (le_split 4 x).
Proof. unfold pack_i32. intros ->. reflexivity. Qed.

Lemma pack_i32_inv (x : Z) (bs : list byte) :
  pack_i32 x = Return bs -> in_int32 x = true /\ bs = le_split 4 x.
Proof.
  unfold pack_i32. destruct (in_int32 x); [| discriminate].
  intros H. injection H as <-. auto.
Qed.

Lemma encode_packet_inv (req_id ptype : Z) (body : string) (pkt : list byte) :
  encode_packet req_id ptype body = Return pkt ->
  well_formed (req_id, ptype, utf8_encode body)
  /\ pkt = frame (req_id, ptype, utf8_encode body).
Proof.
  unfold encode_packet, pack_iii, well_formed, frame. simpl.
  destruct (pack_i32 (Z.of_nat (List.length (utf8_encode body)) + 10)) as [a | |] eqn:Ea;
    try discriminate.
  destruct (pack_i32 req_id) as [b | |] eqn:Eb; try discriminate.
  destruct (pack_i32 ptype) as [c | |] eqn:Ec; try discriminate.
  apply pack_i32_inv in Ea, Eb, Ec.
  destruct Ea as [Ha ->], Eb as [Hb ->], Ec as [Hc ->].
  intros H. injection H as <-. repeat split; assumption.
Qed.

Lemma encode_packet_ok (req_id ptype : Z) (body : string) :
  well_formed (req_id, ptype, utf8_encode body) ->
  encode_packet req_id ptype body = Return (frame (req_id, ptype, utf8_encode body)).
Proof.
  unfold well_formed, encode_packet, pack_iii, frame. simpl.
  intros (Hi & Ht & Hl).
  rewrite !pack_i32_ok by assumption. rewrite <- !app_assoc. reflexivity.
Qed.

(** *** Reading exactly [n] bytes *)

Lemma recv_exact_loop_eq (fuel : nat) (chunks : list (list byte)) (remaining : Z) :
  recv_exact_loop fuel chunks remaining =
  if 0 <? remaining then
    match fuel with
    | O => fun sock => (OutOfFuel, sock)
    | S fuel' =>
        bind (recv remaining) (fun chunk =>
          if is_empty chunk then raise (RconError "Connection closed by server")
          else recv_exact_loop fuel' (chunks ++ [chunk])
                               (remaining - Z.of_nat (List.length chunk)))
    end
  else ret (List.concat chunks).
Proof. destruct fuel; reflexivity. Qed.

Lemma concat_snoc {A} (ls : list (list A)) (l : list A) :
  List.concat (ls ++ [l]) = List.concat ls ++ l.
Proof. rewrite concat_app. simpl. rewrite app_nil_r. reflexivity. Qed.

Lemma recv_exact_loop_stream (evs : list recv_event) :
  forall (n fuel : nat) (chunks : list (list byte)) (out : list byte),
    (n <= List.length (stream evs))%nat -> (n <= fuel)%nat ->
    exists evs',
      recv_exact_loop fuel chunks (Z.of_nat n) (mkSocket evs out)
      = (Return (List.concat chunks ++ firstn n (stream evs)), mkSocket evs' out)
      /\ stream evs' = skipn n (stream evs).
Proof.
  assert (Hzero : forall evs0 fuel chunks out,
             exists evs',
               recv_exact_loop fuel chunks (Z.of_nat 0) (mkSocket evs0 out)
               = (Return (List.concat chunks ++ firstn 0 (stream evs0)), mkSocket evs' out)
               /\ stream evs' = skipn 0 (stream evs0)).
  { intros evs0 fuel chunks out. exists evs0. rewrite recv_exact_loop_eq. simpl.
    rewrite app_nil_r. split; reflexivity. }
  induction evs as [| [data |] evs IH]; intros n fuel chunks out Hn Hfuel.
  - simpl in Hn. replace n with 0%nat by lia. apply Hzero.
  - destruct n as [| n]; [apply Hzero |].
    destruct data as [| b data]; [simpl in Hn; lia |].
    destruct fuel as [| fuel]; [lia |].
    rewrite recv_exact_loop_eq.
    replace (0 <? Z.of_nat (S n)) with true by (symmetry; apply Z.ltb_lt; lia).
    unfold bind, recv. cbn [incoming outgoing].
    set (d := b :: data) in *.
    assert (Hd : (1 <= List.length d)%nat) by (subst d; simpl; lia).
    change (stream (Chunk d :: evs)) with (d ++ stream evs) in *.
    rewrite length_app in Hn.
    destruct (Z.leb_spec (Z.of_nat (List.length d)) (Z.of_nat (S n))) as [Hle | Hgt].
    + change (is_empty d) with false. cbv iota.
      replace (Z.of_nat (S n) - Z.of_nat (List.length d))
        with (Z.of_nat (S n - List.length d)) by lia.
      destruct (IH (S n - List.length d)%nat fuel (chunks ++ [d]) out) as (evs' & Hrun & Hst);
        [lia | lia |].
      exists evs'. rewrite Hrun, concat_snoc, <- app_assoc. split.
      * rewrite firstn_app, (firstn_all2 d) by lia. reflexivity.
      * rewrite Hst, skipn_app, (skipn_all2 d) by lia. reflexivity.
    + rewrite Nat2Z.id.
      assert (Hlen : List.length (firstn (S n) d) = S n) by (rewrite length_firstn; lia).
      change (is_empty (firstn (S n) d)) with false. cbv iota.
      rewrite Hlen, Z.sub_diag, recv_exact_loop_eq. cbn [Z.ltb Z.compare ret].
      exists (Chunk (skipn (S n) d) :: evs). rewrite concat_snoc. split.
      * rewrite firstn_app.
        replace (S n - List.length d)%nat with 0%nat by lia.
        rewrite firstn_O, app_nil_r. reflexivity.
      * cbn [stream].
        destruct (skipn (S n) d) as [| x l] eqn:Es.
        { apply (f_equal (@List.length byte)) in Es. rewrite length_skipn in Es.
          change (List.length (@nil byte)) with 0%nat in Es. lia. }
        cbn [is_empty]. rewrite <- Es, skipn_app.
        replace (S n - List.length d)%nat with 0%nat by lia. reflexivity.
  - simpl in Hn. replace n with 0%nat by lia. apply Hzero.
Qed.

Lemma recv_exact_stream (n : nat) (sock : socket) :
  (n <= List.length (stream (incoming sock)))%nat ->
  exists sock',
    _recv_exact (Z.of_nat n) sock = (Return (firstn n (stream (incoming sock))), sock')
    /\ stream (incoming sock') = skipn n (stream (incoming sock))
    /\ outgoing sock' = outgoing sock.
Proof.
  intros Hn. destruct sock as [evs out]. unfold _recv_exact. rewrite Nat2Z.id.
  destruct (recv_exact_loop_stream evs n n [] out Hn (Nat.le_refl n)) as (evs' & Hrun & Hst).
  exists (mkSocket evs' out). rewrite Hrun. auto.
Qed.

(** *** One packet *)

Lemma firstn_length_app {A} (l m : list A) : firstn (List.length l) (l ++ m) = l.
Proof.
  rewrite firstn_app, firstn_all, Nat.sub_diag, firstn_O, app_nil_r. reflexivity.
Qed.

Lemma skipn_length_app {A} (l m : list A) : skipn (List.length l) (l ++ m) = m.
Proof. rewrite skipn_app, skipn_all, Nat.sub_diag. reflexivity. Qed.

Lemma firstn_4_le_split (x : Z) (m : list byte) : firstn 4 (le_split 4 x ++ m) = le_split 4 x.
Proof. exact (firstn_length_app (le_split 4 x) m). Qed.

Lemma skipn_4_le_split (x : Z) (m : list byte) : skipn 4 (le_split 4 x ++ m) = m.
Proof. exact (skipn_length_app (le_split 4 x) m). Qed.

Lemma recv_packet_frame (p : packet) (more : list byte) (sock : socket) :
  well_formed p ->
  stream (incoming sock) = frame p ++ more ->
  exists sock',
    _recv_packet sock = (Return p, sock')
    /\ stream (incoming sock') = more
    /\ outgoing sock' = outgoing sock.
Proof.
  destruct p as [[id ty] body]. unfold well_formed, frame.
  cbn [packet_id packet_type packet_body fst snd].
  intros (Hid & Hty & Hlen) Hst.
  set (payload := le_split 4 id ++ le_split 4 ty ++ body ++ [Byte.x00; Byte.x00]).
  assert (Hpl : List.length payload = (List.length body + 10)%nat).
  { subst payload. rewrite !length_app, !length_le_split_4. simpl. lia. }
  fold payload in Hst. rewrite <- app_assoc in Hst.
  (* the length word *)
  destruct (recv_exact_stream 4 sock) as (sock1 & Hr1 & Hs1 & Ho1).
  { rewrite Hst, length_app, length_le_split_4. lia. }
  rewrite Hst, firstn_4_le_split in Hr1. rewrite Hst, skipn_4_le_split in Hs1.
  (* the payload *)
  destruct (recv_exact_stream (List.length payload) sock1) as (sock2 & Hr2 & Hs2 & Ho2).
  { rewrite Hs1, length_app. lia. }
  rewrite Hs1, firstn_length_app in Hr2. rewrite Hs1, skipn_length_app in Hs2.
  exists sock2. split; [| split; [exact Hs2 | congruence]].
  unfold _recv_packet, bind, lift. change 4 with (Z.of_nat 4) at 1. rewrite Hr1.
  unfold unpack_i32. rewrite length_le_split_4. cbn [Nat.eqb].
  rewrite (int32_round_trip _ Hlen).
  replace (Z.of_nat (List.length body) + 10) with (Z.of_nat (List.length payload))
    by (rewrite Hpl; lia).
  rewrite Hr2.
  assert (H8 : firstn 8 payload = le_split 4 id ++ le_split 4 ty).
  { subst payload. rewrite app_assoc.
    exact (firstn_length_app (le_split 4 id ++ le_split 4 ty) _). }
  rewrite H8. unfold unpack_ii.
  rewrite length_app, !length_le_split_4. cbn [Nat.add Nat.eqb].
  rewrite firstn_4_le_split, skipn_4_le_split.
  rewrite (int32_round_trip _ Hid), (int32_round_trip _ Hty).
  unfold ret. do 3 f_equal.
  (* payload[8:-2] *)
  set (hdr := le_split 4 id ++ le_split 4 ty).
  replace payload with ((hdr ++ body) ++ [Byte.x00; Byte.x00])
    by (subst payload hdr; rewrite <- !app_assoc; reflexivity).
  replace (List.length ((hdr ++ body) ++ [Byte.x00; Byte.x00]) - 2)%nat
    with (List.length (hdr ++ body))
    by (rewrite (length_app (hdr ++ body)); simpl; lia).
  rewrite firstn_length_app.
  replace (skipn 8 (hdr ++ body)) with body
    by (symmetry; exact (skipn_length_app hdr body)).
  reflexivity.
Qed.

Lemma send_packet_inv (req_id ptype : Z) (body : string) (sock sock' : socket) :
  _send_packet req_id ptype body sock = (Return tt, sock') ->
  well_formed (req_id, ptype, utf8_encode body)
  /\ incoming sock' = incoming sock
  /\ outgoing sock' = outgoing sock ++ frame (req_id, ptype, utf8_encode body).
Proof.
  unfold _send_packet, bind, lift, sendall.
  destruct (encode_packet req_id ptype body) as [pkt | e |] eqn:E; try discriminate.
  apply encode_packet_inv in E. destruct E as [Hwf ->].
  intros H. injection H as <-. auto.
Qed.

Lemma send_packet_ok (req_id ptype : Z) (body : string) (sock : socket) :
  well_formed (req_id, ptype, utf8_encode body) ->
  _send_packet req_id ptype body sock
  = (Return tt, mkSocket (incoming sock)
                         (outgoing sock ++ frame (req_id, ptype, utf8_encode body))).
Proof.
  intros Hwf. unfold _send_packet, bind, lift, sendall.
  rewrite (encode_packet_ok _ _ _ Hwf). reflexivity.
Qed.

(** *** UTF-8 *)

Lemma utf8_decode_char (c : ascii) (tail : list byte) :
  utf8_decode (utf8_encode_char c ++ tail) = option_map (String c) (utf8_decode tail).
Proof.
  destruct c as [b0 b1 b2 b3 b4 b5 b6 b7].
  destruct b0, b1, b2, b3, b4, b5, b6, b7; reflexivity.
Qed.

Lemma utf8_decode_encode (s : string) : utf8_decode (utf8_encode s) = Some s.
Proof.
  induction s as [| c s IH]; [reflexivity |].
  cbn [utf8_encode]. rewrite utf8_decode_char, IH. reflexivity.
Qed.

(** The program's own bodies are bodies like any other. *)
Lemma utf8_encode_code_points (s : string) :
  utf8_encode_str (code_points s) = Return (utf8_encode s).
Proof.
  induction s as [| c s IH]; [reflexivity |].
  unfold code_points in *. cbn [list_ascii_of_string map utf8_encode_str utf8_encode].
  rewrite IH.
  assert (Hc : utf8_encode_point (Z.of_N (N_of_ascii c)) = Return (utf8_encode_char c)).
  { destruct c as [b0 b1 b2 b3 b4 b5 b6 b7].
    destruct b0, b1, b2, b3, b4, b5, b6, b7; reflexivity. }
  rewrite Hc. reflexivity.
Qed.

Lemma send_packet_code_points (req_id ptype : Z) (body : string) (sock : socket) :
  _send_packet req_id ptype body sock = _send_packet_str req_id ptype (code_points body) sock.
Proof.
  unfold _send_packet, _send_packet_str, encode_packet, encode_packet_str.
  rewrite utf8_encode_code_points. reflexivity.
Qed.

Lemma unsigned_of_small (z : Z) : 0 <= z < 256 -> byte.unsigned (byte.of_Z z) = z.
Proof.
  intros H. rewrite byte.unsigned_of_Z. unfold byte.wrap.
  change (2 ^ 8) with 256. apply Z.mod_small. exact H.
Qed.

Ltac settle_tests :=
  repeat match goal with
         | |- context [?x <? ?y] =>
             first [ replace (x <? y) with true by (symmetry; apply Z.ltb_lt; lia)
                   | replace (x <? y) with false by (symmetry; apply Z.ltb_ge; lia) ]
         | |- context [?x <=? ?y] =>
             first [ replace (x <=? y) with true by (symmetry; apply Z.leb_le; lia)
                   | replace (x <=? y) with false by (symmetry; apply Z.leb_gt; lia) ]
         | |- context [?x =? ?y] =>
             first [ replace (x =? y) with true by (symmetry; apply Z.eqb_eq; lia)
                   | replace (x =? y) with false by (symmetry; apply Z.eqb_neq; lia) ]
         end.

(** One code point, encoded, is read back as it was. *)
Lemma utf8_decode_point (cp : Z) :
  is_scalar cp = true ->
  exists bytes,
    utf8_encode_point cp = Return bytes
    /\ (1 <= List.length bytes <= 4)%nat
    /\ forall tail,
        utf8_decode_str (bytes ++ tail) = option_map (cons cp) (utf8_decode_str tail).
Proof.
  unfold is_scalar. intros H.
  apply andb_true_iff in H. destruct H as [H Hsur].
  apply andb_true_iff in H. destruct H as [H0 Hmax].
  apply Z.leb_le in H0, Hmax. apply negb_true_iff in Hsur.
  unfold utf8_encode_point.
  destruct (Z.ltb_spec cp 128) as [H1 | H1].
  { eexists. split; [reflexivity |]. split; [cbn; lia |]. intros tail.
    cbn [app utf8_decode_str]. cbv zeta. rewrite unsigned_of_small by lia.
    settle_tests. reflexivity. }
  destruct (Z.ltb_spec cp 2048) as [H2 | H2].
  { eexists. split; [reflexivity |]. split; [cbn; lia |]. intros tail.
    remember (192 + cp / 64) as a eqn:Ea. remember (128 + cp mod 64) as b eqn:Eb.
    assert (Ha : 194 <= a <= 223) by (subst a; Z.to_euclidean_division_equations; lia).
    assert (Hb : 128 <= b <= 191) by (subst b; Z.to_euclidean_division_equations; lia).
    assert (Hv : (a - 192) * 64 + (b - 128) = cp)
      by (subst a b; Z.to_euclidean_division_equations; lia).
    clear Ea Eb. cbn [app utf8_decode_str]. cbv zeta. unfold continues.
    rewrite !unsigned_of_small by lia. settle_tests. cbn [andb]. rewrite Hv.
    reflexivity. }
  rewrite Hsur.
  assert (Hns : cp < 55296 \/ 57343 < cp).
  { apply andb_false_iff in Hsur. destruct Hsur as [E | E];
      [apply Z.leb_gt in E | apply Z.leb_gt in E]; lia. }
  destruct (Z.ltb_spec cp 65536) as [H3 | H3].
  { eexists. split; [reflexivity |]. split; [cbn; lia |]. intros tail.
    remember (224 + cp / 4096) as a eqn:Ea.
    remember (128 + (cp / 64) mod 64) as b eqn:Eb.
    remember (128 + cp mod 64) as c eqn:Ec.
    assert (Ha : 224 <= a <= 239) by (subst a; Z.to_euclidean_division_equations; lia).
    assert (Hb : 128 <= b <= 191) by (subst b; Z.to_euclidean_division_equations; lia).
    assert (Hc : 128 <= c <= 191) by (subst c; Z.to_euclidean_division_equations; lia).
    assert (Hlo : a = 224 -> 160 <= b)
      by (subst a b; Z.to_euclidean_division_equations; lia).
    assert (Hhi : a = 237 -> b <= 159)
      by (subst a b; Z.to_euclidean_division_equations; lia).
    assert (Hv : (a - 224) * 4096 + (b - 128) * 64 + (c - 128) = cp)
      by (subst a b c; Z.to_euclidean_division_equations; lia).
    clear Ea Eb Ec. cbn [app utf8_decode_str]. cbv zeta. unfold continues.
    rewrite !unsigned_of_small by lia.
    destruct (Z.eqb_spec a 224) as [E224 | E224];
      destruct (Z.eqb_spec a 237) as [E237 | E237]; try lia;
      settle_tests; cbn [andb]; rewrite Hv; reflexivity. }
  eexists. split; [reflexivity |]. split; [cbn; lia |]. intros tail.
  remember (240 + cp / 262144) as a eqn:Ea.
  remember (128 + (cp / 4096) mod 64) as b eqn:Eb.
  remember (128 + (cp / 64) mod 64) as c eqn:Ec.
  remember (128 + cp mod 64) as d eqn:Ed.
  assert (Ha : 240 <= a <= 244) by (subst a; Z.to_euclidean_division_equations; lia).
  assert (Hb : 128 <= b <= 191) by (subst b; Z.to_euclidean_division_equations; lia).
  assert (Hc : 128 <= c <= 191) by (subst c; Z.to_euclidean_division_equations; lia).
  assert (Hd : 128 <= d <= 191) by (subst d; Z.to_euclidean_division_equations; lia).
  assert (Hlo : a = 240 -> 144 <= b)
    by (subst a b; Z.to_euclidean_division_equations; lia).
  assert (Hhi : a = 244 -> b <= 143)
    by (subst a b; Z.to_euclidean_division_equations; lia).
  assert (Hv : (a - 240) * 262144 + (b - 128) * 4096 + (c - 128) * 64 + (d - 128) = cp)
    by (subst a b c d; Z.to_euclidean_division_equations; lia).
  clear Ea Eb Ec Ed. cbn [app utf8_decode_str]. cbv zeta. unfold continues.
  rewrite !unsigned_of_small by lia.
  destruct (Z.eqb_spec a 240) as [E240 | E240];
    destruct (Z.eqb_spec a 244) as [E244 | E244]; try lia;
    settle_tests; cbn [andb]; rewrite Hv; reflexivity.
Qed.

(** A body of code points that have a UTF-8 form is encoded, and its
    bytes are read back as the body. *)
Lemma utf8_decode_encode_str (body : list Z) :
  forallb is_scalar body = true ->
  exists body_bytes,
    utf8_encode_str body = Return body_bytes
    /\ utf8_decode_str body_bytes = Some body
    /\ (List.length body <= List.length body_bytes <= 4 * List.length body)%nat.
Proof.
  induction body as [| cp body IH]; intros H.
  - exists []. repeat split; cbn; lia.
  - cbn [forallb] in H. apply andb_true_iff in H. destruct H as [Hcp Hrest].
    destruct (utf8_decode_point cp Hcp) as (bytes & He & Hlen & Hd).
    destruct (IH Hrest) as (more & Hm & Hdm & Hlm).
    exists (bytes ++ more). cbn [utf8_encode_str]. rewrite He, Hm.
    split; [reflexivity |]. split; [rewrite Hd, Hdm; reflexivity |].
    rewrite length_app. cbn [List.length]. lia.
Qed.

(** A surrogate anywhere in the body makes the encoding raise. *)
Lemma utf8_encode_surrogate (before after : list Z) (cp : Z) :
  forallb is_scalar before = true -> 55296 <= cp <= 57343 ->
  utf8_encode_str (before ++ cp :: after) = Raise UnicodeEncodeError.
Proof.
  intros Hb Hcp. induction before as [| x before IH].
  - cbn [app utf8_encode_str]. unfold utf8_encode_point. settle_tests. reflexivity.
  - cbn [forallb] in Hb. apply andb_true_iff in Hb. destruct Hb as [Hx Hrest].
    destruct (utf8_decode_point x Hx) as (bytes & He & _).
    cbn [app utf8_encode_str]. rewrite He, (IH Hrest). reflexivity.
Qed.

(** C7.  For a request id and a packet type in the int32 range and a
    body of any code points that have a UTF-8 form (every code point
    from 0 to 0x10FFFF but the surrogates) whose UTF-8 length plus 10
    is in the int32 range, [_send_packet] puts on the wire int32 LE
    (len + 10), int32 LE id, int32 LE type, the UTF-8 bytes of the body
    and two zero bytes; when these bytes arrive at a socket, in
    whatever chunks and whatever follows them, [_recv_packet] returns
    the same id, the same type and the body bytes, which decode to the
    body, and leaves what follows unread.  A body with a surrogate in
    it has no UTF-8 form: [_send_packet] raises [UnicodeEncodeError]
    and sends nothing.  For a body given as a [string], [_send_packet]
    does what it does for the list of its code points. *)
Theorem packet_round_trip :
  forall (req_id ptype : Z) (body : list Z) (sender : socket),
    in_int32 req_id = true -> in_int32 ptype = true ->
    (forallb is_scalar body = true ->
     exists body_bytes,
       utf8_encode_str body = Return body_bytes
       /\ (in_int32 (Z.of_nat (List.length body_bytes) + 10) = true ->
           let wire :=
             le_split 4 (Z.of_nat (List.length body_bytes) + 10)
               ++ le_split 4 req_id ++ le_split 4 ptype
               ++ body_bytes ++ [Byte.x00; Byte.x00] in
           _send_packet_str req_id ptype body sender
           = (Return tt, mkSocket (incoming sender) (outgoing sender ++ wire))
           /\ forall (receiver : socket) (more : list byte),
               stream (incoming receiver) = wire ++ more ->
               exists receiver',
                 _recv_packet receiver = (Return (req_id, ptype, body_bytes), receiver')
                 /\ utf8_decode_str body_bytes = Some body
                 /\ stream (incoming receiver') = more
                 /\ outgoing receiver' = outgoing receiver))
    /\ (forall before cp after,
           body = before ++ cp :: after ->
           forallb is_scalar before = true -> 55296 <= cp <= 57343 ->
           _send_packet_str req_id ptype body sender = (Raise UnicodeEncodeError, sender))
    /\ (forall text : string,
           body = code_points text ->
           _send_packet req_id ptype text sender
           = _send_packet_str req_id ptype body sender).
Proof.
  intros req_id ptype body sender Hid Hty.
  split; [| split; [| intros text ->; apply send_packet_code_points]].
  - intros Hbody.
    destruct (utf8_decode_encode_str body Hbody) as (body_bytes & He & Hd & _).
    exists body_bytes. split; [exact He |]. intros Hlen wire.
    assert (Hwf : well_formed (req_id, ptype, body_bytes))
      by (repeat split; assumption).
    split.
    + unfold _send_packet_str, bind, lift, sendall, encode_packet_str. rewrite He.
      unfold pack_iii. rewrite !pack_i32_ok by assumption. reflexivity.
    + intros receiver more Hst.
      destruct (recv_packet_frame (req_id, ptype, body_bytes) more receiver Hwf Hst)
        as (receiver' & Hr & Hs & Ho).
      exists receiver'. split; [exact Hr | split; [exact Hd | split; assumption]].
  - intros before cp after -> Hb Hcp.
    unfold _send_packet_str, bind, lift, encode_packet_str.
    rewrite (utf8_encode_surrogate before after cp Hb Hcp). reflexivity.
Qed.

Lemma packet_round_trip_witness :
  let body := [112; 233; 8364; 128512] in
  let body_bytes :=
    [Byte.x70; Byte.xc3; Byte.xa9; Byte.xe2; Byte.x82; Byte.xac;
     Byte.xf0; Byte.x9f; Byte.x98; Byte.x80] in
  exists receiver',
    _recv_packet
      (mkSocket [Chunk [Byte.x14; Byte.x00; Byte.x00]; Chunk [Byte.x00; Byte.x02];
                 Chunk [Byte.x00; Byte.x00; Byte.x00; Byte.x02; Byte.x00; Byte.x00;
                        Byte.x00; Byte.x70; Byte.xc3; Byte.xa9; Byte.xe2];
                 Chunk [Byte.x82; Byte.xac; Byte.xf0; Byte.x9f; Byte.x98; Byte.x80;
                        Byte.x00; Byte.x00; Byte.xff];
                 TimedOut] [])
    = (Return (2, 2, body_bytes), receiver')
    /\ utf8_decode_str body_bytes = Some body.
Proof.
  intros body body_bytes.
  destruct (proj1 (packet_round_trip 2 2 body (mkSocket [] []) eq_refl eq_refl) eq_refl)
    as (bytes & He & Hwire).
  assert (bytes = body_bytes) as -> by (injection He as <-; reflexivity).
  destruct (Hwire eq_refl) as [_ Hrecv].
  destruct (Hrecv
              (mkSocket [Chunk [Byte.x14; Byte.x00; Byte.x00]; Chunk [Byte.x00; Byte.x02];
                 Chunk [Byte.x00; Byte.x00; Byte.x00; Byte.x02; Byte.x00; Byte.x00;
                        Byte.x00; Byte.x70; Byte.xc3; Byte.xa9; Byte.xe2];
                 Chunk [Byte.x82; Byte.xac; Byte.xf0; Byte.x9f; Byte.x98; Byte.x80;
                        Byte.x00; Byte.x00; Byte.xff];
                 TimedOut] [])
              [Byte.xff] eq_refl) as (receiver' & Hr & Hd & _).
  exists receiver'. split; assumption.
Defined.

(** *** The loops end *)

Lemma recv_pending (n : Z) (sock sock' : socket) (chunk : list byte) :
  recv n sock = (Return chunk, sock') -> 0 < n -> is_empty chunk = false ->
  (pending (incoming sock') < pending (incoming sock))%nat
  /\ 0 < Z.of_nat (List.length chunk) <= n
  /\ outgoing sock' = outgoing sock.
Proof.
  unfold recv. destruct sock as [[| [data |] evs] out]; cbn [incoming outgoing].
  - intros H. injection H as <- <-. discriminate.
  - destruct (Z.leb_spec (Z.of_nat (List.length data)) n) as [Hle | Hgt];
      intros H; injection H as <- <-; intros Hn Hne; cbn [incoming outgoing pending].
    + destruct data; [discriminate |]. cbn [List.length] in *.
      split; [lia | split; [lia | reflexivity]].
    + rewrite length_firstn, length_skipn.
      destruct (firstn (Z.to_nat n) data) eqn:E; [discriminate |].
      split; [lia | split; [lia | reflexivity]].
  - discriminate.
Qed.

Lemma recv_exact_loop_total (fuel : nat) :
  forall (chunks : list (list byte)) (remaining : Z) (sock : socket),
    remaining <= Z.of_nat fuel ->
    fst (recv_exact_loop fuel chunks remaining sock) <> OutOfFuel
    /\ (forall bs, fst (recv_exact_loop fuel chunks remaining sock) = Return bs ->
        0 < remaining ->
        (pending (incoming (snd (recv_exact_loop fuel chunks remaining sock)))
         < pending (incoming sock))%nat)
    /\ (forall bs, fst (recv_exact_loop fuel chunks remaining sock) = Return bs ->
        (pending (incoming (snd (recv_exact_loop fuel chunks remaining sock)))
         <= pending (incoming sock))%nat).
Proof.
  induction fuel as [| fuel IH]; intros chunks remaining sock Hfuel;
    rewrite recv_exact_loop_eq;
    destruct (Z.ltb_spec 0 remaining) as [Hpos | Hneg];
    try (cbn [ret fst snd]; repeat split; try discriminate; intros; lia).
  unfold bind. destruct (recv remaining sock) as [[chunk | e |] sock1] eqn:Er;
    cbn [fst snd]; try (repeat split; try discriminate; fail).
  - destruct (is_empty chunk) eqn:Ee.
    + cbn [raise fst snd]. repeat split; discriminate.
    + destruct (recv_pending _ _ _ _ Er Hpos Ee) as (Hp & Hl & _).
      destruct (IH (chunks ++ [chunk]) (remaining - Z.of_nat (List.length chunk)) sock1)
        as (Hnf & Hlt & Hle); [lia |].
      split; [exact Hnf |]. split.
      * intros bs Hbs _. specialize (Hle bs Hbs). lia.
      * intros bs Hbs. specialize (Hle bs Hbs). lia.
  - unfold recv in Er. destruct (incoming sock) as [| [data |] evs]; try discriminate.
    destruct (Z.of_nat (List.length data) <=? remaining); discriminate.
Qed.

Lemma recv_exact_total (length : Z) (sock : socket) :
  fst (_recv_exact length sock) <> OutOfFuel
  /\ (forall bs, fst (_recv_exact length sock) = Return bs ->
      (pending (incoming (snd (_recv_exact length sock))) <= pending (incoming sock))%nat
      /\ (0 < length ->
          (pending (incoming (snd (_recv_exact length sock))) < pending (incoming sock))%nat)).
Proof.
  unfold _recv_exact.
  destruct (recv_exact_loop_total (Z.to_nat length) [] length sock) as (Hnf & Hlt & Hle);
    [lia |].
  split; [exact Hnf |]. intros bs Hbs. split; [eauto | intros; eauto].
Qed.

Lemma recv_packet_total (sock : socket) :
  fst (_recv_packet sock) <> OutOfFuel
  /\ (forall p, fst (_recv_packet sock) = Return p ->
      (pending (incoming (snd (_recv_packet sock))) < pending (incoming sock))%nat).
Proof.
  unfold _recv_packet, bind, lift.
  destruct (recv_exact_total 4 sock) as (Hnf1 & Hp1).
  destruct (_recv_exact 4 sock) as [[raw | e |] sock1] eqn:E1; cbn [fst snd] in *;
    try (split; [discriminate + congruence | discriminate]).
  destruct (Hp1 raw eq_refl) as [_ Hlt1]. specialize (Hlt1 ltac:(lia)).
  destruct (unpack_i32 raw) as [len | e |] eqn:Eu; cbn [fst snd];
    try (split; discriminate).
  2: { unfold unpack_i32 in Eu. destruct (Nat.eqb _ _); discriminate. }
  destruct (recv_exact_total len sock1) as (Hnf2 & Hp2).
  destruct (_recv_exact len sock1) as [[payload | e |] sock2] eqn:E2; cbn [fst snd] in *;
    try (split; [discriminate + congruence | discriminate]).
  destruct (Hp2 payload eq_refl) as [Hle2 _].
  destruct (unpack_ii (firstn 8 payload)) as [[req ty] | e |] eqn:Ei; cbn [fst snd ret];
    try (split; discriminate).
  - split; [discriminate | intros; lia].
  - unfold unpack_ii in Ei. destruct (Nat.eqb _ _); discriminate.
Qed.

Lemma authenticate_loop_total (fuel : nat) :
  forall sock : socket,
    (pending (incoming sock) < fuel)%nat ->
    fst (authenticate_loop fuel sock) <> OutOfFuel.
Proof.
  induction fuel as [| fuel IH]; intros sock Hfuel; [lia |].
  cbn [authenticate_loop]. unfold bind.
  destruct (recv_packet_total sock) as (Hnf & Hp).
  destruct (_recv_packet sock) as [[[[req ty] body] | e |] sock1] eqn:E; cbn [fst snd] in *;
    try discriminate; try congruence.
  specialize (Hp _ eq_refl).
  destruct (ty =? 2); [discriminate |].
  destruct (req =? -1); [discriminate |].
  apply IH. lia.
Qed.

Lemma authenticate_total (password : string) (sock : socket) :
  fst (_authenticate password sock) <> OutOfFuel.
Proof.
  unfold _authenticate, bind, get, _send_packet, lift, sendall.
  destruct (encode_packet 1 3 password) as [pkt | e |] eqn:E; cbn [fst]; try discriminate.
  - cbn [incoming]. apply authenticate_loop_total. lia.
  - unfold encode_packet, pack_iii, pack_i32 in E.
    repeat match type of E with
           | context [if ?b then _ else _] => destruct b
           end; discriminate.
Qed.

(** *** The authentication handshake *)

Lemma length_frame (p : packet) :
  List.length (frame p) = (14 + List.length (packet_body p))%nat.
Proof.
  unfold frame. rewrite !length_app, !length_le_split_4. simpl. lia.
Qed.

Lemma length_frames (ps : list packet) :
  (List.length ps <= List.length (List.concat (map frame ps)))%nat.
Proof.
  induction ps as [| p ps IH]; cbn [List.length map List.concat]; [lia |].
  rewrite length_app, length_frame. lia.
Qed.

Lemma stream_le_pending (evs : list recv_event) :
  (List.length (stream evs) <= pending evs)%nat.
Proof.
  induction evs as [| [data |] evs IH]; simpl; try lia.
  destruct data as [| b data]; simpl; [lia |].
  rewrite length_app. lia.
Qed.

Lemma authenticate_loop_frames (skipped : list packet) :
  forall (fuel : nat) (reply : packet) (more : list byte) (sock : socket),
    (List.length skipped < fuel)%nat ->
    Forall well_formed skipped -> Forall passed_over skipped ->
    well_formed reply -> packet_type reply = 2 \/ packet_id reply = -1 ->
    stream (incoming sock) = List.concat (map frame skipped) ++ frame reply ++ more ->
    exists sock',
      authenticate_loop fuel sock = (Return (verdict reply), sock')
      /\ stream (incoming sock') = more
      /\ outgoing sock' = outgoing sock.
Proof.
  induction skipped as [| p skipped IH];
    intros fuel reply more sock Hfuel Hwf Hpass Hwr Hstop Hst;
    (destruct fuel as [| fuel]; [simpl in Hfuel; lia |]); cbn [authenticate_loop].
  - cbn [map List.concat app] in Hst.
    destruct (recv_packet_frame reply more sock Hwr Hst) as (sock' & Hr & Hs & Ho).
    exists sock'. unfold bind. rewrite Hr.
    destruct reply as [[id ty] body]. unfold verdict.
    cbn [packet_type packet_id fst snd] in *.
    split; [| auto].
    destruct (Z.eqb_spec ty 2) as [Hty | Hty]; [reflexivity |].
    destruct Hstop as [Hstop | Hstop]; [contradiction |].
    subst id. reflexivity.
  - inversion Hwf as [| ? ? Hwp Hwf']; subst.
    inversion Hpass as [| ? ? Hpp Hpass']; subst.
    cbn [map List.concat] in Hst. rewrite <- app_assoc in Hst.
    destruct (recv_packet_frame p _ sock Hwp Hst) as (sock1 & Hr & Hs & Ho).
    destruct (IH fuel reply more sock1) as (sock' & Hr' & Hs' & Ho'); try assumption.
    { simpl in Hfuel. lia. }
    exists sock'. unfold bind. rewrite Hr.
    destruct p as [[id ty] body]. destruct Hpp as [Hty Hid].
    cbn [packet_type packet_id fst snd] in Hty, Hid.
    destruct (Z.eqb_spec ty 2); [contradiction |].
    destruct (Z.eqb_spec id (-1)); [contradiction |].
    rewrite Hr'. split; [reflexivity | split; [assumption | congruence]].
Qed.

(** C2, as the code has it.  After the AUTH packet (request id 1, type
    3) is sent, packets are read and passed over as long as they are
    neither of type 2 nor carry the request id -1.  The first packet
    that is one or the other decides: authentication succeeds exactly
    when it is of type 2 and its request id is not -1.  The id is not
    compared with the id that was sent, and packets after the deciding
    one are not read. *)
Theorem authenticate_verdict :
  forall (password : string) (sock : socket) (skipped : list packet)
         (reply : packet) (more : list byte),
    well_formed (1, 3, utf8_encode password) ->
    Forall well_formed skipped -> Forall passed_over skipped ->
    well_formed reply -> packet_type reply = 2 \/ packet_id reply = -1 ->
    stream (incoming sock) = List.concat (map frame skipped) ++ frame reply ++ more ->
    exists sock',
      _authenticate password sock
      = (Return ((packet_type reply =? 2) && negb (packet_id reply =? -1)), sock')
      /\ stream (incoming sock') = more
      /\ outgoing sock' = outgoing sock ++ frame (1, 3, utf8_encode password).
Proof.
  intros password sock skipped reply more Hauth Hwf Hpass Hwr Hstop Hst.
  unfold _authenticate, bind, get. rewrite (send_packet_ok _ _ _ _ Hauth).
  cbn [incoming].
  destruct (authenticate_loop_frames skipped (S (pending (incoming sock))) reply more
              (mkSocket (incoming sock)
                        (outgoing sock ++ frame (1, 3, utf8_encode password))))
    as (sock' & Hr & Hs & Ho); try assumption.
  - pose proof (stream_le_pending (incoming sock)) as Hp.
    pose proof (length_frames skipped) as Hl.
    rewrite Hst, length_app in Hp. lia.
  - exists sock'. rewrite Hr. auto.
Qed.

Lemma authenticate_verdict_witness :
  exists sock',
    _authenticate "secret"
      (mkSocket [Chunk (frame (0, 0, [])); Chunk (frame (1, 2, []))] [])
    = (Return true, sock').
Proof.
  destruct (authenticate_verdict "secret"
              (mkSocket [Chunk (frame (0, 0, [])); Chunk (frame (1, 2, []))] [])
              [(0, 0, [])] (1, 2, []) [])
    as (sock' & Hr & _).
  - repeat split.
  - repeat constructor.
  - repeat constructor; discriminate.
  - repeat split.
  - left; reflexivity.
  - reflexivity.
  - exists sock'. exact Hr.
Defined.

(** C2, as stated, fails: an AUTH_RESPONSE whose request id is 7, not
    the id 1 that was sent, authenticates. *)
Lemma authenticate_accepts_other_id :
  let sock := mkSocket [Chunk (frame (7, 2, []))] [] in
  fst (_recv_packet sock) = Return (7, 2, [])
  /\ fst (_authenticate "secret" sock) = Return true
  /\ 7 <> 1.
Proof.
  repeat split; try reflexivity. discriminate.
Qed.

(** *** send_command *)

(** C6.  Once authentication has succeeded and the EXECCOMMAND packet
    (request id 2, type 2) is sent, [send_command] reads one packet.  A
    packet whose type is neither 0 nor 2 makes it raise [RconError]
    ("Unexpected packet type ..."); a packet of type 0 or 2 gives its
    decoded body; a [socket.timeout] during that read gives the empty
    string.  The connection is closed in each case. *)
Theorem send_command_reply :
  forall (decode_replace : list byte -> string) (self : RconClient) (command : string)
         (net : network) (evs : list recv_event)
         (rest : list (option (list recv_event))) (sock1 sock2 : socket),
    listeners net = Some evs :: rest ->
    _authenticate (_password self) (mkSocket evs []) = (Return true, sock1) ->
    _send_packet 2 2 command sock1 = (Return tt, sock2) ->
    (forall req_id ptype body sock3,
        _recv_packet sock2 = (Return (req_id, ptype, body), sock3) ->
        (ptype <> 0 -> ptype <> 2 ->
         send_command decode_replace self command net
         = (Raise (RconError ("Unexpected packet type " ++ str_of_int ptype)),
            mkNetwork rest (closed net ++ [outgoing sock3])))
        /\ (ptype = 0 \/ ptype = 2 ->
            send_command decode_replace self command net
            = (Return (decode_replace body),
               mkNetwork rest (closed net ++ [outgoing sock3]))))
    /\ (forall sock3,
           _recv_packet sock2 = (Raise SocketTimeout, sock3) ->
           send_command decode_replace self command net
           = (Return EmptyString, mkNetwork rest (closed net ++ [outgoing sock3]))).
Proof.
  intros decode self command net evs rest sock1 sock2 Hnet Hauth Hsend.
  assert (Hrun : forall r sock3,
             except_timeout
               (bind _recv_packet (fun '(req_id, packet_type, body) =>
                  if negb ((packet_type =? 0) || (packet_type =? 2))
                  then raise (RconError ("Unexpected packet type "
                                           ++ str_of_int packet_type))
                  else ret (decode body))) sock2 = (r, sock3) ->
             send_command decode self command net
             = (r, mkNetwork rest (closed net ++ [outgoing sock3]))).
  { intros r sock3 H.
    unfold send_command, with_connection, bind, create_connection. rewrite Hnet.
    cbn [listeners closed]. unfold exchange, bind. rewrite Hauth. cbn [negb].
    rewrite Hsend. unfold bind in H. rewrite H. reflexivity. }
  split.
  - intros req_id ptype body sock3 Hrecv. split.
    + intros H0 H2. apply Hrun. unfold except_timeout, bind. rewrite Hrecv.
      destruct (Z.eqb_spec ptype 0); [contradiction |].
      destruct (Z.eqb_spec ptype 2); [contradiction |]. reflexivity.
    + intros H. apply Hrun. unfold except_timeout, bind. rewrite Hrecv.
      destruct H as [-> | ->]; reflexivity.
  - intros sock3 Hrecv. apply Hrun. unfold except_timeout, bind. rewrite Hrecv.
    reflexivity.
Qed.

Lemma send_command_reply_witness :
  fst (send_command ascii_decode example_client "save" silent_server) = Return EmptyString
  /\ fst (send_command ascii_decode example_client "save" odd_server)
     = Raise (RconError "Unexpected packet type 5").
Proof.
  split.
  - pose (sock1 := snd (_authenticate "secret"
                          (mkSocket [Chunk (frame (1, 2, [])); TimedOut] []))).
    pose (sock2 := snd (_send_packet 2 2 "save" sock1)).
    destruct (send_command_reply ascii_decode example_client "save" silent_server
                [Chunk (frame (1, 2, [])); TimedOut] [] sock1 sock2
                eq_refl eq_refl eq_refl) as [_ Hsilent].
    rewrite (Hsilent (snd (_recv_packet sock2)) eq_refl). reflexivity.
  - pose (sock1 := snd (_authenticate "secret"
                          (mkSocket [Chunk (frame (1, 2, [])); Chunk (frame (2, 5, []))] []))).
    pose (sock2 := snd (_send_packet 2 2 "save" sock1)).
    destruct (send_command_reply ascii_decode example_client "save" odd_server
                [Chunk (frame (1, 2, [])); Chunk (frame (2, 5, []))] [] sock1 sock2
                eq_refl eq_refl eq_refl) as [Hodd _].
    destruct (Hodd 2 5 [] (snd (_recv_packet sock2)) eq_refl) as [Hraise _].
    rewrite Hraise; [reflexivity | discriminate | discriminate].
Defined.

Lemma send_command_total (decode_replace : list byte -> string) (self : RconClient)
      (command : string) (net : network) :
  fst (send_command decode_replace self command net) <> OutOfFuel.
Proof.
  unfold send_command, with_connection, bind, create_connection.
  destruct (listeners net) as [| [evs |] rest]; cbn [fst]; try discriminate.
  destruct (exchange decode_replace (_password self) command (mkSocket evs []))
    as [r sock'] eqn:E.
  cbn [fst]. intros ->. revert E. unfold exchange, bind.
  pose proof (authenticate_total (_password self) (mkSocket evs [])) as Ha.
  destruct (_authenticate (_password self) (mkSocket evs [])) as [[ok | e |] sock1];
    cbn [fst] in Ha; try discriminate; try congruence.
  destruct ok; cbn [negb]; [| discriminate].
  unfold _send_packet, bind, lift, sendall.
  destruct (encode_packet 2 2 command) as [pkt | e |] eqn:Ee; try discriminate.
  - unfold except_timeout, bind.
    pose proof (recv_packet_total
                  (mkSocket (incoming sock1) (outgoing sock1 ++ pkt))) as [Hr _].
    destruct (_recv_packet (mkSocket (incoming sock1) (outgoing sock1 ++ pkt)))
      as [[[[req ty] body] | e |] sock2]; cbn [fst] in Hr; try congruence.
    + destruct (negb ((ty =? 0) || (ty =? 2))); discriminate.
    + destruct e; discriminate.
  - unfold encode_packet, pack_iii, pack_i32 in Ee.
    repeat match type of Ee with
           | context [if ?b then _ else _] => destruct b
           end; discriminate.
Qed.

End RconFacts.

(* ================================================================== *)
(** * Part IV: further properties of the code *)
(* ================================================================== *)

(** ** rcon_client.py: reading and writing frames *)

Module WireFacts.

Import Rcon RconSpec WireSpec RconFacts.

Lemma recv_exact_loop_short (evs : list recv_event) :
  forall (n fuel : nat) (chunks : list (list byte)) (out : list byte),
    (List.length (stream evs) < n)%nat -> (n <= fuel)%nat ->
    exists evs',
      recv_exact_loop fuel chunks (Z.of_nat n) (mkSocket evs out)
      = (Raise (stopped_by evs), mkSocket evs' out).
Proof.
  induction evs as [| [data |] evs IH]; intros n fuel chunks out Hn Hfuel;
    (destruct fuel as [| fuel]; [lia |]);
    rewrite recv_exact_loop_eq;
    (replace (0 <? Z.of_nat n) with true by (symmetry; apply Z.ltb_lt; lia));
    unfold bind, recv; cbn [incoming outgoing].
  - cbn [is_empty stopped_by]. unfold raise. eauto.
  - destruct data as [| b data].
    + cbn [List.length Z.of_nat]. replace (0 <=? Z.of_nat n) with true
        by (symmetry; apply Z.leb_le; lia).
      cbn [is_empty stopped_by]. unfold raise. eauto.
    + set (d := b :: data) in *.
      change (stream (Chunk d :: evs)) with (d ++ stream evs) in Hn.
      rewrite length_app in Hn.
      replace (Z.of_nat (List.length d) <=? Z.of_nat n) with true
        by (symmetry; apply Z.leb_le; lia).
      change (is_empty d) with false. cbv iota.
      change (stopped_by (Chunk d :: evs)) with (stopped_by evs).
      replace (Z.of_nat n - Z.of_nat (List.length d))
        with (Z.of_nat (n - List.length d)) by lia.
      assert (Hd : (1 <= List.length d)%nat) by (subst d; simpl; lia).
      apply IH; lia.
  - cbn [stopped_by]. eauto.
Qed.

Lemma recv_exact_short (length : Z) (sock : socket) :
  Z.of_nat (List.length (stream (incoming sock))) < length ->
  exists sock',
    _recv_exact length sock = (Raise (stopped_by (incoming sock)), sock')
    /\ outgoing sock' = outgoing sock.
Proof.
  destruct sock as [evs out]. intros H. cbn [incoming outgoing] in *.
  destruct (recv_exact_loop_short evs (Z.to_nat length) (Z.to_nat length) [] out)
    as (evs' & Hrun); [lia | lia |].
  rewrite Z2Nat.id in Hrun by lia.
  exists (mkSocket evs' out). split; [exact Hrun | reflexivity].
Qed.

Lemma recv_exact_enough (length : Z) (sock : socket) :
  (Z.to_nat length <= List.length (stream (incoming sock)))%nat ->
  exists sock',
    _recv_exact length sock
    = (Return (firstn (Z.to_nat length) (stream (incoming sock))), sock')
    /\ stream (incoming sock') = skipn (Z.to_nat length) (stream (incoming sock))
    /\ outgoing sock' = outgoing sock.
Proof.
  intros Hle. destruct (Z.ltb_spec 0 length) as [Hpos | Hneg].
  - destruct (recv_exact_stream _ sock Hle) as (sock1 & Hrun & Hst & Hout).
    rewrite Z2Nat.id in Hrun by lia. eauto.
  - exists sock. unfold _recv_exact. rewrite recv_exact_loop_eq.
    replace (0 <? length) with false by (symmetry; apply Z.ltb_ge; lia).
    replace (Z.to_nat length) with 0%nat by lia. repeat split.
Qed.

(** X1.  When [_recv_exact] returns, it returns exactly the [length]
    next bytes of the connection (none when [length] is not positive),
    however the network cut them into chunks; the bytes after them are
    still to be read and nothing has been sent. *)
Theorem recv_exact_returns_the_next_bytes :
  forall (length : Z) (sock sock' : socket) (bs : list byte),
    _recv_exact length sock = (Return bs, sock') ->
    bs = firstn (Z.to_nat length) (stream (incoming sock))
    /\ Z.of_nat (List.length bs) = Z.max length 0
    /\ stream (incoming sock') = skipn (Z.to_nat length) (stream (incoming sock))
    /\ outgoing sock' = outgoing sock.
Proof.
  intros length sock sock' bs H.
  destruct (Nat.le_gt_cases (Z.to_nat length) (List.length (stream (incoming sock))))
    as [Hle | Hgt].
  - destruct (recv_exact_enough _ _ Hle) as (sock1 & Hrun & Hst & Hout).
    rewrite Hrun in H. injection H as <- <-.
    repeat split; try assumption. rewrite length_firstn. lia.
  - destruct (recv_exact_short length sock) as (sock1 & Hrun & _); [lia |].
    rewrite Hrun in H. discriminate.
Qed.

Lemma recv_exact_returns_the_next_bytes_witness :
  let sock := mkSocket [Chunk [Byte.x01]; Chunk [Byte.x02; Byte.x03; Byte.x04]] [] in
  fst (_recv_exact 3 sock) = Return [Byte.x01; Byte.x02; Byte.x03]
  /\ stream (incoming (snd (_recv_exact 3 sock))) = [Byte.x04].
Proof.
  intros sock. split; [reflexivity |].
  exact (proj1 (proj2 (proj2 (recv_exact_returns_the_next_bytes
                                3 sock (snd (_recv_exact 3 sock))
                                [Byte.x01; Byte.x02; Byte.x03] eq_refl)))).
Defined.

(** X2.  When the connection delivers fewer than [length] bytes,
    [_recv_exact] raises: [RconError("Connection closed by server")]
    when the server closed the connection, [socket.timeout] when a read
    ran into the timeout.  Nothing is sent. *)
Theorem recv_exact_raises_on_a_short_stream :
  forall (length : Z) (sock : socket),
    Z.of_nat (List.length (stream (incoming sock))) < length ->
    exists sock',
      _recv_exact length sock = (Raise (stopped_by (incoming sock)), sock')
      /\ outgoing sock' = outgoing sock.
Proof. exact recv_exact_short. Qed.

Lemma recv_exact_raises_on_a_short_stream_witness :
  (exists sock',
      _recv_exact 4 (mkSocket [Chunk [Byte.x01; Byte.x02]] [])
      = (Raise (RconError "Connection closed by server"), sock'))
  /\ exists sock',
      _recv_exact 4 (mkSocket [Chunk [Byte.x01; Byte.x02]; TimedOut; Chunk [Byte.x03]] [])
      = (Raise SocketTimeout, sock').
Proof.
  split.
  - destruct (recv_exact_raises_on_a_short_stream
                4 (mkSocket [Chunk [Byte.x01; Byte.x02]] [])) as (sock' & H & _);
      [cbn; lia |].
    exists sock'. exact H.
  - destruct (recv_exact_raises_on_a_short_stream
                4 (mkSocket [Chunk [Byte.x01; Byte.x02]; TimedOut; Chunk [Byte.x03]] []))
      as (sock' & H & _); [cbn; lia |].
    exists sock'. exact H.
Defined.

(** *** What reading leaves behind *)

Lemma recv_stopped_by (n : Z) (sock sock' : socket) (chunk : list byte) :
  recv n sock = (Return chunk, sock') -> 0 < n -> is_empty chunk = false ->
  stopped_by (incoming sock') = stopped_by (incoming sock).
Proof.
  unfold recv. destruct sock as [[| [data |] evs] out]; cbn [incoming outgoing].
  - intros H. injection H as <- <-. discriminate.
  - destruct (Z.leb_spec (Z.of_nat (List.length data)) n) as [Hle | Hgt];
      intros H; injection H as <- <-; intros Hn Hne; cbn [incoming stopped_by].
    + rewrite Hne. reflexivity.
    + destruct data as [| b data]; [cbn in Hgt; lia |].
      destruct (skipn (Z.to_nat n) (b :: data)) eqn:Es; [| reflexivity].
      apply (f_equal (@List.length byte)) in Es. rewrite length_skipn in Es.
      cbn [List.length] in Es, Hgt. lia.
  - discriminate.
Qed.

Lemma recv_exact_loop_stopped_by (fuel : nat) :
  forall (chunks : list (list byte)) (remaining : Z) (sock sock' : socket)
         (bs : list byte),
    recv_exact_loop fuel chunks remaining sock = (Return bs, sock') ->
    stopped_by (incoming sock') = stopped_by (incoming sock).
Proof.
  induction fuel as [| fuel IH]; intros chunks remaining sock sock' bs;
    rewrite recv_exact_loop_eq;
    destruct (Z.ltb_spec 0 remaining) as [Hpos | Hneg];
    try (intros H; injection H as _ <-; reflexivity); try discriminate.
  unfold bind. destruct (recv remaining sock) as [[chunk | e |] sock1] eqn:Er;
    try discriminate.
  destruct (is_empty chunk) eqn:Ee; [discriminate |].
  intros H. rewrite (IH _ _ _ _ _ H). exact (recv_stopped_by _ _ _ _ Er Hpos Ee).
Qed.

Lemma recv_exact_stopped_by (length : Z) (sock sock' : socket) (bs : list byte) :
  _recv_exact length sock = (Return bs, sock') ->
  stopped_by (incoming sock') = stopped_by (incoming sock).
Proof. apply recv_exact_loop_stopped_by. Qed.

Lemma recv_packet_stopped_by (sock sock' : socket) (p : packet) :
  _recv_packet sock = (Return p, sock') ->
  stopped_by (incoming sock') = stopped_by (incoming sock).
Proof.
  unfold _recv_packet, bind, lift.
  destruct (_recv_exact 4 sock) as [[raw | e |] sock1] eqn:E1; try discriminate.
  destruct (unpack_i32 raw) as [len | e |]; try discriminate.
  destruct (_recv_exact len sock1) as [[payload | e |] sock2] eqn:E2; try discriminate.
  destruct (unpack_ii (firstn 8 payload)) as [[id ty] | e |]; try discriminate.
  intros H. injection H as _ <-.
  rewrite (recv_exact_stopped_by _ _ _ _ E2). exact (recv_exact_stopped_by _ _ _ _ E1).
Qed.

(** *** Frames that are not what the reader expects *)

Lemma unpack_i32_le_split (x : Z) :
  in_int32 x = true -> unpack_i32 (le_split 4 x) = Return x.
Proof.
  intros H. unfold unpack_i32. rewrite length_le_split_4. cbn [Nat.eqb].
  rewrite (int32_round_trip _ H). reflexivity.
Qed.

Lemma recv_packet_header (length : Z) (following : list byte) (sock : socket) :
  in_int32 length = true ->
  stream (incoming sock) = le_split 4 length ++ following ->
  exists sock1,
    _recv_packet sock
    = bind (_recv_exact length) (fun payload =>
        bind (lift (unpack_ii (firstn 8 payload))) (fun '(req_id, packet_type) =>
          ret (req_id, packet_type,
               skipn 8 (firstn (List.length payload - 2) payload)))) sock1
    /\ stream (incoming sock1) = following
    /\ stopped_by (incoming sock1) = stopped_by (incoming sock)
    /\ outgoing sock1 = outgoing sock.
Proof.
  intros Hlen Hst.
  destruct (recv_exact_enough 4 sock) as (sock1 & Hr1 & Hs1 & Ho1).
  { rewrite Hst, length_app, length_le_split_4. cbn. lia. }
  change (Z.to_nat 4) with 4%nat in Hr1, Hs1.
  rewrite Hst, firstn_4_le_split in Hr1. rewrite Hst, skipn_4_le_split in Hs1.
  exists sock1. split; [| split; [exact Hs1 | split; [| exact Ho1]]].
  - unfold _recv_packet. unfold bind at 1. rewrite Hr1.
    unfold bind at 1, lift at 1. rewrite (unpack_i32_le_split _ Hlen). reflexivity.
  - exact (recv_exact_stopped_by _ _ _ _ Hr1).
Qed.

(** X3.  A frame whose length field is below 8 has no room for the
    request id and the packet type: [_recv_packet] reads the announced
    bytes (none when the length is not positive) and raises
    [struct.error]. *)
Theorem recv_packet_rejects_a_short_frame :
  forall (length : Z) (payload more : list byte) (sock : socket),
    in_int32 length = true -> length < 8 ->
    List.length payload = Z.to_nat length ->
    stream (incoming sock) = le_split 4 length ++ payload ++ more ->
    exists sock',
      _recv_packet sock = (Raise StructError, sock')
      /\ stream (incoming sock') = more
      /\ outgoing sock' = outgoing sock.
Proof.
  intros length payload more sock Hin Hlt Hpl Hst.
  destruct (recv_packet_header _ _ _ Hin Hst) as (sock1 & Hrun & Hs1 & _ & Ho1).
  destruct (recv_exact_enough length sock1) as (sock2 & Hr2 & Hs2 & Ho2).
  { rewrite Hs1, length_app. lia. }
  rewrite Hs1, <- Hpl, firstn_length_app in Hr2.
  rewrite Hs1, <- Hpl, skipn_length_app in Hs2.
  exists sock2. split; [| split; [exact Hs2 | congruence]].
  rewrite Hrun. unfold bind at 1. rewrite Hr2. unfold bind, lift, unpack_ii.
  replace (Nat.eqb (List.length (firstn 8 payload)) 8) with false; [reflexivity |].
  symmetry. apply Nat.eqb_neq. rewrite length_firstn. lia.
Qed.

Lemma recv_packet_rejects_a_short_frame_witness :
  fst (_recv_packet (mkSocket [Chunk (le_split 4 3 ++ [Byte.x01; Byte.x02; Byte.x03])] []))
  = Raise StructError
  /\ fst (_recv_packet (mkSocket [Chunk (le_split 4 (-5) ++ [Byte.x01])] []))
     = Raise StructError.
Proof.
  split.
  - destruct (recv_packet_rejects_a_short_frame
                3 [Byte.x01; Byte.x02; Byte.x03] []
                (mkSocket [Chunk (le_split 4 3 ++ [Byte.x01; Byte.x02; Byte.x03])] [])
                eq_refl eq_refl eq_refl eq_refl)
      as (sock' & H & _).
    rewrite H. reflexivity.
  - destruct (recv_packet_rejects_a_short_frame
                (-5) [] [Byte.x01]
                (mkSocket [Chunk (le_split 4 (-5) ++ [Byte.x01])] [])
                eq_refl eq_refl eq_refl eq_refl)
      as (sock' & H & _).
    rewrite H. reflexivity.
Defined.

(** X4.  Whatever [_send_packet] puts on the wire announces its own
    length: the first four bytes are the int32 count of the bytes that
    follow them, which are the two int32 of the header, the encoded
    body and two zero bytes.  Nothing is read. *)
Theorem sent_frames_announce_their_length :
  forall (req_id ptype : Z) (body : string) (sock sock' : socket),
    _send_packet req_id ptype body sock = (Return tt, sock') ->
    exists pkt,
      outgoing sock' = outgoing sock ++ pkt
      /\ incoming sock' = incoming sock
      /\ unpack_i32 (firstn 4 pkt) = Return (Z.of_nat (List.length pkt) - 4)
      /\ List.length pkt = (14 + List.length (utf8_encode body))%nat
      /\ unpack_ii (firstn 8 (skipn 4 pkt)) = Return (req_id, ptype)
      /\ skipn (List.length pkt - 2) pkt = [Byte.x00; Byte.x00].
Proof.
  intros req_id ptype body sock sock' H.
  destruct (send_packet_inv _ _ _ _ _ H) as ((Hid & Hty & Hlen) & Hin & Hout).
  cbn [packet_id packet_type packet_body fst snd] in Hid, Hty, Hlen.
  exists (frame (req_id, ptype, utf8_encode body)).
  split; [exact Hout |]. split; [exact Hin |].
  rewrite length_frame. cbn [packet_body snd]. unfold frame.
  cbn [packet_id packet_type packet_body fst snd].
  set (bb := utf8_encode body) in *.
  split; [| split; [reflexivity | split]].
  - rewrite firstn_4_le_split, (unpack_i32_le_split _ Hlen). f_equal. lia.
  - rewrite skipn_4_le_split, app_assoc.
    replace 8%nat with (List.length (le_split 4 req_id ++ le_split 4 ptype))
      by (rewrite length_app, !length_le_split_4; reflexivity).
    rewrite firstn_length_app. unfold unpack_ii.
    rewrite length_app, !length_le_split_4. cbn [Nat.add Nat.eqb].
    rewrite firstn_4_le_split, skipn_4_le_split.
    rewrite (int32_round_trip _ Hid), (int32_round_trip _ Hty). reflexivity.
  - rewrite !app_assoc.
    set (front := ((le_split 4 (Z.of_nat (List.length bb) + 10) ++ le_split 4 req_id)
                     ++ le_split 4 ptype) ++ bb).
    replace (14 + List.length bb - 2)%nat with (List.length front).
    + apply skipn_length_app.
    + subst front. rewrite !length_app, !length_le_split_4. lia.
Qed.

Lemma sent_frames_announce_their_length_witness :
  exists pkt,
    outgoing (snd (_send_packet 2 2 "save" (mkSocket [] []))) = [] ++ pkt
    /\ unpack_i32 (firstn 4 pkt) = Return 14
    /\ List.length pkt = 18%nat.
Proof.
  destruct (sent_frames_announce_their_length
              2 2 "save" (mkSocket [] []) (snd (_send_packet 2 2 "save" (mkSocket [] [])))
              eq_refl)
    as (pkt & Hout & _ & Hlen & Hl & _).
  exists pkt. split; [exact Hout |]. rewrite Hlen, Hl. split; reflexivity.
Defined.

(** *** The handshake, as [send_command] runs it *)

Lemma authenticate_frames (password : string) (sock : socket) (skipped : list packet)
      (reply : packet) (more : list byte) :
  well_formed (1, 3, utf8_encode password) ->
  Forall well_formed skipped -> Forall passed_over skipped ->
  well_formed reply -> packet_type reply = 2 \/ packet_id reply = -1 ->
  stream (incoming sock) = List.concat (map frame skipped) ++ frame reply ++ more ->
  exists sock',
    _authenticate password sock = (Return (verdict reply), sock')
    /\ stream (incoming sock') = more
    /\ outgoing sock' = outgoing sock ++ frame (1, 3, utf8_encode password).
Proof.
  intros Hauth Hwf Hpass Hwr Hstop Hst.
  unfold _authenticate, bind, get. rewrite (send_packet_ok _ _ _ _ Hauth).
  cbn [incoming].
  destruct (authenticate_loop_frames skipped (S (pending (incoming sock))) reply more
              (mkSocket (incoming sock)
                        (outgoing sock ++ frame (1, 3, utf8_encode password))))
    as (sock' & Hr & Hs & Ho); try assumption.
  - pose proof (stream_le_pending (incoming sock)) as Hp.
    pose proof (length_frames skipped) as Hl.
    rewrite Hst, length_app in Hp. lia.
  - exists sock'. rewrite Hr. auto.
Qed.

Lemma send_command_run (decode_replace : list byte -> string) (self : RconClient)
      (command : string) (net : network) (evs : list recv_event)
      (rest : list (option (list recv_event))) :
  listeners net = Some evs :: rest ->
  send_command decode_replace self command net
  = (fst (exchange decode_replace (_password self) command (mkSocket evs [])),
     mkNetwork rest
       (closed net
          ++ [outgoing (snd (exchange decode_replace (_password self) command
                                      (mkSocket evs [])))])).
Proof.
  intros Hl. unfold send_command, with_connection, bind, create_connection.
  rewrite Hl. cbn [listeners closed].
  destruct (exchange decode_replace (_password self) command (mkSocket evs []))
    as [r sock']. reflexivity.
Qed.

(** X5.  When the server answers the AUTH packet with the request id
    -1, after any packets that are passed over, [send_command] raises
    [RconError("RCON auth failed")], and all that was sent on the
    connection is the AUTH frame: the command never reaches the wire. *)
Theorem send_command_stops_at_a_refused_password :
  forall (decode_replace : list byte -> string) (self : RconClient) (command : string)
         (net : network) (evs : list recv_event)
         (rest : list (option (list recv_event)))
         (skipped : list packet) (reply : packet) (more : list byte),
    listeners net = Some evs :: rest ->
    well_formed (1, 3, utf8_encode (_password self)) ->
    Forall well_formed skipped -> Forall passed_over skipped ->
    well_formed reply -> packet_id reply = -1 ->
    stream evs = List.concat (map frame skipped) ++ frame reply ++ more ->
    send_command decode_replace self command net
    = (Raise (RconError "RCON auth failed"),
       mkNetwork rest (closed net ++ [frame (1, 3, utf8_encode (_password self))])).
Proof.
  intros decode_replace self command net evs rest skipped reply more
         Hl Hauth Hwf Hpass Hwr Hid Hst.
  rewrite (send_command_run _ _ _ _ _ _ Hl).
  destruct (authenticate_frames (_password self) (mkSocket evs []) skipped reply more)
    as (sock' & Hr & _ & Ho); auto.
  unfold exchange, bind. rewrite Hr. unfold verdict. rewrite Hid.
  rewrite andb_false_r. cbn [negb raise fst snd]. rewrite Ho. reflexivity.
Qed.

Lemma send_command_stops_at_a_refused_password_witness :
  send_command ascii_decode example_client "quit"
    (mkNetwork [Some [Chunk (frame (0, 0, [])); Chunk (frame (-1, 2, []))]] [])
  = (Raise (RconError "RCON auth failed"),
     mkNetwork [] [frame (1, 3, utf8_encode "secret")]).
Proof.
  apply (send_command_stops_at_a_refused_password
           ascii_decode example_client "quit"
           (mkNetwork [Some [Chunk (frame (0, 0, [])); Chunk (frame (-1, 2, []))]] [])
           [Chunk (frame (0, 0, [])); Chunk (frame (-1, 2, []))] []
           [(0, 0, [])] (-1, 2, []) []).
  - reflexivity.
  - repeat split.
  - repeat constructor.
  - repeat constructor; discriminate.
  - repeat split.
  - reflexivity.
  - reflexivity.
Defined.

Lemma recv_packet_cut_short (partial : list byte) (sock : socket) :
  cut_short partial ->
  stream (incoming sock) = partial ->
  exists sock',
    _recv_packet sock = (Raise (stopped_by (incoming sock)), sock')
    /\ outgoing sock' = outgoing sock.
Proof.
  intros (p & tail & Hwf & Htail & Hframe) Hst.
  destruct (Nat.lt_ge_cases (List.length partial) 4) as [Hlt | Hge].
  - destruct (recv_exact_short 4 sock) as (sock' & Hr & Ho); [rewrite Hst; lia |].
    exists sock'. split; [| exact Ho].
    unfold _recv_packet. unfold bind at 1. rewrite Hr. reflexivity.
  - destruct p as [[id ty] body]. destruct Hwf as (Hid & Hty & Hlen).
    unfold frame in Hframe. cbn [packet_id packet_type packet_body fst snd] in *.
    set (payload := le_split 4 id ++ le_split 4 ty ++ body ++ [Byte.x00; Byte.x00]) in *.
    assert (Hpl : List.length payload = (List.length body + 10)%nat).
    { subst payload. rewrite !length_app, !length_le_split_4. simpl. lia. }
    assert (Hhead : firstn 4 partial = le_split 4 (Z.of_nat (List.length body) + 10)).
    { rewrite <- (firstn_4_le_split _ payload), Hframe, firstn_app.
      replace (4 - List.length partial)%nat with 0%nat by lia.
      rewrite firstn_O, app_nil_r. reflexivity. }
    assert (Hrest : skipn 4 partial ++ tail = payload).
    { rewrite <- (skipn_4_le_split (Z.of_nat (List.length body) + 10) payload), Hframe.
      rewrite skipn_app.
      replace (4 - List.length partial)%nat with 0%nat by lia. reflexivity. }
    destruct (recv_packet_header (Z.of_nat (List.length body) + 10) (skipn 4 partial) sock)
      as (sock1 & Hrun & Hs1 & Hstop & Ho1); [exact Hlen | |].
    { rewrite Hst, <- Hhead. symmetry. apply firstn_skipn. }
    destruct (recv_exact_short (Z.of_nat (List.length body) + 10) sock1)
      as (sock2 & Hr2 & Ho2).
    { rewrite Hs1. apply (f_equal (@List.length byte)) in Hrest.
      rewrite length_app, Hpl in Hrest.
      destruct tail; [contradiction | cbn [List.length] in Hrest; lia]. }
    exists sock2. split; [| congruence].
    rewrite Hrun. unfold bind at 1. rewrite Hr2, Hstop. reflexivity.
Qed.

Lemma authenticate_loop_cut_short (skipped : list packet) :
  forall (fuel : nat) (partial : list byte) (sock : socket),
    (List.length skipped < fuel)%nat ->
    Forall well_formed skipped -> Forall passed_over skipped ->
    cut_short partial ->
    stream (incoming sock) = List.concat (map frame skipped) ++ partial ->
    exists sock',
      authenticate_loop fuel sock = (Raise (stopped_by (incoming sock)), sock')
      /\ outgoing sock' = outgoing sock.
Proof.
  induction skipped as [| p skipped IH];
    intros fuel partial sock Hfuel Hwf Hpass Hcut Hst;
    (destruct fuel as [| fuel]; [simpl in Hfuel; lia |]); cbn [authenticate_loop].
  - cbn [map List.concat app] in Hst.
    destruct (recv_packet_cut_short partial sock Hcut Hst) as (sock' & Hr & Ho).
    exists sock'. unfold bind. rewrite Hr. auto.
  - inversion Hwf as [| ? ? Hwp Hwf']; subst.
    inversion Hpass as [| ? ? Hpp Hpass']; subst.
    cbn [map List.concat] in Hst. rewrite <- app_assoc in Hst.
    destruct (recv_packet_frame p _ sock Hwp Hst) as (sock1 & Hr & Hs & Ho).
    destruct (IH fuel partial sock1) as (sock' & Hr' & Ho'); try assumption.
    { simpl in Hfuel. lia. }
    exists sock'. unfold bind. rewrite Hr.
    destruct p as [[id ty] body]. destruct Hpp as [Hty Hid].
    cbn [packet_type packet_id fst snd] in Hty, Hid.
    destruct (Z.eqb_spec ty 2); [contradiction |].
    destruct (Z.eqb_spec id (-1)); [contradiction |].
    rewrite Hr', (recv_packet_stopped_by _ _ _ Hr). split; [reflexivity | congruence].
Qed.

(** X6.  When what the server sends during the handshake stops in the
    middle of a frame, after any packets that are passed over,
    [send_command] raises: [RconError("Connection closed by server")]
    when the server closed the connection, [socket.timeout] when it
    went silent.  The timeout is not turned into an empty answer here,
    and all that was sent is the AUTH frame. *)
Theorem send_command_raises_when_the_handshake_is_cut_short :
  forall (decode_replace : list byte -> string) (self : RconClient) (command : string)
         (net : network) (evs : list recv_event)
         (rest : list (option (list recv_event)))
         (skipped : list packet) (partial : list byte),
    listeners net = Some evs :: rest ->
    well_formed (1, 3, utf8_encode (_password self)) ->
    Forall well_formed skipped -> Forall passed_over skipped ->
    cut_short partial ->
    stream evs = List.concat (map frame skipped) ++ partial ->
    send_command decode_replace self command net
    = (Raise (stopped_by evs),
       mkNetwork rest (closed net ++ [frame (1, 3, utf8_encode (_password self))])).
Proof.
  intros decode_replace self command net evs rest skipped partial
         Hl Hauth Hwf Hpass Hcut Hst.
  rewrite (send_command_run _ _ _ _ _ _ Hl).
  destruct (authenticate_loop_cut_short skipped (S (pending evs)) partial
              (mkSocket evs (frame (1, 3, utf8_encode (_password self)))))
    as (sock' & Hr & Ho); try assumption.
  { pose proof (stream_le_pending evs) as Hp.
    pose proof (length_frames skipped) as Hlen.
    rewrite Hst, length_app in Hp. cbn [incoming]. lia. }
  cbn [incoming outgoing] in Hr, Ho.
  assert (Hex : exchange decode_replace (_password self) command (mkSocket evs [])
                = (Raise (stopped_by evs), sock')).
  { unfold exchange, _authenticate, bind, get.
    rewrite (send_packet_ok _ _ _ _ Hauth). cbn [incoming outgoing app].
    rewrite Hr. reflexivity. }
  rewrite Hex. cbn [fst snd]. rewrite Ho. reflexivity.
Qed.

Lemma send_command_raises_when_the_handshake_is_cut_short_witness :
  fst (send_command ascii_decode example_client "players"
         (mkNetwork [Some [Chunk (frame (0, 0, [])); Chunk [Byte.x0a; Byte.x00]; TimedOut]]
                    []))
  = Raise SocketTimeout
  /\ fst (send_command ascii_decode example_client "players" (mkNetwork [Some []] []))
     = Raise (RconError "Connection closed by server").
Proof.
  split.
  - rewrite (send_command_raises_when_the_handshake_is_cut_short
               ascii_decode example_client "players"
               (mkNetwork [Some [Chunk (frame (0, 0, [])); Chunk [Byte.x0a; Byte.x00];
                                 TimedOut]] [])
               [Chunk (frame (0, 0, [])); Chunk [Byte.x0a; Byte.x00]; TimedOut] []
               [(0, 0, [])] [Byte.x0a; Byte.x00]); try reflexivity.
    + repeat split.
    + repeat constructor.
    + repeat constructor; discriminate.
    + exists (0, 0, []), (skipn 2 (frame (0, 0, []))). repeat split. discriminate.
  - rewrite (send_command_raises_when_the_handshake_is_cut_short
               ascii_decode example_client "players" (mkNetwork [Some []] [])
               [] [] [] []); try reflexivity.
    + repeat split.
    + constructor.
    + constructor.
    + exists (0, 0, []), (frame (0, 0, [])). repeat split. discriminate.
Defined.

(** X7.  A whole exchange.  When the server grants the password (a
    packet of type 2 whose request id is not -1, after any packets that
    are passed over) and the next frame is a packet of type 0 or 2,
    [send_command] returns the decoded body of that packet, whatever
    its request id; what was sent on the connection is the AUTH frame
    followed by the command frame (request id 2, type 2), and the
    bytes after the answer are never read. *)
Theorem send_command_returns_the_first_answer :
  forall (decode_replace : list byte -> string) (self : RconClient) (command : string)
         (net : network) (evs : list recv_event)
         (rest : list (option (list recv_event)))
         (skipped : list packet) (granted answer : packet) (more : list byte),
    listeners net = Some evs :: rest ->
    well_formed (1, 3, utf8_encode (_password self)) ->
    well_formed (2, 2, utf8_encode command) ->
    Forall well_formed skipped -> Forall passed_over skipped ->
    well_formed granted -> packet_type granted = 2 -> packet_id granted <> -1 ->
    well_formed answer -> packet_type answer = 0 \/ packet_type answer = 2 ->
    stream evs
    = List.concat (map frame skipped) ++ frame granted ++ frame answer ++ more ->
    send_command decode_replace self command net
    = (Return (decode_replace (packet_body answer)),
       mkNetwork rest
         (closed net ++ [frame (1, 3, utf8_encode (_password self))
                           ++ frame (2, 2, utf8_encode command)])).
Proof.
  intros decode_replace self command net evs rest skipped granted answer more
         Hl Hauth Hcmd Hwf Hpass Hwg Hgt Hgid Hwa Hat Hst.
  rewrite (send_command_run _ _ _ _ _ _ Hl).
  destruct (authenticate_frames (_password self) (mkSocket evs []) skipped granted
                                (frame answer ++ more))
    as (sock1 & Hr1 & Hs1 & Ho1); auto.
  cbn [outgoing app] in Ho1.
  destruct (recv_packet_frame answer more
              (mkSocket (incoming sock1)
                        (outgoing sock1 ++ frame (2, 2, utf8_encode command))))
    as (sock2 & Hr2 & _ & Ho2); [exact Hwa | exact Hs1 |].
  cbn [outgoing] in Ho2.
  assert (Hex : exchange decode_replace (_password self) command (mkSocket evs [])
                = (Return (decode_replace (packet_body answer)), sock2)).
  { unfold exchange. unfold bind at 1. rewrite Hr1. unfold verdict.
    rewrite Hgt. destruct (Z.eqb_spec (packet_id granted) (-1)) as [| _]; [contradiction |].
    cbn [Z.eqb Pos.eqb andb negb]. unfold bind at 1.
    rewrite (send_packet_ok _ _ _ _ Hcmd). unfold except_timeout, bind. rewrite Hr2.
    destruct answer as [[id ty] body]. cbn [packet_type packet_body fst snd] in *.
    destruct Hat as [-> | ->]; reflexivity. }
  rewrite Hex. cbn [fst snd]. rewrite Ho2, Ho1. reflexivity.
Qed.

Lemma send_command_returns_the_first_answer_witness :
  send_command ascii_decode example_client "players"
    (mkNetwork [Some [Chunk (frame (1, 0, [])); Chunk (frame (1, 2, []));
                      Chunk (frame (9, 0, [Byte.x6f; Byte.x6b])); Chunk [Byte.xff]]] [])
  = (Return "ok"%string,
     mkNetwork [] [frame (1, 3, utf8_encode "secret")
                     ++ frame (2, 2, utf8_encode "players")]).
Proof.
  apply (send_command_returns_the_first_answer
           ascii_decode example_client "players"
           (mkNetwork [Some [Chunk (frame (1, 0, [])); Chunk (frame (1, 2, []));
                             Chunk (frame (9, 0, [Byte.x6f; Byte.x6b]));
                             Chunk [Byte.xff]]] [])
           [Chunk (frame (1, 0, [])); Chunk (frame (1, 2, []));
            Chunk (frame (9, 0, [Byte.x6f; Byte.x6b])); Chunk [Byte.xff]] []
           [(1, 0, [])] (1, 2, []) (9, 0, [Byte.x6f; Byte.x6b]) [Byte.xff]).
  - reflexivity.
  - repeat split.
  - repeat split.
  - repeat constructor.
  - repeat constructor; discriminate.
  - repeat split.
  - reflexivity.
  - discriminate.
  - repeat split.
  - left; reflexivity.
  - reflexivity.
Defined.

End WireFacts.

(** ** players.py: what the count can be *)

Module CountFacts.

Import Text Re ReSpec TextFacts ReFacts Players PlayersSpec PlayersFacts.

Lemma digit_value (c : ascii) : is_digit c = true -> 0 <= code c - 48 <= 9.
Proof. unfold is_digit. cbv zeta. intros H. apply andb_true_iff in H. lia. Qed.

Lemma digit_zero (c : ascii) : code c - 48 = 0 -> c = "0"%char.
Proof.
  unfold code. intros H. rewrite <- (ascii_N_embedding c).
  replace (N_of_ascii c) with 48%N by lia. reflexivity.
Qed.

Lemma int_of_digits_acc_bounds (s : string) :
  forall acc : Z,
    forall_chars is_digit s = true -> 0 <= acc ->
    acc <= int_of_digits_acc s acc
    /\ (int_of_digits_acc s acc = 0 ->
        forall_chars (fun c => Ascii.eqb c "0") s = true).
Proof.
  induction s as [| c s IH]; intros acc Hd Hacc; cbn [int_of_digits_acc forall_chars] in *.
  - split; [lia | reflexivity].
  - apply andb_true_iff in Hd. destruct Hd as [Hc Hs].
    pose proof (digit_value c Hc) as Hv.
    destruct (IH (10 * acc + (code c - 48)) Hs) as [Hle Hzero]; [lia |].
    split; [lia |]. intros H0. rewrite (Hzero H0), andb_true_r.
    apply Ascii.eqb_eq, digit_zero. lia.
Qed.

(** X8.  The player count is never negative, and it is 0 only when the
    header pattern matched and the number it shows is written with
    zeros only: a listing of lines, however it looks, never gives 0. *)
Theorem player_count_is_zero_only_from_a_header :
  forall (response : string) (n : Z),
    parse_player_count response = Return (Some n) ->
    0 <= n
    /\ (n = 0 ->
        exists m,
          search true players_re response = Some m
          /\ forall_chars (fun c => Ascii.eqb c "0") (group1 m) = true).
Proof.
  intros response n. unfold parse_player_count.
  destruct (String.eqb response EmptyString); [discriminate |].
  destruct (search true players_re response) as [m |] eqn:Hs.
  - unfold int_of_str.
    destruct (int_max_str_digits <? Z.of_nat (String.length (group1 m)));
      [discriminate |].
    intros H. injection H as <-.
    destruct (search_found true _ _ _ Hs) as [(p & p' & _ & Hp) _].
    destruct (players_re_group _ _ _ Hp) as (_ & a & ds & Hg & Ha & Hds).
    assert (Hd : forall_chars is_digit (group1 m) = true).
    { unfold group1. rewrite Hg. cbn [forall_chars]. rewrite Ha, Hds. reflexivity. }
    destruct (int_of_digits_acc_bounds (group1 m) 0 Hd (Z.le_refl 0)) as [Hle Hzero].
    split; [exact Hle |]. intros H0. exists m. split; [reflexivity | exact (Hzero H0)].
  - cbv zeta.
    destruct (filter (fun line => starts_with "-" (strip line)) (splitlines response))
      as [| l ls]; [discriminate |].
    cbn [is_empty List.length]. intros H. injection H as <-. split; lia.
Qed.

Lemma player_count_is_zero_only_from_a_header_witness :
  exists m,
    search true players_re "Players connected (00)" = Some m
    /\ forall_chars (fun c => Ascii.eqb c "0") (group1 m) = true.
Proof.
  exact (proj2 (player_count_is_zero_only_from_a_header
                  "Players connected (00)" 0 eq_refl) eq_refl).
Defined.

End CountFacts.

(** ** restart.py: the steps of the sequence *)

Module SequenceFacts.

Import Restart RestartSpec RestartFacts PlanSpec.

Section Plans.

Variable W : Type.
Variable rcon_send_command : string -> M W string.
Variable str_format : string -> Z -> option string.

Local Abbreviation run_plan := (run_plan W rcon_send_command).
Local Abbreviation accepts := (accepts W rcon_send_command).
Local Abbreviation server_after := (server_after W rcon_send_command).
Local Abbreviation run_restart_sequence :=
  (run_restart_sequence W rcon_send_command str_format).

Lemma run_plan_app (a b : list event) (st : state W) :
  run_plan (a ++ b) st = bind (run_plan a) (fun _ => run_plan b) st.
Proof.
  revert st. induction a as [| ev a IH]; intros st; [reflexivity |].
  destruct ev as [message | seconds | command]; cbn [app PlanSpec.run_plan];
    unfold bind in *.
  - unfold log, emit. apply IH.
  - unfold time_sleep, emit. apply IH.
  - unfold send_command.
    destruct (rcon_send_command command (server st)) as [[r | e |] w']; cbv beta iota;
      [apply IH | reflexivity | reflexivity].
Qed.

(** Two pieces of code that do the steps of two plans do, one after
    the other, the steps of the two plans put together. *)
Lemma plan_bind (m k : M (state W) unit) (a b : list event) :
  (forall st, m st = run_plan a st) -> (forall st, k st = run_plan b st) ->
  forall st, bind m (fun _ => k) st = run_plan (a ++ b) st.
Proof.
  intros Hm Hk st. rewrite run_plan_app. unfold bind. rewrite Hm.
  destruct (run_plan a st) as [[[] | e |] st1]; [apply Hk | reflexivity | reflexivity].
Qed.

Lemma plan_sleep_seconds (n : Z) (st : state W) :
  _sleep_seconds W n st = run_plan (map Sleep (pause n)) st.
Proof. unfold _sleep_seconds, pause. destruct (n <=? 0); reflexivity. Qed.

Lemma plan_countdown_loop (cfg : MonitorConfig) (n : nat) :
  forall st,
    countdown_loop W rcon_send_command str_format cfg n st
    = run_plan (countdown_steps str_format cfg n) st.
Proof.
  induction n as [| n IH]; intros st; [reflexivity |].
  cbn [countdown_loop countdown_steps].
  change (servermsg (countdown_message str_format cfg (Z.of_nat (S n))) :: Sleep 1
            :: countdown_steps str_format cfg n)
    with ([servermsg (countdown_message str_format cfg (Z.of_nat (S n)))]
            ++ [Sleep 1] ++ countdown_steps str_format cfg n).
  apply plan_bind; [reflexivity |]. apply plan_bind; [reflexivity | exact IH].
Qed.

(** The sequence does the steps of its plan, and nothing else. *)
Lemma sequence_is_its_plan (cfg : MonitorConfig) (immediate : bool) (st : state W) :
  run_restart_sequence cfg immediate st
  = run_plan (if immediate then immediate_steps cfg else scheduled_steps str_format cfg)
             st.
Proof.
  destruct immediate; [reflexivity |].
  unfold Restart.run_restart_sequence, scheduled_steps.
  destruct (schedule cfg) as [[delay warn_1] countdown].
  change ([Log ("Restart scheduled in " ++ str_of_int delay ++ " seconds.")%string;
           servermsg (msg_restart_5min cfg)]
            ++ map Sleep (pause (delay - warn_1))
            ++ (if 0 <? warn_1 then [servermsg (msg_restart_1min cfg)] else [])
            ++ map Sleep (pause (warn_1 - countdown))
            ++ countdown_steps str_format cfg (Z.to_nat countdown)
            ++ [Command (save_command cfg); Command (quit_command cfg)])
    with ([Log ("Restart scheduled in " ++ str_of_int delay ++ " seconds.")%string]
            ++ [servermsg (msg_restart_5min cfg)]
            ++ map Sleep (pause (delay - warn_1))
            ++ (if 0 <? warn_1 then [servermsg (msg_restart_1min cfg)] else [])
            ++ map Sleep (pause (warn_1 - countdown))
            ++ countdown_steps str_format cfg (Z.to_nat countdown)
            ++ [Command (save_command cfg); Command (quit_command cfg)]).
  revert st.
  apply plan_bind; [reflexivity |].
  apply plan_bind; [reflexivity |].
  apply plan_bind; [apply plan_sleep_seconds |].
  apply plan_bind; [destruct (0 <? warn_1); reflexivity |].
  apply plan_bind; [apply plan_sleep_seconds |].
  apply plan_bind.
  { intros st. destruct (0 <? countdown) eqn:E; [apply plan_countdown_loop |].
    apply Z.ltb_ge in E. replace (Z.to_nat countdown) with 0%nat by lia. reflexivity. }
  reflexivity.
Qed.

(** On a server that accepts its commands a plan is done to the end. *)
Lemma run_plan_accepted (plan : list event) :
  forall st : state W,
    accepts plan (server st) = true ->
    run_plan plan st
    = (Return tt, mkState (server_after plan (server st)) (trace st ++ plan)).
Proof.
  induction plan as [| ev plan IH]; intros st H.
  - cbn. rewrite app_nil_r. destruct st; reflexivity.
  - destruct ev as [message | seconds | command];
      cbn [PlanSpec.run_plan PlanSpec.accepts PlanSpec.server_after] in *; unfold bind.
    + unfold log, emit. rewrite IH by exact H. cbn [server trace].
      rewrite <- app_assoc. reflexivity.
    + unfold time_sleep, emit. rewrite IH by exact H. cbn [server trace].
      rewrite <- app_assoc. reflexivity.
    + unfold send_command.
      destruct (rcon_send_command command (server st)) as [[r | e |] w'];
        try discriminate.
      cbv beta iota. rewrite IH by exact H. cbn [server trace snd].
      rewrite <- app_assoc. reflexivity.
Qed.

(** A plan that raises has done its steps up to a command, which is
    the one that raised. *)
Lemma run_plan_raised (plan : list event) :
  forall (st st' : state W) (e : exn),
    run_plan plan st = (Raise e, st') ->
    exists done command rest,
      plan = done ++ Command command :: rest
      /\ accepts done (server st) = true
      /\ fst (rcon_send_command command (server_after done (server st))) = Raise e
      /\ trace st' = trace st ++ done ++ [Command command].
Proof.
  induction plan as [| ev plan IH]; intros st st' e H; [discriminate |].
  destruct ev as [message | seconds | command]; cbn [PlanSpec.run_plan] in H;
    unfold bind in H.
  - unfold log, emit in H.
    destruct (IH _ _ _ H) as (done & c & rest & -> & Ha & He & Ht).
    exists (Log message :: done), c, rest. cbn [server trace] in *.
    repeat split; try assumption. rewrite Ht, <- app_assoc. reflexivity.
  - unfold time_sleep, emit in H.
    destruct (IH _ _ _ H) as (done & c & rest & -> & Ha & He & Ht).
    exists (Sleep seconds :: done), c, rest. cbn [server trace] in *.
    repeat split; try assumption. rewrite Ht, <- app_assoc. reflexivity.
  - unfold send_command in H.
    destruct (rcon_send_command command (server st)) as [[r | e0 |] w'] eqn:Es;
      cbv beta iota in H.
    + destruct (IH _ _ _ H) as (done & c & rest & -> & Ha & He & Ht).
      exists (Command command :: done), c, rest.
      cbn [server trace PlanSpec.accepts PlanSpec.server_after app] in *.
      rewrite Es. cbn [snd]. repeat split; try assumption.
      rewrite Ht, <- app_assoc. reflexivity.
    + injection H as <- <-. exists [], command, plan.
      cbn [server trace PlanSpec.accepts PlanSpec.server_after app]. rewrite Es.
      repeat split.
    + discriminate.
Qed.

(** X9.  With [immediate] set the sequence logs one line, sends the
    save command and, when the server has accepted it, the quit
    command, and does nothing else: no message to the players and no
    sleep.  When the save command raises, the sequence raises the
    same and the quit command is not sent; when the quit command
    raises, the sequence raises the same; it returns when both were
    accepted. *)
Theorem immediate_restart_saves_then_quits :
  forall (cfg : MonitorConfig) (st : state W),
    (forall e w',
        rcon_send_command (save_command cfg) (server st) = (Raise e, w') ->
        run_restart_sequence cfg true st
        = (Raise e,
           mkState w' (trace st ++ [Log "No players online. Restarting immediately.";
                                    Command (save_command cfg)])))
    /\ (forall r w',
           rcon_send_command (save_command cfg) (server st) = (Return r, w') ->
           run_restart_sequence cfg true st
           = (match fst (rcon_send_command (quit_command cfg) w') with
              | Return _ => Return tt
              | Raise e => Raise e
              | OutOfFuel => OutOfFuel
              end,
              mkState (snd (rcon_send_command (quit_command cfg) w'))
                      (trace st ++ [Log "No players online. Restarting immediately.";
                                    Command (save_command cfg);
                                    Command (quit_command cfg)]))).
Proof.
  intros cfg st. split.
  - intros e w' H. unfold Restart.run_restart_sequence, bind, log, emit, send_command.
    cbn [server trace]. rewrite H. rewrite <- app_assoc. reflexivity.
  - intros r w' H. unfold Restart.run_restart_sequence, bind, log, emit, send_command.
    cbn [server trace]. rewrite H. cbv beta iota. cbn [server trace].
    destruct (rcon_send_command (quit_command cfg) w') as [[r' | e |] w''];
      cbn [fst snd]; rewrite <- !app_assoc; reflexivity.
Qed.

(** X10.  Without [immediate] the sequence does, in this order: one
    log line; the first warning; a sleep of [delay - warn_1] seconds if
    that is positive; the second warning if [warn_1 > 0]; a sleep of
    [warn_1 - countdown] seconds if that is positive; for [remaining]
    from [countdown] down to 1 a message, the formatted template or
    "Restart in N seconds." when formatting raises, followed by a sleep
    of one second; the save command; the quit command.  It does these
    steps one after the other and nothing else: on a server that
    accepts the commands it does them all and returns; when a command
    raises, the sequence raises the same, the steps up to that command
    are done and none after it. *)
Theorem scheduled_restart_follows_its_plan :
  forall (cfg : MonitorConfig) (st : state W),
    run_restart_sequence cfg false st = run_plan (scheduled_steps str_format cfg) st
    /\ (accepts (scheduled_steps str_format cfg) (server st) = true ->
        run_restart_sequence cfg false st
        = (Return tt,
           mkState (server_after (scheduled_steps str_format cfg) (server st))
                   (trace st ++ scheduled_steps str_format cfg)))
    /\ (forall e st',
           run_restart_sequence cfg false st = (Raise e, st') ->
           exists done command rest,
             scheduled_steps str_format cfg = done ++ Command command :: rest
             /\ accepts done (server st) = true
             /\ fst (rcon_send_command command (server_after done (server st))) = Raise e
             /\ trace st' = trace st ++ done ++ [Command command]).
Proof.
  intros cfg st. rewrite (sequence_is_its_plan cfg false st).
  split; [reflexivity |]. split.
  - apply run_plan_accepted.
  - intros e st'. apply run_plan_raised.
Qed.

End Plans.

Lemma immediate_restart_saves_then_quits_witness :
  run_restart_sequence unit
    (fun c w => if String.eqb c "save" then (Raise (RconError "RCON auth failed"), w)
                else (Return EmptyString, w))
    default_format (example_config 300 60 10) true (mkState tt [])
  = (Raise (RconError "RCON auth failed"),
     mkState tt [Log "No players online. Restarting immediately."; Command "save"])
  /\ run_restart_sequence unit quiet_server default_format (example_config 300 60 10)
                          true (mkState tt [])
     = (Return tt,
        mkState tt [Log "No players online. Restarting immediately.";
                    Command "save"; Command "quit"]).
Proof.
  split.
  - exact (proj1 (immediate_restart_saves_then_quits
                    unit
                    (fun c w => if String.eqb c "save"
                                then (Raise (RconError "RCON auth failed"), w)
                                else (Return EmptyString, w))
                    default_format (example_config 300 60 10) (mkState tt []))
                 (RconError "RCON auth failed") tt eq_refl).
  - exact (proj2 (immediate_restart_saves_then_quits
                    unit quiet_server default_format (example_config 300 60 10)
                    (mkState tt []))
                 EmptyString tt eq_refl).
Defined.

Lemma scheduled_restart_follows_its_plan_witness :
  run_restart_sequence unit quiet_server default_format (example_config 3 2 1)
                       false (mkState tt [])
  = (Return tt,
     mkState tt
       [Log "Restart scheduled in 3 seconds.";
        servermsg "Server will restart in 5 minutes.";
        Sleep 1;
        servermsg "Server will restart in 1 minute.";
        Sleep 1;
        servermsg "Restart in 1 seconds.";
        Sleep 1;
        Command "save"; Command "quit"]).
Proof.
  exact (proj1 (proj2 (scheduled_restart_follows_its_plan
                         unit quiet_server default_format (example_config 3 2 1)
                         (mkState tt [])))
               eq_refl).
Defined.

End SequenceFacts.

(** ** steam_app.py: the inventory tool and the blocks of its answer *)

Module BlockFacts.

Import Text Re ReSpec TextFacts ReFacts SteamApp SteamAppSpec SteamAppFacts.

Lemma parse_buildid_digits (text id : string) :
  _parse_buildid text = Some id ->
  exists a ds, id = String a ds /\ forall_chars is_digit (String a ds) = true.
Proof.
  unfold _parse_buildid. destruct (search true (field_re "buildid") text) as [m |] eqn:E;
    [| discriminate].
  destruct (search_field_group _ _ _ _ E) as (a & ds & Hg & Ha & Hds).
  intros H. injection H as <-. exists a, ds. split; [exact Hg |].
  cbn [forall_chars]. rewrite Ha, Hds. reflexivity.
Qed.

Lemma buildid_of_output_cases (output branch : string) :
  (exists a ds,
      buildid_of_output output branch = (Some (String a ds), None)
      /\ forall_chars is_digit (String a ds) = true)
  \/ buildid_of_output output branch
     = (None, Some "buildid not found in steamcmd output"%string).
Proof.
  rewrite buildid_of_output_eq.
  destruct (_extract_branch_block output branch) as [block |].
  - destruct (_parse_buildid block) as [id1 |] eqn:E1.
    + destruct (parse_buildid_digits _ _ E1) as (a & ds & -> & Hd). left. eauto.
    + destruct (_parse_buildid output) as [id2 |] eqn:E2; [| right; reflexivity].
      destruct (parse_buildid_digits _ _ E2) as (a & ds & -> & Hd). left. eauto.
  - destruct (_parse_buildid output) as [id2 |] eqn:E2; [| right; reflexivity].
    destruct (parse_buildid_digits _ _ E2) as (a & ds & -> & Hd). left. eauto.
Qed.

(** What the dump holds: the return code, the command line, an empty
    line and the output. *)
Lemma steamcmd_get_buildid_eq (steamcmd_path : string) (app_id : Z)
      (branch : string) (dump_path : option string) (w : world) :
  steamcmd_get_buildid steamcmd_path app_id branch dump_path w
  = match steamcmd_exists w with
    | Raise e => (Raise e, w)
    | OutOfFuel => (OutOfFuel, w)
    | Return false =>
        (Return (None, Some ("steamcmd not found: " ++ steamcmd_path)%string), w)
    | Return true =>
        match steamcmd_run w with
        | Failed exc => (Return (None, Some ("steamcmd failed: " ++ exc)%string), w)
        | Completed p =>
            (Return (buildid_of_output (stdout p ++ String nl EmptyString ++ stderr p)
                                       branch),
             match dump_path with
             | Some _ =>
                 if dump_writable w
                 then write_dump
                        ("ReturnCode: " ++ str_of_int (returncode p)
                           ++ String nl EmptyString ++ "Command: "
                           ++ command_line steamcmd_path app_id
                           ++ String nl (String nl EmptyString)
                           ++ (stdout p ++ String nl EmptyString ++ stderr p))%string w
                 else w
             | None => w
             end)
        end
    end.
Proof.
  unfold steamcmd_get_buildid, bind, get, lift.
  destruct (steamcmd_exists w) as [[|] | e |]; cbn [negb]; try reflexivity.
  destruct (steamcmd_run w) as [exc | p]; [reflexivity |].
  destruct dump_path; [destruct (dump_writable w) |]; reflexivity.
Qed.

(** X11.  What [steamcmd_get_buildid] raises is what looking at the
    path of the tool raises, and nothing is changed then.  Once the
    path has been looked at, whatever the tool does (it is missing,
    it cannot be run, it runs out of time, it prints anything at
    all), the function returns, and it returns either a build id, a
    non-empty run of decimal digits, with no error text, or no build
    id with an error text: never both and never neither. *)
Theorem steamcmd_get_buildid_gives_an_id_or_a_reason :
  forall (steamcmd_path : string) (app_id : Z) (branch : string)
         (dump_path : option string) (w : world),
    (forall e, steamcmd_exists w = Raise e ->
               steamcmd_get_buildid steamcmd_path app_id branch dump_path w
               = (Raise e, w))
    /\ (forall e w', steamcmd_get_buildid steamcmd_path app_id branch dump_path w
                     = (Raise e, w') ->
                     steamcmd_exists w = Raise e)
    /\ (forall found, steamcmd_exists w = Return found ->
         exists (remote err : option string) (w' : world),
           steamcmd_get_buildid steamcmd_path app_id branch dump_path w
           = (Return (remote, err), w')
           /\ ((exists a ds,
                   remote = Some (String a ds)
                   /\ forall_chars is_digit (String a ds) = true /\ err = None)
               \/ (remote = None /\ exists msg, err = Some msg))).
Proof.
  intros steamcmd_path app_id branch dump_path w. rewrite steamcmd_get_buildid_eq.
  split; [intros e ->; reflexivity |]. split.
  { intros e w'. destruct (steamcmd_exists w) as [[|] | e0 |]; try discriminate.
    - destruct (steamcmd_run w); discriminate.
    - intros H. injection H as -> _. reflexivity. }
  intros found ->. destruct found.
  2: { eexists _, _, _. split; [reflexivity |]. right. eauto. }
  destruct (steamcmd_run w) as [exc | p].
  { eexists _, _, _. split; [reflexivity |]. right. eauto. }
  destruct (buildid_of_output_cases (stdout p ++ String nl EmptyString ++ stderr p) branch)
    as [(a & ds & -> & Hd) | ->]; eexists _, _, _; (split; [reflexivity |]).
  - left. eauto.
  - right. eauto.
Qed.

Lemma steamcmd_get_buildid_gives_an_id_or_a_reason_witness :
  let w := UpdatesSpec.world_of Missing UpdatesSpec.unreachable Missing
                                (Failed "timed out") in
  exists (remote err : option string) (w' : world),
    steamcmd_get_buildid "steamcmd" 380870 "unstable" None w = (Return (remote, err), w')
    /\ ((exists a ds,
            remote = Some (String a ds)
            /\ forall_chars is_digit (String a ds) = true /\ err = None)
        \/ (remote = None /\ exists msg, err = Some msg)).
Proof.
  intros w.
  exact (proj2 (proj2 (steamcmd_get_buildid_gives_an_id_or_a_reason
                         "steamcmd" 380870 "unstable" None w)) true eq_refl).
Defined.

(** X12.  The dump has no part in the answer: with a dump path or
    without, and whether or not the dump can be written, the pair
    returned is the same.  The only thing the function changes is the
    dump file, and only when a dump path is given, the tool has run and
    the file can be written; it then holds the return code, the command
    line and the output. *)
Theorem the_dump_does_not_change_the_answer :
  forall (steamcmd_path : string) (app_id : Z) (branch : string)
         (dump_path : option string) (w : world),
    fst (steamcmd_get_buildid steamcmd_path app_id branch dump_path w)
    = fst (steamcmd_get_buildid steamcmd_path app_id branch None w)
    /\ snd (steamcmd_get_buildid steamcmd_path app_id branch None w) = w
    /\ (snd (steamcmd_get_buildid steamcmd_path app_id branch dump_path w) = w
        \/ exists p,
            dump_path <> None /\ steamcmd_exists w = Return true
            /\ steamcmd_run w = Completed p /\ dump_writable w = true
            /\ snd (steamcmd_get_buildid steamcmd_path app_id branch dump_path w)
               = write_dump
                   ("ReturnCode: " ++ str_of_int (returncode p)
                      ++ String nl EmptyString ++ "Command: "
                      ++ command_line steamcmd_path app_id
                      ++ String nl (String nl EmptyString)
                      ++ (stdout p ++ String nl EmptyString ++ stderr p))%string w).
Proof.
  intros steamcmd_path app_id branch dump_path w. rewrite !steamcmd_get_buildid_eq.
  destruct (steamcmd_exists w) as [[|] | e |]; auto.
  destruct (steamcmd_run w) as [exc | p]; [auto |]. cbn [fst snd].
  split; [reflexivity |]. split; [reflexivity |].
  destruct dump_path as [d |]; [| auto].
  destruct (dump_writable w); [| auto].
  right. exists p. repeat split. discriminate.
Qed.

(** *** Where a block is cut out *)

Lemma find_at_char_split (c : ascii) (s : string) :
  forall i j : nat,
    find_at (String c EmptyString) s i = Z.of_nat j ->
    exists opening tail,
      s = (opening ++ String c tail)%string
      /\ j = (i + String.length opening)%nat
      /\ forall_chars (fun x => negb (Ascii.eqb c x)) opening = true.
Proof.
  induction s as [| a s IH]; intros i j H; cbn [find_at starts_with] in H; [lia |].
  destruct (Ascii.eqb c a) eqn:E.
  - destruct s; cbn [andb starts_with] in H;
      apply Ascii.eqb_eq in E; subst a;
      exists EmptyString; eexists; (repeat split; [cbn [String.length]; lia]).
  - cbn [andb] in H. destruct (IH _ _ H) as (opening & tail & -> & -> & Ho).
    exists (String a opening), tail. cbn [String.append String.length forall_chars].
    rewrite E, Ho. repeat split. lia.
Qed.

Lemma find_quoted_hit (text name : string) (pos : nat) :
  find text (quoted name) 0 = Z.of_nat pos ->
  (pos < String.length text)%nat /\ starts_with (quoted name) (drop pos text) = true.
Proof.
  unfold find. cbn [Z.to_nat drop].
  destruct (Z.ltb_spec (Z.of_nat (String.length text)) 0) as [| _]; [lia |].
  intros H. destruct (find_at_hit _ _ _ _ H) as [_ Hs]. rewrite Nat.sub_0_r in Hs.
  split; [| exact Hs].
  destruct (Nat.lt_ge_cases pos (String.length text)) as [| Hge]; [assumption |].
  pose proof (length_drop pos text) as Hl.
  destruct (drop pos text); [discriminate Hs | cbn [String.length] in Hl; lia].
Qed.

(** X13.  [_extract_named_block] returns a block exactly when, from
    the first occurrence of the quoted name on, the text has an opening
    brace and the brace that closes it; the block is then the text
    from the first opening brace after the name to its matching brace,
    both included: inside it every closing brace closes a brace opened
    inside.  In all other cases the answer is [None]. *)
Theorem extract_named_block_cuts_the_balanced_block :
  forall (text name block : string),
    _extract_named_block text name = Some block <->
    exists (pos : nat) (opening body rest : string),
      find text (quoted name) 0 = Z.of_nat pos
      /\ drop pos text = (opening ++ String "{" (body ++ String "}" rest))%string
      /\ forall_chars no_open opening = true
      /\ open_through body 1 = Some 1
      /\ block = String "{" (body ++ String "}" EmptyString).
Proof.
  intros text name block. unfold _extract_named_block, braced_after. split.
  - destruct (Z.eqb_spec (find text (quoted name) 0) (-1)) as [| Hpos]; [discriminate |].
    assert (Hk : find text (quoted name) 0
                 = Z.of_nat (Z.to_nat (find text (quoted name) 0))).
    { unfold find in *. cbn [Z.to_nat drop] in *.
      destruct (Z.of_nat (String.length text) <? 0); [contradiction |].
      destruct (find_at_nonneg (quoted name) text 0); [contradiction | lia]. }
    set (k := Z.to_nat (find text (quoted name) 0)) in *.
    destruct (find_quoted_hit _ _ _ Hk) as [Hlt _]. rewrite Hk.
    rewrite find_from by lia.
    destruct (Z.eqb_spec (find_at "{" (drop k text) k) (-1)) as [| Hstart]; [discriminate |].
    assert (Hj : find_at "{" (drop k text) k
                 = Z.of_nat (Z.to_nat (find_at "{" (drop k text) k))).
    { destruct (find_at_nonneg "{" (drop k text) k); [contradiction | lia]. }
    set (j := Z.to_nat (find_at "{" (drop k text) k)) in *.
    destruct (find_at_char_split _ _ _ _ Hj) as (opening & tail & Hd & Hjk & Ho).
    assert (Hdj : drop j text = String "{" tail).
    { rewrite Hjk, <- drop_drop, Hd, <- (Nat.add_0_r (String.length opening)).
      rewrite drop_add_append. reflexivity. }
    rewrite Hdj.
    destruct (brace_loop (String "{" tail) j 0) as [i |] eqn:E; [| discriminate].
    destruct (brace_loop_exact _ _ _ _ E) as (body0 & rest & Hb0 & -> & Hb).
    destruct body0 as [| c body]; [cbn in Hb; discriminate |].
    cbn [String.append] in Hb0. injection Hb0 as <- ->.
    cbn [open_through] in Hb. change (Ascii.eqb "{" "{") with true in Hb.
    cbv iota in Hb. change (0 + 1) with 1 in Hb.
    intros H. injection H as <-.
    exists k, opening, body, rest. repeat split; try assumption.
    unfold slice. rewrite Hdj.
    match goal with
    | |- take ?n _ = _ =>
        replace n with (String.length (String "{" body ++ String "}" EmptyString))
          by (rewrite length_append; cbn [String.length]; lia)
    end.
    replace (String "{" (body ++ String "}" rest))
      with ((String "{" body ++ String "}" EmptyString) ++ rest)%string.
    2: { rewrite append_assoc. reflexivity. }
    rewrite take_length_append. reflexivity.
  - intros (pos & opening & body & rest & Hpos & Hd & Ho & Hb & ->).
    destruct (find_quoted_hit _ _ _ Hpos) as [Hlt _]. rewrite Hpos.
    destruct (Z.eqb_spec (Z.of_nat pos) (-1)) as [| _]; [lia |].
    rewrite find_from by lia. rewrite Hd.
    rewrite (find_at_skip "{" EmptyString _ _ _ Ho).
    rewrite find_at_here by (destruct (body ++ String "}" rest)%string; reflexivity).
    destruct (Z.eqb_spec (Z.of_nat (pos + String.length opening)) (-1)) as [| _]; [lia |].
    rewrite Nat2Z.id.
    assert (Hdj : drop (pos + String.length opening) text
                  = String "{" (body ++ String "}" rest)).
    { rewrite <- drop_drop, Hd, <- (Nat.add_0_r (String.length opening)).
      rewrite drop_add_append. reflexivity. }
    rewrite Hdj, (brace_loop_closes _ _ _ Hb). unfold slice. rewrite Hdj.
    replace (pos + String.length opening + S (String.length body) + 1
             - (pos + String.length opening))%nat
      with (String.length (String "{" (body ++ String "}" EmptyString))).
    2: { cbn [String.length]. rewrite length_append. simpl. lia. }
    replace (String "{" (body ++ String "}" rest))
      with (String "{" (body ++ String "}" EmptyString) ++ rest)%string.
    2: { cbn [String.append]. rewrite append_assoc. reflexivity. }
    rewrite take_length_append. reflexivity.
Qed.

End BlockFacts.

(** ** workshop.py: the ids of the ini and the catalog's answer *)

Module CatalogFacts.

Import Text Workshop CatalogSpec UpdatesFacts.

(** *** The ids *)

Lemma mem_true (x : string) (l : list string) : mem x l = true <-> In x l.
Proof.
  unfold mem. rewrite existsb_exists. split.
  - intros (y & Hy & He). apply String.eqb_eq in He. subst y. exact Hy.
  - intros H. exists x. split; [exact H | apply String.eqb_refl].
Qed.

Lemma filter_filter {A} (f g : A -> bool) (l : list A) :
  filter f (filter g l) = filter (fun x => g x && f x) l.
Proof.
  induction l as [| x l IH]; [reflexivity |]. cbn [filter].
  destruct (g x); cbn [filter andb]; [destruct (f x) |]; rewrite IH; reflexivity.
Qed.

Lemma filter_all {A} (f : A -> bool) (l : list A) :
  (forall x, f x = true) -> filter f l = l.
Proof.
  intros H. induction l as [| x l IH]; [reflexivity |].
  cbn [filter]. rewrite H, IH. reflexivity.
Qed.

Lemma unique_digits_eq (parts : list string) :
  forall seen out : list string,
    unique_digits parts seen out
    = out ++ filter (fun y => negb (mem y seen))
                    (first_occurrences (filter isdigit parts)).
Proof.
  induction parts as [| part parts IH]; intros seen out; cbn [unique_digits filter].
  - cbn. rewrite app_nil_r. reflexivity.
  - destruct (isdigit part) eqn:Ed; cbn [andb]; [| apply IH].
    cbn [first_occurrences filter]. rewrite filter_filter.
    destruct (mem part seen) eqn:Em; cbn [negb].
    + rewrite IH. f_equal. apply filter_ext_in. intros y _.
      destruct (String.eqb_spec part y) as [<- | _]; [| reflexivity].
      rewrite Em. reflexivity.
    + rewrite IH, <- app_assoc. cbn [app]. do 2 f_equal.
      apply filter_ext. intros y. unfold mem. cbn [existsb].
      rewrite (String.eqb_sym y part), negb_orb. reflexivity.
Qed.

Lemma first_occurrences_in (l : list string) (x : string) :
  In x (first_occurrences l) <-> In x l.
Proof.
  induction l as [| y l IH]; [reflexivity |]. cbn [first_occurrences In].
  rewrite filter_In, IH. split.
  - intros [H | [H _]]; auto.
  - intros [H | H]; [auto |].
    destruct (String.eqb_spec y x) as [He | Hne]; [auto |]. right. auto.
Qed.

Lemma first_occurrences_nodup (l : list string) : NoDup (first_occurrences l).
Proof.
  induction l as [| y l IH]; cbn [first_occurrences]; constructor.
  - rewrite filter_In. intros [_ H]. rewrite String.eqb_refl in H. discriminate.
  - apply NoDup_filter. exact IH.
Qed.

Lemma workshop_ids_are_distinct_numbers_aux :
  forall (w : world),
    (ini_file w = Missing ->
     exists msg, parse_workshop_ids_from_ini w = (Raise (FileNotFoundError msg), w))
    /\ (forall e, ini_file w = Unreadable e ->
                  parse_workshop_ids_from_ini w = (Raise e, w))
    /\ (forall content, ini_file w = Holds content ->
        exists ids, parse_workshop_ids_from_ini w = (Return ids, w))
    /\ forall ids w',
        parse_workshop_ids_from_ini w = (Return ids, w') ->
        NoDup ids /\ Forall (fun id => isdigit id = true) ids /\ w' = w.
Proof.
  intros w.
  assert (Hsome : forall content, ini_file w = Holds content ->
             exists parts,
               parse_workshop_ids_from_ini w
               = (Return (first_occurrences (filter isdigit parts)), w)).
  { intros content Hc. unfold parse_workshop_ids_from_ini, bind, get. rewrite Hc.
    destruct (Re.search true workshop_items_re content) as [m |].
    - eexists. unfold ret. rewrite unique_digits_eq. cbn [app].
      rewrite filter_all by reflexivity. reflexivity.
    - exists []. reflexivity. }
  split; [| split; [| split]].
  - intros Hn. unfold parse_workshop_ids_from_ini, bind, get, raise. rewrite Hn. eauto.
  - intros e He. unfold parse_workshop_ids_from_ini, bind, get, raise. rewrite He.
    reflexivity.
  - intros content Hc. destruct (Hsome content Hc) as (parts & Hp). eauto.
  - intros ids w' H. destruct (ini_file w) as [| e | content] eqn:Hc.
    + unfold parse_workshop_ids_from_ini, bind, get in H. rewrite Hc in H. discriminate.
    + unfold parse_workshop_ids_from_ini, bind, get in H. rewrite Hc in H. discriminate.
    + destruct (Hsome content eq_refl) as (parts & Hp). rewrite Hp in H.
      injection H as <- <-. split; [apply first_occurrences_nodup |]. split; [| reflexivity].
      apply Forall_forall. intros x Hx.
      apply (proj1 (first_occurrences_in _ _)) in Hx.
      apply (proj1 (filter_In _ _ _)) in Hx. tauto.
Qed.

(** X14.  [parse_workshop_ids_from_ini] raises [FileNotFoundError]
    when the ini file is missing, and what looking at the file or
    reading it raises when that fails; once the file is read it
    returns a list of ids.  In a list it returns no id comes twice and
    every id passes [str.isdigit].  The function changes nothing. *)
Theorem workshop_ids_are_distinct_numbers :
  forall (w : world),
    (ini_file w = Missing ->
     exists msg, parse_workshop_ids_from_ini w = (Raise (FileNotFoundError msg), w))
    /\ (forall e, ini_file w = Unreadable e ->
                  parse_workshop_ids_from_ini w = (Raise e, w))
    /\ (forall content, ini_file w = Holds content ->
        exists ids, parse_workshop_ids_from_ini w = (Return ids, w))
    /\ forall ids w',
        parse_workshop_ids_from_ini w = (Return ids, w') ->
        NoDup ids /\ Forall (fun id => isdigit id = true) ids /\ w' = w.
Proof. exact workshop_ids_are_distinct_numbers_aux. Qed.

Lemma workshop_ids_are_distinct_numbers_witness :
  fst (parse_workshop_ids_from_ini
         (UpdatesSpec.world_of (Holds "WorkshopItems= 12;x;7 ;12;;34;7"%string)
            UpdatesSpec.unreachable Missing (Failed "")))
  = Return ["12"; "7"; "34"]%string
  /\ NoDup ["12"; "7"; "34"]%string
  /\ fst (parse_workshop_ids_from_ini
            (UpdatesSpec.world_of (Unreadable (OSError "Is a directory"))
               UpdatesSpec.unreachable Missing (Failed "")))
     = Raise (OSError "Is a directory").
Proof.
  split; [reflexivity |]. split.
  - exact (proj1 (proj2 (proj2 (proj2 (workshop_ids_are_distinct_numbers
                                  (UpdatesSpec.world_of
                                     (Holds "WorkshopItems= 12;x;7 ;12;;34;7"%string)
                                     UpdatesSpec.unreachable Missing (Failed "")))))
                        ["12"; "7"; "34"]%string _ eq_refl)).
  - exact (f_equal fst
             (proj1 (proj2 (workshop_ids_are_distinct_numbers
                              (UpdatesSpec.world_of (Unreadable (OSError "Is a directory"))
                                 UpdatesSpec.unreachable Missing (Failed ""))))
                    (OSError "Is a directory") eq_refl)).
Defined.

(** X15.  The loop over the parts of the [WorkshopItems] value keeps
    the parts that pass [str.isdigit], in their order, each at its
    first occurrence and only there. *)
Theorem numeric_parts_are_kept_once_in_order :
  forall parts : list string,
    unique_digits parts [] [] = first_occurrences (filter isdigit parts).
Proof.
  intros parts. rewrite unique_digits_eq. cbn [app].
  apply filter_all. reflexivity.
Qed.

(** *** The answer of the catalog *)

Lemma dict_get_set {V} (d : dict V) (key key' : string) (v : V) :
  dict_get (dict_set d key v) key'
  = if String.eqb key key' then Some v else dict_get d key'.
Proof.
  induction d as [| [k0 v0] d IH]; cbn [dict_set dict_get].
  - reflexivity.
  - destruct (String.eqb_spec k0 key) as [-> | Hne]; cbn [dict_get].
    + destruct (String.eqb_spec key key'); reflexivity.
    + rewrite IH. destruct (String.eqb_spec k0 key') as [-> | _]; [| reflexivity].
      destruct (String.eqb_spec key key'); [congruence | reflexivity].
Qed.

Lemma collect_items_step (it : item) (items : list item) (out : dict ModRemoteInfo) :
  collect_items (it :: items) out
  = if String.eqb (entry_id it) EmptyString then collect_items items out
    else collect_items items (dict_set out (entry_id it) (entry_info it)).
Proof.
  cbn [collect_items]. unfold entry_info. fold (entry_id it).
  destruct (String.eqb (entry_id it) EmptyString); [reflexivity |].
  destruct (or_zero (result it) =? 1) eqn:E; cbn [negb]; [| reflexivity].
  apply Z.eqb_eq in E. rewrite E. reflexivity.
Qed.

Lemma collect_items_get (items : list item) :
  forall (out : dict ModRemoteInfo) (wid : string),
    wid <> EmptyString ->
    dict_get (collect_items items out) wid
    = match last_entry wid items with
      | Some it => Some (entry_info it)
      | None => dict_get out wid
      end.
Proof.
  induction items as [| it items IH]; intros out wid Hwid; [reflexivity |].
  rewrite collect_items_step. cbn [last_entry].
  destruct (String.eqb_spec (entry_id it) EmptyString) as [He | He].
  - rewrite (IH _ _ Hwid). destruct (last_entry wid items); [reflexivity |].
    destruct (String.eqb_spec (entry_id it) wid); [congruence | reflexivity].
  - rewrite (IH _ _ Hwid). destruct (last_entry wid items); [reflexivity |].
    rewrite dict_get_set. destruct (String.eqb (entry_id it) wid); reflexivity.
Qed.

(** X16.  Of what the catalog answers, [fetch_published_details] keeps,
    for every id that is not empty, its last entry: the title and the
    update time of that entry when its result code is 1, with no
    update time when the time is 0 or missing; neither title nor time
    when the code is anything else.  An id without entry is not in the
    dictionary. *)
Theorem the_last_entry_of_an_id_counts :
  forall (w w' : world) (ids : list string) (remote_map : dict ModRemoteInfo)
         (wid : string),
    fetch_published_details ids w = (Return remote_map, w') ->
    wid <> EmptyString ->
    w' = w
    /\ ((ids = [] /\ dict_get remote_map wid = None)
        \/ exists items,
            ids <> [] /\ catalog w ids = Return items
            /\ dict_get remote_map wid = option_map entry_info (last_entry wid items)).
Proof.
  intros w w' ids remote_map wid H Hwid. unfold fetch_published_details in H.
  destruct ids as [| id ids]; cbn [is_empty] in H.
  - injection H as <- <-. split; [reflexivity |]. left. split; reflexivity.
  - unfold bind, get, lift in H.
    destruct (catalog w (id :: ids)) as [items | e |] eqn:Ec; try discriminate.
    injection H as <- <-. split; [reflexivity |]. right. exists items.
    split; [discriminate |]. split; [reflexivity |].
    rewrite (collect_items_get _ _ _ Hwid).
    destruct (last_entry wid items); reflexivity.
Qed.

Lemma the_last_entry_of_an_id_counts_witness :
  let answer := [mkItem (Some "7"%string) (Some 1) (Some "old"%string) (Some 100);
                 mkItem (Some " 7 "%string) (Some 9) (Some "gone"%string) (Some 200)] in
  let w := UpdatesSpec.world_of Missing (fun _ => Return answer) Missing (Failed "") in
  dict_get (collect_items answer []) "7" = Some (mkModRemoteInfo "7" None None (Some 9)).
Proof.
  intros answer w.
  destruct (the_last_entry_of_an_id_counts
              w w ["7"%string] (collect_items answer []) "7"%string eq_refl)
    as [_ [[Hn _] | (items & _ & Hc & Hg)]]; [discriminate | discriminate |].
  injection Hc as <-. exact Hg.
Defined.

(** *** The local time of a mod *)

Lemma max_list_spec (l : list Z) (d : Z) :
  (max_list l d = d \/ In (max_list l d) l)
  /\ d <= max_list l d /\ Forall (fun t => t <= max_list l d) l.
Proof.
  induction l as [| x l IH]; cbn [max_list fold_right].
  - split; [left; reflexivity | split; [lia | constructor]].
  - fold (max_list l d). destruct IH as (Hin & Hd & Hall).
    split; [| split; [lia |]].
    + destruct (Z.max_spec x (max_list l d)) as [[_ ->] | [_ ->]].
      * destruct Hin as [-> | Hin]; [left; reflexivity | right; right; exact Hin].
      * right. left. reflexivity.
    + constructor; [lia |]. eapply Forall_impl; [| exact Hall].
      cbn beta. intros t Ht. lia.
Qed.

(** X17.  The local time of a mod is the newest of the times of the
    directories under its [mods] folder, where a directory counts with
    the time of its [mod.info] when it has one and with its own time
    otherwise, and entries that are not directories do not count.
    Only when there is no such directory is it the time of the folder
    of the id, and [None] when that folder is missing too. *)
Theorem local_mtime_is_the_newest_mod_time :
  forall (w : world) (wid : string),
    (mod_times w wid = [] -> get_local_mod_mtime w wid = base_mtime w wid)
    /\ (mod_times w wid <> [] ->
        exists m,
          get_local_mod_mtime w wid = Some m
          /\ In m (mod_times w wid)
          /\ Forall (fun t => t <= m) (mod_times w wid)).
Proof.
  intros w wid. unfold get_local_mod_mtime. fold (mod_times w wid).
  destruct (mod_times w wid) as [| t ts]; split; try congruence.
  intros _. destruct (max_list_spec ts t) as (Hin & Hd & Hall).
  exists (max_list ts t). split; [reflexivity |]. split.
  - destruct Hin as [-> | Hin]; [left; reflexivity | right; exact Hin].
  - constructor; assumption.
Qed.

Lemma local_mtime_is_the_newest_mod_time_witness :
  let w := mkWorld Missing UpdatesSpec.unreachable
             (fun _ => Some [mkModFolder true (Some 50) 900;
                             mkModFolder false (Some 999) 999;
                             mkModFolder true None 70])
             (fun _ => Some 1000) Missing (Return false) (Failed "") false None in
  get_local_mod_mtime w "7" = Some 70.
Proof.
  intros w.
  destruct (proj2 (local_mtime_is_the_newest_mod_time w "7"%string))
    as (m & Hm & Hin & Hall); [discriminate |].
  rewrite Hm. f_equal. rewrite Forall_forall in Hall.
  pose proof (Hall 70 (or_intror (or_introl eq_refl))) as H70. cbn beta in H70.
  vm_compute in Hin. destruct Hin as [<- | [<- | []]]; [lia | reflexivity].
Defined.

(** *** The statuses *)

Lemma build_mod_statuses_eq (w : world) :
  build_mod_statuses w
  = match parse_workshop_ids_from_ini w with
    | (Return ids, _) =>
        match fetch_published_details ids w with
        | (Return remote_map, _) =>
            (Return
               (map (fun wid =>
                       mkModStatus wid (get_local_mod_mtime w wid)
                         (match dict_get remote_map wid with
                          | Some r => ri_time_updated r
                          | None => None
                          end)
                         (match dict_get remote_map wid with
                          | Some r => ri_title r
                          | None => None
                          end)) ids), w)
        | (Raise e, _) => (Raise e, w)
        | (OutOfFuel, _) => (OutOfFuel, w)
        end
    | (Raise e, _) => (Raise e, w)
    | (OutOfFuel, _) => (OutOfFuel, w)
    end.
Proof.
  unfold build_mod_statuses, bind.
  destruct (parse_workshop_ids_from_ini w) as [[ids | e |] w1] eqn:Ep;
    pose proof (parse_workshop_ids_state _ _ _ Ep) as ->; try reflexivity.
  unfold fetch_published_details.
  destruct (is_empty ids); [reflexivity |]. unfold bind, get, lift.
  destruct (catalog w ids); reflexivity.
Qed.

Lemma isdigit_not_empty (id : string) : isdigit id = true -> id <> EmptyString.
Proof. intros H ->. discriminate. Qed.

Lemma one_status_for_every_id_aux :
  forall (w w' : world) (statuses : list ModStatus),
    build_mod_statuses w = (Return statuses, w') ->
    parse_workshop_ids_from_ini w = (Return (map workshop_id statuses), w)
    /\ NoDup (map workshop_id statuses)
    /\ Forall (fun s => local_mtime s = get_local_mod_mtime w (workshop_id s)) statuses
    /\ w' = w.
Proof.
  intros w w' statuses. rewrite build_mod_statuses_eq.
  destruct (parse_workshop_ids_from_ini w) as [[ids | e |] w1] eqn:Ep; try discriminate.
  pose proof (parse_workshop_ids_state _ _ _ Ep) as ->.
  destruct (fetch_published_details ids w) as [[remote_map | e |] w2]; try discriminate.
  intros H. injection H as <- <-.
  rewrite map_map. cbn [workshop_id]. rewrite map_id.
  destruct (proj2 (proj2 (proj2 (workshop_ids_are_distinct_numbers_aux w))) _ _ Ep) as (Hnd & _ & _).
  split; [reflexivity |]. split; [exact Hnd |]. split; [| reflexivity].
  apply Forall_forall. intros s Hs. apply in_map_iff in Hs.
  destruct Hs as (wid & <- & _). reflexivity.
Qed.

(** X18.  [build_mod_statuses] gives one status for every id of the
    ini, in the order of the ini, so that no two statuses have the same
    id; the local time of each is what [get_local_mod_mtime] finds for
    its id.  Nothing is changed. *)
Theorem one_status_for_every_id :
  forall (w w' : world) (statuses : list ModStatus),
    build_mod_statuses w = (Return statuses, w') ->
    parse_workshop_ids_from_ini w = (Return (map workshop_id statuses), w)
    /\ NoDup (map workshop_id statuses)
    /\ Forall (fun s => local_mtime s = get_local_mod_mtime w (workshop_id s)) statuses
    /\ w' = w.
Proof. exact one_status_for_every_id_aux. Qed.

Lemma one_status_for_every_id_witness :
  let w := UpdatesSpec.world_of (Holds "WorkshopItems=5;3;5"%string)
             (fun _ => Return []) Missing (Failed "") in
  NoDup (map workshop_id
             [mkModStatus "5" None None None; mkModStatus "3" None None None]).
Proof.
  intros w.
  exact (proj1 (proj2 (one_status_for_every_id
                         w w [mkModStatus "5" None None None;
                              mkModStatus "3" None None None] eq_refl))).
Defined.

(** X19.  A mod is reported outdated only on the word of the catalog:
    the catalog was asked and answered, the last entry of its answer
    for the id has the result code 1 and an update time that is not 0,
    and the mod has no local time or an older one.  A failed lookup, a
    missing entry or a missing time never make a mod outdated. *)
Theorem outdated_needs_a_time_from_the_catalog :
  forall (w w' : world) (statuses : list ModStatus) (s : ModStatus),
    build_mod_statuses w = (Return statuses, w') ->
    In s statuses -> is_outdated s = true ->
    exists (items : list item) (it : item) (t : Z),
      catalog w (map workshop_id statuses) = Return items
      /\ last_entry (workshop_id s) items = Some it
      /\ or_zero (result it) = 1
      /\ time_updated it = Some t /\ t <> 0
      /\ remote_time_updated s = Some t
      /\ (get_local_mod_mtime w (workshop_id s) = None
          \/ exists l, get_local_mod_mtime w (workshop_id s) = Some l /\ l < t).
Proof.
  intros w w' statuses s Hb Hin Hout.
  destruct (one_status_for_every_id_aux _ _ _ Hb) as (Hp & _ & Hloc & _).
  rewrite build_mod_statuses_eq, Hp in Hb.
  destruct (fetch_published_details (map workshop_id statuses) w)
    as [[remote_map | e |] w2] eqn:Ef; try discriminate.
  injection Hb as Hb _.
  assert (Hs : exists wid,
             In wid (map workshop_id statuses)
             /\ s = mkModStatus wid (get_local_mod_mtime w wid)
                      (match dict_get remote_map wid with
                       | Some r => ri_time_updated r
                       | None => None
                       end)
                      (match dict_get remote_map wid with
                       | Some r => ri_title r
                       | None => None
                       end)).
  { rewrite <- Hb in Hin. apply in_map_iff in Hin.
    destruct Hin as (wid & <- & Hw). eauto. }
  destruct Hs as (wid & Hwid & ->). cbn [workshop_id remote_time_updated].
  unfold is_outdated in Hout. cbn [remote_time_updated local_mtime] in Hout.
  assert (Hne : wid <> EmptyString).
  { destruct (proj2 (proj2 (proj2 (workshop_ids_are_distinct_numbers_aux w))) _ _ Hp)
      as (_ & Hd & _).
    rewrite Forall_forall in Hd. exact (isdigit_not_empty _ (Hd _ Hwid)). }
  unfold fetch_published_details in Ef.
  destruct (map workshop_id statuses) as [| id0 ids0] eqn:Em; [contradiction |].
  cbn [is_empty] in Ef. unfold bind, get, lift in Ef.
  destruct (catalog w (id0 :: ids0)) as [items | e |]; try discriminate.
  injection Ef as <- _. rewrite (collect_items_get _ _ _ Hne) in *.
  cbn [dict_get] in *.
  destruct (last_entry wid items) as [it |] eqn:El; [| discriminate].
  unfold entry_info in *.
  destruct (Z.eqb_spec (or_zero (result it)) 1) as [Hr | Hr];
    cbn [ri_time_updated] in *; [| discriminate].
  destruct (Z.eqb_spec (or_zero (time_updated it)) 0) as [Ht | Ht]; [discriminate |].
  exists items, it, (or_zero (time_updated it)).
  split; [reflexivity |]. split; [exact El |]. split; [exact Hr |].
  split; [| split; [exact Ht | split; [reflexivity |]]].
  - destruct (time_updated it) as [t |]; [reflexivity |].
    exfalso. apply Ht. reflexivity.
  - destruct (get_local_mod_mtime w wid) as [l |]; [| left; reflexivity].
    right. exists l. split; [reflexivity |]. apply Z.ltb_lt. exact Hout.
Qed.

Lemma outdated_needs_a_time_from_the_catalog_witness :
  let answer := [mkItem (Some "7"%string) (Some 1) (Some "mod"%string) (Some 100)] in
  let w := UpdatesSpec.world_of (Holds "WorkshopItems=7"%string)
             (fun _ => Return answer) Missing (Failed "") in
  exists it t, last_entry "7" answer = Some it /\ time_updated it = Some t /\ t <> 0.
Proof.
  intros answer w.
  destruct (outdated_needs_a_time_from_the_catalog
              w w [mkModStatus "7" None (Some 100) (Some "mod"%string)]
              (mkModStatus "7" None (Some 100) (Some "mod"%string))
              eq_refl (or_introl eq_refl) eq_refl)
    as (items & it & t & Hc & Hl & _ & Ht & Hne & _).
  injection Hc as <-. exists it, t. auto.
Defined.

End CatalogFacts.

(** ** updates.py: when the check raises *)

Module CheckFacts.

Import Text SteamApp Workshop Updates UpdatesFacts CatalogFacts.

Lemma check_updates_outcome
      (steamapps_dir steamcmd_path steam_branch : string) (dump : option string)
      (w : world) :
  match build_mod_statuses w with
  | (Return statuses, _) =>
      forall (info : option string * option Z) (found : bool),
        parse_appmanifest_build_info (manifest_file w) = Return info ->
        steamcmd_exists w = Return found ->
        exists r w',
          check_updates steamapps_dir steamcmd_path steam_branch dump w = (Return r, w')
          /\ mod_statuses r = statuses
          /\ mods_outdated r = existsb is_outdated statuses
  | (Raise e, _) =>
      check_updates steamapps_dir steamcmd_path steam_branch dump w = (Raise e, w)
  | (OutOfFuel, _) =>
      check_updates steamapps_dir steamcmd_path steam_branch dump w = (OutOfFuel, w)
  end.
Proof.
  destruct (build_mod_statuses w) as [[statuses | e |] w1] eqn:Eb.
  - intros info found Hinfo Hfound.
    assert (Hw : w1 = w).
    { rewrite build_mod_statuses_eq in Eb.
      destruct (parse_workshop_ids_from_ini w) as [[ids | e0 |] w0] eqn:Ep;
        try discriminate.
      destruct (fetch_published_details ids w) as [[m | e1 |] w3]; try discriminate.
      injection Eb as _ <-. reflexivity. }
    subst w1.
    destruct (check_updates_returns steamapps_dir steamcmd_path steam_branch dump
                                    w w statuses info found Eb Hinfo Hfound)
      as (r & w' & Hr & Hs & _).
    exists r, w'. split; [exact Hr |]. split; [exact Hs |].
    unfold check_updates, bind in Hr. rewrite Eb in Hr. unfold get, lift in Hr.
    rewrite Hinfo in Hr. destruct info as [local lu].
    destruct (steamcmd_get_buildid steamcmd_path SERVER_APP_ID steam_branch dump w)
      as [[[remote err] | e2 |] w2]; try discriminate.
    injection Hr as <- _. reflexivity.
  - unfold check_updates, bind. rewrite Eb.
    rewrite build_mod_statuses_eq in Eb.
    destruct (parse_workshop_ids_from_ini w) as [[ids | e0 |] w0].
    + destruct (fetch_published_details ids w) as [[m | e1 |] w3];
        try discriminate; injection Eb as _ <-; reflexivity.
    + injection Eb as _ <-. reflexivity.
    + discriminate.
  - unfold check_updates, bind. rewrite Eb.
    rewrite build_mod_statuses_eq in Eb.
    destruct (parse_workshop_ids_from_ini w) as [[ids | e0 |] w0].
    + destruct (fetch_published_details ids w) as [[m | e1 |] w3];
        try discriminate; injection Eb as <-; reflexivity.
    + discriminate.
    + injection Eb as <-. reflexivity.
Qed.

(** X21.  When the ini lists no workshop id, [check_updates] does not
    ask the catalog, which may be out of reach.  It then raises only
    what reading the manifest raises or, the manifest read, what
    looking at the path of the inventory tool raises, and changes
    nothing; when neither raises it returns, with no mod status and no
    mod outdated. *)
Theorem check_updates_without_ids_asks_no_catalog :
  forall (steamapps_dir steamcmd_path steam_branch : string) (dump : option string)
         (w : world),
    parse_workshop_ids_from_ini w = (Return [], w) ->
    (forall e,
        parse_appmanifest_build_info (manifest_file w) = Raise e ->
        check_updates steamapps_dir steamcmd_path steam_branch dump w = (Raise e, w))
    /\ (forall info e,
           parse_appmanifest_build_info (manifest_file w) = Return info ->
           steamcmd_exists w = Raise e ->
           check_updates steamapps_dir steamcmd_path steam_branch dump w = (Raise e, w))
    /\ (forall info found,
           parse_appmanifest_build_info (manifest_file w) = Return info ->
           steamcmd_exists w = Return found ->
           exists r w',
             check_updates steamapps_dir steamcmd_path steam_branch dump w = (Return r, w')
             /\ mod_statuses r = [] /\ mods_outdated r = false).
Proof.
  intros steamapps_dir steamcmd_path steam_branch dump w Hp.
  assert (Eb : build_mod_statuses w = (Return [], w)).
  { rewrite build_mod_statuses_eq, Hp. reflexivity. }
  split; [| split].
  - intros e Hinfo. unfold check_updates, bind. rewrite Eb. unfold get, lift.
    rewrite Hinfo. reflexivity.
  - intros [local lu] e Hinfo Hfound. unfold check_updates, bind. rewrite Eb.
    unfold get, lift. rewrite Hinfo, BlockFacts.steamcmd_get_buildid_eq, Hfound. reflexivity.
  - intros info found Hinfo Hfound.
    pose proof (check_updates_outcome steamapps_dir steamcmd_path steam_branch dump w)
      as Hc.
    rewrite Eb in Hc.
    destruct (Hc info found Hinfo Hfound) as (r & w' & Hr & Hs & Hm).
    exists r, w'. auto.
Qed.

Lemma check_updates_without_ids_asks_no_catalog_witness :
  (exists r w',
      check_updates "steamapps" "steamcmd" "unstable" None UpdatesSpec.stale_world
      = (Return r, w')
      /\ mod_statuses r = [] /\ mods_outdated r = false)
  /\ (let w := UpdatesSpec.world_of (Holds "Mods="%string) UpdatesSpec.unreachable
                 (Unreadable (OSError "Permission denied")) (Failed "") in
      check_updates "steamapps" "steamcmd" "unstable" None w
      = (Raise (OSError "Permission denied"), w)).
Proof.
  split.
  - exact (proj2 (proj2 (check_updates_without_ids_asks_no_catalog
                           "steamapps" "steamcmd" "unstable" None UpdatesSpec.stale_world
                           eq_refl))
                 (Some "0123"%string, None) true eq_refl eq_refl).
  - exact (proj1 (check_updates_without_ids_asks_no_catalog
                    "steamapps" "steamcmd" "unstable" None
                    (UpdatesSpec.world_of (Holds "Mods="%string) UpdatesSpec.unreachable
                       (Unreadable (OSError "Permission denied")) (Failed ""))
                    eq_refl)
                 (OSError "Permission denied") eq_refl).
Defined.

End CheckFacts.

(** ** main.py: what one cycle does *)

Module CycleFacts.

Import Text Workshop Updates Players Restart RestartSpec Main PlanSpec CycleSpec.
Import RestartFacts SequenceFacts.

Section Cycle.

Variable decode_replace : list byte -> string.
Variable str_format : string -> Z -> option string.
Variable strftime_localtime : Z -> option string.
Variable str_of_exn : exn -> string.

Local Abbreviation run_once :=
  (run_once decode_replace str_format strftime_localtime str_of_exn).
Local Abbreviation _log_update_result :=
  (_log_update_result strftime_localtime).
Local Abbreviation log_outdated_mods := (log_outdated_mods strftime_localtime).

Lemma logged_nil (s : monitor) : logged s [] = s.
Proof.
  unfold logged. cbn [map]. rewrite app_nil_r. destruct s as [d [n t]]. reflexivity.
Qed.

Lemma logged_logged (s : monitor) (a b : list string) :
  logged (logged s a) b = logged s (a ++ b).
Proof.
  unfold logged. cbn [disk game server trace]. rewrite map_app, app_assoc. reflexivity.
Qed.

Lemma logger_log_run (message : string) (s : monitor) :
  logger_log message s = (Return tt, logged s [message]).
Proof. reflexivity. Qed.

Lemma log_outdated_mods_run (mods : list ModStatus) :
  forall s : monitor,
    exists lines, log_outdated_mods mods s = (Return tt, logged s lines).
Proof.
  induction mods as [| m mods IH]; intros s.
  - exists []. rewrite logged_nil. reflexivity.
  - cbn [Main.log_outdated_mods]. unfold bind. rewrite logger_log_run.
    destruct (IH (logged s [("Mod outdated id=" ++ workshop_id m
                    ++ " local=" ++ format_ts strftime_localtime (local_mtime m)
                    ++ " remote=" ++ format_ts strftime_localtime (remote_time_updated m)
                    ++ " title=" ++ or_na (remote_title m))%string]))
      as (lines & Hl).
    rewrite Hl, logged_logged. eauto.
Qed.

Lemma log_update_result_run (cfg : Main.MonitorConfig) (result : UpdateResult)
      (s : monitor) :
  exists lines, _log_update_result cfg result s = (Return tt, logged s lines).
Proof.
  unfold Main._log_update_result. cbv zeta. unfold bind.
  assert (H1 : exists l1,
             (if Z.of_nat (List.length (mod_statuses result)) =? 0
              then logger_log "No WorkshopItems found in ini."
              else logger_log
                     ("Workshop mods: total="
                        ++ str_of_int (Z.of_nat (List.length (mod_statuses result)))
                        ++ " outdated="
                        ++ str_of_int
                             (Z.of_nat (List.length
                                          (filter is_outdated (mod_statuses result)))))%string)
               s = (Return tt, logged s l1)).
  { destruct (Z.of_nat (List.length (mod_statuses result)) =? 0);
      rewrite logger_log_run; eauto. }
  destruct H1 as (l1 & ->).
  destruct (log_outdated_mods_run (filter is_outdated (mod_statuses result)) (logged s l1))
    as (l2 & ->).
  rewrite logger_log_run, !logged_logged.
  destruct (steamcmd_error result) as [error |].
  - destruct (String.eqb error EmptyString).
    + eexists. reflexivity.
    + rewrite logger_log_run, logged_logged. eauto.
  - eexists. reflexivity.
Qed.

(** The cycle up to the end of the version check. *)
Lemma run_once_checked (cfg : Main.MonitorConfig) (s : monitor) :
  run_once cfg s
  = match check_updates (steamapps_dir cfg) (steamcmd_path cfg) (steam_branch cfg)
                        (steamcmd_dump_path cfg) (disk s) with
    | (Return result, w') =>
        bind (_log_update_result cfg result) (fun _ =>
          if negb (any_outdated result) then logger_log "No updates detected."
          else if String.eqb (rcon_password cfg) EmptyString then
            logger_log
              "RCON password missing. Set RCONPassword in config/rcon.conf or monitor.conf."
          else
            bind
              (try_except
                 (bind (on_game (get_player_count
                                   (rcon_call decode_replace
                                      (Rcon.mkRconClient (rcon_host cfg) (rcon_port cfg)
                                                         (rcon_password cfg)))
                                   (players_command cfg)))
                       (fun player_count => ret (Some player_count)))
                 (fun e => is_OSError e || is_RconError e)
                 (fun exc =>
                    bind (logger_log ("RCON error while checking players: "
                                        ++ str_of_exn exc)%string)
                         (fun _ => ret None)))
              (fun counted =>
                 match counted with
                 | None => ret tt
                 | Some player_count =>
                     bind (logger_log (count_line player_count)) (fun _ =>
                       try_except
                         (on_game (run_restart_sequence
                                     Rcon.network
                                     (Rcon.send_command decode_replace
                                        (Rcon.mkRconClient (rcon_host cfg) (rcon_port cfg)
                                                           (rcon_password cfg)))
                                     str_format (sequence cfg)
                                     (match player_count with
                                      | Some n => n =? 0
                                      | None => false
                                      end)))
                         (fun e => is_OSError e || is_RconError e)
                         (fun exc =>
                            logger_log ("RCON error during restart sequence: "
                                          ++ str_of_exn exc)%string))
                 end))
          (logged (mkMonitor w' (game s)) ["Starting update check."%string])
    | (Raise e, w') =>
        (Return tt,
         logged (mkMonitor w' (game s))
                ["Starting update check."; "Update check failed: " ++ str_of_exn e]%string)
    | (OutOfFuel, w') =>
        (OutOfFuel, logged (mkMonitor w' (game s)) ["Starting update check."%string])
    end.
Proof.
  unfold Main.run_once. unfold bind at 1. rewrite logger_log_run.
  unfold bind at 1. unfold try_except at 1. unfold bind at 1. unfold on_disk at 1.
  cbn [logged disk game].
  destruct (check_updates (steamapps_dir cfg) (steamcmd_path cfg) (steam_branch cfg)
                          (steamcmd_dump_path cfg) (disk s)) as [[result | e |] w'].
  - unfold ret at 1. cbv beta iota. unfold bind.
    destruct (_log_update_result cfg result _) as [[[] | e |] s1]; try reflexivity.
    destruct (negb (any_outdated result)); [reflexivity |].
    destruct (String.eqb (rcon_password cfg) EmptyString); [reflexivity |].
    destruct (try_except _ _ _ s1) as [[[pc |] | e |] s2]; try reflexivity.
    destruct pc as [n |]; reflexivity.
  - cbv beta iota. unfold bind. rewrite logger_log_run.
    unfold logged. cbn [disk game server trace map]. rewrite <- app_assoc. reflexivity.
  - reflexivity.
Qed.

(** The players query, as [run_once] runs it. *)
Lemma players_query_run (rcon : Rcon.RconClient) (command : string) (s : monitor) :
  on_game (get_player_count (rcon_call decode_replace rcon) command) s
  = (match fst (Rcon.send_command decode_replace rcon command (server (game s))) with
     | Return response => parse_player_count response
     | Raise e => Raise e
     | OutOfFuel => OutOfFuel
     end,
     mkMonitor (disk s)
       (mkState (snd (Rcon.send_command decode_replace rcon command (server (game s))))
                (trace (game s) ++ [Command command]))).
Proof.
  unfold on_game, get_player_count, bind, lift, rcon_call, Restart.send_command.
  destruct (Rcon.send_command decode_replace rcon command (server (game s)))
    as [[response | e |] net']; reflexivity.
Qed.

(** X22.  Whatever exception the version check raises, [run_once]
    catches it: it logs "Update check failed: " with the text of the
    exception and returns; the game server is not contacted and
    nothing else is logged. *)
Theorem run_once_survives_a_failed_check :
  forall (cfg : Main.MonitorConfig) (s : monitor) (e : exn) (w' : world),
    check_updates (steamapps_dir cfg) (steamcmd_path cfg) (steam_branch cfg)
                  (steamcmd_dump_path cfg) (disk s) = (Raise e, w') ->
    run_once cfg s
    = (Return tt,
       logged (mkMonitor w' (game s))
              ["Starting update check."; "Update check failed: " ++ str_of_exn e]%string).
Proof.
  intros cfg s e w' H. rewrite run_once_checked, H. reflexivity.
Qed.

(** X23.  When the check finds nothing outdated, or when no RCON
    password is configured, [run_once] only logs: no connection to the
    game server is opened, nothing is sent and nothing is slept.  Its
    last line says which of the two it was. *)
Theorem run_once_opens_no_connection_without_cause :
  forall (cfg : Main.MonitorConfig) (s : monitor) (result : UpdateResult) (w' : world),
    check_updates (steamapps_dir cfg) (steamcmd_path cfg) (steam_branch cfg)
                  (steamcmd_dump_path cfg) (disk s) = (Return result, w') ->
    any_outdated result = false \/ rcon_password cfg = EmptyString ->
    exists lines,
      run_once cfg s
      = (Return tt,
         logged (mkMonitor w' (game s))
                ("Starting update check."%string :: lines
                   ++ [if any_outdated result
                       then "RCON password missing. Set RCONPassword in config/rcon.conf or monitor.conf."%string
                       else "No updates detected."%string])).
Proof.
  intros cfg s result w' H Hcause. rewrite run_once_checked, H. unfold bind.
  destruct (log_update_result_run cfg result
              (logged (mkMonitor w' (game s)) ["Starting update check."%string]))
    as (lines & ->).
  exists lines. rewrite logged_logged.
  destruct (any_outdated result); cbn [negb].
  - destruct Hcause as [Hc | Hc]; [discriminate |]. rewrite Hc. cbn [String.eqb].
    rewrite logger_log_run, logged_logged, <- app_assoc. reflexivity.
  - rewrite logger_log_run, logged_logged, <- app_assoc. reflexivity.
Qed.

(** X24.  When the players query raises an [OSError] (a refused
    connection, a timeout) or an [RconError], [run_once] logs "RCON
    error while checking players: " with its text and returns: the
    query is the only command that was sent, and no restart sequence
    is run. *)
Theorem run_once_gives_up_when_the_players_query_fails :
  forall (cfg : Main.MonitorConfig) (s : monitor) (result : UpdateResult) (w' : world)
         (e : exn),
    check_updates (steamapps_dir cfg) (steamcmd_path cfg) (steam_branch cfg)
                  (steamcmd_dump_path cfg) (disk s) = (Return result, w') ->
    any_outdated result = true -> rcon_password cfg <> EmptyString ->
    fst (Rcon.send_command decode_replace
           (Rcon.mkRconClient (rcon_host cfg) (rcon_port cfg) (rcon_password cfg))
           (players_command cfg) (server (game s))) = Raise e ->
    is_OSError e || is_RconError e = true ->
    exists lines,
      run_once cfg s
      = (Return tt,
         mkMonitor w'
           (mkState
              (snd (Rcon.send_command decode_replace
                      (Rcon.mkRconClient (rcon_host cfg) (rcon_port cfg)
                                         (rcon_password cfg))
                      (players_command cfg) (server (game s))))
              (trace (game s)
                 ++ map Log ("Starting update check."%string :: lines)
                 ++ [Command (players_command cfg);
                     Log ("RCON error while checking players: " ++ str_of_exn e)]))).
Proof.
  intros cfg s result w' e H Hout Hpw Hq Hclass. rewrite run_once_checked, H.
  unfold bind at 1.
  destruct (log_update_result_run cfg result
              (logged (mkMonitor w' (game s)) ["Starting update check."%string]))
    as (lines & ->).
  exists lines. rewrite logged_logged, Hout. cbn [negb].
  destruct (String.eqb_spec (rcon_password cfg) EmptyString) as [| _]; [contradiction |].
  unfold bind at 1. unfold try_except at 1. unfold bind at 1.
  rewrite players_query_run. cbn [logged disk game server trace]. rewrite Hq, Hclass.
  unfold bind. rewrite logger_log_run. unfold logged, ret.
  cbn [disk game server trace map app]. rewrite <- !app_assoc. reflexivity.
Qed.

(** X25.  An exception of the players query that is neither an
    [OSError] nor an [RconError] is not caught: [run_once] raises it.
    This is what happens with the [struct.error] of a frame that is
    too short. *)
Theorem run_once_lets_other_exceptions_through :
  forall (cfg : Main.MonitorConfig) (s : monitor) (result : UpdateResult) (w' : world)
         (e : exn),
    check_updates (steamapps_dir cfg) (steamcmd_path cfg) (steam_branch cfg)
                  (steamcmd_dump_path cfg) (disk s) = (Return result, w') ->
    any_outdated result = true -> rcon_password cfg <> EmptyString ->
    fst (Rcon.send_command decode_replace
           (Rcon.mkRconClient (rcon_host cfg) (rcon_port cfg) (rcon_password cfg))
           (players_command cfg) (server (game s))) = Raise e ->
    is_OSError e || is_RconError e = false ->
    fst (run_once cfg s) = Raise e.
Proof.
  intros cfg s result w' e H Hout Hpw Hq Hclass. rewrite run_once_checked, H.
  unfold bind at 1.
  destruct (log_update_result_run cfg result
              (logged (mkMonitor w' (game s)) ["Starting update check."%string]))
    as (lines & ->).
  rewrite Hout. cbn [negb].
  destruct (String.eqb_spec (rcon_password cfg) EmptyString) as [| _]; [contradiction |].
  unfold bind at 1. unfold try_except at 1. unfold bind at 1.
  rewrite players_query_run. cbn [logged disk game server trace]. rewrite Hq, Hclass.
  reflexivity.
Qed.

(** The cycle up to the start of the restart sequence. *)
Lemma run_once_counted (cfg : Main.MonitorConfig) (s : monitor) (result : UpdateResult)
      (w' : world) (response : string) :
  check_updates (steamapps_dir cfg) (steamcmd_path cfg) (steam_branch cfg)
                (steamcmd_dump_path cfg) (disk s) = (Return result, w') ->
  any_outdated result = true -> rcon_password cfg <> EmptyString ->
  fst (Rcon.send_command decode_replace
         (Rcon.mkRconClient (rcon_host cfg) (rcon_port cfg) (rcon_password cfg))
         (players_command cfg) (server (game s))) = Return response ->
  exists lines,
    run_once cfg s
    = match parse_player_count response with
      | Return player_count =>
          try_except
            (on_game (run_restart_sequence
                        Rcon.network
                        (Rcon.send_command decode_replace
                           (Rcon.mkRconClient (rcon_host cfg) (rcon_port cfg)
                                              (rcon_password cfg)))
                        str_format (sequence cfg)
                        (match player_count with
                         | Some n => n =? 0
                         | None => false
                         end)))
            (fun e => is_OSError e || is_RconError e)
            (fun exc =>
               logger_log ("RCON error during restart sequence: "
                             ++ str_of_exn exc)%string)
            (mkMonitor w'
               (mkState
                  (snd (Rcon.send_command decode_replace
                          (Rcon.mkRconClient (rcon_host cfg) (rcon_port cfg)
                                             (rcon_password cfg))
                          (players_command cfg) (server (game s))))
                  (trace (game s)
                     ++ map Log ("Starting update check."%string :: lines)
                     ++ [Command (players_command cfg);
                         Log (count_line player_count)])))
      | Raise e =>
          if is_OSError e || is_RconError e
          then (Return tt,
                mkMonitor w'
                  (mkState
                     (snd (Rcon.send_command decode_replace
                             (Rcon.mkRconClient (rcon_host cfg) (rcon_port cfg)
                                                (rcon_password cfg))
                             (players_command cfg) (server (game s))))
                     (trace (game s)
                        ++ map Log ("Starting update check."%string :: lines)
                        ++ [Command (players_command cfg);
                            Log ("RCON error while checking players: "
                                   ++ str_of_exn e)])))
          else (Raise e,
                mkMonitor w'
                  (mkState
                     (snd (Rcon.send_command decode_replace
                             (Rcon.mkRconClient (rcon_host cfg) (rcon_port cfg)
                                                (rcon_password cfg))
                             (players_command cfg) (server (game s))))
                     (trace (game s)
                        ++ map Log ("Starting update check."%string :: lines)
                        ++ [Command (players_command cfg)])))
      | OutOfFuel =>
          (OutOfFuel,
           mkMonitor w'
             (mkState
                (snd (Rcon.send_command decode_replace
                        (Rcon.mkRconClient (rcon_host cfg) (rcon_port cfg)
                                           (rcon_password cfg))
                        (players_command cfg) (server (game s))))
                (trace (game s)
                   ++ map Log ("Starting update check."%string :: lines)
                   ++ [Command (players_command cfg)])))
      end.
Proof.
  intros H Hout Hpw Hq. rewrite run_once_checked, H. unfold bind at 1.
  destruct (log_update_result_run cfg result
              (logged (mkMonitor w' (game s)) ["Starting update check."%string]))
    as (lines & ->).
  exists lines. rewrite logged_logged, Hout. cbn [negb].
  destruct (String.eqb_spec (rcon_password cfg) EmptyString) as [| _]; [contradiction |].
  unfold bind at 1. unfold try_except at 1. unfold bind at 1.
  rewrite players_query_run. cbn [logged disk game server trace]. rewrite Hq.
  destruct (parse_player_count response) as [player_count | e |].
  - unfold ret at 1. cbv beta iota. unfold bind at 1. rewrite logger_log_run.
    unfold logged. cbn [disk game server trace map app]. rewrite <- !app_assoc.
    reflexivity.
  - destruct (is_OSError e || is_RconError e).
    + unfold bind. rewrite logger_log_run. unfold logged, ret.
      cbn [disk game server trace map app]. rewrite <- !app_assoc. reflexivity.
    + cbn [map app]. rewrite <- !app_assoc. reflexivity.
  - cbn [map app]. rewrite <- !app_assoc. reflexivity.
Qed.

(** X26.  After the players query has answered, [run_once] logs the
    count and runs the restart sequence, at once exactly when the
    count is 0 and on the timer otherwise, also when the count is
    unknown.  On a game server that accepts the commands of the
    sequence every step of it is done, in order, and [run_once]
    returns with nothing more logged.  When a command of the sequence
    raises, the steps up to that command are done and none after it;
    an [OSError] or an [RconError] is caught, one line "RCON error
    during restart sequence: ..." is logged and [run_once] returns;
    any other exception is raised by [run_once].  When the number in
    the answer is too long for [int], nothing of this is done:
    [run_once] raises the [ValueError].  The files are left as the
    check left them. *)
Theorem run_once_restarts_at_once_only_for_a_count_of_zero :
  forall (cfg : Main.MonitorConfig) (s : monitor) (result : UpdateResult) (w' : world)
         (response : string),
    let rcon := Rcon.mkRconClient (rcon_host cfg) (rcon_port cfg) (rcon_password cfg) in
    let answered :=
      snd (Rcon.send_command decode_replace rcon (players_command cfg)
                             (server (game s))) in
    check_updates (steamapps_dir cfg) (steamcmd_path cfg) (steam_branch cfg)
                  (steamcmd_dump_path cfg) (disk s) = (Return result, w') ->
    any_outdated result = true -> rcon_password cfg <> EmptyString ->
    fst (Rcon.send_command decode_replace rcon (players_command cfg)
                           (server (game s))) = Return response ->
    exists lines : list string,
      (forall msg,
          parse_player_count response = Raise (ValueError msg) ->
          run_once cfg s
          = (Raise (ValueError msg),
             mkMonitor w'
               (mkState answered
                  (trace (game s)
                     ++ map Log ("Starting update check."%string :: lines)
                     ++ [Command (players_command cfg)]))))
      /\ forall player_count,
          parse_player_count response = Return player_count ->
          let plan := restart_plan str_format (sequence cfg) player_count in
          let start :=
            mkState answered
              (trace (game s)
                 ++ map Log ("Starting update check."%string :: lines)
                 ++ [Command (players_command cfg); Log (count_line player_count)]) in
          (accepts Rcon.network (Rcon.send_command decode_replace rcon) plan answered
           = true ->
           run_once cfg s
           = (Return tt,
              mkMonitor w'
                (mkState
                   (server_after Rcon.network (Rcon.send_command decode_replace rcon)
                                 plan answered)
                   (trace start ++ plan))))
          /\ (forall e st',
                 run_plan Rcon.network (Rcon.send_command decode_replace rcon) plan start
                 = (Raise e, st') ->
                 (exists done command rest,
                     plan = done ++ Command command :: rest
                     /\ trace st' = trace start ++ done ++ [Command command])
                 /\ run_once cfg s
                    = if is_OSError e || is_RconError e
                      then (Return tt,
                            mkMonitor w'
                              (mkState (server st')
                                 (trace st'
                                    ++ [Log ("RCON error during restart sequence: "
                                               ++ str_of_exn e)])))
                      else (Raise e, mkMonitor w' st')).
Proof.
  intros cfg s result w' response rcon answered H Hout Hpw Hq.
  destruct (run_once_counted cfg s result w' response H Hout Hpw Hq) as (lines & Hrun).
  fold rcon in Hrun. fold answered in Hrun.
  exists lines. split.
  - intros msg Hp. rewrite Hrun, Hp. reflexivity.
  - intros player_count Hp plan start. rewrite Hp in Hrun. fold start in Hrun.
    assert (Hseq : forall st,
               run_restart_sequence Rcon.network (Rcon.send_command decode_replace rcon)
                                    str_format (sequence cfg)
                                    (match player_count with
                                     | Some n => n =? 0
                                     | None => false
                                     end) st
               = run_plan Rcon.network (Rcon.send_command decode_replace rcon) plan st).
    { intros st. rewrite sequence_is_its_plan. reflexivity. }
    rewrite Hrun. unfold try_except, on_game. cbn [game disk]. rewrite Hseq. split.
    + intros Hacc. rewrite run_plan_accepted by exact Hacc. reflexivity.
    + intros e st' Hraise. rewrite Hraise. split.
      * destruct (run_plan_raised _ _ _ _ _ _ Hraise)
          as (done & command & rest & Hplan & _ & _ & Ht).
        exists done, command, rest. split; [exact Hplan | exact Ht].
      * destruct (is_OSError e || is_RconError e); [| reflexivity].
        rewrite logger_log_run. destruct st' as [net' tr']. reflexivity.
Qed.

End Cycle.

Lemma run_once_survives_a_failed_check_witness :
  run_once RconSpec.ascii_decode default_format no_clock exn_name (example_cfg "secret")
           (fresh UpdatesSpec.offline_world (Rcon.mkNetwork [] []))
  = (Return tt,
     logged (fresh UpdatesSpec.offline_world (Rcon.mkNetwork [] []))
            ["Starting update check."; "Update check failed: unreachable"]%string).
Proof.
  exact (run_once_survives_a_failed_check
           RconSpec.ascii_decode default_format no_clock exn_name (example_cfg "secret")
           (fresh UpdatesSpec.offline_world (Rcon.mkNetwork [] []))
           (URLError "unreachable") UpdatesSpec.offline_world eq_refl).
Defined.

Lemma run_once_opens_no_connection_without_cause_witness :
  (exists lines,
      run_once RconSpec.ascii_decode default_format no_clock exn_name
               (example_cfg "secret")
               (fresh UpdatesSpec.toolless_world (Rcon.mkNetwork [] []))
      = (Return tt,
         logged (fresh UpdatesSpec.toolless_world (Rcon.mkNetwork [] []))
                ("Starting update check."%string :: lines
                   ++ ["No updates detected."%string])))
  /\ exists lines w',
      run_once RconSpec.ascii_decode default_format no_clock exn_name (example_cfg "")
               (fresh UpdatesSpec.stale_world (Rcon.mkNetwork [] []))
      = (Return tt,
         logged (fresh w' (Rcon.mkNetwork [] []))
                ("Starting update check."%string :: lines
                   ++ ["RCON password missing. Set RCONPassword in config/rcon.conf or monitor.conf."%string])).
Proof.
  split.
  - exact (run_once_opens_no_connection_without_cause
             RconSpec.ascii_decode default_format no_clock exn_name
             (example_cfg "secret")
             (fresh UpdatesSpec.toolless_world (Rcon.mkNetwork [] []))
             (example_check UpdatesSpec.toolless_world)
             UpdatesSpec.toolless_world eq_refl (or_introl eq_refl)).
  - destruct (run_once_opens_no_connection_without_cause
                RconSpec.ascii_decode default_format no_clock exn_name (example_cfg "")
                (fresh UpdatesSpec.stale_world (Rcon.mkNetwork [] []))
                (example_check UpdatesSpec.stale_world)
                UpdatesSpec.stale_world eq_refl (or_intror eq_refl))
      as (lines & Hrun).
    exists lines, UpdatesSpec.stale_world. exact Hrun.
Defined.

Lemma run_once_gives_up_when_the_players_query_fails_witness :
  exists lines,
    run_once RconSpec.ascii_decode default_format no_clock exn_name
             (example_cfg "secret")
             (fresh UpdatesSpec.stale_world (Rcon.mkNetwork [] []))
    = (Return tt,
       mkMonitor UpdatesSpec.stale_world
         (mkState (Rcon.mkNetwork [] [])
            (map Log ("Starting update check."%string :: lines)
               ++ [Command "players";
                   Log "RCON error while checking players: connection failed"]))).
Proof.
  eapply (run_once_gives_up_when_the_players_query_fails
            RconSpec.ascii_decode default_format no_clock exn_name
            (example_cfg "secret")
            (fresh UpdatesSpec.stale_world (Rcon.mkNetwork [] []))
            (example_check UpdatesSpec.stale_world)
            UpdatesSpec.stale_world (OSError "connection failed")).
  - reflexivity.
  - reflexivity.
  - discriminate.
  - reflexivity.
  - reflexivity.
Defined.

Lemma run_once_lets_other_exceptions_through_witness :
  fst (run_once RconSpec.ascii_decode default_format no_clock exn_name
                (example_cfg "secret")
                (fresh UpdatesSpec.stale_world
                       (Rcon.mkNetwork
                          [Some [Rcon.Chunk (le_split 4 3
                                               ++ [Byte.x01; Byte.x02; Byte.x03])]] [])))
  = Raise StructError.
Proof.
  eapply (run_once_lets_other_exceptions_through
            RconSpec.ascii_decode default_format no_clock exn_name
            (example_cfg "secret")
            (fresh UpdatesSpec.stale_world
                   (Rcon.mkNetwork
                      [Some [Rcon.Chunk (le_split 4 3
                                           ++ [Byte.x01; Byte.x02; Byte.x03])]] []))
            (example_check UpdatesSpec.stale_world)
            UpdatesSpec.stale_world StructError).
  - reflexivity.
  - reflexivity.
  - discriminate.
  - reflexivity.
  - reflexivity.
Defined.

Lemma run_once_restarts_at_once_only_for_a_count_of_zero_witness :
  let accepting := [Rcon.Chunk (RconSpec.frame (1, 2, [])); Rcon.TimedOut] in
  let net :=
    Rcon.mkNetwork
      [Some [Rcon.Chunk (RconSpec.frame (1, 2, []));
             Rcon.Chunk (RconSpec.frame
                           (2, 0, Rcon.utf8_encode "Players connected (0)"))];
       Some accepting; Some accepting] [] in
  exists (lines : list string) (net' : Rcon.network),
    run_once RconSpec.ascii_decode default_format no_clock exn_name
             (example_cfg "secret") (fresh UpdatesSpec.stale_world net)
    = (Return tt,
       mkMonitor UpdatesSpec.stale_world
         (mkState net'
            (map Log ("Starting update check."%string :: lines)
               ++ [Command "players"; Log "Players connected: 0";
                   Log "No players online. Restarting immediately.";
                   Command "save"; Command "quit"]))).
Proof.
  intros accepting net.
  destruct (run_once_restarts_at_once_only_for_a_count_of_zero
              RconSpec.ascii_decode default_format no_clock exn_name
              (example_cfg "secret") (fresh UpdatesSpec.stale_world net)
              (example_check UpdatesSpec.stale_world)
              UpdatesSpec.stale_world "Players connected (0)" eq_refl eq_refl)
    as (lines & _ & Hcount).
  - discriminate.
  - reflexivity.
  - destruct (Hcount (Some 0) eq_refl) as [Hdone _].
    exists lines. eexists. rewrite (Hdone eq_refl). cbn [trace].
    rewrite <- !app_assoc. reflexivity.
Defined.

End CycleFacts.

(** ** steam_app.py: reading a field of the manifest *)

Module ManifestFacts.

Import Text Re ReSpec TextFacts ReFacts SteamApp SteamAppSpec SteamAppFacts ManifestSpec.

Lemma matches_literal (icase : bool) (word : string) :
  forall (s : string) (before : option ascii) (i : nat) (g : option string),
    matches icase (Str word) (mkCursor before (word ++ s) i) g
            (mkCursor (last_of word before) s (i + String.length word)) g.
Proof.
  induction word as [| c word IH]; intros s before i g;
    cbn [Str String.append last_of String.length].
  - rewrite Nat.add_0_r. constructor.
  - replace (i + S (String.length word))%nat with (S i + String.length word)%nat by lia.
    eapply m_cat; [| exact (IH s (Some c) (S i) g)].
    apply (m_chr icase (Lit c) (mkCursor before (String c (word ++ s)) i) g c (word ++ s)
                 eq_refl).
    cbn [in_cls]. destruct icase; apply Ascii.eqb_refl.
Qed.

Lemma matches_str_exact (word : string) :
  forall (p : cursor) (g : option string) (p' : cursor) (g' : option string),
    matches false (Str word) p g p' g' -> rest p = (word ++ rest p')%string.
Proof.
  induction word as [| c word IH]; intros p g p' g' H; cbn [Str] in H.
  - inversion H; subst. reflexivity.
  - destruct (matches_cat_inv _ _ _ _ _ _ _ H) as (p1 & g1 & Hc & Hw).
    destruct (matches_chr_inv _ _ _ _ _ _ Hc) as (a & s' & Ha & Hin & -> & _).
    cbn [in_cls] in Hin. apply Ascii.eqb_eq in Hin. subst a.
    rewrite Ha. cbn [String.append]. f_equal. exact (IH _ _ _ _ Hw).
Qed.

Lemma dq_is_no_space : is_space dq = false.
Proof. reflexivity. Qed.

Lemma dq_is_no_digit : is_digit dq = false.
Proof. reflexivity. Qed.

Lemma matches_still (icase : bool) (r : regex) (p : cursor) (g : option string)
      (p' : cursor) (g' : option string) :
  matches icase r p g p' g' -> r = Bol \/ r = Eol \/ r = Eps -> p' = p /\ g' = g.
Proof.
  intros H Hr. inversion H; subst; auto; destruct Hr as [Hr | [Hr | Hr]]; discriminate.
Qed.

(** The text a match of a field pattern runs over. *)
Lemma field_re_text (key : string) (p p' : cursor) (g : option string) :
  matches false (field_re key) p None p' g ->
  exists ws1 ws2 ds ws3,
    rest p = (ws1 ++ quoted key ++ ws2
                ++ String dq (ds ++ String dq (ws3 ++ rest p')))%string
    /\ forall_chars is_space ws1 = true
    /\ forall_chars is_space ws2 = true
    /\ forall_chars is_space ws3 = true
    /\ forall_chars is_digit ds = true
    /\ g = Some ds.
Proof.
  unfold field_re, seq. cbn [fold_right]. intros H.
  destruct (matches_cat_inv _ _ _ _ _ _ _ H) as (p1 & g1 & Hb & H1).
  destruct (matches_cat_inv _ _ _ _ _ _ _ H1) as (p2 & g2 & Hs1 & H2).
  destruct (matches_cat_inv _ _ _ _ _ _ _ H2) as (p3 & g3 & Hk & H3).
  destruct (matches_cat_inv _ _ _ _ _ _ _ H3) as (p4 & g4 & Hs2 & H4).
  destruct (matches_cat_inv _ _ _ _ _ _ _ H4) as (p5 & g5 & Ho & H5).
  destruct (matches_cat_inv _ _ _ _ _ _ _ H5) as (p6 & g6 & Hg & H6).
  destruct (matches_cat_inv _ _ _ _ _ _ _ H6) as (p7 & g7 & Hc & H7).
  destruct (matches_cat_inv _ _ _ _ _ _ _ H7) as (p8 & g8 & Hs3 & H8).
  destruct (matches_cat_inv _ _ _ _ _ _ _ H8) as (p9 & g9 & He & H9).
  destruct (matches_still _ _ _ _ _ _ Hb) as [-> ->]; [auto |].
  destruct (matches_still _ _ _ _ _ _ He) as [-> ->]; [auto |].
  destruct (matches_still _ _ _ _ _ _ H9) as [-> ->]; [auto |].
  destruct (matches_star_chars _ _ _ _ _ _ Hs1) as (ws1 & Hr1 & _ & Hw1).
  pose proof (matches_str_exact _ _ _ _ _ Hk) as Hrk.
  destruct (matches_star_chars _ _ _ _ _ _ Hs2) as (ws2 & Hr2 & _ & Hw2).
  destruct (matches_chr_inv _ _ _ _ _ _ Ho) as (a & s5 & Ha & Hina & -> & _).
  destruct (matches_digits_group _ _ _ _ _ Hg) as (d & ds & -> & Hd & Hds & Hr6).
  destruct (matches_chr_inv _ _ _ _ _ _ Hc) as (b & s7 & Hb7 & Hinb & -> & Hg7).
  destruct (matches_star_chars _ _ _ _ _ _ Hs3) as (ws3 & Hr3 & _ & Hw3).
  cbn [in_cls] in Hina, Hinb. apply Ascii.eqb_eq in Hina, Hinb. subst a b.
  cbn [rest] in *.
  exists ws1, ws2, (String d ds), ws3.
  rewrite Hr1, Hrk, Hr2, Ha, Hr6, Hb7, Hr3.
  repeat split; try assumption.
  - cbn [forall_chars]. rewrite Hd, Hds. reflexivity.
  - rewrite (matches_no_group _ _ _ _ _ _ Hs3 eq_refl). exact Hg7.
Qed.

Lemma cursor_from_drop (s : string) :
  forall (before : option ascii) (i n : nat) (p : cursor),
    cursor_from s before i n = Some p ->
    rest p = drop n s /\ (n <= String.length s)%nat.
Proof.
  induction s as [| a s IH]; intros before i [| n] p H; cbn [cursor_from] in H;
    try discriminate.
  - injection H as <-. split; [reflexivity | cbn; lia].
  - injection H as <-. split; [reflexivity | cbn; lia].
  - destruct (IH _ _ _ _ H) as [Hr Hl]. split; [exact Hr | cbn [String.length]; lia].
Qed.

Lemma first_split_le (f : ascii -> bool) (c : ascii) (xs : string) :
  forall (ys r r' : string),
    forall_chars f xs = true -> f c = false ->
    (xs ++ String c r = ys ++ String c r')%string ->
    (String.length xs <= String.length ys)%nat.
Proof.
  induction xs as [| x xs IH]; intros ys r r' Hxs Hc H; [cbn; lia |].
  cbn [forall_chars] in Hxs. apply andb_true_iff in Hxs. destruct Hxs as [Hx Hxs].
  destruct ys as [| y ys]; cbn [String.append] in H.
  - injection H as -> _. congruence.
  - injection H as _ H. cbn [String.length]. apply le_n_S. exact (IH _ _ _ Hxs Hc H).
Qed.

Lemma last_of_newline (pre : string) :
  ends_a_line pre ->
  at_bol (mkCursor (last_of pre None) EmptyString 0) = true.
Proof.
  intros [-> | (pre0 & ->)]; [reflexivity |]. unfold at_bol. cbn [prev].
  generalize (@None ascii). induction pre0 as [| a pre0 IH]; intros b.
  - reflexivity.
  - cbn [String.append last_of]. apply IH.
Qed.

(** The field pattern matches at the beginning of the line. *)
Lemma field_line_matches (key pre indent gap ds trail post : string) (a : ascii) :
  ends_a_line pre ->
  forall_chars is_space indent = true -> forall_chars is_space gap = true ->
  forall_chars is_digit (String a ds) = true ->
  forall_chars is_space trail = true -> begins_a_line post ->
  matches_at false (field_re key)
             (with_field pre indent key gap (String a ds) trail post)
             (String.length pre) (Some (String a ds)).
Proof.
  intros Hpre Hindent Hgap Hd Htrail Hpost.
  cbn [forall_chars] in Hd. apply andb_true_iff in Hd. destruct Hd as [Ha Hds].
  unfold matches_at, cursor_at, with_field. rewrite cursor_from_append.
  eexists. eexists. split; [reflexivity |].
  unfold field_re, seq. cbn [fold_right].
  eapply m_cat.
  { apply m_bol. pose proof (last_of_newline pre Hpre) as Hb.
    unfold at_bol in *. cbn [prev] in *. exact Hb. }
  eapply m_cat; [exact (matches_run false Space _ _ _ _ _ Hindent) |].
  eapply m_cat; [apply matches_literal |].
  eapply m_cat; [exact (matches_run false Space _ _ _ _ _ Hgap) |].
  eapply m_cat; [eapply m_chr; reflexivity |]. cbn [idx].
  eapply m_cat; [exact (matches_digits false a ds _ _ _ _ Ha Hds) |].
  eapply m_cat; [eapply m_chr; reflexivity |]. cbn [idx].
  eapply m_cat; [exact (matches_run false Space _ _ _ _ _ Htrail) |].
  eapply m_cat; [| constructor].
  apply m_eol. unfold at_eol. cbn [rest].
  destruct Hpost as [-> | (post0 & ->)]; [reflexivity | apply Ascii.eqb_refl].
Qed.

(** The first line with the key is the one that is read. *)
Lemma search_field_line (key pre indent gap ds trail post : string) (a : ascii) :
  ends_a_line pre ->
  forall_chars is_space indent = true -> forall_chars is_space gap = true ->
  forall_chars is_digit (String a ds) = true ->
  forall_chars is_space trail = true -> begins_a_line post ->
  find (with_field pre indent key gap (String a ds) trail post) (quoted key) 0
  = Z.of_nat (String.length pre + String.length indent) ->
  exists m,
    search false (field_re key) (with_field pre indent key gap (String a ds) trail post)
    = Some m
    /\ group1 m = String a ds.
Proof.
  intros Hpre Hindent Hgap Hd Htrail Hpost Hfind.
  pose proof (field_line_matches key pre indent gap ds trail post a
                                 Hpre Hindent Hgap Hd Htrail Hpost) as Hm.
  set (text := with_field pre indent key gap (String a ds) trail post) in *.
  destruct (search_finds false _ _ _ _ Hm) as (m & Hs & Hle).
  exists m. split; [exact Hs |].
  destruct (search_found false _ _ _ Hs) as [(p & p' & Hc & Hp) _].
  destruct (cursor_from_drop _ _ _ _ _ Hc) as [Hrest _].
  destruct (field_re_text _ _ _ _ Hp) as (ws1 & ws2 & ds' & ws3 & Hr & Hw1 & Hw2 & Hw3 & Hd' & Hg).
  set (j := m_start m) in *.
  set (tail' := (ws2 ++ String dq (ds' ++ String dq (ws3 ++ rest p')))%string) in *.
  set (tail := (gap ++ String dq (String a ds ++ String dq (trail ++ post)))%string).
  assert (Hdrop : drop j text = ((drop j pre ++ indent) ++ quoted key ++ tail)%string).
  { subst text. unfold with_field. rewrite drop_append by exact Hle.
    rewrite append_assoc. reflexivity. }
  rewrite Hrest, Hdrop in Hr.
  (* the key of the match is not before the first key of the text *)
  assert (Habs : absent_before (quoted key) text
                               (String.length pre + String.length indent)).
  { apply (absent_before_of_find _ _ 0). unfold find in Hfind.
    cbn [Z.to_nat drop] in Hfind.
    destruct (Z.ltb_spec (Z.of_nat (String.length text)) 0) as [| _]; [lia |].
    exact Hfind. }
  assert (Hge : (String.length (drop j pre ++ indent) <= String.length ws1)%nat).
  { rewrite length_append, length_drop.
    destruct (Nat.le_gt_cases (String.length pre - j + String.length indent)
                              (String.length ws1)) as [| Hlt]; [assumption |].
    exfalso. specialize (Habs (j + String.length ws1)%nat). rewrite <- drop_drop in Habs.
    rewrite Hdrop, Hr, <- (Nat.add_0_r (String.length ws1)), drop_add_append in Habs.
    cbn [drop] in Habs. rewrite starts_with_refl in Habs.
    assert (false = true -> False) by discriminate. apply H. symmetry. apply Habs. lia. }
  assert (Hle' : (String.length ws1 <= String.length (drop j pre ++ indent))%nat).
  { unfold quoted in Hr. cbn [String.append] in Hr.
    exact (first_split_le is_space dq ws1 _ _ _ Hw1 dq_is_no_space (eq_sym Hr)). }
  destruct (append_length_inj _ _ _ _ (Nat.le_antisymm _ _ Hge Hle') Hr) as [_ Hk].
  destruct (append_length_inj _ _ _ _ eq_refl Hk) as [_ Ht].
  subst tail tail'.
  destruct (run_split_unique is_space gap ws2 dq dq _ _ Hgap Hw2
                             dq_is_no_space dq_is_no_space Ht) as (_ & _ & Hv).
  destruct (run_split_unique is_digit (String a ds) ds' dq dq _ _ Hd Hd'
                             dq_is_no_digit dq_is_no_digit Hv) as (Hds & _ & _).
  unfold group1. rewrite Hg, <- Hds. reflexivity.
Qed.

Lemma find_at_none (sub : string) :
  forall (s : string) (i j : nat),
    find_at sub s i = -1 -> starts_with sub (drop j s) = false.
Proof.
  induction s as [| c s IH]; intros i j H; cbn [find_at] in H.
  - destruct (starts_with sub EmptyString) eqn:E; [lia |].
    destruct j; exact E.
  - destruct (starts_with sub (String c s)) eqn:E; [lia |].
    destruct j as [| j]; [exact E |]. cbn [drop]. exact (IH (S i) j H).
Qed.

(** A text without the quoted key has no line of the field. *)
Lemma search_none_without_key (key text : string) :
  find text (quoted key) 0 = -1 -> search false (field_re key) text = None.
Proof.
  intros Hfind.
  destruct (search false (field_re key) text) as [m |] eqn:Hs; [exfalso | reflexivity].
  destruct (search_found false _ _ _ Hs) as [(p & p' & Hc & Hp) _].
  destruct (cursor_from_drop _ _ _ _ _ Hc) as [Hrest _].
  destruct (field_re_text _ _ _ _ Hp) as (ws1 & ws2 & ds' & ws3 & Hr & _).
  unfold find in Hfind. cbn [Z.to_nat drop] in Hfind.
  destruct (Z.ltb_spec (Z.of_nat (String.length text)) 0) as [| _]; [lia |].
  pose proof (find_at_none _ _ _ (m_start m + String.length ws1) Hfind) as Hno.
  rewrite <- drop_drop, <- Hrest, Hr in Hno.
  rewrite <- (Nat.add_0_r (String.length ws1)), drop_add_append in Hno.
  cbn [drop] in Hno. rewrite starts_with_refl in Hno. discriminate.
Qed.

(** X27.  When the first occurrence of the quoted key ["buildid"] in
    the manifest stands on a line of the form white space, key, white
    space, a quoted run of decimal digits, white space, then
    [parse_appmanifest_build_info] either returns that run of digits,
    as a string, for local build id, or raises the [ValueError] of
    [int]; it returns it, with no last update, when the quoted key
    ["LastUpdated"] occurs nowhere.  In the same way, when the first
    occurrence of ["LastUpdated"] stands on such a line, the last
    update returned is the number on it; but when that number has more
    than 4300 digits [int] refuses it and the function raises
    [ValueError], returning no build id either.  Lines before the first
    occurrence play no part, whatever they hold. *)
Theorem manifest_fields_are_read_from_their_first_line :
  forall (pre indent gap ds trail post : string) (a : ascii),
    ends_a_line pre ->
    forall_chars is_space indent = true -> forall_chars is_space gap = true ->
    forall_chars is_digit (String a ds) = true ->
    forall_chars is_space trail = true -> begins_a_line post ->
    (find (with_field pre indent "buildid" gap (String a ds) trail post)
          (quoted "buildid") 0
     = Z.of_nat (String.length pre + String.length indent) ->
     ((exists lastupdated,
          parse_appmanifest_build_info
            (Holds (with_field pre indent "buildid" gap (String a ds) trail post))
          = Return (Some (String a ds), lastupdated))
      \/ (exists msg,
             parse_appmanifest_build_info
               (Holds (with_field pre indent "buildid" gap (String a ds) trail post))
             = Raise (ValueError msg)))
     /\ (find (with_field pre indent "buildid" gap (String a ds) trail post)
              (quoted "LastUpdated") 0 = -1 ->
         parse_appmanifest_build_info
           (Holds (with_field pre indent "buildid" gap (String a ds) trail post))
         = Return (Some (String a ds), None)))
    /\ (find (with_field pre indent "LastUpdated" gap (String a ds) trail post)
             (quoted "LastUpdated") 0
        = Z.of_nat (String.length pre + String.length indent) ->
        (Z.of_nat (String.length (String a ds)) <= 4300 ->
         exists buildid,
           parse_appmanifest_build_info
             (Holds (with_field pre indent "LastUpdated" gap (String a ds) trail post))
           = Return (buildid, Some (int_of_digits (String a ds))))
        /\ (4300 < Z.of_nat (String.length (String a ds)) ->
            exists msg,
              parse_appmanifest_build_info
                (Holds (with_field pre indent "LastUpdated" gap (String a ds) trail post))
              = Raise (ValueError msg))).
Proof.
  intros pre indent gap ds trail post a Hpre Hindent Hgap Hd Htrail Hpost.
  split; intros Hfind;
    destruct (search_field_line _ pre indent gap ds trail post a
                                Hpre Hindent Hgap Hd Htrail Hpost Hfind)
      as (m & Hs & Hg); unfold parse_appmanifest_build_info.
  - rewrite Hs, Hg. split.
    + destruct (search false (field_re "LastUpdated") _) as [m' |];
        [| left; eexists; reflexivity].
      unfold int_of_str.
      destruct (int_max_str_digits <? Z.of_nat (String.length (group1 m')));
        [right | left]; eexists; reflexivity.
    + intros Hnone. rewrite (search_none_without_key _ _ Hnone). reflexivity.
  - rewrite Hs, Hg. unfold int_of_str. change int_max_str_digits with 4300. split.
    + intros Hlen.
      destruct (Z.ltb_spec 4300 (Z.of_nat (String.length (String a ds)))) as [| _];
        [lia |].
      eexists. reflexivity.
    + intros Hlen.
      destruct (Z.ltb_spec 4300 (Z.of_nat (String.length (String a ds)))) as [_ |];
        [| lia].
      eexists. reflexivity.
Qed.

Lemma manifest_fields_are_read_from_their_first_line_witness :
  let nl1 := String nl EmptyString in
  let head :=
    (quoted "AppState" ++ nl1 ++ "{" ++ nl1
       ++ String "009" (quoted "appid" ++ String "009" (quoted "380870")))%string in
  let build_line :=
    String "009" (quoted "buildid" ++ String "009" (String "009" (quoted "12345"))) in
  let updated_line :=
    String "009" (quoted "LastUpdated" ++ String "009" (quoted "1700000000")) in
  parse_appmanifest_build_info
    (Holds (head ++ nl1 ++ build_line ++ nl1 ++ updated_line ++ nl1 ++ "}" ++ nl1)%string)
  = Return (Some "12345"%string, Some 1700000000)
  /\ parse_appmanifest_build_info
       (Holds (head ++ nl1 ++ build_line ++ nl1 ++ "}" ++ nl1)%string)
     = Return (Some "12345"%string, None).
Proof.
  intros nl1 head build_line updated_line. split.
  - destruct (proj1 (proj2 (manifest_fields_are_read_from_their_first_line
                ((head ++ nl1 ++ build_line) ++ nl1)%string
                (String "009" EmptyString) (String "009" EmptyString)
                "700000000" EmptyString
                (nl1 ++ "}" ++ nl1)%string
                "1"%char
                (or_intror (ex_intro _ (head ++ nl1 ++ build_line)%string eq_refl))
                eq_refl eq_refl eq_refl eq_refl
                (or_intror (ex_intro _ ("}" ++ nl1)%string eq_refl)))
                    eq_refl)
             ltac:(vm_compute; discriminate)) as (buildid & Hl).
    destruct (proj1 (proj1 (manifest_fields_are_read_from_their_first_line
                (head ++ nl1)%string
                (String "009" EmptyString) (String "009" (String "009" EmptyString))
                "2345" EmptyString
                (nl1 ++ updated_line ++ nl1 ++ "}" ++ nl1)%string
                "1"%char
                (or_intror (ex_intro _ head eq_refl)) eq_refl eq_refl eq_refl eq_refl
                (or_intror (ex_intro _ (updated_line ++ nl1 ++ "}" ++ nl1)%string eq_refl)))
                    eq_refl)) as [(lastupdated & Hb) | (msg & Hb)].
    + assert (E : Return (Some "12345"%string, lastupdated)
                  = Return (buildid, Some 1700000000))
        by exact (eq_trans (eq_sym Hb) Hl).
      injection E as <- ->. exact Hb.
    + assert (E : @Raise (option string * option Z) (ValueError msg)
                  = Return (buildid, Some 1700000000))
        by exact (eq_trans (eq_sym Hb) Hl).
      discriminate E.
  - exact (proj2 (proj1 (manifest_fields_are_read_from_their_first_line
                (head ++ nl1)%string
                (String "009" EmptyString) (String "009" (String "009" EmptyString))
                "2345" EmptyString
                (nl1 ++ "}" ++ nl1)%string
                "1"%char
                (or_intror (ex_intro _ head eq_refl)) eq_refl eq_refl eq_refl eq_refl
                (or_intror (ex_intro _ ("}" ++ nl1)%string eq_refl)))
                    eq_refl) eq_refl).
Defined.

End ManifestFacts.

(** ** workshop.py: reading the line of the workshop items *)

Module IniFacts.

Import Text Re ReSpec TextFacts ReFacts SteamAppSpec SteamAppFacts.
Import Workshop CatalogSpec CatalogFacts ManifestSpec ManifestFacts IniSpec.

Lemma prefix_run_le (f : ascii -> bool) (c : ascii) (xs : string) :
  forall (ys r r' : string),
    forall_chars f xs = true -> f c = false ->
    (xs ++ r = ys ++ String c r')%string ->
    (String.length xs <= String.length ys)%nat.
Proof.
  induction xs as [| x xs IH]; intros ys r r' Hxs Hc H; [cbn; lia |].
  cbn [forall_chars] in Hxs. apply andb_true_iff in Hxs. destruct Hxs as [Hx Hxs].
  destruct ys as [| y ys]; cbn [String.append] in H.
  - injection H as -> _. congruence.
  - injection H as _ H. cbn [String.length]. apply le_n_S. exact (IH _ _ _ Hxs Hc H).
Qed.

(** *** Letters in any case *)

Lemma lower_str_append (a b : string) :
  lower_str (a ++ b) = (lower_str a ++ lower_str b)%string.
Proof. induction a as [| x a IH]; cbn; [| rewrite IH]; reflexivity. Qed.

Lemma lower_str_drop (n : nat) :
  forall s : string, lower_str (drop n s) = drop n (lower_str s).
Proof. induction n as [| n IH]; intros [| c s]; cbn; auto. Qed.

Lemma lower_str_length (s : string) : String.length (lower_str s) = String.length s.
Proof. induction s as [| c s IH]; cbn; [| rewrite IH]; reflexivity. Qed.

Lemma same_letters_lower (word : string) :
  forall w : string, same_letters word w = true -> lower_str w = lower_str word.
Proof.
  induction word as [| c word IH]; intros [| a w] H; cbn [same_letters] in H;
    try discriminate; [reflexivity |].
  apply andb_true_iff in H. destruct H as [Hc Hw]. apply Ascii.eqb_eq in Hc.
  cbn [lower_str]. rewrite (IH _ Hw), Hc. reflexivity.
Qed.

Lemma same_letters_length (word : string) :
  forall w : string, same_letters word w = true -> String.length w = String.length word.
Proof.
  induction word as [| c word IH]; intros [| a w] H; cbn [same_letters] in H;
    try discriminate; [reflexivity |].
  apply andb_true_iff in H. destruct H as [_ Hw]. cbn [String.length].
  rewrite (IH _ Hw). reflexivity.
Qed.

(** *** What a match of the pattern runs over *)

Lemma matches_word_inv (word : string) :
  forall (p : cursor) (g : option string) (p' : cursor) (g' : option string),
    matches true (Str word) p g p' g' ->
    exists w, rest p = (w ++ rest p')%string /\ same_letters word w = true.
Proof.
  induction word as [| c word IH]; intros p g p' g' H; cbn [Str] in H.
  - inversion H; subst. exists EmptyString. split; reflexivity.
  - destruct (matches_cat_inv _ _ _ _ _ _ _ H) as (p1 & g1 & Hc & Hw).
    destruct (matches_chr_inv _ _ _ _ _ _ Hc) as (a & s' & Ha & Hin & -> & _).
    destruct (IH _ _ _ _ Hw) as (w & Hr & Hs). cbn [rest] in Hr.
    exists (String a w). rewrite Ha, Hr. cbn [String.append same_letters in_cls] in *.
    rewrite Hin, Hs. split; reflexivity.
Qed.

Lemma matches_lazy_chars (icase : bool) (c : cls) (p : cursor) (g : option string)
      (p' : cursor) (g' : option string) :
  matches icase (LazyStar c) p g p' g' ->
  exists w, rest p = (w ++ rest p')%string
            /\ idx p' = (idx p + String.length w)%nat
            /\ forall_chars (in_cls icase c) w = true.
Proof.
  remember (LazyStar c) as r eqn:Er. intros H. revert Er.
  induction H as [| | | | | | | c0 p g | c0 p g p1 p2 Hc _ _ IH |];
    intros Er; try discriminate; injection Er as ->.
  - exists EmptyString. repeat split. simpl. lia.
  - destruct (IH eq_refl) as (w & Hr & Hi & Hw).
    destruct (matches_chr_inv _ _ _ _ _ _ Hc) as (a & s' & Ha & Hin & -> & _).
    cbn [rest idx] in *. exists (String a w). rewrite Ha, Hr, Hi.
    repeat split; simpl; [lia | rewrite Hin, Hw; reflexivity].
Qed.

Lemma lower_equals_sign (b : ascii) : lower b = "="%char -> b = "="%char.
Proof.
  destruct b as [b0 b1 b2 b3 b4 b5 b6 b7].
  destruct b0, b1, b2, b3, b4, b5, b6, b7; vm_compute; intros H;
    try discriminate; reflexivity.
Qed.

Lemma items_re_text (p p' : cursor) (g : option string) :
  matches true workshop_items_re p None p' g ->
  exists ws1 w ws2 ws3 grp ws4,
    rest p = (ws1 ++ w ++ ws2 ++ String "=" (ws3 ++ grp ++ ws4 ++ rest p'))%string
    /\ forall_chars is_space ws1 = true
    /\ same_letters "WorkshopItems" w = true
    /\ forall_chars is_space ws2 = true
    /\ forall_chars is_space ws3 = true
    /\ grp <> EmptyString /\ forall_chars not_nl grp = true
    /\ forall_chars is_space ws4 = true
    /\ at_eol p' = true
    /\ g = Some grp.
Proof.
  unfold workshop_items_re, seq. cbn [fold_right]. intros H.
  destruct (matches_cat_inv _ _ _ _ _ _ _ H) as (p1 & g1 & Hb & H1).
  destruct (matches_cat_inv _ _ _ _ _ _ _ H1) as (p2 & g2 & Hs1 & H2).
  destruct (matches_cat_inv _ _ _ _ _ _ _ H2) as (p3 & g3 & Hk & H3).
  destruct (matches_cat_inv _ _ _ _ _ _ _ H3) as (p4 & g4 & Hs2 & H4).
  destruct (matches_cat_inv _ _ _ _ _ _ _ H4) as (p5 & g5 & Ho & H5).
  destruct (matches_cat_inv _ _ _ _ _ _ _ H5) as (p6 & g6 & Hs3 & H6).
  destruct (matches_cat_inv _ _ _ _ _ _ _ H6) as (p7 & g7 & Hg & H7).
  destruct (matches_cat_inv _ _ _ _ _ _ _ H7) as (p8 & g8 & Hs4 & H8).
  destruct (matches_cat_inv _ _ _ _ _ _ _ H8) as (p9 & g9 & He & H9).
  assert (Heol : at_eol p8 = true) by (inversion He; subst; assumption).
  destruct (matches_still _ _ _ _ _ _ Hb) as [-> ->]; [auto |].
  destruct (matches_still _ _ _ _ _ _ He) as [-> ->]; [auto |].
  destruct (matches_still _ _ _ _ _ _ H9) as [-> ->]; [auto |].
  destruct (matches_star_chars _ _ _ _ _ _ Hs1) as (ws1 & Hr1 & _ & Hw1).
  destruct (matches_word_inv _ _ _ _ _ Hk) as (w & Hrk & Hw).
  destruct (matches_star_chars _ _ _ _ _ _ Hs2) as (ws2 & Hr2 & _ & Hw2).
  destruct (matches_chr_inv _ _ _ _ _ _ Ho) as (a & s5 & Ha & Hina & -> & _).
  destruct (matches_star_chars _ _ _ _ _ _ Hs3) as (ws3 & Hr3 & _ & Hw3).
  destruct (matches_group_text _ _ _ _ _ _ Hg) as (grp & -> & Hr7 & (g0 & Hgm)).
  destruct (matches_cat_inv _ _ _ _ _ _ _ Hgm) as (q & gq & Hq1 & Hq2).
  destruct (matches_chr_inv _ _ _ _ _ _ Hq1) as (d & sd & Hd & Hind & -> & _).
  destruct (matches_lazy_chars _ _ _ _ _ _ Hq2) as (wd & Hrd & _ & Hwd).
  destruct (matches_star_chars _ _ _ _ _ _ Hs4) as (ws4 & Hr4 & _ & Hw4).
  cbn [in_cls] in Hina. apply Ascii.eqb_eq in Hina.
  change (lower "=") with "="%char in Hina. symmetry in Hina.
  apply lower_equals_sign in Hina. subst a. cbn [rest] in *.
  assert (Hgrp : grp = String d wd).
  { pose proof Hr7 as Hr7'. rewrite Hd, Hrd in Hr7'.
    apply (append_length_inj grp (String d wd) (rest p7) (rest p7));
      [| exact (eq_sym Hr7')].
    apply (f_equal String.length) in Hr7'. rewrite length_append in Hr7'.
    cbn [String.length] in *. rewrite length_append in Hr7'. lia. }
  exists ws1, w, ws2, ws3, grp, ws4.
  rewrite Hr1, Hrk, Hr2, Ha, Hr3, Hr7, Hr4.
  split; [reflexivity |]. split; [exact Hw1 |]. split; [exact Hw |].
  split; [exact Hw2 |]. split; [exact Hw3 |].
  split; [rewrite Hgrp; discriminate |]. split.
  { rewrite Hgrp. cbn [forall_chars]. cbn [in_cls] in Hind.
    unfold not_nl. rewrite Hind. exact Hwd. }
  split; [exact Hw4 |]. split; [exact Heol |].
  rewrite (matches_no_group _ _ _ _ _ _ Hs4 eq_refl). reflexivity.
Qed.

(** *** The pattern matches at the beginning of the line *)

Lemma matches_lazy_run (icase : bool) (c : cls) (s : string) (g : option string) :
  forall (ws : string) (before : option ascii) (i : nat),
    forall_chars (in_cls icase c) ws = true ->
    matches icase (LazyStar c) (mkCursor before (ws ++ s) i) g
            (mkCursor (last_of ws before) s (i + String.length ws)) g.
Proof.
  induction ws as [| a ws IH]; intros before i H; cbn [String.append last_of String.length].
  - rewrite Nat.add_0_r. constructor.
  - cbn [forall_chars] in H. apply andb_true_iff in H. destruct H as [Ha Hws].
    replace (i + S (String.length ws))%nat with (S i + String.length ws)%nat by lia.
    eapply m_lazy_more; [| exact (IH (Some a) (S i) Hws)].
    exact (m_chr icase c (mkCursor before (String a (ws ++ s)) i) g a (ws ++ s) eq_refl Ha).
Qed.

Lemma matches_value (icase : bool) (v : ascii) (vs s : string)
      (before : option ascii) (i : nat) (g : option string) :
  forall_chars not_nl (String v vs) = true ->
  matches icase (Group (LazyPlus Dot)) (mkCursor before (String v vs ++ s) i) g
          (mkCursor (last_of vs (Some v)) s (i + S (String.length vs)))
          (Some (String v vs)).
Proof.
  intros Hv. cbn [forall_chars] in Hv. apply andb_true_iff in Hv. destruct Hv as [Ha Hvs].
  assert (Hin : matches icase (LazyPlus Dot) (mkCursor before (String v vs ++ s) i) g
                        (mkCursor (last_of vs (Some v)) s (i + S (String.length vs))) g).
  { unfold LazyPlus.
    replace (i + S (String.length vs))%nat with (S i + String.length vs)%nat by lia.
    eapply m_cat; [| exact (matches_lazy_run icase Dot s g vs (Some v) (S i) Hvs)].
    exact (m_chr icase Dot (mkCursor before (String v (vs ++ s)) i) g v (vs ++ s)
                 eq_refl Ha). }
  pose proof (m_group _ _ _ _ _ _ Hin) as H. cbn [idx rest] in H.
  replace (i + S (String.length vs) - i)%nat with (S (String.length vs)) in H by lia.
  cbn [String.append take] in H. rewrite take_length_append in H. exact H.
Qed.

Lemma items_line_matches (pre indent word gap1 gap2 vs trail post : string) (v : ascii) :
  ends_a_line pre ->
  forall_chars is_space indent = true ->
  same_letters "WorkshopItems" word = true ->
  forall_chars is_space gap1 = true -> forall_chars is_space gap2 = true ->
  forall_chars not_nl (String v vs) = true ->
  forall_chars is_space trail = true -> begins_a_line post ->
  matches_at true workshop_items_re
             (with_items pre indent word gap1 gap2 (String v vs) trail post)
             (String.length pre) (Some (String v vs)).
Proof.
  intros Hpre Hindent Hword Hgap1 Hgap2 Hv Htrail Hpost.
  unfold matches_at, cursor_at, with_items. rewrite cursor_from_append.
  eexists. eexists. split; [reflexivity |].
  unfold workshop_items_re, seq. cbn [fold_right].
  eapply m_cat.
  { apply m_bol. pose proof (last_of_newline pre Hpre) as Hb.
    unfold at_bol in *. cbn [prev] in *. exact Hb. }
  eapply m_cat; [exact (matches_run true Space _ _ _ _ _ Hindent) |].
  eapply m_cat; [exact (matches_word _ _ _ _ _ _ Hword) |].
  eapply m_cat; [exact (matches_run true Space _ _ _ _ _ Hgap1) |].
  eapply m_cat; [eapply m_chr; reflexivity |]. cbn [idx].
  eapply m_cat; [exact (matches_run true Space _ _ _ _ _ Hgap2) |].
  eapply m_cat; [exact (matches_value true v vs _ _ _ _ Hv) |].
  eapply m_cat; [exact (matches_run true Space _ _ _ _ _ Htrail) |].
  eapply m_cat; [| constructor].
  apply m_eol. unfold at_eol. cbn [rest].
  destruct Hpost as [-> | (post0 & ->)]; [reflexivity | apply Ascii.eqb_refl].
Qed.

(** *** White space at the ends *)

Lemma lstrip_run (ws s : string) :
  forall_chars is_space ws = true -> lstrip (ws ++ s) = lstrip s.
Proof.
  induction ws as [| a ws IH]; intros H; [reflexivity |].
  cbn [forall_chars] in H. apply andb_true_iff in H. destruct H as [Ha Hws].
  cbn [String.append lstrip]. rewrite Ha. exact (IH Hws).
Qed.

Lemma rstrip_run (s ws : string) :
  forall_chars is_space ws = true -> rstrip (s ++ ws) = rstrip s.
Proof.
  intros H. induction s as [| c s IH]; cbn [String.append].
  - induction ws as [| a ws IHw]; [reflexivity |].
    cbn [forall_chars] in H. apply andb_true_iff in H. destruct H as [Ha Hws].
    cbn [rstrip]. rewrite (IHw Hws), Ha. reflexivity.
  - cbn [rstrip]. rewrite IH. reflexivity.
Qed.

Lemma rstrip_solid (s : string) :
  forall_chars (fun c => negb (is_space c)) s = true -> rstrip s = s.
Proof.
  induction s as [| c s IH]; intros H; [reflexivity |].
  cbn [forall_chars] in H. apply andb_true_iff in H. destruct H as [Hc Hs].
  cbn [rstrip]. rewrite (IH Hs). apply negb_true_iff in Hc. rewrite Hc.
  destruct s; reflexivity.
Qed.

Lemma strip_padded (before value after : string) :
  forall_chars is_space before = true -> forall_chars is_space after = true ->
  forall_chars (fun c => negb (is_space c)) value = true ->
  strip (before ++ value ++ after) = value.
Proof.
  intros Hb Ha Hv. unfold strip. rewrite (lstrip_run _ _ Hb).
  destruct value as [| v vs].
  - cbn [String.append]. clear Hv Hb.
    assert (Hl : forall_chars is_space (lstrip after) = true).
    { induction after as [| a after IH]; [reflexivity |].
      cbn [forall_chars] in Ha. apply andb_true_iff in Ha. destruct Ha as [Ha1 Ha2].
      cbn [lstrip]. rewrite Ha1. exact (IH Ha2). }
    exact (rstrip_run EmptyString _ Hl).
  - cbn [forall_chars] in Hv. apply andb_true_iff in Hv. destruct Hv as [Hv Hvs].
    cbn [String.append lstrip]. apply negb_true_iff in Hv. rewrite Hv.
    change (String v (vs ++ after)) with (String v vs ++ after)%string.
    rewrite (rstrip_run _ _ Ha). apply rstrip_solid.
    cbn [forall_chars]. rewrite Hv, Hvs. reflexivity.
Qed.

(** *** The value of the line *)

Lemma append_prefix_split (xs : string) :
  forall (ys r r' : string),
    (xs ++ r = ys ++ r')%string -> (String.length xs <= String.length ys)%nat ->
    exists m, ys = (xs ++ m)%string /\ r = (m ++ r')%string.
Proof.
  induction xs as [| x xs IH]; intros ys r r' H Hl.
  - exists ys. split; [reflexivity | exact H].
  - destruct ys as [| y ys]; [cbn in Hl; lia |].
    cbn [String.append] in H. injection H as -> H. cbn [String.length] in Hl.
    destruct (IH _ _ _ H) as (m & -> & ->); [lia |].
    exists m. split; reflexivity.
Qed.

Lemma last_of_append (a b : string) :
  forall before : option ascii, last_of (a ++ b) before = last_of b (last_of a before).
Proof. induction a as [| x a IH]; intros before; cbn; [| rewrite IH]; reflexivity. Qed.

Lemma last_of_run (f : ascii -> bool) (s : string) :
  forall before : option ascii,
    forall_chars f s = true -> s <> EmptyString ->
    exists c, last_of s before = Some c /\ f c = true.
Proof.
  induction s as [| x s IH]; intros before H Hne; [contradiction |].
  cbn [forall_chars] in H. apply andb_true_iff in H. destruct H as [Hx Hs].
  cbn [last_of]. destruct s as [| y s]; [exists x; auto |].
  apply (IH (Some x) Hs). discriminate.
Qed.

Lemma solid_is_no_newline (c : ascii) : negb (is_space c) = true -> not_nl c = true.
Proof.
  unfold not_nl. destruct (Ascii.eqb_spec c nl) as [-> | _]; [discriminate | reflexivity].
Qed.

Lemma blank_is_space (c : ascii) : blank c = true -> is_space c = true.
Proof. unfold blank. intros H. apply andb_true_iff in H. tauto. Qed.

Lemma blank_is_no_newline (c : ascii) : blank c = true -> not_nl c = true.
Proof. unfold blank. intros H. apply andb_true_iff in H. tauto. Qed.

Lemma newline_is_newline : not_nl nl = false.
Proof. reflexivity. Qed.

Lemma run_prefix (f : ascii -> bool) (xs ys r r' : string) :
  (xs ++ r = ys ++ r')%string -> (String.length xs <= String.length ys)%nat ->
  forall_chars f ys = true -> forall_chars f xs = true.
Proof.
  intros H Hl Hy. destruct (append_prefix_split _ _ _ _ H Hl) as (m & -> & _).
  rewrite forall_chars_append in Hy. apply andb_true_iff in Hy. tauto.
Qed.

(** White space that stops at the end of a line is white space all
    the way. *)
Lemma run_before_line_end (m ws r' tail : string) :
  forall_chars not_nl m = true -> forall_chars is_space ws = true ->
  r' = EmptyString \/ (exists r0, r' = String nl r0) ->
  (ws ++ r' = m ++ tail)%string ->
  forall_chars is_space m = true.
Proof.
  intros Hm Hws Hr H. apply (run_prefix is_space m ws tail r' (eq_sym H)); [| exact Hws].
  destruct Hr as [-> | (r0 & ->)].
  - apply (f_equal String.length) in H. rewrite !length_append in H.
    cbn [String.length] in H. lia.
  - exact (prefix_run_le not_nl nl m ws tail r0 Hm newline_is_newline (eq_sym H)).
Qed.

Lemma padded_value (ws3 grp ws4 r' gap2 value trail post : string) :
  (ws3 ++ grp ++ ws4 ++ r' = gap2 ++ value ++ trail ++ post)%string ->
  forall_chars is_space ws3 = true -> forall_chars not_nl grp = true ->
  forall_chars is_space ws4 = true ->
  r' = EmptyString \/ (exists r0, r' = String nl r0) ->
  forall_chars blank gap2 = true ->
  value <> EmptyString ->
  forall_chars (fun c => negb (is_space c)) value = true ->
  forall_chars is_space trail = true -> begins_a_line post ->
  exists b a,
    grp = (b ++ value ++ a)%string
    /\ forall_chars is_space b = true /\ forall_chars is_space a = true.
Proof.
  intros H Hw3 Hgnl Hw4 Hr Hgap Hne Hsolid Htrail Hpost.
  destruct value as [| v vs]; [contradiction |].
  assert (Hv : is_space v = false).
  { cbn [forall_chars] in Hsolid. apply andb_true_iff in Hsolid.
    destruct Hsolid as [Hv _]. apply negb_true_iff in Hv. exact Hv. }
  (* the white space before the group is the beginning of [gap2] *)
  destruct (append_prefix_split ws3 gap2 _ _ H) as (g2 & -> & H2).
  { exact (prefix_run_le is_space v ws3 gap2 _ _ Hw3 Hv H). }
  rewrite forall_chars_append in Hgap. apply andb_true_iff in Hgap.
  destruct Hgap as [_ Hg2].
  assert (Hg2s : forall_chars is_space g2 = true)
    by exact (forall_chars_impl _ _ _ blank_is_space Hg2).
  assert (Hg2n : forall_chars not_nl g2 = true)
    by exact (forall_chars_impl _ _ _ blank_is_no_newline Hg2).
  assert (Hvn : forall_chars not_nl (String v vs) = true)
    by exact (forall_chars_impl _ _ _ solid_is_no_newline Hsolid).
  assert (H3 : (grp ++ (ws4 ++ r') = (g2 ++ String v vs) ++ (trail ++ post))%string).
  { rewrite H2, append_assoc. reflexivity. }
  (* the group does not stop inside the value *)
  assert (Hlong : (String.length (g2 ++ String v vs) <= String.length grp)%nat).
  { destruct (Nat.le_gt_cases (String.length (g2 ++ String v vs)) (String.length grp))
      as [| Hlt]; [assumption |]. exfalso.
    destruct (append_prefix_split grp (g2 ++ String v vs) _ _ H3) as (m & Hm & Hrest);
      [lia |].
    assert (Hmne : m <> EmptyString).
    { intros ->. rewrite Hm, append_nil_r in Hlt. lia. }
    assert (Hmn : forall_chars not_nl m = true).
    { assert (Hall : forall_chars not_nl (grp ++ m) = true).
      { rewrite <- Hm, forall_chars_append, Hg2n, Hvn. reflexivity. }
      rewrite forall_chars_append in Hall. apply andb_true_iff in Hall. tauto. }
    pose proof (run_before_line_end m ws4 r' _ Hmn Hw4 Hr Hrest) as Hms.
    destruct (last_of_run is_space m (last_of grp None) Hms Hmne) as (c & Hc & Hcs).
    destruct (last_of_run (fun c => negb (is_space c)) (String v vs) (last_of g2 None)
                          Hsolid) as (c' & Hc' & Hcs'); [discriminate |].
    rewrite <- last_of_append, <- Hm, last_of_append, Hc' in Hc.
    injection Hc as ->. rewrite Hcs in Hcs'. discriminate. }
  destruct (append_prefix_split (g2 ++ String v vs) grp _ _ (eq_sym H3) Hlong)
    as (t1 & Hgrp & Ht1).
  exists g2, t1. split; [rewrite Hgrp, append_assoc; reflexivity |].
  split; [exact Hg2s |].
  assert (Ht1n : forall_chars not_nl t1 = true).
  { rewrite Hgrp, forall_chars_append in Hgnl. apply andb_true_iff in Hgnl. tauto. }
  apply (run_before_line_end t1 trail post (ws4 ++ r') Ht1n Htrail); [| exact Ht1].
  destruct Hpost as [-> | (post0 & ->)]; [left; reflexivity | right; eauto].
Qed.

Lemma key_letter_is_no_space (c : ascii) :
  Ascii.eqb (lower "W") (lower c) = true -> is_space c = false.
Proof.
  destruct c as [b0 b1 b2 b3 b4 b5 b6 b7].
  destruct b0, b1, b2, b3, b4, b5, b6, b7; vm_compute; intros H;
    try discriminate; reflexivity.
Qed.

Lemma equals_sign_is_no_space : is_space "=" = false.
Proof. reflexivity. Qed.

Lemma search_items_line (pre indent word gap1 gap2 value trail post : string) :
  ends_a_line pre ->
  forall_chars is_space indent = true ->
  same_letters "WorkshopItems" word = true ->
  forall_chars is_space gap1 = true -> forall_chars blank gap2 = true ->
  value <> EmptyString ->
  forall_chars (fun c => negb (is_space c)) value = true ->
  forall_chars is_space trail = true -> begins_a_line post ->
  find (lower_str (with_items pre indent word gap1 gap2 value trail post))
       "workshopitems" 0
  = Z.of_nat (String.length pre + String.length indent) ->
  exists m,
    search true workshop_items_re
           (with_items pre indent word gap1 gap2 value trail post) = Some m
    /\ strip (group1 m) = value.
Proof.
  intros Hpre Hindent Hword Hgap1 Hgap2 Hne Hsolid Htrail Hpost Hfind.
  assert (Hvn : forall_chars not_nl value = true)
    by exact (forall_chars_impl _ _ _ solid_is_no_newline Hsolid).
  assert (Hgap2s : forall_chars is_space gap2 = true)
    by exact (forall_chars_impl _ _ _ blank_is_space Hgap2).
  assert (Hm : matches_at true workshop_items_re
                 (with_items pre indent word gap1 gap2 value trail post)
                 (String.length pre) (Some value)).
  { destruct value as [| v vs]; [contradiction |].
    exact (items_line_matches pre indent word gap1 gap2 vs trail post v
                              Hpre Hindent Hword Hgap1 Hgap2s Hvn Htrail Hpost). }
  set (text := with_items pre indent word gap1 gap2 value trail post) in *.
  destruct (search_finds true _ _ _ _ Hm) as (m & Hs & Hle).
  exists m. split; [exact Hs |].
  destruct (search_found true _ _ _ Hs) as [(p & p' & Hc & Hp) _].
  destruct (cursor_from_drop _ _ _ _ _ Hc) as [Hrest _].
  destruct (items_re_text _ _ _ Hp)
    as (ws1 & w & ws2 & ws3 & grp & ws4 & Hr & Hw1 & Hw & Hw2 & Hw3 & Hgne & Hgnl
        & Hw4 & Heol & Hg).
  set (j := m_start m) in *.
  set (tail' := (ws2 ++ String "=" (ws3 ++ grp ++ ws4 ++ rest p'))%string) in *.
  set (tail := (gap1 ++ String "=" (gap2 ++ value ++ trail ++ post))%string).
  assert (Hdrop : drop j text = ((drop j pre ++ indent) ++ word ++ tail)%string).
  { subst text. unfold with_items. rewrite drop_append by exact Hle.
    rewrite append_assoc. reflexivity. }
  rewrite Hrest, Hdrop in Hr.
  (* the key of the match is not before the first key of the text *)
  assert (Habs : absent_before "workshopitems"%string (lower_str text)
                               (String.length pre + String.length indent)).
  { apply (absent_before_of_find _ _ 0). unfold find in Hfind.
    cbn [Z.to_nat drop] in Hfind.
    destruct (Z.ltb_spec (Z.of_nat (String.length (lower_str text))) 0) as [| _]; [lia |].
    exact Hfind. }
  assert (Hge : (String.length (drop j pre ++ indent) <= String.length ws1)%nat).
  { rewrite length_append, length_drop.
    destruct (Nat.le_gt_cases (String.length pre - j + String.length indent)
                              (String.length ws1)) as [| Hlt]; [assumption |].
    exfalso. specialize (Habs (j + String.length ws1)%nat).
    rewrite <- lower_str_drop, <- drop_drop in Habs.
    rewrite Hdrop, Hr, <- (Nat.add_0_r (String.length ws1)), drop_add_append in Habs.
    cbn [drop] in Habs. rewrite lower_str_append, (same_letters_lower _ _ Hw) in Habs.
    change (lower_str "WorkshopItems"%string) with "workshopitems"%string in Habs.
    rewrite starts_with_refl in Habs.
    assert (false = true -> False) by discriminate. apply H. symmetry. apply Habs. lia. }
  assert (Hle' : (String.length ws1 <= String.length (drop j pre ++ indent))%nat).
  { destruct word as [| c0 word']; [discriminate |].
    cbn [same_letters] in Hword. apply andb_true_iff in Hword. destruct Hword as [Hc0 _].
    cbn [String.append] in Hr.
    exact (prefix_run_le is_space c0 ws1 _ _ _ Hw1 (key_letter_is_no_space _ Hc0)
                         (eq_sym Hr)). }
  destruct (append_length_inj _ _ _ _ (Nat.le_antisymm _ _ Hge Hle') Hr) as [_ Hk].
  assert (Hlen : String.length word = String.length w).
  { rewrite (same_letters_length _ _ Hword), (same_letters_length _ _ Hw). reflexivity. }
  destruct (append_length_inj _ _ _ _ Hlen Hk) as [_ Ht].
  subst tail tail'.
  destruct (run_split_unique is_space gap1 ws2 "=" "=" _ _ Hgap1 Hw2
                             equals_sign_is_no_space equals_sign_is_no_space Ht)
    as (_ & _ & Hv).
  assert (Hend : rest p' = EmptyString \/ (exists r0, rest p' = String nl r0)).
  { unfold at_eol in Heol. destruct (rest p') as [| a r0]; [left; reflexivity |].
    apply Ascii.eqb_eq in Heol. subst a. right. eauto. }
  destruct (padded_value ws3 grp ws4 (rest p') gap2 value trail post (eq_sym Hv)
                         Hw3 Hgnl Hw4 Hend Hgap2 Hne Hsolid Htrail Hpost)
    as (b & a & Hgrp & Hb & Ha).
  unfold group1. rewrite Hg, Hgrp. exact (strip_padded b value a Hb Ha Hsolid).
Qed.

(** *** The parts of the value *)

Lemma split_acc_skip (sep : ascii) (part : string) :
  forall s cur : string,
    forall_chars (fun c => negb (Ascii.eqb c sep)) part = true ->
    split_acc sep (part ++ s) cur = split_acc sep s (cur ++ part).
Proof.
  induction part as [| c part IH]; intros s cur H.
  - rewrite append_nil_r. reflexivity.
  - cbn [forall_chars] in H. apply andb_true_iff in H. destruct H as [Hc Hp].
    apply negb_true_iff in Hc. cbn [String.append split_acc]. rewrite Hc.
    rewrite (IH _ _ Hp), append_assoc. reflexivity.
Qed.

Lemma split_join (sep : ascii) (parts : list string) :
  forall x cur : string,
    forallb (forall_chars (fun c => negb (Ascii.eqb c sep))) (x :: parts) = true ->
    split_acc sep (join sep (x :: parts)) cur = (cur ++ x)%string :: parts.
Proof.
  induction parts as [| y parts IH]; intros x cur H;
    cbn [forallb] in H; apply andb_true_iff in H; destruct H as [Hx Hrest].
  - cbn [join]. rewrite <- (append_nil_r x) at 1.
    rewrite (split_acc_skip _ _ _ _ Hx). reflexivity.
  - change (join sep (x :: y :: parts))
      with (x ++ String sep (join sep (y :: parts)))%string.
    rewrite (split_acc_skip _ _ _ _ Hx). cbn [split_acc]. rewrite Ascii.eqb_refl.
    rewrite (IH y EmptyString Hrest). reflexivity.
Qed.

Lemma plain_is_solid (s : string) :
  plain s = true -> forall_chars (fun c => negb (is_space c)) s = true.
Proof.
  apply forall_chars_impl. intros c H. apply andb_true_iff in H. tauto.
Qed.

Lemma plain_has_no_semicolon (s : string) :
  plain s = true -> forall_chars (fun c => negb (Ascii.eqb c ";")) s = true.
Proof.
  apply forall_chars_impl. intros c H. apply andb_true_iff in H. tauto.
Qed.

Lemma join_solid (parts : list string) :
  forallb plain parts = true ->
  forall_chars (fun c => negb (is_space c)) (join ";" parts) = true.
Proof.
  induction parts as [| x parts IH]; intros H; [reflexivity |].
  cbn [forallb] in H. apply andb_true_iff in H. destruct H as [Hx Hrest].
  destruct parts as [| y parts]; [exact (plain_is_solid _ Hx) |].
  change (join ";" (x :: y :: parts)) with (x ++ String ";" (join ";" (y :: parts)))%string.
  rewrite forall_chars_append, (plain_is_solid _ Hx). cbn [forall_chars andb].
  exact (IH Hrest).
Qed.

Lemma strip_plain (s : string) : plain s = true -> strip s = s.
Proof.
  intros H. pose proof (strip_padded EmptyString s EmptyString eq_refl eq_refl
                                     (plain_is_solid _ H)) as E.
  cbn [String.append] in E. rewrite append_nil_r in E. exact E.
Qed.

Lemma parts_of_a_plain_value (parts : list string) :
  forallb plain parts = true -> join ";" parts <> EmptyString ->
  unique_digits
    (map strip (filter (fun p => negb (String.eqb (strip p) EmptyString))
                       (split ";" (join ";" parts)))) [] []
  = first_occurrences (filter isdigit parts).
Proof.
  intros Hplain Hne.
  assert (Hsplit : split ";" (join ";" parts) = parts).
  { destruct parts as [| x parts]; [contradiction |]. unfold split.
    rewrite split_join; [reflexivity |].
    clear Hne. revert Hplain. generalize (x :: parts). intros l.
    induction l as [| y l IH]; [reflexivity |]. cbn [forallb]. intros H.
    apply andb_true_iff in H. destruct H as [Hy Hl].
    rewrite (plain_has_no_semicolon _ Hy), (IH Hl). reflexivity. }
  rewrite Hsplit, unique_digits_eq. cbn [app]. rewrite filter_all by reflexivity.
  f_equal. clear Hne Hsplit.
  induction parts as [| x parts IH]; [reflexivity |].
  cbn [forallb] in Hplain. apply andb_true_iff in Hplain. destruct Hplain as [Hx Hrest].
  cbn [filter]. rewrite (strip_plain _ Hx).
  destruct (String.eqb_spec x EmptyString) as [-> | _]; cbn [negb].
  - cbn [map filter]. rewrite (IH Hrest).
    change (isdigit EmptyString) with false. cbv iota. reflexivity.
  - cbn [map filter]. rewrite (strip_plain _ Hx), (IH Hrest). reflexivity.
Qed.

(** X28.  When the first occurrence of the word [workshopitems] in the
    ini file, in whatever case, stands on a line of the form white
    space, key, white space, equals sign, white space, value, white
    space, and the value is made of parts between semicolons without
    white space in them, the ids are the parts of that value that pass
    [str.isdigit], in their order, each at its first occurrence.  Lines
    before it play no part, whatever they hold. *)
Theorem workshop_items_are_read_from_their_first_line :
  forall (w : world) (pre indent word gap1 gap2 trail post : string)
         (parts : list string),
    ini_file w
    = Holds (with_items pre indent word gap1 gap2 (join ";" parts) trail post) ->
    ends_a_line pre ->
    forall_chars is_space indent = true ->
    same_letters "WorkshopItems" word = true ->
    forall_chars is_space gap1 = true -> forall_chars blank gap2 = true ->
    forallb plain parts = true -> join ";" parts <> EmptyString ->
    forall_chars is_space trail = true -> begins_a_line post ->
    find (lower_str (with_items pre indent word gap1 gap2 (join ";" parts) trail post))
         "workshopitems" 0
    = Z.of_nat (String.length pre + String.length indent) ->
    parse_workshop_ids_from_ini w
    = (Return (first_occurrences (filter isdigit parts)), w).
Proof.
  intros w pre indent word gap1 gap2 trail post parts Hini Hpre Hindent Hword
         Hgap1 Hgap2 Hplain Hne Htrail Hpost Hfind.
  destruct (search_items_line pre indent word gap1 gap2 (join ";" parts) trail post
                              Hpre Hindent Hword Hgap1 Hgap2 Hne (join_solid _ Hplain)
                              Htrail Hpost Hfind) as (m & Hs & Hg).
  unfold parse_workshop_ids_from_ini, bind, get, ret. rewrite Hini, Hs, Hg.
  rewrite (parts_of_a_plain_value _ Hplain Hne). reflexivity.
Qed.

Lemma workshop_items_are_read_from_their_first_line_witness :
  let nl1 := String nl EmptyString in
  parse_workshop_ids_from_ini
    (UpdatesSpec.world_of
       (Holds ("[Mods]" ++ nl1 ++ "Map=Muldraugh, KY" ++ nl1
                ++ " workshopITEMS = 12;x;7;12;;34;7 " ++ String "013" nl1
                ++ "Mods=a;b" ++ nl1)%string)
       UpdatesSpec.unreachable Missing (Failed ""))
  = (Return ["12"; "7"; "34"]%string,
     UpdatesSpec.world_of
       (Holds ("[Mods]" ++ nl1 ++ "Map=Muldraugh, KY" ++ nl1
                ++ " workshopITEMS = 12;x;7;12;;34;7 " ++ String "013" nl1
                ++ "Mods=a;b" ++ nl1)%string)
       UpdatesSpec.unreachable Missing (Failed "")).
Proof.
  intros nl1.
  exact (workshop_items_are_read_from_their_first_line
           (UpdatesSpec.world_of
              (Holds ("[Mods]" ++ nl1 ++ "Map=Muldraugh, KY" ++ nl1
                       ++ " workshopITEMS = 12;x;7;12;;34;7 " ++ String "013" nl1
                       ++ "Mods=a;b" ++ nl1)%string)
              UpdatesSpec.unreachable Missing (Failed ""))
           ("[Mods]" ++ nl1 ++ "Map=Muldraugh, KY" ++ nl1)%string
           " "%string "workshopITEMS"%string " "%string " "%string
           (" " ++ String "013" EmptyString)%string
           (nl1 ++ "Mods=a;b" ++ nl1)%string
           ["12"; "x"; "7"; "12"; ""; "34"; "7"]%string
           eq_refl
           (or_intror (ex_intro _ ("[Mods]" ++ nl1 ++ "Map=Muldraugh, KY")%string eq_refl))
           eq_refl eq_refl eq_refl eq_refl eq_refl
           (fun H => match H with eq_refl => I end)
           eq_refl
           (or_intror (ex_intro _ ("Mods=a;b" ++ nl1)%string eq_refl))
           eq_refl).
Defined.

End IniFacts.

(** ** steam_app.py: the build id of a branch *)

Module BranchFacts.

Import Text Re ReSpec TextFacts ReFacts World SteamApp SteamAppSpec SteamAppFacts.
Import UpdatesSpec ManifestSpec ManifestFacts IniSpec IniFacts BranchSpec.

(** *** The field pattern, letters in any case *)

Lemma lower_quote (b : ascii) : Ascii.eqb (lower dq) (lower b) = true -> b = dq.
Proof.
  destruct b as [b0 b1 b2 b3 b4 b5 b6 b7].
  destruct b0, b1, b2, b3, b4, b5, b6, b7; vm_compute; intros H;
    try discriminate; reflexivity.
Qed.

Lemma same_letters_quoted (key word : string) :
  same_letters key word = true -> same_letters (quoted key) (quoted word) = true.
Proof.
  intros H. unfold quoted. cbn [String.append same_letters].
  rewrite Ascii.eqb_refl. cbn [andb]. revert word H.
  induction key as [| c key IH]; intros [| a word] H; cbn [same_letters] in H;
    try discriminate; cbn [String.append same_letters].
  - rewrite Ascii.eqb_refl. reflexivity.
  - apply andb_true_iff in H. destruct H as [Hc Hw]. rewrite Hc. exact (IH _ Hw).
Qed.

(** The text a match of the field pattern runs over when letters
    match in any case. *)
Lemma field_re_text_any_case (key : string) (p p' : cursor) (g : option string) :
  matches true (field_re key) p None p' g ->
  exists ws1 w ws2 ds ws3,
    rest p = (ws1 ++ w ++ ws2
                ++ String dq (ds ++ String dq (ws3 ++ rest p')))%string
    /\ forall_chars is_space ws1 = true
    /\ same_letters (quoted key) w = true
    /\ forall_chars is_space ws2 = true
    /\ forall_chars is_space ws3 = true
    /\ forall_chars is_digit ds = true
    /\ g = Some ds.
Proof.
  unfold field_re, seq. cbn [fold_right]. intros H.
  destruct (matches_cat_inv _ _ _ _ _ _ _ H) as (p1 & g1 & Hb & H1).
  destruct (matches_cat_inv _ _ _ _ _ _ _ H1) as (p2 & g2 & Hs1 & H2).
  destruct (matches_cat_inv _ _ _ _ _ _ _ H2) as (p3 & g3 & Hk & H3).
  destruct (matches_cat_inv _ _ _ _ _ _ _ H3) as (p4 & g4 & Hs2 & H4).
  destruct (matches_cat_inv _ _ _ _ _ _ _ H4) as (p5 & g5 & Ho & H5).
  destruct (matches_cat_inv _ _ _ _ _ _ _ H5) as (p6 & g6 & Hg & H6).
  destruct (matches_cat_inv _ _ _ _ _ _ _ H6) as (p7 & g7 & Hc & H7).
  destruct (matches_cat_inv _ _ _ _ _ _ _ H7) as (p8 & g8 & Hs3 & H8).
  destruct (matches_cat_inv _ _ _ _ _ _ _ H8) as (p9 & g9 & He & H9).
  destruct (matches_still _ _ _ _ _ _ Hb) as [-> ->]; [auto |].
  destruct (matches_still _ _ _ _ _ _ He) as [-> ->]; [auto |].
  destruct (matches_still _ _ _ _ _ _ H9) as [-> ->]; [auto |].
  destruct (matches_star_chars _ _ _ _ _ _ Hs1) as (ws1 & Hr1 & _ & Hw1).
  destruct (matches_word_inv _ _ _ _ _ Hk) as (w & Hrk & Hw).
  destruct (matches_star_chars _ _ _ _ _ _ Hs2) as (ws2 & Hr2 & _ & Hw2).
  destruct (matches_chr_inv _ _ _ _ _ _ Ho) as (a & s5 & Ha & Hina & -> & _).
  destruct (matches_digits_group _ _ _ _ _ Hg) as (d & ds & -> & Hd & Hds & Hr6).
  destruct (matches_chr_inv _ _ _ _ _ _ Hc) as (b & s7 & Hb7 & Hinb & -> & Hg7).
  destruct (matches_star_chars _ _ _ _ _ _ Hs3) as (ws3 & Hr3 & _ & Hw3).
  cbn [in_cls] in Hina, Hinb. apply lower_quote in Hina, Hinb. subst a b.
  cbn [rest] in *.
  exists ws1, w, ws2, (String d ds), ws3.
  rewrite Hr1, Hrk, Hr2, Ha, Hr6, Hb7, Hr3.
  repeat split; try assumption.
  - cbn [forall_chars]. rewrite Hd, Hds. reflexivity.
  - rewrite (matches_no_group _ _ _ _ _ _ Hs3 eq_refl). exact Hg7.
Qed.

(** The field pattern matches at the beginning of the line. *)
Lemma field_line_matches_any_case (key word pre indent gap ds trail post : string)
      (a : ascii) :
  same_letters key word = true ->
  ends_a_line pre ->
  forall_chars is_space indent = true -> forall_chars is_space gap = true ->
  forall_chars is_digit (String a ds) = true ->
  forall_chars is_space trail = true -> begins_a_line post ->
  matches_at true (field_re key)
             (with_field pre indent word gap (String a ds) trail post)
             (String.length pre) (Some (String a ds)).
Proof.
  intros Hword Hpre Hindent Hgap Hd Htrail Hpost.
  cbn [forall_chars] in Hd. apply andb_true_iff in Hd. destruct Hd as [Ha Hds].
  unfold matches_at, cursor_at, with_field. rewrite cursor_from_append.
  eexists. eexists. split; [reflexivity |].
  unfold field_re, seq. cbn [fold_right].
  eapply m_cat.
  { apply m_bol. pose proof (last_of_newline pre Hpre) as Hb.
    unfold at_bol in *. cbn [prev] in *. exact Hb. }
  eapply m_cat; [exact (matches_run true Space _ _ _ _ _ Hindent) |].
  eapply m_cat; [exact (matches_word _ _ _ _ _ _ (same_letters_quoted _ _ Hword)) |].
  eapply m_cat; [exact (matches_run true Space _ _ _ _ _ Hgap) |].
  eapply m_cat; [eapply m_chr; reflexivity |]. cbn [idx].
  eapply m_cat; [exact (matches_digits true a ds _ _ _ _ Ha Hds) |].
  eapply m_cat; [eapply m_chr; reflexivity |]. cbn [idx].
  eapply m_cat; [exact (matches_run true Space _ _ _ _ _ Htrail) |].
  eapply m_cat; [| constructor].
  apply m_eol. unfold at_eol. cbn [rest].
  destruct Hpost as [-> | (post0 & ->)]; [reflexivity | apply Ascii.eqb_refl].
Qed.

(** The first line with the key, in any case, is the one that is read. *)
Lemma search_field_line_any_case (key word pre indent gap ds trail post : string)
      (a : ascii) :
  same_letters key word = true ->
  ends_a_line pre ->
  forall_chars is_space indent = true -> forall_chars is_space gap = true ->
  forall_chars is_digit (String a ds) = true ->
  forall_chars is_space trail = true -> begins_a_line post ->
  find (lower_str (with_field pre indent word gap (String a ds) trail post))
       (lower_str (quoted key)) 0
  = Z.of_nat (String.length pre + String.length indent) ->
  exists m,
    search true (field_re key) (with_field pre indent word gap (String a ds) trail post)
    = Some m
    /\ group1 m = String a ds.
Proof.
  intros Hword Hpre Hindent Hgap Hd Htrail Hpost Hfind.
  pose proof (field_line_matches_any_case key word pre indent gap ds trail post a
                Hword Hpre Hindent Hgap Hd Htrail Hpost) as Hm.
  set (text := with_field pre indent word gap (String a ds) trail post) in *.
  destruct (search_finds true _ _ _ _ Hm) as (m & Hs & Hle).
  exists m. split; [exact Hs |].
  destruct (search_found true _ _ _ Hs) as [(p & p' & Hc & Hp) _].
  destruct (cursor_from_drop _ _ _ _ _ Hc) as [Hrest _].
  destruct (field_re_text_any_case _ _ _ _ Hp)
    as (ws1 & w & ws2 & ds' & ws3 & Hr & Hw1 & Hw & Hw2 & Hw3 & Hd' & Hg).
  set (j := m_start m) in *.
  set (tail' := (ws2 ++ String dq (ds' ++ String dq (ws3 ++ rest p')))%string) in *.
  set (tail := (gap ++ String dq (String a ds ++ String dq (trail ++ post)))%string).
  assert (Hdrop : drop j text = ((drop j pre ++ indent) ++ quoted word ++ tail)%string).
  { subst text. unfold with_field. rewrite drop_append by exact Hle.
    rewrite append_assoc. reflexivity. }
  rewrite Hrest, Hdrop in Hr.
  assert (Habs : absent_before (lower_str (quoted key)) (lower_str text)
                               (String.length pre + String.length indent)).
  { apply (absent_before_of_find _ _ 0). unfold find in Hfind.
    cbn [Z.to_nat drop] in Hfind.
    destruct (Z.ltb_spec (Z.of_nat (String.length (lower_str text))) 0) as [| _]; [lia |].
    exact Hfind. }
  assert (Hge : (String.length (drop j pre ++ indent) <= String.length ws1)%nat).
  { rewrite length_append, length_drop.
    destruct (Nat.le_gt_cases (String.length pre - j + String.length indent)
                              (String.length ws1)) as [| Hlt]; [assumption |].
    exfalso. specialize (Habs (j + String.length ws1)%nat).
    rewrite <- lower_str_drop, <- drop_drop in Habs.
    rewrite Hdrop, Hr, <- (Nat.add_0_r (String.length ws1)), drop_add_append in Habs.
    cbn [drop] in Habs. rewrite lower_str_append, (same_letters_lower _ _ Hw) in Habs.
    rewrite starts_with_refl in Habs.
    assert (false = true -> False) by discriminate. apply H. symmetry. apply Habs. lia. }
  assert (Hle' : (String.length ws1 <= String.length (drop j pre ++ indent))%nat).
  { unfold quoted in Hr. cbn [String.append] in Hr.
    exact (prefix_run_le is_space dq ws1 _ _ _ Hw1 dq_is_no_space (eq_sym Hr)). }
  destruct (append_length_inj _ _ _ _ (Nat.le_antisymm _ _ Hge Hle') Hr) as [_ Hk].
  assert (Hlen : String.length (quoted word) = String.length w).
  { rewrite (same_letters_length _ _ Hw),
      (same_letters_length _ _ (same_letters_quoted _ _ Hword)). reflexivity. }
  destruct (append_length_inj _ _ _ _ Hlen Hk) as [_ Ht].
  subst tail tail'.
  destruct (run_split_unique is_space gap ws2 dq dq _ _ Hgap Hw2
                             dq_is_no_space dq_is_no_space Ht) as (_ & _ & Hv).
  destruct (run_split_unique is_digit (String a ds) ds' dq dq _ _ Hd Hd'
                             dq_is_no_digit dq_is_no_digit Hv) as (Hds & _ & _).
  unfold group1. rewrite Hg, <- Hds. reflexivity.
Qed.

(** *** The block of a name *)

Lemma find_first (text sub : string) (n : nat) :
  find text sub 0 = Z.of_nat n -> find_at sub text 0 = Z.of_nat n.
Proof.
  change 0 with (Z.of_nat 0). rewrite find_from by lia. cbn [drop]. auto.
Qed.

Lemma no_open_quoted (name gap : string) :
  forall_chars no_open (name ++ gap) = true ->
  forall_chars no_open (quoted name ++ gap) = true.
Proof.
  unfold quoted. rewrite !forall_chars_append. cbn [String.append forall_chars].
  rewrite !forall_chars_append. cbn [forall_chars].
  intros H. apply andb_true_iff in H. destruct H as [-> ->]. reflexivity.
Qed.

(** The block taken for [name] in a text laid out as [with_block]. *)
Lemma with_block_found (pre name gap body post : string) :
  find (with_block pre name gap body post) (quoted name) 0
  = Z.of_nat (String.length pre) ->
  forall_chars no_open (name ++ gap) = true ->
  open_through body 1 = Some 1 ->
  braced_after (with_block pre name gap body post) name = Some (braced body).
Proof.
  intros Hfind Hgap Hbody. unfold with_block, braced.
  apply braced_after_found.
  - exact (find_first _ _ _ Hfind).
  - exact (no_open_quoted _ _ Hgap).
  - exact Hbody.
Qed.

Lemma braced_with_block (before name gap body after : string) :
  braced (with_block before name gap body after)
  = with_block (String "{" before) name gap body (after ++ String "}" EmptyString).
Proof.
  unfold braced, with_block. cbn [String.append].
  repeat (rewrite !append_assoc; cbn [String.append]). reflexivity.
Qed.

Lemma braced_with_field (pre indent word gap value trail post : string) :
  braced (with_field pre indent word gap value trail post)
  = with_field (String "{" pre) indent word gap value trail
               (post ++ String "}" EmptyString).
Proof.
  unfold braced, with_field. cbn [String.append].
  repeat (rewrite !append_assoc; cbn [String.append]). reflexivity.
Qed.

(** *** The build id of the branch *)

Lemma branch_buildid_found
      (branch pre g0 before g1 bpre indent word gap ds trail bpost after post : string)
      (a : ascii) :
  let body := with_field bpre indent word gap (String a ds) trail bpost in
  let inner := with_block before branch g1 body after in
  let output := with_block pre "branches" g0 inner post in
  find output (quoted "branches") 0 = Z.of_nat (String.length pre) ->
  forall_chars no_open g0 = true ->
  open_through inner 1 = Some 1 ->
  find (braced inner) (quoted branch) 0 = Z.of_nat (S (String.length before)) ->
  forall_chars no_open (branch ++ g1) = true ->
  open_through body 1 = Some 1 ->
  find (lower_str (braced body)) (quoted "buildid") 0
  = Z.of_nat (S (String.length bpre) + String.length indent) ->
  same_letters "buildid" word = true ->
  ends_a_line (String "{" bpre) ->
  forall_chars is_space indent = true -> forall_chars is_space gap = true ->
  forall_chars is_digit (String a ds) = true ->
  forall_chars is_space trail = true ->
  begins_a_line (bpost ++ String "}" EmptyString) ->
  _extract_branch_block output branch = Some (braced body)
  /\ buildid_of_output output branch = (Some (String a ds), None).
Proof.
  intros body inner output Hbranches Hg0 Hinner Hname Hg1 Hbody Hkey Hword Hpre
         Hindent Hgap Hd Htrail Hpost.
  assert (Hb : braced_after output "branches" = Some (braced inner)).
  { apply with_block_found; [exact Hbranches | | exact Hinner].
    cbn [String.append forall_chars]. exact Hg0. }
  assert (Hx : _extract_branch_block output branch = Some (braced body)).
  { unfold _extract_branch_block, _extract_named_block.
    rewrite Hb, (braced_after_truthy _ _ _ Hb). cbn [negb].
    subst inner. rewrite braced_with_block. rewrite braced_with_block in Hname.
    apply with_block_found; [exact Hname | exact Hg1 | exact Hbody]. }
  split; [exact Hx |].
  rewrite buildid_of_output_eq, Hx.
  subst body. rewrite braced_with_field in *.
  destruct (search_field_line_any_case "buildid" word (String "{" bpre) indent gap ds
              trail (bpost ++ String "}" EmptyString) a
              Hword Hpre Hindent Hgap Hd Htrail Hpost Hkey) as (m & Hs & Hg).
  unfold _parse_buildid. rewrite Hs, Hg. reflexivity.
Qed.

(** C8.  Let the inventory tool be found and run, and let [output] be
    what it printed.  (1) Let the first occurrence of the quoted word
    branches in [output] be followed, with no brace in between, by a
    block closed by brace depth; in that block let the first
    occurrence of the quoted name of the requested branch be followed,
    with no brace in between, by a block closed by brace depth; and in
    that block let the first quoted ["buildid"], in any letter case,
    stand on a line of its own before a quoted run of digits.  Then the
    build id returned is that run of digits, whatever the rest of the
    branches block holds, blocks and build ids of other branches
    included.  (2) The block taken for the branch runs from an opening
    brace to the closing brace that brings the depth back to zero, and
    a build id read in it is the result.  (3) Only when no block is
    taken for the branch, or none is read in it, the result is the
    build id of the first line of [output] that holds a build id alone,
    and without such a line there is no build id but the message. *)
Theorem buildid_is_branch_scoped :
  forall (steamcmd_path : string) (app_id : Z) (branch : string)
         (dump_path : option string) (w : world) (p : proc),
    steamcmd_exists w = Return true ->
    steamcmd_run w = Completed p ->
    let output := (stdout p ++ String nl EmptyString ++ stderr p)%string in
    let answer := fst (steamcmd_get_buildid steamcmd_path app_id branch dump_path w) in
    (forall (pre g0 before g1 bpre indent word gap ds trail bpost after post : string)
            (a : ascii),
        let body := with_field bpre indent word gap (String a ds) trail bpost in
        let inner := with_block before branch g1 body after in
        output = with_block pre "branches" g0 inner post ->
        find output (quoted "branches") 0 = Z.of_nat (String.length pre) ->
        forall_chars no_open g0 = true ->
        open_through inner 1 = Some 1 ->
        find (braced inner) (quoted branch) 0 = Z.of_nat (S (String.length before)) ->
        forall_chars no_open (branch ++ g1) = true ->
        open_through body 1 = Some 1 ->
        find (lower_str (braced body)) (quoted "buildid") 0
        = Z.of_nat (S (String.length bpre) + String.length indent) ->
        same_letters "buildid" word = true ->
        ends_a_line (String "{" bpre) ->
        forall_chars is_space indent = true -> forall_chars is_space gap = true ->
        forall_chars is_digit (String a ds) = true ->
        forall_chars is_space trail = true ->
        begins_a_line (bpost ++ String "}" EmptyString) ->
        answer = Return (Some (String a ds), None))
    /\ (forall block : string,
           _extract_branch_block output branch = Some block ->
           (exists body, block = braced body /\ open_through body 1 = Some 1)
           /\ forall id, _parse_buildid block = Some id ->
                         answer = Return (Some id, None))
    /\ (_extract_branch_block output branch = None
        \/ (exists block, _extract_branch_block output branch = Some block
                          /\ _parse_buildid block = None) ->
        (forall id,
            _parse_buildid output = Some id ->
            answer = Return (Some id, None)
            /\ exists j,
                matches_at true (field_re "buildid") output j (Some id)
                /\ forall j' g, (j' < j)%nat ->
                                ~ matches_at true (field_re "buildid") output j' g)
        /\ (_parse_buildid output = None ->
            answer = Return (None, Some "buildid not found in steamcmd output"%string))).
Proof.
  intros steamcmd_path app_id branch dump_path w p He Hr output answer.
  assert (Ha : answer = Return (buildid_of_output output branch)).
  { exact (steamcmd_get_buildid_output steamcmd_path app_id branch dump_path w p He Hr). }
  split; [| split].
  - intros pre g0 before g1 bpre indent word gap ds trail bpost after post a body inner
           Hout Hbranches Hg0 Hinner Hname Hg1 Hbody Hkey Hword Hpre Hindent Hgap Hd
           Htrail Hpost.
    rewrite Ha, Hout. f_equal. rewrite Hout in Hbranches.
    exact (proj2 (branch_buildid_found branch pre g0 before g1 bpre indent word gap ds
                    trail bpost after post a Hbranches Hg0 Hinner Hname Hg1 Hbody Hkey
                    Hword Hpre Hindent Hgap Hd Htrail Hpost)).
  - intros block Hb. split.
    + revert Hb. unfold _extract_branch_block, _extract_named_block.
      destruct (negb (truthy (braced_after output "branches"))); [discriminate |].
      destruct (braced_after output "branches") as [bb |]; [| discriminate].
      apply braced_after_exact.
    + intros id Hid. rewrite Ha, buildid_of_output_eq, Hb, Hid. reflexivity.
  - intros Hfail.
    assert (Hf : buildid_of_output output branch
                 = match _parse_buildid output with
                   | Some id => (Some id, None)
                   | None => (None, Some "buildid not found in steamcmd output"%string)
                   end).
    { rewrite buildid_of_output_eq.
      destruct Hfail as [Hn | (block & Hb & Hid)]; [rewrite Hn | rewrite Hb, Hid];
        reflexivity. }
    split.
    + intros id Hid. split; [rewrite Ha, Hf, Hid; reflexivity |].
      exact (parse_buildid_first _ _ Hid).
    + intros Hnone. rewrite Ha, Hf, Hnone. reflexivity.
Qed.

Lemma buildid_is_branch_scoped_witness :
  fst (steamcmd_get_buildid "steamcmd" SERVER_APP_ID "unstable" None
                            (printed printed_app_info))
  = Return (Some "222"%string, None)
  /\ fst (steamcmd_get_buildid "steamcmd" SERVER_APP_ID "unstable" None
                               (printed one_line_answer))
     = Return (Some "111"%string, None).
Proof.
  split.
  - apply (proj1 (buildid_is_branch_scoped
                    "steamcmd" SERVER_APP_ID "unstable" None (printed printed_app_info)
                    (mkProc printed_app_info "" 0) eq_refl eq_refl)
                 info_head (String nl (tabs 2)) info_public (String nl (tabs 3))
                 info_meta (tabs 4) "buildid"%string (tabs 2) "22"%string EmptyString
                 (String nl (tabs 3)) (String nl (tabs 2)) info_tail "2"%char);
      try (vm_compute; reflexivity).
    + right. exists (take (String.length info_meta) (String "{" info_meta)).
      vm_compute. reflexivity.
    + right. exists (tabs 3 ++ String "}" EmptyString)%string. reflexivity.
  - apply (proj1 (proj2 (proj2 (buildid_is_branch_scoped
                    "steamcmd" SERVER_APP_ID "unstable" None (printed one_line_answer)
                    (mkProc one_line_answer "" 0) eq_refl eq_refl))
                    (or_intror (ex_intro _ (one_line_block "222") (conj eq_refl eq_refl))))
                 "111"%string eq_refl).
Defined.

(** C8, as stated, fails: two sibling branches with different build
    ids, and the build id returned for [unstable] is the one of
    [public].  In the first answer the block of [unstable] is taken,
    but its build id does not stand on a line of its own; in the second
    the name of the branch first occurs in a description inside the
    block of [public], and the block taken is the nested one that
    follows. *)
Lemma buildid_of_another_branch :
  (_extract_branch_block (output_of one_line_answer) "unstable"
   = Some (one_line_block "222")
   /\ steamcmd_get_buildid "steamcmd" SERVER_APP_ID "unstable" None
                           (printed one_line_answer)
      = (Return (Some "111"%string, None), printed one_line_answer)
   /\ steamcmd_get_buildid "steamcmd" SERVER_APP_ID "public" None
                           (printed one_line_answer)
      = (Return (Some "111"%string, None), printed one_line_answer))
  /\ (_extract_branch_block (output_of described_answer) "unstable"
      = Some (braced (String nl (tabbed 3 (field "pwdrequired" "0")
                                   ++ tabs 2)))
      /\ steamcmd_get_buildid "steamcmd" SERVER_APP_ID "unstable" None
                              (printed described_answer)
         = (Return (Some "111"%string, None), printed described_answer)
      /\ steamcmd_get_buildid "steamcmd" SERVER_APP_ID "public" None
                              (printed described_answer)
         = (Return (Some "111"%string, None), printed described_answer)).
Proof. repeat split; vm_compute; reflexivity. Qed.

End BranchFacts.

(** ** The key and value files *)

Module ConfigFacts.

Import Text TextFacts Workshop CatalogFacts IniFacts Config ConfigSpec.

(** *** White space at the ends, again *)

Lemma lstrip_before (c : ascii) (r : string) :
  is_space c = false ->
  forall x : string, lstrip (x ++ String c r) = (lstrip x ++ String c r)%string.
Proof.
  intros Hc. induction x as [| a x IH]; cbn [String.append lstrip].
  - rewrite Hc. reflexivity.
  - destruct (is_space a); [exact IH | reflexivity].
Qed.

Lemma rstrip_after (c : ascii) (r : string) :
  is_space c = false ->
  forall x : string, rstrip (x ++ String c r) = (x ++ String c (rstrip r))%string.
Proof.
  intros Hc. induction x as [| a x IH]; cbn [String.append rstrip].
  - rewrite Hc. destruct (rstrip r); reflexivity.
  - rewrite IH. destruct x; reflexivity.
Qed.

Lemma lstrip_spaces (ws : string) :
  forall_chars is_space ws = true -> lstrip ws = EmptyString.
Proof.
  intros H. rewrite <- (append_nil_r ws), (lstrip_run _ _ H). reflexivity.
Qed.

Lemma length_lstrip (s : string) : (String.length (lstrip s) <= String.length s)%nat.
Proof.
  induction s as [| c s IH]; cbn [lstrip]; [lia |].
  destruct (is_space c); cbn [String.length]; lia.
Qed.

Lemma length_rstrip (s : string) : (String.length (rstrip s) <= String.length s)%nat.
Proof.
  induction s as [| c s IH]; cbn [rstrip]; [lia |].
  destruct (rstrip s); [destruct (is_space c) |]; cbn [String.length] in *; lia.
Qed.

(** A text without white space at its ends is empty, or begins with a
    character that is no white space and is left alone by [rstrip]. *)
Lemma trimmed_cases (v : string) :
  trimmed v = true ->
  v = EmptyString
  \/ exists c r, v = String c r /\ is_space c = false /\ rstrip v = v.
Proof.
  unfold trimmed. intros H. apply String.eqb_eq in H.
  destruct v as [| c r]; [left; reflexivity | right].
  exists c, r. split; [reflexivity |].
  destruct (is_space c) eqn:Ec.
  - exfalso. unfold strip in H. cbn [lstrip] in H. rewrite Ec in H.
    apply (f_equal String.length) in H. cbn [String.length] in H.
    pose proof (length_rstrip (lstrip r)). pose proof (length_lstrip r). lia.
  - split; [reflexivity |]. unfold strip in H. cbn [lstrip] in H.
    rewrite Ec in H. exact H.
Qed.

Lemma strip_padded_trimmed (before value after : string) :
  forall_chars is_space before = true -> forall_chars is_space after = true ->
  trimmed value = true ->
  strip (before ++ value ++ after) = value.
Proof.
  intros Hb Ha Hv. unfold strip. rewrite (lstrip_run _ _ Hb).
  destruct (trimmed_cases _ Hv) as [-> | (c & r & -> & Hc & Hr)].
  - cbn [String.append]. rewrite (lstrip_spaces _ Ha). reflexivity.
  - cbn [String.append lstrip]. rewrite Hc.
    change (String c (r ++ after)) with (String c r ++ after)%string.
    rewrite (rstrip_run _ _ Ha). exact Hr.
Qed.

Lemma rstrip_append (x v : string) :
  rstrip v <> EmptyString -> rstrip (x ++ v) = (x ++ rstrip v)%string.
Proof.
  intros Hv. induction x as [| a x IH]; [reflexivity |].
  cbn [String.append rstrip]. rewrite IH.
  destruct (x ++ rstrip v)%string eqn:E; [| reflexivity].
  destruct x; [cbn in E; contradiction | discriminate].
Qed.

(** *** The separator *)

Lemma contains_append (sep : ascii) (a b : string) :
  contains sep (a ++ b) = contains sep a || contains sep b.
Proof.
  induction a as [| c a IH]; [reflexivity |].
  cbn [String.append contains]. rewrite IH, orb_assoc. reflexivity.
Qed.

Lemma contains_spaces (ws : string) :
  forall_chars is_space ws = true -> contains "=" ws = false.
Proof.
  induction ws as [| c ws IH]; intros H; [reflexivity |].
  cbn [forall_chars] in H. apply andb_true_iff in H. destruct H as [Hc Hws].
  cbn [contains]. rewrite (IH Hws), orb_false_r.
  destruct (Ascii.eqb_spec c "=") as [-> | _]; [discriminate | reflexivity].
Qed.

Lemma contains_lstrip (sep : ascii) (s : string) :
  contains sep s = false -> contains sep (lstrip s) = false.
Proof.
  induction s as [| c s IH]; intros H; [reflexivity |].
  cbn [lstrip]. destruct (is_space c); [| exact H].
  cbn [contains] in H. apply orb_false_iff in H. apply IH. tauto.
Qed.

Lemma contains_rstrip (sep : ascii) (s : string) :
  contains sep s = false -> contains sep (rstrip s) = false.
Proof.
  induction s as [| c s IH]; intros H; [reflexivity |].
  cbn [contains] in H. apply orb_false_iff in H. destruct H as [Hc Hs].
  cbn [rstrip]. specialize (IH Hs).
  destruct (rstrip s) eqn:E.
  - destruct (is_space c); [reflexivity |]. cbn [contains]. rewrite Hc. reflexivity.
  - cbn [contains] in *. rewrite Hc, IH. reflexivity.
Qed.

Lemma split_at_first_here (sep : ascii) (k v : string) :
  contains sep k = false ->
  split_at_first sep (k ++ String sep v) = (k, v).
Proof.
  induction k as [| c k IH]; intros H; cbn [String.append split_at_first].
  - rewrite Ascii.eqb_refl. reflexivity.
  - cbn [contains] in H. apply orb_false_iff in H. destruct H as [Hc Hk].
    rewrite Hc, (IH Hk). reflexivity.
Qed.

(** *** One line *)

Lemma pad_is_space (s : string) : pad s = true -> forall_chars is_space s = true.
Proof. apply forall_chars_impl. intros c H. apply andb_true_iff in H. tauto. Qed.

Lemma pad_is_one_line (s : string) : pad s = true -> one_line s = true.
Proof. apply forall_chars_impl. intros c H. apply andb_true_iff in H. tauto. Qed.

Lemma load_kv_line_assign (data : dict string)
      (indent key gap1 gap2 value trail : string) :
  well_formed (Assign indent key gap1 gap2 value trail) = true ->
  load_kv_line data (text_of (Assign indent key gap1 gap2 value trail))
  = dict_set data key value.
Proof.
  cbn [well_formed text_of]. intros H.
  repeat (apply andb_true_iff in H; destruct H as [H ?]).
  rename H into Hindent.
  match goal with
  | [ H1 : pad gap1 = true, H2 : pad gap2 = true, H3 : pad trail = true,
      H4 : trimmed key = true, H5 : negb (contains "=" key) = true,
      H6 : negb (starts_with "#" key) = true, H7 : negb (starts_with ";" key) = true,
      H8 : trimmed value = true |- _ ] =>
      rename H1 into Hgap1; rename H2 into Hgap2; rename H3 into Htrail;
      rename H4 into Hkey; rename H5 into Heq; rename H6 into Hhash;
      rename H7 into Hsemi; rename H8 into Hvalue
  end.
  apply pad_is_space in Hindent, Hgap1, Hgap2, Htrail.
  apply negb_true_iff in Heq, Hhash, Hsemi.
  (* the line without the white space at its ends *)
  assert (Hline : exists g1 g2,
             strip (indent ++ key ++ gap1 ++ String "=" (gap2 ++ value ++ trail))
             = ((key ++ g1) ++ String "=" (g2 ++ value))%string
             /\ forall_chars is_space g1 = true /\ forall_chars is_space g2 = true).
  { unfold strip. rewrite (lstrip_run _ _ Hindent).
    rewrite <- (append_assoc key gap1), (lstrip_before "=" _ eq_refl).
    rewrite (rstrip_after "=" _ eq_refl).
    rewrite <- (append_assoc gap2 value trail), (rstrip_run _ _ Htrail).
    assert (Hk : exists g1, lstrip (key ++ gap1) = (key ++ g1)%string
                            /\ forall_chars is_space g1 = true).
    { destruct (trimmed_cases _ Hkey) as [-> | (c & r & -> & Hc & _)].
      - exists EmptyString. cbn [String.append]. rewrite (lstrip_spaces _ Hgap1). auto.
      - exists gap1. cbn [String.append lstrip]. rewrite Hc. auto. }
    assert (Hv : exists g2, rstrip (gap2 ++ value) = (g2 ++ value)%string
                            /\ forall_chars is_space g2 = true).
    { destruct (trimmed_cases _ Hvalue) as [-> | (c & r & -> & Hc & Hr)].
      - exists EmptyString. pose proof (rstrip_run EmptyString gap2 Hgap2) as E.
        cbn [String.append rstrip] in E. rewrite append_nil_r, E. auto.
      - exists gap2. rewrite rstrip_append by (rewrite Hr; discriminate).
        rewrite Hr. auto. }
    destruct Hk as (g1 & -> & Hg1). destruct Hv as (g2 & -> & Hg2).
    exists g1, g2. auto. }
  destruct Hline as (g1 & g2 & Hline & Hg1 & Hg2).
  unfold load_kv_line. rewrite Hline.
  assert (Hfirst : forall mark : ascii,
             mark <> "="%char -> is_space mark = false ->
             starts_with (String mark EmptyString) key = false ->
             starts_with (String mark EmptyString)
                         ((key ++ g1) ++ String "=" (g2 ++ value)) = false).
  { intros mark Hm Hsp Hs. destruct key as [| c r].
    - cbn [String.append]. destruct g1 as [| a g1]; cbn [String.append starts_with].
      + destruct (Ascii.eqb_spec mark "="); [contradiction | reflexivity].
      + cbn [forall_chars] in Hg1. apply andb_true_iff in Hg1. destruct Hg1 as [Ha _].
        destruct (Ascii.eqb_spec mark a) as [<- | _]; [congruence | reflexivity].
    - cbn [String.append starts_with] in *.
      destruct (Ascii.eqb mark c); [| reflexivity].
      cbn [andb] in *. destruct r; cbn in Hs; discriminate. }
  assert (Hne : String.eqb ((key ++ g1) ++ String "=" (g2 ++ value)) EmptyString = false).
  { destruct (key ++ g1)%string; reflexivity. }
  rewrite Hne, (Hfirst "#"%char), (Hfirst ";"%char)
    by (discriminate || reflexivity || assumption).
  cbn [orb]. rewrite contains_append. cbn [contains]. rewrite Ascii.eqb_refl.
  cbn [orb]. rewrite orb_true_r. cbn [negb].
  rewrite split_at_first_here
    by (rewrite contains_append, Heq, (contains_spaces _ Hg1); reflexivity).
  pose proof (strip_padded_trimmed EmptyString key g1 eq_refl Hg1 Hkey) as Ek.
  pose proof (strip_padded_trimmed g2 value EmptyString Hg2 eq_refl Hvalue) as Ev.
  cbn [String.append] in Ek. rewrite append_nil_r in Ev. rewrite Ek, Ev. reflexivity.
Qed.

Lemma load_kv_line_comment (data : dict string) (indent : string) (mark : ascii)
      (text : string) :
  well_formed (Comment indent mark text) = true ->
  load_kv_line data (text_of (Comment indent mark text)) = data.
Proof.
  cbn [well_formed text_of]. intros H.
  apply andb_true_iff in H. destruct H as [H _].
  apply andb_true_iff in H. destruct H as [Hindent Hmark].
  apply pad_is_space in Hindent.
  assert (Hsp : is_space mark = false).
  { apply orb_true_iff in Hmark.
    destruct Hmark as [E | E]; apply Ascii.eqb_eq in E; subst mark; reflexivity. }
  unfold load_kv_line, strip. rewrite (lstrip_run _ _ Hindent).
  cbn [lstrip]. rewrite Hsp.
  pose proof (rstrip_after mark text Hsp EmptyString) as E. cbn [String.append] in E.
  rewrite E. cbn [starts_with].
  rewrite (Ascii.eqb_sym "#" mark), (Ascii.eqb_sym ";" mark).
  replace (starts_with EmptyString (rstrip text)) with true by (destruct (rstrip text); reflexivity).
  rewrite !andb_true_r.
  change (String.eqb (String mark (rstrip text)) EmptyString) with false.
  cbn [orb]. rewrite Hmark. reflexivity.
Qed.

Lemma load_kv_line_other (data : dict string) (text : string) :
  well_formed (Other text) = true ->
  load_kv_line data (text_of (Other text)) = data.
Proof.
  cbn [well_formed text_of]. intros H.
  apply andb_true_iff in H. destruct H as [_ H]. apply negb_true_iff in H.
  unfold load_kv_line.
  assert (Hs : contains "=" (strip text) = false).
  { unfold strip. apply contains_rstrip, contains_lstrip. exact H. }
  rewrite Hs. cbn [negb].
  destruct (String.eqb (strip text) EmptyString || starts_with "#" (strip text)
            || starts_with ";" (strip text)); reflexivity.
Qed.

Lemma load_kv_line_well_formed (data : dict string) (l : line) :
  well_formed l = true ->
  load_kv_line data (text_of l)
  = match l with
    | Assign _ key _ _ value _ => dict_set data key value
    | _ => data
    end.
Proof.
  destruct l as [indent key gap1 gap2 value trail | indent mark text | text]; intros H.
  - exact (load_kv_line_assign data indent key gap1 gap2 value trail H).
  - exact (load_kv_line_comment data indent mark text H).
  - exact (load_kv_line_other data text H).
Qed.

Lemma text_of_one_line (l : line) : well_formed l = true -> one_line (text_of l) = true.
Proof.
  destruct l as [indent key gap1 gap2 value trail | indent mark text | text];
    cbn [well_formed text_of]; intros H.
  - repeat (apply andb_true_iff in H; destruct H as [H ?]).
    unfold one_line in *. rewrite !forall_chars_append. cbn [forall_chars].
    rewrite !forall_chars_append.
    repeat match goal with
           | [ Hp : pad _ = true |- _ ] => apply pad_is_one_line in Hp; unfold one_line in Hp
           end.
    repeat match goal with
           | [ Hp : forall_chars _ _ = true |- _ ] => rewrite Hp; clear Hp
           end.
    reflexivity.
  - apply andb_true_iff in H. destruct H as [H Ht].
    apply andb_true_iff in H. destruct H as [Hi Hm]. apply pad_is_one_line in Hi.
    unfold one_line in *. rewrite forall_chars_append, Hi. cbn [forall_chars].
    rewrite Ht, andb_true_r.
    apply orb_true_iff in Hm.
    destruct Hm as [E | E]; apply Ascii.eqb_eq in E; subst mark; reflexivity.
  - apply andb_true_iff in H. tauto.
Qed.

(** *** The lines of the file *)

Lemma splitlines_acc_line (l : string) :
  forall s cur : string,
    one_line l = true ->
    splitlines_acc (l ++ s) cur = splitlines_acc s (cur ++ l).
Proof.
  induction l as [| c l IH]; intros s cur H.
  - rewrite append_nil_r. reflexivity.
  - unfold one_line in H. cbn [forall_chars] in H. apply andb_true_iff in H.
    destruct H as [Hc Hl]. apply negb_true_iff in Hc.
    cbn [String.append splitlines_acc]. rewrite Hc.
    rewrite (IH _ _ Hl), append_assoc. reflexivity.
Qed.

Lemma splitlines_acc_eol (eol rest cur : string) :
  eol = lf \/ eol = crlf ->
  splitlines_acc (eol ++ rest) cur = cur :: splitlines_acc rest EmptyString.
Proof. intros [-> | ->]; reflexivity. Qed.

Lemma load_kv_line_empty (data : dict string) : load_kv_line data EmptyString = data.
Proof. reflexivity. Qed.

(** Reading the text of the file line by line is reading the lines it
    was put together from. *)
Lemma load_joined_lines (eol : string) (lines : list string) :
  eol = lf \/ eol = crlf ->
  forallb one_line lines = true ->
  forall data : dict string,
    fold_left load_kv_line (splitlines (join_lines eol lines)) data
    = fold_left load_kv_line lines data.
Proof.
  intros Heol. unfold splitlines.
  induction lines as [| x lines IH]; intros H data; [reflexivity |].
  cbn [forallb] in H. apply andb_true_iff in H. destruct H as [Hx Hrest].
  destruct lines as [| y lines].
  - cbn [join_lines]. rewrite <- (append_nil_r x) at 1.
    rewrite (splitlines_acc_line _ _ _ Hx). cbn [String.append splitlines_acc].
    destruct (String.eqb_spec x EmptyString) as [-> | _]; reflexivity.
  - change (join_lines eol (x :: y :: lines))
      with (x ++ eol ++ join_lines eol (y :: lines))%string.
    rewrite (splitlines_acc_line _ _ _ Hx), (splitlines_acc_eol _ _ _ Heol).
    cbn [String.append fold_left]. exact (IH Hrest _).
Qed.

Lemma load_lines_get (lines : list line) :
  forallb well_formed lines = true ->
  forall (data : dict string) (key : string),
    dict_get (fold_left load_kv_line (map text_of lines) data) key
    = match assigned lines key with
      | Some v => Some v
      | None => dict_get data key
      end.
Proof.
  induction lines as [| l lines IH]; intros H data key; [reflexivity |].
  cbn [forallb] in H. apply andb_true_iff in H. destruct H as [Hl Hrest].
  cbn [map fold_left assigned]. rewrite (IH Hrest), (load_kv_line_well_formed _ _ Hl).
  destruct (assigned lines key); [reflexivity |].
  destruct l as [indent k gap1 gap2 v trail | |]; [| reflexivity | reflexivity].
  rewrite dict_get_set. destruct (String.eqb k key); reflexivity.
Qed.

(** X29.  For a file whose lines are assignments, comments and lines
    without an equals sign, ended by line feeds or by carriage return
    and line feed, [load_kv_file] returns a dictionary that gives
    every key the value of its last assignment, without the white
    space around key and value, and has no other keys: comments, blank
    lines and lines without an equals sign add nothing.  The value
    may have equals signs and white space inside. *)
Theorem load_kv_file_reads_the_last_assignment :
  forall (eol : string) (lines : list line),
    eol = lf \/ eol = crlf ->
    forallb well_formed lines = true ->
    exists data,
      load_kv_file (Holds (join_lines eol (map text_of lines))) = Return data
      /\ forall key, dict_get data key = assigned lines key.
Proof.
  intros eol lines Heol H. eexists. split; [reflexivity |]. intros key.
  rewrite load_joined_lines; [| exact Heol |].
  - rewrite (load_lines_get _ H). destruct (assigned lines key); reflexivity.
  - clear Heol. induction lines as [| l lines IH]; [reflexivity |].
    cbn [forallb] in H. apply andb_true_iff in H. destruct H as [Hl Hrest].
    cbn [map forallb]. rewrite (text_of_one_line _ Hl), (IH Hrest). reflexivity.
Qed.

Lemma load_kv_file_reads_the_last_assignment_witness :
  exists data,
    load_kv_file
      (Holds (join_lines crlf
                ["# the console of the server";
                 "RCONPassword = old";
                 "";
                 "; RCONPassword=off";
                 "MsgCountdown= Restart in {seconds} seconds. ";
                 "no equals sign here";
                 "  RCONPassword=s3cret = x";
                 ""]%string))
    = Return data
    /\ dict_get data "RCONPassword" = Some "s3cret = x"%string
    /\ dict_get data "MsgCountdown" = Some "Restart in {seconds} seconds."%string
    /\ dict_get data "; RCONPassword" = None.
Proof.
  destruct (load_kv_file_reads_the_last_assignment
              crlf
              [Comment "" "#" " the console of the server";
               Assign "" "RCONPassword" " " " " "old" "";
               Other "";
               Comment "" ";" " RCONPassword=off";
               Assign "" "MsgCountdown" "" " " "Restart in {seconds} seconds." " ";
               Other "no equals sign here";
               Assign "  " "RCONPassword" "" "" "s3cret = x" "";
               Other ""]%string
              (or_intror eq_refl) eq_refl) as (data & Hdata & Hget).
  exists data. split; [exact Hdata |].
  rewrite !Hget. repeat split.
Defined.

(** *** Dictionaries put on top of one another *)

Lemma in_keys_dict_set {V} (d : dict V) (key x : string) (v : V) :
  In x (map fst (dict_set d key v)) -> x = key \/ In x (map fst d).
Proof.
  induction d as [| [k0 v0] d IH]; cbn [dict_set map fst In].
  - intros [<- | []]. left. reflexivity.
  - destruct (String.eqb k0 key); cbn [map fst In]; [tauto |].
    intros [H | H]; [tauto |]. destruct (IH H); tauto.
Qed.

Lemma dict_set_nodup {V} (d : dict V) (key : string) (v : V) :
  NoDup (map fst d) -> NoDup (map fst (dict_set d key v)).
Proof.
  induction d as [| [k0 v0] d IH]; cbn [dict_set map fst]; intros H.
  - constructor; [intros [] | constructor].
  - inversion H as [| ? ? Hnot Hd]; subst.
    destruct (String.eqb_spec k0 key) as [-> | Hne]; cbn [map fst]; [exact H |].
    constructor; [| exact (IH Hd)].
    intros Hin. destruct (in_keys_dict_set _ _ _ _ Hin); [congruence | contradiction].
Qed.

Lemma dict_get_none {V} (d : dict V) (key : string) :
  ~ In key (map fst d) -> dict_get d key = None.
Proof.
  induction d as [| [k0 v0] d IH]; cbn [dict_get map fst In]; intros H; [reflexivity |].
  destruct (String.eqb_spec k0 key) as [-> | _]; [tauto |]. apply IH. tauto.
Qed.

Lemma update_nodup {V} (other : dict V) :
  forall data : dict V, NoDup (map fst data) -> NoDup (map fst (update data other)).
Proof.
  unfold update. induction other as [| [k v] other IH]; intros data H; [exact H |].
  cbn [fold_left fst snd]. apply IH, dict_set_nodup, H.
Qed.

Lemma dict_get_update {V} (other : dict V) :
  NoDup (map fst other) ->
  forall (data : dict V) (key : string),
    dict_get (update data other) key
    = match dict_get other key with
      | Some v => Some v
      | None => dict_get data key
      end.
Proof.
  unfold update. induction other as [| [k v] other IH]; intros H data key; [reflexivity |].
  cbn [map fst] in H. inversion H as [| ? ? Hnot Hother]; subst.
  cbn [fold_left fst snd dict_get]. rewrite (IH Hother), dict_get_set.
  destruct (String.eqb_spec k key) as [-> | _]; [| reflexivity].
  rewrite (dict_get_none _ _ Hnot). reflexivity.
Qed.

Lemma load_lines_nodup (lines : list string) :
  forall data : dict string,
    NoDup (map fst data) -> NoDup (map fst (fold_left load_kv_line lines data)).
Proof.
  induction lines as [| l lines IH]; intros data H; [exact H |].
  cbn [fold_left]. apply IH. unfold load_kv_line.
  destruct (String.eqb (strip l) EmptyString || starts_with "#" (strip l)
            || starts_with ";" (strip l)); [exact H |].
  destruct (negb (contains "=" (strip l))); [exact H |].
  destruct (split_at_first "=" (strip l)) as [key value].
  apply dict_set_nodup, H.
Qed.

Lemma given_overrides_get (overrides : dict (option string)) (key : string) :
  NoDup (map fst (given_overrides overrides))
  /\ dict_get (given_overrides overrides) key = given overrides key.
Proof.
  unfold given_overrides.
  set (step := fun (acc : dict string) (kv : string * option string) =>
                 match snd kv with
                 | Some v => dict_set acc (fst kv) v
                 | None => acc
                 end).
  assert (H : forall acc : dict string,
             NoDup (map fst acc) ->
             NoDup (map fst (fold_left step overrides acc))
             /\ dict_get (fold_left step overrides acc) key
                = match given overrides key with
                  | Some s => Some s
                  | None => dict_get acc key
                  end).
  { induction overrides as [| [k v] overrides IH]; intros acc Hacc; [auto |].
    cbn [fold_left given].
    assert (Hstep : NoDup (map fst (step acc (k, v)))).
    { unfold step. cbn [fst snd]. destruct v; [apply dict_set_nodup |]; exact Hacc. }
    destruct (IH _ Hstep) as [Hn Hg]. split; [exact Hn |]. rewrite Hg.
    destruct (given overrides key); [reflexivity |].
    unfold step. cbn [fst snd]. destruct v as [v |].
    - rewrite dict_get_set. destruct (String.eqb k key); reflexivity.
    - destruct (String.eqb k key); reflexivity. }
  destruct (H [] (NoDup_nil _)) as [Hn Hg]. split; [exact Hn |].
  rewrite Hg. destruct (given overrides key); reflexivity.
Qed.

Lemma load_made_of (f : file) (lines : list line) :
  made_of f lines ->
  exists data,
    load_kv_file f = Return data
    /\ NoDup (map fst data)
    /\ forall key, dict_get data key = assigned lines key.
Proof.
  intros [[-> ->] | (eol & Heol & -> & H)].
  - exists []. repeat split. constructor.
  - eexists. split; [reflexivity |]. split.
    + apply load_lines_nodup. constructor.
    + intros key. rewrite load_joined_lines; [| exact Heol |].
      * rewrite (load_lines_get _ H). destruct (assigned lines key); reflexivity.
      * clear Heol. induction lines as [| l lines IH]; [reflexivity |].
        cbn [forallb] in H. apply andb_true_iff in H. destruct H as [Hl Hrest].
        cbn [map forallb]. rewrite (text_of_one_line _ Hl), (IH Hrest). reflexivity.
Qed.

Section Settings.

Variable path : Type.
Variable Path : string -> path.
Variable is_absolute : path -> bool.
Variable joinpath : path -> path -> path.
Variable resolve : path -> path.
Variable parent : path -> path.
Variable int : string -> option Z.
Variable float_t : Type.
Variable float : string -> option float_t.
Variable float_5 : float_t.

(** X30.  When the configuration file and the rcon file are made of
    assignments, comments and lines without an equals sign (or are
    missing), [load_config] returns, and every setting has the value
    the overrides give it, else the value of its last assignment in
    the configuration file, else the value of its last assignment in
    the rcon file, else its default; a number that [int] refuses gives
    way to the default as well.  Relative paths are resolved against
    the directory of the resolved configuration file. *)
Theorem load_config_takes_each_setting_from_its_nearest_source :
  forall (disk : path -> file) (config_path : path) (rcon_path : option path)
         (overrides : option (dict (option string)))
         (config rcon : list line),
    made_of (disk (resolve config_path)) config ->
    match rcon_path with
    | Some p => made_of (disk p) rcon
    | None => rcon = []
    end ->
    load_config path Path is_absolute joinpath resolve parent int float_t float float_5
                disk config_path rcon_path overrides
    = Return (settings_of path Path is_absolute joinpath resolve int float_t float float_5
                          (setting overrides config rcon)
                          (parent (resolve config_path))).
Proof.
  intros disk config_path rcon_path overrides config rcon Hconfig Hrcon.
  destruct (load_made_of _ _ Hconfig) as (dc & Hdc & Hnc & Hgc).
  unfold load_config. cbv zeta.
  match goal with
  | |- and_then ?first _ = _ =>
      assert (Hfirst : exists dr,
                 first = Return dr /\ forall key, dict_get dr key = assigned rcon key)
  end.
  { destruct rcon_path as [p |].
    - destruct (load_made_of _ _ Hrcon) as (dr & Hdr & Hnr & Hgr).
      exists (update [] dr). rewrite Hdr. split; [reflexivity |].
      intros key. rewrite (dict_get_update _ Hnr), Hgr.
      destruct (assigned rcon key); reflexivity.
    - subst rcon. exists []. auto. }
  destruct Hfirst as (dr & Hdr & Hgr).
  rewrite Hdr. cbn [and_then]. rewrite Hdc. cbn [and_then].
  match goal with
  | |- context [get_or ?d "IniPath"] => set (data := d)
  end.
  assert (Hget : forall key, dict_get data key = setting overrides config rcon key).
  { intros key. unfold setting.
    assert (Hbase : dict_get (update dr dc) key
                    = match assigned config key with
                      | Some v => Some v
                      | None => assigned rcon key
                      end).
    { rewrite (dict_get_update _ Hnc), Hgc, Hgr. reflexivity. }
    subst data. destruct overrides as [[| kv o] |]; [exact Hbase | | exact Hbase].
    destruct (given_overrides_get (kv :: o) key) as [Hn Hg].
    rewrite (dict_get_update _ Hn), Hg, Hbase. reflexivity. }
  clearbody data.
  unfold settings_of, place, optional_place, text, number, get_or, _as_int, _as_float.
  rewrite !Hget. reflexivity.
Qed.

End Settings.

Lemma load_config_takes_each_setting_from_its_nearest_source_witness :
  let config :=
    join_lines crlf ["# the monitor"; "RestartDelaySec = 120"; "RCONPort=abc";
                     "RCONHost = 10.0.0.5"; ""]%string in
  let rcon :=
    join_lines lf ["RCONHost=localhost"; "RCONPassword = s3cret";
                   "RCONPort=27099"]%string in
  exists cfg,
    load_config string (fun s => s) (fun _ => true) String.append (fun p => p)
                (fun _ => EmptyString) decimal Z no_float 5
                (example_disk config rcon) "monitor.conf"%string
                (Some "rcon.conf"%string) None
    = Return cfg
    /\ rcon_host _ _ cfg = "10.0.0.5"%string
    /\ rcon_password _ _ cfg = "s3cret"%string
    /\ rcon_port _ _ cfg = 27015
    /\ restart_delay_sec _ _ cfg = 120
    /\ steam_branch _ _ cfg = "unstable"%string.
Proof.
  intros config rcon. eexists. split.
  - exact (load_config_takes_each_setting_from_its_nearest_source
             string (fun s => s) (fun _ => true) String.append (fun p => p)
             (fun _ => EmptyString) decimal Z no_float 5
             (example_disk config rcon) "monitor.conf"%string
             (Some "rcon.conf"%string) None
             [Comment "" "#" " the monitor";
              Assign "" "RestartDelaySec" " " " " "120" "";
              Assign "" "RCONPort" "" "" "abc" "";
              Assign "" "RCONHost" " " " " "10.0.0.5" "";
              Other ""]%string
             [Assign "" "RCONHost" "" "" "localhost" "";
              Assign "" "RCONPassword" " " " " "s3cret" "";
              Assign "" "RCONPort" "" "" "27099" ""]%string
             (or_intror (ex_intro _ crlf (conj (or_intror eq_refl) (conj eq_refl eq_refl))))
             (or_intror (ex_intro _ lf (conj (or_introl eq_refl) (conj eq_refl eq_refl))))).
  - repeat split.
Defined.

End ConfigFacts.
